(** * Session watcher: log lines to display tree

    A shallow embedding of [server/src/session-watcher.ts] (class
    [SessionWatcher]) and of the type guards of [shared/src/index.ts].

    Conventions of the embedding.
    - A JavaScript string is a [string]; one [ascii] stands for one code unit.
    - A timestamp is what [new Date(ts).getTime()] gives for it: a number of
      milliseconds, or NaN when the text does not parse ([Time]).  The source
      only ever looks at a timestamp through that call.
    - [Array.prototype.sort] is the engine's.  With a comparison function
      that is consistent on the array the result is the one ECMAScript fixes
      (sorted, equal elements in their order).  Otherwise the order is
      implementation-defined: the engine's choice is a parameter ([Runtime]),
      of which only that it permutes the array is known.
    - Every node object lives in the registry ([this.nodes]).  A reference to a
      node object is its immutable part (a [ConversationNode]); the mutable
      [children] array of the object is stored next to it in the registry and
      is read and written through the node's [id], which identifies the object
      because the registry is keyed by it.
    - The runtime's JSON codec and regular-expression engine are parameters
      ([Runtime]); the two simple command patterns are written out. *)

From Stdlib Require Import List String Ascii ZArith Bool Lia Arith.
From Stdlib Require Import DecimalString Permutation Sorted FinFun.
Import ListNotations.

Set Warnings "-register-all".
Local Open Scope string_scope.
Local Open Scope list_scope.

Infix "+++" := String.append (at level 60, right associativity).

(** ** Strings as the source uses them *)

Module Str.

(** The double quote, as a one-character string. *)
Definition dq : string := String "034"%char EmptyString.
(** The line feed. *)
Definition lf : ascii := "010"%char.

(** [WhiteSpace] and [LineTerminator] code units below 256: what [trim] strips. *)
Definition isWhite (c : ascii) : bool :=
  let n := nat_of_ascii c in
  ((9 <=? n)%nat && (n <=? 13)%nat) || (n =? 32)%nat || (n =? 160)%nat.

Fixpoint trimStart (s : string) : string :=
  match s with
  | String c r => if isWhite c then trimStart r else s
  | EmptyString => EmptyString
  end.

Fixpoint trimEnd (s : string) : string :=
  match s with
  | String c r =>
      match trimEnd r with
      | EmptyString => if isWhite c then EmptyString else String c EmptyString
      | r' => String c r'
      end
  | EmptyString => EmptyString
  end.

Definition trim (s : string) : string := trimEnd (trimStart s).

(** A string is truthy when it is not empty. *)
Definition nonEmpty (s : string) : bool :=
  match s with EmptyString => false | _ => true end.

Definition startsWith (s p : string) : bool := String.prefix p s.

Fixpoint rev_onto (s acc : string) : string :=
  match s with
  | EmptyString => acc
  | String c r => rev_onto r (String c acc)
  end.

Definition rev (s : string) : string := rev_onto s EmptyString.

Definition endsWith (s p : string) : bool := String.prefix (rev p) (rev s).

Fixpoint includes (s p : string) : bool :=
  String.prefix p s ||
  match s with
  | EmptyString => false
  | String _ r => includes r p
  end.

(** [s.slice(0, e)]: a negative [e] counts from the end. *)
Definition slice0 (s : string) (e : Z) : string :=
  let len := Z.of_nat (String.length s) in
  let e' := if (e <? 0)%Z then Z.max (len + e) 0 else Z.min e len in
  substring 0 (Z.to_nat e') s.

(** [s.split('\n')]. *)
Fixpoint split_lf (s : string) : list string :=
  match s with
  | EmptyString => [EmptyString]
  | String c r =>
      if Ascii.eqb c lf then EmptyString :: split_lf r
      else match split_lf r with
           | l :: ls => String c l :: ls
           | [] => [String c EmptyString]
           end
  end.

(** [s.replace(/\n/g, ' ')]. *)
Fixpoint replace_lf_space (s : string) : string :=
  match s with
  | EmptyString => EmptyString
  | String c r => String (if Ascii.eqb c lf then " "%char else c) (replace_lf_space r)
  end.

(** The longest prefix of [s] without ["<"], and what follows it. *)
Fixpoint span_not_lt (s : string) : string * string :=
  match s with
  | EmptyString => (EmptyString, EmptyString)
  | String c r =>
      if Ascii.eqb c "<"%char then (EmptyString, s)
      else let '(a, b) := span_not_lt r in (String c a, b)
  end.

Fixpoint drop (n : nat) (s : string) : string :=
  match n, s with
  | S n', String _ r => drop n' r
  | _, _ => s
  end.

(** First match in [s] of the pattern: [opening], then a run of characters
    other than the less-than sign (one or more when [plus], else zero or
    more), then [closing]; the result is the run (the capture group).  At a
    start position the run is the longest one: a shorter run is followed by a
    character that is not a less-than sign, so [closing] cannot match after
    it. *)
Fixpoint match_tagged (plus : bool) (opening closing : string) (s : string) : option string :=
  let here :=
    if String.prefix opening s then
      let '(body, rest) := span_not_lt (drop (String.length opening) s) in
      if (negb plus || nonEmpty body) && String.prefix closing rest then Some body else None
    else None in
  match here with
  | Some b => Some b
  | None => match s with
            | EmptyString => None
            | String _ r => match_tagged plus opening closing r
            end
  end.

Definition of_Z (z : Z) : string := NilZero.string_of_int (Z.to_int z).

Fixpoint join (sep : string) (l : list string) : string :=
  match l with
  | [] => EmptyString
  | [x] => x
  | x :: r => x +++ sep +++ join sep r
  end.

End Str.

(** ** JSON values *)

(** What [JSON.parse] returns.  Numbers are integers here; an object keeps its
    members in order. *)
Inductive JSON : Type :=
| JNull
| JBool (b : bool)
| JNum (n : Z)
| JStr (s : string)
| JArr (items : list JSON)
| JObj (members : list (string * JSON)).

(** [v.k]: [None] is [undefined]. *)
Definition member (k : string) (v : JSON) : option JSON :=
  match v with
  | JObj ms =>
      match find (fun kv => String.eqb (fst kv) k) ms with
      | Some kv => Some (snd kv)
      | None => None
      end
  | _ => None
  end.

(** [ToBoolean]. *)
Definition truthy (v : option JSON) : bool :=
  match v with
  | None | Some JNull => false
  | Some (JBool b) => b
  | Some (JNum n) => negb (n =? 0)%Z
  | Some (JStr s) => Str.nonEmpty s
  | Some (JArr _) | Some (JObj _) => true
  end.

(** [a || b] on values. *)
Definition orElse (a : option JSON) (b : JSON) : JSON :=
  match a with
  | Some v => if truthy a then v else b
  | None => b
  end.

(** [String(v)], also what a template literal inserts. *)
Fixpoint String_ (v : JSON) : string :=
  match v with
  | JNull => "null"
  | JBool true => "true"
  | JBool false => "false"
  | JNum n => Str.of_Z n
  | JStr s => s
  | JArr items =>
      Str.join "," (map (fun x => match x with JNull => EmptyString | _ => String_ x end) items)
  | JObj _ => "[object Object]"
  end.

Definition String_opt (v : option JSON) : string :=
  match v with
  | Some x => String_ x
  | None => "undefined"
  end.

(** ** Log records and nodes ([shared/src/index.ts]) *)

Inductive ContentBlock : Type :=
| ThinkingBlock (thinking : string)
| TextBlock (text : string)
| ToolUseBlock (id name : string) (input : list (string * JSON))
| ToolResultContent (tool_use_id : string) (content : string) (is_error : bool).

Record ToolUseResult : Type := mkToolUseResult {
  stdout : option JSON;
  stderr : option JSON;
  exitCode : option Z
}.

(** [new Date(ts).getTime()]: the milliseconds since the epoch, or NaN when
    [ts] does not parse. *)
Inductive Time : Type :=
| Ms (ms : Z)
| NaN.

(** [a < b] on such numbers: false when either is NaN. *)
Definition Time_lt (a b : Time) : bool :=
  match a, b with
  | Ms x, Ms y => (x <? y)%Z
  | _, _ => false
  end.

(** [a < Infinity]. *)
Definition Time_finite (a : Time) : bool :=
  match a with Ms _ => true | NaN => false end.

Module Entry.
(** [BaseMessageEntry], the fields the watcher reads. *)
Record Base : Type := mk {
  parentUuid : option string;
  uuid : string;
  timestamp : Time
}.
End Entry.

(** [ConversationEntry], as [JSON.parse] hands a line to [processLine].  The
    watcher trusts the base fields and the assistant's blocks and inspects a
    user message's [content] at run time, so that one stays a [JSON] value.
    [OtherEntry] is any other parsed value, with the two fields [hashLine]
    looks at. *)
Inductive ConversationEntry : Type :=
| UserMessageEntry (base : Entry.Base) (content : JSON)
| AssistantMessageEntry (base : Entry.Base) (content : option (list ContentBlock))
    (toolUseResult : option ToolUseResult)
| FileHistorySnapshot (messageId : string)
| OtherEntry (uuid messageId : option string).

Definition isUserMessage (e : ConversationEntry) : bool :=
  match e with UserMessageEntry _ _ => true | _ => false end.
Definition isAssistantMessage (e : ConversationEntry) : bool :=
  match e with AssistantMessageEntry _ _ _ => true | _ => false end.
Definition isFileHistorySnapshot (e : ConversationEntry) : bool :=
  match e with FileHistorySnapshot _ => true | _ => false end.
Definition isThinkingBlock (b : ContentBlock) : bool :=
  match b with ThinkingBlock _ => true | _ => false end.
Definition isTextBlock (b : ContentBlock) : bool :=
  match b with TextBlock _ => true | _ => false end.
Definition isToolUseBlock (b : ContentBlock) : bool :=
  match b with ToolUseBlock _ _ _ => true | _ => false end.

Inductive NodeType : Type :=
| user | assistant | thinking | tool_call | tool_result
| agent | skill | command | system.

Definition NodeType_eqb (a b : NodeType) : bool :=
  match a, b with
  | user, user | assistant, assistant | thinking, thinking
  | tool_call, tool_call | tool_result, tool_result | agent, agent
  | skill, skill | command, command | system, system => true
  | _, _ => false
  end.

(** A node's [content]: a string (user nodes), the block it came from
    (assistant nodes), or the value a tool result carried. *)
Inductive NodeContent : Type :=
| ContentText (s : string)
| ContentOfBlock (b : ContentBlock)
| ContentValue (v : JSON).

(** [ConversationNode] without its [children] array, which the registry
    holds. *)
Record ConversationNode : Type := mkNode {
  id : string;
  parentId : option string;
  timestamp : Time;
  type : NodeType;
  summary : string;
  content : NodeContent;
  toolName : option string;
  toolInput : option (list (string * JSON));
  toolResult : option ToolUseResult;
  agentType : option string;
  skillName : option string;
  commandName : option string;
  raw : ConversationEntry
}.

(** The runtime the watcher calls into. *)
Record Runtime : Type := mkRuntime {
  (** [JSON.parse(line)], read as a [ConversationEntry]; [None] when it throws. *)
  JSON_parse_entry : string -> option ConversationEntry;
  (** [JSON.parse(text)]; [None] when it throws. *)
  JSON_parse : string -> option JSON;
  JSON_stringify : JSON -> string;
  (** The first capture group of [text.match] on the heading pattern (a line
      that starts with a hash sign, white space, then the title). *)
  match_heading : string -> option string;
  (** What [Array.prototype.sort] makes of an array of nodes on which the
      comparison by timestamp is not consistent (some timestamp is NaN and
      two nodes compare unequal): the order is the engine's own. *)
  Array_sort : list ConversationNode -> list ConversationNode;
  (** All that is known of it: the array holds the same objects. *)
  Array_sort_permutes : forall l, Permutation (Array_sort l) l
}.

(** The runtime at hand is found in the context. *)
Existing Class Runtime.

(** ** Record classification *)

Section Classifier.

Variable rt : Runtime.

Definition truncate (text : string) (maxLength : Z) : string :=
  if (Z.of_nat (String.length text) <=? maxLength)%Z then text
  else Str.slice0 text (maxLength - 3) +++ "...".

Record SystemInfo : Type := mkSystemInfo {
  isSystem : bool;
  sysSummary : string;
  skip : bool
}.

Definition caveat : string := "Caveat: The messages below were generated by the user".

Definition command_name_of (content : string) : string :=
  match Str.match_tagged true "<command-name>" "</command-name>" content with
  | Some n => n
  | None => "command"
  end.

Definition command_args_of (content : string) : string :=
  match Str.match_tagged false "<command-args>" "</command-args>" content with
  | Some a => a
  | None => EmptyString
  end.

(** The prefix the skill-prompt rule looks for: an array whose first member
    opens with a "type" key of value "text". *)
Definition skill_prefix : string :=
  "[{" +++ Str.dq +++ "type" +++ Str.dq +++ ":" +++ Str.dq +++ "text" +++ Str.dq.

(** What the [try] block of the skill-prompt rule returns; [None] when it
    throws or falls through. *)
Definition skill_prompt (content : string) : option SystemInfo :=
  match JSON_parse rt content with
  | Some (JArr (first :: _)) =>
      match member "type" first with
      | Some (JStr t) =>
          if negb (String.eqb t "text") then None else
          match orElse (member "text" first) (JStr EmptyString) with
          | JStr text =>
              if Str.includes text caveat then Some (mkSystemInfo true EmptyString true)
              else
                let firstLine :=
                  match find (fun l => Str.nonEmpty (Str.trim l) && negb (Str.startsWith l "#"))
                             (Str.split_lf text) with
                  | Some l => Str.trim l
                  | None => "Skill prompt"
                  end in
                let title :=
                  match match_heading rt text with
                  | Some t => if Str.nonEmpty t then t else firstLine
                  | None => firstLine
                  end in
                Some (mkSystemInfo true ("Skill: " +++ truncate title 60) false)
          | JArr items =>
              (* Array.prototype.includes; then text.split throws *)
              if existsb (fun x => match x with JStr s => String.eqb s caveat | _ => false end) items
              then Some (mkSystemInfo true EmptyString true)
              else None
          | _ => None (* text.includes throws *)
          end
      | _ => None
      end
  | _ => None
  end.

Definition detectSystemMessage (content : string) : SystemInfo :=
  if Str.includes content "<command-name>" && Str.includes content "<command-message>" then
    mkSystemInfo true ("Command: " +++ command_name_of content) false
  else if Str.includes content "<local-command-stdout>" then
    mkSystemInfo true EmptyString true
  else if Str.includes content "<command-message>" && Str.includes content "is running" then
    let cmdName := command_name_of content in
    let args := command_args_of content in
    mkSystemInfo true
      ("Running: " +++ cmdName +++ (if Str.nonEmpty args then " " +++ args else EmptyString)) false
  else
    match (if Str.startsWith content skill_prefix then skill_prompt content else None) with
    | Some info => info
    | None =>
        if Str.includes content caveat then mkSystemInfo true EmptyString true
        else mkSystemInfo false EmptyString false
    end.

Definition getToolResultSummary (content : JSON) (isError : bool) : string :=
  let contentStr := match content with JStr s => s | _ => JSON_stringify rt content end in
  if isError then "Error: " +++ truncate contentStr 80
  else
    let lines := filter (fun l => Str.nonEmpty (Str.trim l)) (Str.split_lf contentStr) in
    if (3 <? List.length lines)%nat then
      Str.of_Z (Z.of_nat (List.length lines)) +++ " lines of output"
    else truncate (Str.replace_lf_space contentStr) 100.

(** The template literal's rendering of [entry.parentUuid]. *)
Definition parentUuid_text (b : Entry.Base) : string :=
  match Entry.parentUuid b with Some p => p | None => "null" end.

(** [firstItem && typeof firstItem === 'object' && 'type' in firstItem &&
    firstItem.type === 'tool_result']. *)
Definition isToolResultItem (firstItem : JSON) : bool :=
  match firstItem with
  | JObj _ =>
      match member "type" firstItem with
      | Some (JStr t) => String.eqb t "tool_result"
      | _ => false
      end
  | _ => false
  end.

(** The node of a tool-result response, built from the array's first item. *)
Definition toolResultNode (entry : ConversationEntry) (b : Entry.Base) (firstItem : JSON)
  : ConversationNode :=
  let resultContent := orElse (member "content" firstItem) (JStr EmptyString) in
  let isError := truthy (member "is_error" firstItem) in
  let summary := getToolResultSummary resultContent isError in
  let toolNodeId :=
    parentUuid_text b +++ "-tool-" +++ String_opt (member "tool_use_id" firstItem) in
  mkNode (Entry.uuid b) (Some toolNodeId) (Entry.timestamp b) tool_result
    summary (ContentValue resultContent) None None
    (Some (mkToolUseResult (if isError then None else Some resultContent)
                           (if isError then Some resultContent else None)
                           None))
    None None None entry.

(** The regular user message: a user or system node, or nothing. *)
Definition regularUserNode (entry : ConversationEntry) (b : Entry.Base) (messageContent : JSON)
  : option ConversationNode :=
  let content :=
    match messageContent with
    | JStr s => s
    | _ => JSON_stringify rt messageContent
    end in
  let systemInfo := detectSystemMessage content in
  if skip systemInfo then None
  else Some (mkNode (Entry.uuid b) (Entry.parentUuid b) (Entry.timestamp b)
               (if isSystem systemInfo then system else user)
               (if isSystem systemInfo then sysSummary systemInfo else truncate content 100)
               (ContentText content) None None None None None None entry).

Definition createUserNode (entry : ConversationEntry) : option ConversationNode :=
  match entry with
  | UserMessageEntry b messageContent =>
      match messageContent with
      | JArr (firstItem :: _) =>
          if isToolResultItem firstItem then Some (toolResultNode entry b firstItem)
          else regularUserNode entry b messageContent
      | _ => regularUserNode entry b messageContent
      end
  | _ => None
  end.

(** [String(input.k || d)]. *)
Definition input_text (input : list (string * JSON)) (k : string) (d : string) : string :=
  String_ (orElse (member k (JObj input)) (JStr d)).

Definition getToolSummary (name : string) (input : list (string * JSON)) : string :=
  if String.eqb name "Bash" then truncate (input_text input "command" EmptyString) 60
  else if String.eqb name "Read" then truncate (input_text input "file_path" EmptyString) 60
  else if String.eqb name "Write" then truncate (input_text input "file_path" EmptyString) 60
  else if String.eqb name "Edit" then truncate (input_text input "file_path" EmptyString) 60
  else if String.eqb name "Glob" then truncate (input_text input "pattern" EmptyString) 60
  else if String.eqb name "Grep" then truncate (input_text input "pattern" EmptyString) 60
  else if String.eqb name "Task" then
    truncate (String_ (orElse (member "description" (JObj input))
                         (orElse (member "prompt" (JObj input)) (JStr EmptyString)))) 60
  else if String.eqb name "TodoWrite" then "Updating todo list"
  else truncate (JSON_stringify rt (JObj input)) 60.

Definition createToolNode (entry : ConversationEntry) (b : Entry.Base)
    (toolUseResult : option ToolUseResult)
    (blockId name : string) (input : list (string * JSON)) : ConversationNode :=
  let block := ToolUseBlock blockId name input in
  let nodeId := Entry.uuid b +++ "-tool-" +++ blockId in
  if String.eqb name "Task" then
    let agentType := input_text input "subagent_type" "unknown" in
    let description :=
      String_ (orElse (member "description" (JObj input))
                 (orElse (member "prompt" (JObj input)) (JStr EmptyString))) in
    mkNode nodeId (Entry.parentUuid b) (Entry.timestamp b) agent
      (truncate description 80) (ContentOfBlock block) (Some name) (Some input)
      toolUseResult (Some agentType) None None entry
  else if String.eqb name "Skill" then
    let skillName := input_text input "skill" "unknown" in
    mkNode nodeId (Entry.parentUuid b) (Entry.timestamp b) skill
      skillName (ContentOfBlock block) (Some name) (Some input)
      None None (Some skillName) None entry
  else if String.eqb name "SlashCommand" then
    let cmd := input_text input "command" "unknown" in
    mkNode nodeId (Entry.parentUuid b) (Entry.timestamp b) command
      cmd (ContentOfBlock block) (Some name) (Some input)
      None None None (Some cmd) entry
  else
    mkNode nodeId (Entry.parentUuid b) (Entry.timestamp b) tool_call
      (name +++ ": " +++ getToolSummary name input) (ContentOfBlock block) (Some name) (Some input)
      toolUseResult None None None entry.

(** The node one block of an assistant record pushes, if any. *)
Definition assistantNode (entry : ConversationEntry) (b : Entry.Base)
    (toolUseResult : option ToolUseResult) (block : ContentBlock) : list ConversationNode :=
  match block with
  | ThinkingBlock th =>
      [mkNode (Entry.uuid b +++ "-thinking") (Entry.parentUuid b) (Entry.timestamp b) thinking
         (truncate th 100) (ContentOfBlock block) None None None None None None entry]
  | TextBlock tx =>
      [mkNode (Entry.uuid b +++ "-text") (Entry.parentUuid b) (Entry.timestamp b) assistant
         (truncate tx 100) (ContentOfBlock block) None None None None None None entry]
  | ToolUseBlock blockId name input =>
      [createToolNode entry b toolUseResult blockId name input]
  | ToolResultContent _ _ _ => []
  end.

Definition createAssistantNodes (entry : ConversationEntry) : list ConversationNode :=
  match entry with
  | AssistantMessageEntry b (Some blocks) tur =>
      flat_map (assistantNode entry b tur) blocks
  | _ => []
  end.

End Classifier.

(** ** The registry and the children arrays *)

(** [this.nodes]: a [Map] from id to node object, in insertion order.  An
    entry pairs the node with the current contents of its [children] array. *)
Definition Registry : Type := list (ConversationNode * list ConversationNode).

(** [a === b] on node objects of one registry. *)
Definition sameNode (a b : ConversationNode) : bool := String.eqb (id a) (id b).

Definition Map_has (nodes : Registry) (k : string) : bool :=
  existsb (fun e => String.eqb (id (fst e)) k) nodes.

(** [nodes.set(node.id, node)]: an existing key keeps its place; the object
    stored is the new one, whose [children] is empty. *)
Fixpoint Map_set (nodes : Registry) (node : ConversationNode) : Registry :=
  match nodes with
  | [] => [(node, [])]
  | e :: r => if sameNode (fst e) node then (node, []) :: r else e :: Map_set r node
  end.

(** [Array.from(nodes.values())]. *)
Definition Map_values (nodes : Registry) : list ConversationNode := map fst nodes.

(** [n.children], for the object whose id is [k]. *)
Definition getChildren (st : Registry) (k : string) : list ConversationNode :=
  match find (fun e => String.eqb (id (fst e)) k) st with
  | Some e => snd e
  | None => []
  end.

(** An update of the [children] array of the object whose id is [k]. *)
Definition updChildren (k : string) (f : list ConversationNode -> list ConversationNode)
    (st : Registry) : Registry :=
  map (fun e => if String.eqb (id (fst e)) k then (fst e, f (snd e)) else e) st.

(** [n.children = []]. *)
Definition resetChildren (n : ConversationNode) : Registry -> Registry :=
  updChildren (id n) (fun _ => []).

(** [p.children.push(c)], for the object [p] whose id is [k]. *)
Definition pushChild (k : string) (c : ConversationNode) : Registry -> Registry :=
  updChildren k (fun l => l ++ [c]).

(** [new Date(n.timestamp).getTime()] is a number. *)
Definition parses (n : ConversationNode) : bool := Time_finite (timestamp n).

(** The comparison function [sortByTimestamp] of the source, as a sort reads
    it: [new Date(a.timestamp).getTime() - new Date(b.timestamp).getTime()],
    a NaN counting as 0. *)
Definition byTimestamp (a b : ConversationNode) : Z :=
  match timestamp a, timestamp b with
  | Ms x, Ms y => (x - y)%Z
  | _, _ => 0%Z
  end.

(** The comparison is consistent on an array when every timestamp parses,
    or when it gives 0 on every pair. *)
Definition consistent (l : list ConversationNode) : bool :=
  forallb parses l ||
  forallb (fun a => forallb (fun b => (byTimestamp a b =? 0)%Z) l) l.

(** The sorted array ECMAScript fixes for a consistent comparison: the sort
    is stable, so it is the insertion sort that keeps nodes that compare
    equal in their order. *)
Fixpoint insertByTimestamp (x : ConversationNode) (l : list ConversationNode)
  : list ConversationNode :=
  match l with
  | [] => [x]
  | y :: r => if (byTimestamp x y <=? 0)%Z then x :: l else y :: insertByTimestamp x r
  end.

(** [l.sort(sortByTimestamp)]. *)
Definition sortByTimestamp {rt : Runtime} (l : list ConversationNode)
  : list ConversationNode :=
  if consistent l then fold_right insertByTimestamp [] l else Array_sort rt l.

(** [usedNodes], [processedLines]: a [Set] of strings. *)
Definition Set_has (s : list string) (k : string) : bool := existsb (String.eqb k) s.
Definition Set_add (s : list string) (k : string) : list string :=
  if Set_has s k then s else s ++ [k].

(** ** Tree reconstruction *)

(** The recursion of [flattenTree] follows [children] links; [fuel] bounds its
    depth.  With no fuel left a node is listed without its descendants. *)
Fixpoint flatten (fuel : nat) (st : Registry) (nodeList : list ConversationNode)
  : list ConversationNode :=
  match fuel with
  | O => nodeList
  | S f => flat_map (fun node => node :: flatten f st (getChildren st (id node))) nodeList
  end.

(** A chain of [children] links visits each object once, so the registry's
    size bounds the depth ([flatten_fuel_enough] below). *)
Definition flattenTree (st : Registry) (nodes : list ConversationNode) : list ConversationNode :=
  flatten (List.length st) st nodes.

Definition isTurnStarter (n : ConversationNode) : bool :=
  match type n with user | system => true | _ => false end.

Definition isToolFamily (n : ConversationNode) : bool :=
  match type n with tool_call | agent | skill | command => true | _ => false end.

Definition hasType (t : NodeType) (n : ConversationNode) : bool := NodeType_eqb (type n) t.

(** [r.parentId === tool.id]. *)
Definition parentIs (r tool : ConversationNode) : bool :=
  match parentId r with
  | Some p => String.eqb p (id tool)
  | None => false
  end.

Fixpoint last_opt {A : Type} (l : list A) : option A :=
  match l with
  | [] => None
  | [x] => Some x
  | _ :: r => last_opt r
  end.

(** The state the loops of [reorganizeForDisplay] thread: [usedNodes], the
    children arrays, [newRoots]. *)
Definition Reorg : Type := (list string * Registry * list ConversationNode)%type.

(** [for (const result of matchingResults)]: mark and hang under [owner]. *)
Definition attachResult (owner : ConversationNode) (s : list string * Registry)
    (result : ConversationNode) : list string * Registry :=
  let '(u, st) := s in
  (Set_add u (id result), pushChild (id owner) result st).

Definition attachResults (owner : ConversationNode) (toolResults : list ConversationNode)
    (used : list string) (st : Registry) : list string * Registry :=
  let matchingResults :=
    filter (fun r => parentIs r owner && negb (Set_has used (id r))) toolResults in
  fold_left (attachResult owner) matchingResults (used, st).

(** [for (const x of xs) if (!usedNodes.has(x.id)) { add; target.children.push(x) }]. *)
Definition attachOne (target : ConversationNode) (s : list string * Registry)
    (x : ConversationNode) : list string * Registry :=
  let '(u, st) := s in
  if Set_has u (id x) then s
  else (Set_add u (id x), pushChild (id target) x st).

Definition attachUnused (target : ConversationNode) (xs : list ConversationNode)
    (used : list string) (st : Registry) : list string * Registry :=
  fold_left (attachOne target) xs (used, st).

(** The body of [for (const tool of toolCalls)]. *)
Definition attachTool (aiTextResponse : ConversationNode) (toolResults : list ConversationNode)
    (s : list string * Registry) (tool : ConversationNode) : list string * Registry :=
  let '(u, st) := s in
  if Set_has u (id tool) then s
  else
    let u := Set_add u (id tool) in
    let '(u, st) := attachResults tool toolResults u st in
    (u, pushChild (id aiTextResponse) tool st).

(** The body of [for (const node of turnNodes)] in a turn with no assistant
    text. *)
Definition promote (toolResults : list ConversationNode) (s : Reorg)
    (node : ConversationNode) : Reorg :=
  let '(u, st, roots) := s in
  if negb (hasType tool_result node) && negb (Set_has u (id node)) then
    let u := Set_add u (id node) in
    let '(u, st) := attachResults node toolResults u st in
    (u, st, roots ++ [node])
  else s.

(** The filter that collects a turn's nodes: not the turn starter, not yet
    used, and strictly between this turn's start and the next one's (no next
    one: [Infinity]). *)
Definition inTurn (turnStart : ConversationNode) (nextTurnStart : option ConversationNode)
    (usedNodes : list string) (n : ConversationNode) : bool :=
  negb (sameNode n turnStart) &&
  negb (Set_has usedNodes (id n)) &&
  (Time_lt (timestamp turnStart) (timestamp n) &&
   match nextTurnStart with
   | Some nx => Time_lt (timestamp n) (timestamp nx)
   | None => Time_finite (timestamp n)
   end).

(** One iteration of the loop over [turnStarters]. *)
Definition turn {rt : Runtime} (allNodes : list ConversationNode)
    (turnStart : ConversationNode) (nextTurnStart : option ConversationNode)
    (s : Reorg) : Reorg :=
  let '(usedNodes, st, newRoots) := s in
  let usedNodes := Set_add usedNodes (id turnStart) in
  let turnNodes := filter (inTurn turnStart nextTurnStart usedNodes) allNodes in
  let newRoots := newRoots ++ [turnStart] in
  let aiTextResponses := filter (hasType assistant) turnNodes in
  match last_opt aiTextResponses with
  | Some aiTextResponse =>
      let usedNodes := Set_add usedNodes (id aiTextResponse) in
      let toolCalls := filter isToolFamily turnNodes in
      let toolResults := filter (hasType tool_result) turnNodes in
      let thinkingNodes := filter (hasType thinking) turnNodes in
      let otherAiResponses :=
        filter (fun n => negb (sameNode n aiTextResponse)) aiTextResponses in
      let '(usedNodes, st) := attachUnused aiTextResponse thinkingNodes usedNodes st in
      let '(usedNodes, st) :=
        fold_left (attachTool aiTextResponse toolResults) toolCalls (usedNodes, st) in
      let '(usedNodes, st) := attachUnused aiTextResponse otherAiResponses usedNodes st in
      let st := updChildren (id aiTextResponse) sortByTimestamp st in
      (usedNodes, st, newRoots ++ [aiTextResponse])
  | None =>
      match turnNodes with
      | [] => (usedNodes, st, newRoots)
      | _ =>
          let toolResults := filter (hasType tool_result) turnNodes in
          fold_left (promote toolResults) turnNodes (usedNodes, st, newRoots)
      end
  end.

(** [for (let i = 0; i < turnStarters.length; i++)], with
    [turnStarters[i + 1]] the head of what is left. *)
Fixpoint turns {rt : Runtime} (allNodes : list ConversationNode) (turnStarters : list ConversationNode)
    (s : Reorg) : Reorg :=
  match turnStarters with
  | [] => s
  | turnStart :: rest => turns allNodes rest (turn allNodes turnStart (hd_error rest) s)
  end.

Definition reorganizeForDisplay {rt : Runtime} (st : Registry) (rootNodes : list ConversationNode)
  : Registry * list ConversationNode :=
  let allNodes := flattenTree st rootNodes in
  match allNodes with
  | [] => (st, rootNodes)
  | _ =>
      let st := fold_left (fun s node => resetChildren node s) allNodes st in
      let allNodes := sortByTimestamp allNodes in
      let turnStarters := filter isTurnStarter allNodes in
      match turnStarters with
      | [] => (st, rootNodes)
      | _ =>
          let '(_, st, newRoots) := turns allNodes turnStarters ([], st, []) in
          (st, newRoots)
      end
  end.

(** The first half of [buildTree]: children reset, every node hung under its
    declared parent or made a root, roots and children sorted. *)
Definition linkNode (nodes : Registry) (s : Registry * list ConversationNode)
    (node : ConversationNode) : Registry * list ConversationNode :=
  let '(st, rootNodes) := s in
  match parentId node with
  | Some p =>
      if Str.nonEmpty p && Map_has nodes p then (pushChild p node st, rootNodes)
      else (st, rootNodes ++ [node])
  | None => (st, rootNodes ++ [node])
  end.

Definition rawLinkage {rt : Runtime} (nodes : Registry) : Registry * list ConversationNode :=
  let nodeArray := Map_values nodes in
  let st := fold_left (fun s node => resetChildren node s) nodeArray nodes in
  let '(st, rootNodes) := fold_left (linkNode nodes) nodeArray (st, []) in
  let rootNodes := sortByTimestamp rootNodes in
  let st := fold_left (fun s node => updChildren (id node) sortByTimestamp s) nodeArray st in
  (st, rootNodes).

Definition buildTree {rt : Runtime} (nodes : Registry) : Registry * list ConversationNode :=
  let '(st, rootNodes) := rawLinkage nodes in
  reorganizeForDisplay st rootNodes.

(** ** What a consumer sees *)

(** The array [buildTree] returns holds live node objects; a listener
    serializes it ([JSON.stringify]) and so reads each node with the
    children below it.  [Tree] is that reading. *)
Inductive Tree : Type :=
| TNode (node : ConversationNode) (kids : list Tree).

Fixpoint unfold (fuel : nat) (st : Registry) (n : ConversationNode) : Tree :=
  match fuel with
  | O => TNode n []
  | S f => TNode n (map (unfold f st) (getChildren st (id n)))
  end.

Definition snapshot (st : Registry) (roots : list ConversationNode) : list Tree :=
  map (unfold (List.length st) st) roots.

Fixpoint tree_nodes (t : Tree) : list ConversationNode :=
  match t with
  | TNode n kids => n :: flat_map tree_nodes kids
  end.

Definition forest_nodes (ts : list Tree) : list ConversationNode := flat_map tree_nodes ts.

Definition root_of (t : Tree) : ConversationNode := match t with TNode n _ => n end.
Definition kids_of (t : Tree) : list Tree := match t with TNode _ k => k end.

(** ** The line tracker *)

Record SessionWatcher : Type := mkWatcher {
  nodes : Registry;
  lastLineCount : nat;
  processedLines : list string
}.

(** A freshly constructed watcher; also the state [stop] leaves. *)
Definition initial : SessionWatcher := mkWatcher [] 0 [].

Definition stop (w : SessionWatcher) : SessionWatcher := initial.

(** [getNodes]: the rebuild writes the children arrays of the registry's
    objects; the result is read as a listener does. *)
Definition getNodes {rt : Runtime} (w : SessionWatcher) : SessionWatcher * list Tree :=
  let '(st, roots) := buildTree (nodes w) in
  (mkWatcher st (lastLineCount w) (processedLines w), snapshot st roots).

(** [hash & hash]: the operand as a 32-bit signed integer. *)
Definition toInt32 (z : Z) : Z := ((z + 2147483648) mod 4294967296 - 2147483648)%Z.

(** The fallback of [hashLine]: [hash = ((hash << 5) - hash) + char; hash = hash & hash]. *)
Fixpoint stringHash (line : string) (hash : Z) : Z :=
  match line with
  | EmptyString => hash
  | String c r =>
      stringHash r (toInt32 (toInt32 (hash * 32) - hash + Z.of_nat (nat_of_ascii c)))
  end.

Section Tracker.

Variable rt : Runtime.

Definition isValidJsonLine (line : string) : bool :=
  let trimmed := Str.trim line in
  if negb (Str.nonEmpty trimmed) then false
  else if negb (Str.startsWith trimmed "{") || negb (Str.endsWith trimmed "}") then false
  else match JSON_parse_entry rt trimmed with
       | Some _ => true
       | None => false
       end.

Definition hashLine (line : string) : string :=
  let fallback := "hash-" +++ Str.of_Z (stringHash line 0) in
  let snapshotOr (messageId : option string) :=
    match messageId with
    | Some m => if Str.nonEmpty m then "snapshot-" +++ m else fallback
    | None => fallback
    end in
  match JSON_parse_entry rt line with
  | Some (UserMessageEntry b _) | Some (AssistantMessageEntry b _ _) =>
      if Str.nonEmpty (Entry.uuid b) then Entry.uuid b else fallback
  | Some (FileHistorySnapshot m) => snapshotOr (Some m)
  | Some (OtherEntry u m) =>
      match u with
      | Some x => if Str.nonEmpty x then x else snapshotOr m
      | None => snapshotOr m
      end
  | None => fallback
  end.

(** What [processLine] does once the line is parsed. *)
Definition processEntry (entry : ConversationEntry) (nodes : Registry)
  : Registry * option ConversationNode :=
  match entry with
  | FileHistorySnapshot _ => (nodes, None)
  | UserMessageEntry _ _ =>
      match createUserNode rt entry with
      | Some node => (Map_set nodes node, Some node)
      | None => (nodes, None)
      end
  | AssistantMessageEntry _ _ _ =>
      let created := createAssistantNodes rt entry in
      (fold_left Map_set created nodes, hd_error created)
  | OtherEntry _ _ => (nodes, None)
  end.

Definition processLine (line : string) (nodes : Registry)
  : Registry * option ConversationNode :=
  match JSON_parse_entry rt line with
  | Some entry => processEntry entry nodes
  | None => (nodes, None)
  end.

(** [content.split('\n').filter(line => line.trim())]. *)
Definition readLines (content : string) : list string :=
  filter (fun line => Str.nonEmpty (Str.trim line)) (Str.split_lf content).

(** The body of the loop over lines, shared by [readFile] and
    [readNewContent]: registry, fingerprints and [hasNewNodes]. *)
Definition ingestLine (s : Registry * list string * bool) (line : string)
  : Registry * list string * bool :=
  let '(nodes, processed, hasNewNodes) := s in
  if isValidJsonLine line then
    let lineHash := hashLine line in
    if negb (Set_has processed lineHash) then
      let '(nodes', node) := processLine line nodes in
      (nodes', Set_add processed lineHash,
       match node with Some _ => true | None => hasNewNodes end)
    else s
  else s.

(** [readFile], given the file's text: the new state and the tree it emits. *)
Definition readFile (content : string) (w : SessionWatcher) : SessionWatcher * list Tree :=
  let lines := readLines content in
  let '(nodes', processed, _) :=
    fold_left ingestLine lines (nodes w, processedLines w, false) in
  getNodes (mkWatcher nodes' (List.length lines) processed).

(** [readNewContent], given the file's text: the new state and the tree it
    emits, if it emits one. *)
Definition readNewContent (content : string) (w : SessionWatcher)
  : SessionWatcher * option (list Tree) :=
  let lines := readLines content in
  if (List.length lines <=? lastLineCount w)%nat then (w, None)
  else
    let newLines := skipn (lastLineCount w) lines in
    let '(nodes', processed, hasNewNodes) :=
      fold_left ingestLine newLines (nodes w, processedLines w, false) in
    let w' := mkWatcher nodes' (List.length lines) processed in
    if hasNewNodes then let '(w'', t) := getNodes w' in (w'', Some t)
    else (w', None).

End Tracker.

(** ** Auxiliary definitions for the statements *)

(** The registry with every [children] array emptied. *)
Definition cleared (st : Registry) : Registry := map (fun e => (fst e, [])) st.

Definition reorg_st (s : Reorg) : Registry := snd (fst s).
(** Two loop states that hold the same nodes and the same fingerprints. *)
Definition same_ingest (s s' : Registry * list string * bool) : Prop :=
  Map_values (fst (fst s)) = Map_values (fst (fst s')) /\ snd (fst s) = snd (fst s').


(** A node with its back-reference replaced. *)
Definition withRaw (n : ConversationNode) (e : ConversationEntry) : ConversationNode :=
  mkNode (id n) (parentId n) (timestamp n) (type n) (summary n) (content n)
    (toolName n) (toolInput n) (toolResult n) (agentType n) (skillName n) (commandName n) e.

(** The watcher's life: [start] reads the file once with [readFile]; every
    later change of the file runs [readNewContent].  [reads] lists the file's
    text at each read. *)
Definition watch (rt : Runtime) (reads : list string) (w : SessionWatcher) : SessionWatcher :=
  match reads with
  | [] => w
  | c :: later =>
      fold_left (fun w' c' => fst (readNewContent rt c' w')) later (fst (readFile rt c w))
  end.

(** Deduplication by fingerprint alone, as the specification words it: every
    non-empty line of every read goes through validation and the fingerprint
    set; no line is skipped for its index. *)
Definition dedupOnly (rt : Runtime) (reads : list string) (w : SessionWatcher) : SessionWatcher :=
  fold_left (fun w' c => fst (readFile rt c w')) reads w.

(** ** Example data *)

Module Ex.

(** JSON text is written with an apostrophe where the text has a double
    quote. *)
Fixpoint js (s : string) : string :=
  match s with
  | EmptyString => EmptyString
  | String c r => String (if Ascii.eqb c "'"%char then "034"%char else c) (js r)
  end.

(** A runtime whose line parser knows the lines of a table. *)
Definition table_runtime (tbl : list (string * ConversationEntry)) : Runtime :=
  mkRuntime
    (fun s => match find (fun kv => String.eqb (fst kv) s) tbl with
              | Some kv => Some (snd kv)
              | None => None
              end)
    (fun _ => None)
    (fun _ => EmptyString)
    (fun _ => None)
    (fun l => l)
    (fun l => Permutation_refl l).

(** The scenario's log: a user turn, an assistant record with a thinking
    segment, a Bash call [abc] and a text segment, and the tool's result. *)
Definition line1 : string :=
  js "{'type':'user','uuid':'u1','parentUuid':null,'timestamp':'1970-01-01T00:00:01.000Z','message':{'role':'user','content':'Fix the bug'}}".
Definition entry1 : ConversationEntry :=
  UserMessageEntry (Entry.mk None "u1" (Ms 1000)) (JStr "Fix the bug").

Definition line2 : string :=
  js "{'type':'assistant','uuid':'a1','parentUuid':'u1','timestamp':'1970-01-01T00:00:02.000Z','message':{'role':'assistant','content':[{'type':'thinking','thinking':'Look at the failing test'},{'type':'tool_use','id':'abc','name':'Bash','input':{'command':'npm test'}},{'type':'text','text':'I will run the tests'}]}}".
Definition entry2 : ConversationEntry :=
  AssistantMessageEntry (Entry.mk (Some "u1") "a1" (Ms 2000))
    (Some [ThinkingBlock "Look at the failing test";
           ToolUseBlock "abc" "Bash" [("command", JStr "npm test")];
           TextBlock "I will run the tests"])
    None.

Definition line3 : string :=
  js "{'type':'user','uuid':'u2','parentUuid':'a1','timestamp':'1970-01-01T00:00:03.000Z','message':{'role':'user','content':[{'tool_use_id':'abc','type':'tool_result','content':'1 failing','is_error':false}]}}".
Definition entry3 : ConversationEntry :=
  UserMessageEntry (Entry.mk (Some "a1") "u2" (Ms 3000))
    (JArr [JObj [("tool_use_id", JStr "abc"); ("type", JStr "tool_result");
                 ("content", JStr "1 failing"); ("is_error", JBool false)]]).

(** A later user turn, and the start of its line as a writer may leave it
    mid-flush. *)
Definition line4 : string :=
  js "{'type':'user','uuid':'u9','parentUuid':'u1','timestamp':'1970-01-01T00:00:09.000Z','message':{'role':'user','content':'thanks'}}".
Definition entry4 : ConversationEntry :=
  UserMessageEntry (Entry.mk (Some "u1") "u9" (Ms 9000)) (JStr "thanks").
Definition partial4 : string := js "{'type':'use".

(** The node of [entry1]. *)
Definition node1 : ConversationNode :=
  mkNode "u1" None (Ms 1000) user "Fix the bug" (ContentText "Fix the bug")
    None None None None None None entry1.

Definition rt0 : Runtime :=
  table_runtime [(line1, entry1); (line2, entry2); (line3, entry3); (line4, entry4)].

Definition log3 : string := line1 +++ String Str.lf (line2 +++ String Str.lf line3).

(** An assistant record with two text segments. *)
Definition two_texts : ConversationEntry :=
  AssistantMessageEntry (Entry.mk (Some "u1") "a1" (Ms 2000))
    (Some [TextBlock "first answer"; TextBlock "second answer"]) None.

(** A user message with both command wrappers and the caveat text. *)
Definition wrapped_caveat : string :=
  "<command-name>/clear</command-name><command-message>clear</command-message> " +++ caveat.

Definition placeholder : string := "<local-command-stdout></local-command-stdout>".

(** A second tool result in the array of [entry3]. *)
Definition another_result : JSON :=
  JObj [("tool_use_id", JStr "xyz"); ("type", JStr "tool_result");
        ("content", JStr "ignored"); ("is_error", JBool true)].

(** A tool result whose tool invocation is not in the log. *)
Definition orphan_result : ConversationEntry :=
  UserMessageEntry (Entry.mk (Some "a7") "u3" (Ms 3000))
    (JArr [JObj [("tool_use_id", JStr "nowhere"); ("type", JStr "tool_result");
                 ("content", JStr "lost"); ("is_error", JBool false)]]).

(** A watcher that holds [entry1] and the orphan result. *)
Definition orphan_watcher : SessionWatcher :=
  mkWatcher (fst (processEntry rt0 orphan_result (fst (processEntry rt0 entry1 []))))
            2 ["u1"; "u3"].

(** The scenario with the assistant record at the very time of the user
    record, and with a tool result whose [parentUuid] is the user record's
    uuid instead of the assistant record's. *)
Definition line2_tied : string :=
  js "{'type':'assistant','uuid':'a1','parentUuid':'u1','timestamp':'1970-01-01T00:00:01.000Z','message':{'role':'assistant','content':[{'type':'thinking','thinking':'Look at the failing test'},{'type':'tool_use','id':'abc','name':'Bash','input':{'command':'npm test'}},{'type':'text','text':'I will run the tests'}]}}".
Definition entry2_tied : ConversationEntry :=
  AssistantMessageEntry (Entry.mk (Some "u1") "a1" (Ms 1000))
    (Some [ThinkingBlock "Look at the failing test";
           ToolUseBlock "abc" "Bash" [("command", JStr "npm test")];
           TextBlock "I will run the tests"])
    None.

Definition line3_stray : string :=
  js "{'type':'user','uuid':'u2','parentUuid':'u1','timestamp':'1970-01-01T00:00:03.000Z','message':{'role':'user','content':[{'tool_use_id':'abc','type':'tool_result','content':'1 failing','is_error':false}]}}".
Definition entry3_stray : ConversationEntry :=
  UserMessageEntry (Entry.mk (Some "u1") "u2" (Ms 3000))
    (JArr [JObj [("tool_use_id", JStr "abc"); ("type", JStr "tool_result");
                 ("content", JStr "1 failing"); ("is_error", JBool false)]]).

Definition rt_tied : Runtime :=
  table_runtime [(line1, entry1); (line2_tied, entry2_tied); (line3, entry3)].
Definition log_tied : string :=
  line1 +++ String Str.lf (line2_tied +++ String Str.lf line3).

Definition rt_stray : Runtime :=
  table_runtime [(line1, entry1); (line2, entry2); (line3_stray, entry3_stray)].
Definition log_stray : string :=
  line1 +++ String Str.lf (line2 +++ String Str.lf line3_stray).

(** A slash command, which the classifier makes a system node, and a
    watcher that holds it and the scenario's first two records. *)
Definition command_entry : ConversationEntry :=
  UserMessageEntry (Entry.mk None "u0" (Ms 500))
    (JStr "<command-name>/clear</command-name><command-message>clear</command-message>").

Definition command_watcher : SessionWatcher :=
  mkWatcher
    (fst (processEntry rt0 entry2
       (fst (processEntry rt0 entry1 (fst (processEntry rt0 command_entry []))))))
    3 ["u0"; "u1"; "a1"].

(** Four user messages, the third with a timestamp that is no date. *)
Definition said (i : string) (t : Time) : ConversationEntry :=
  UserMessageEntry (Entry.mk None i t) (JStr "hello").

Definition garbled_watcher : SessionWatcher :=
  mkWatcher
    (fst (processEntry rt0 (said "x" (Ms 5000))
       (fst (processEntry rt0 (said "z" NaN)
          (fst (processEntry rt0 (said "n" (Ms 10000))
             (fst (processEntry rt0 (said "s" (Ms 1000)) []))))))))
    4 ["s"; "n"; "z"; "x"].

(** A user message of 101 characters. *)
Definition long_text : string :=
  "aaaaaaaaaaaaaaaaaaaaaaaaaaaaaaaaaaaaaaaaaaaaaaaaaa" +++
  "aaaaaaaaaaaaaaaaaaaaaaaaaaaaaaaaaaaaaaaaaaaaaaaaaa" +++ "b".

End Ex.

(** [nodes.get(k)]. *)
Definition Map_get (nodes : Registry) (k : string) : option ConversationNode :=
  match find (fun e => String.eqb (id (fst e)) k) nodes with
  | Some e => Some (fst e)
  | None => None
  end.

(** What the source appends to the record's uuid to name a segment's node. *)
Definition segment_suffix (b : ContentBlock) : list string :=
  match b with
  | ThinkingBlock _ => ["-thinking"]
  | TextBlock _ => ["-text"]
  | ToolUseBlock i _ _ => ["-tool-" +++ i]
  | ToolResultContent _ _ _ => []
  end.

(** The ids of a record's tool invocations. *)
Definition toolUseIds (blocks : list ContentBlock) : list string :=
  flat_map (fun b => match b with ToolUseBlock i _ _ => [i] | _ => [] end) blocks.

(** ** Placement: who hangs where *)

(** [n.children] of a node reference. *)
Definition kids (st : Registry) (n : ConversationNode) : list ConversationNode :=
  getChildren st (id n).

(** The id [i] occupies a slot: it is a root, or a child of a node of [A]. *)
Definition Placed (A : list ConversationNode) (st : Registry) (R : list ConversationNode)
    (i : string) : Prop :=
  In i (map id R) \/ exists p, In p A /\ In i (map id (kids st p)).

(** Every node of [A] is an object of the registry. *)
Definition Held (A : list ConversationNode) (st : Registry) : Prop :=
  forall a, In a A -> Map_has st (id a) = true.

(** The roots [R] and the children arrays of the nodes [A] form a forest
    over [A]: no id fills two slots. *)
Record Forest (A : list ConversationNode) (st : Registry) (R : list ConversationNode)
  : Prop := mkForest {
  roots_nodup : NoDup (map id R);
  kids_nodup : forall p, In p A -> NoDup (map id (kids st p));
  one_parent : forall p q i, In p A -> In q A ->
               In i (map id (kids st p)) -> In i (map id (kids st q)) -> id p = id q;
  root_not_kid : forall p i, In p A -> In i (map id R) -> ~ In i (map id (kids st p));
  roots_in : forall r, In r R -> In r A;
  kids_in : forall p x, In p A -> In x (kids st p) -> In x A
}.

(** [x] is [k] children links below [a]. *)
Fixpoint reach (st : Registry) (k : nat) (a x : ConversationNode) : Prop :=
  match k with
  | O => a = x
  | S k' => exists b, In b (kids st a) /\ reach st k' b x
  end.

(** The milliseconds of a node whose timestamp parses. *)
Definition time (n : ConversationNode) : Z :=
  match timestamp n with Ms x => x | NaN => 0%Z end.

(** The order of two nodes whose timestamps parse. *)
Definition le_time (a b : ConversationNode) : Prop := (time a <= time b)%Z.

(** Every timestamp of the list parses. *)
Definition Parsed (l : list ConversationNode) : Prop :=
  forall n, In n l -> parses n = true.

(** The invariant of the loops of [reorganizeForDisplay] over the flattened
    nodes [A]: the roots and children arrays form a forest, and whatever
    fills a slot is marked used. *)
Definition Inv (A : list ConversationNode) (s : Reorg) : Prop :=
  let '(u, st, R) := s in
  Forest A st R /\ Held A st /\ (forall i, Placed A st R i -> In i u).

(** How a step may move the state on: marks stay, new marks are ids of
    [cands], and a slot is newly filled only by an id that was not marked. *)
Definition Ext (A : list ConversationNode) (cands : list ConversationNode)
    (s s' : Reorg) : Prop :=
  let '(u, st, R) := s in
  let '(u', st', R') := s' in
  (forall i, In i u -> In i u') /\
  (forall i, In i u' -> In i u \/ In i (map id cands)) /\
  (forall i, Placed A st' R' i -> Placed A st R i \/ ~ In i u).

(** A list of starting points in [A] none of which lies below another (or
    itself). *)
Definition Apart (A : list ConversationNode) (st : Registry) (l : list ConversationNode)
  : Prop :=
  NoDup (map id l) /\ (forall a, In a l -> In a A) /\
  (forall a b m, In a l -> In b l -> ~ reach st (S m) b a).

(** A chain of children links that starts at [a]. *)
Fixpoint chain (st : Registry) (a : ConversationNode) (path : list ConversationNode) : Prop :=
  match path with
  | [] => True
  | b :: rest => In b (kids st a) /\ chain st b rest
  end.

(** Reads of a file that is only appended to: every read finds the lines of
    the read before it, unchanged and in their order, and possibly more
    lines behind them. *)
Fixpoint appendOnly (reads : list string) : Prop :=
  match reads with
  | c :: later =>
      match later with
      | c' :: _ => (exists rest, readLines c' = readLines c ++ rest) /\ appendOnly later
      | [] => True
      end
  | [] => True
  end.

Definition processed_of (s : Registry * list string * bool) : list string := snd (fst s).

(** What the watcher and fingerprint-only deduplication have in common after
    the same reads, the last of which held [c]. *)
Definition in_step (rt : Runtime) (c : string) (wa wd : SessionWatcher) : Prop :=
  Map_values (nodes wa) = Map_values (nodes wd) /\
  processedLines wa = processedLines wd /\
  lastLineCount wa = List.length (readLines c) /\
  (forall l, In l (readLines c) -> isValidJsonLine rt l = true ->
             In (hashLine rt l) (processedLines wd)).



(** ** The shape of the display tree *)

(** The levels of a tree: a node without children has depth one. *)
Fixpoint depth (t : Tree) : nat :=
  match t with
  | TNode _ kids => S (list_max (map depth kids))
  end.

(** The parent-child pairs of a tree. *)
Fixpoint tree_edges (t : Tree) : list (ConversationNode * ConversationNode) :=
  match t with
  | TNode n kids => map (fun k => (n, root_of k)) kids ++ flat_map tree_edges kids
  end.

Definition forest_edges (ts : list Tree) : list (ConversationNode * ConversationNode) :=
  flat_map tree_edges ts.

(** Every [children] array of a tree, as the list of its nodes. *)
Fixpoint sibling_lists (t : Tree) : list (list ConversationNode) :=
  match t with
  | TNode _ kids => map root_of kids :: flat_map sibling_lists kids
  end.

(** The top-level array and every [children] array below it. *)
Definition all_sibling_lists (ts : list Tree) : list (list ConversationNode) :=
  map root_of ts :: flat_map sibling_lists ts.

(** The two kinds of link [reorganizeForDisplay] draws: a turn's response
    holds thinking nodes, tool invocations and the turn's other responses; a
    thinking node or tool invocation holds the tool results that name it. *)
Definition isDisplayEdge (p x : ConversationNode) : bool :=
  (hasType assistant p && (hasType thinking x || isToolFamily x || hasType assistant x))
  || ((hasType thinking p || isToolFamily p) && hasType tool_result x && parentIs x p).

(** What the loops of [reorganizeForDisplay] keep true of the children
    arrays of the nodes [A]; [cur] is the response being filled, whose
    array is sorted only when its turn ends; an array is in time order when
    the timestamps of its nodes parse. *)
Record Shape (A : list ConversationNode) (cur : option ConversationNode)
    (u : list string) (st : Registry) (R : list ConversationNode) : Prop := mkShape {
  sh_edge : forall p x, In p A -> In x (kids st p) -> isDisplayEdge p x = true;
  sh_used : forall p, In p A -> kids st p <> [] -> In (id p) u;
  sh_resp : forall p, In p A -> hasType assistant p = true -> kids st p <> [] ->
            In p R \/ cur = Some p;
  sh_sorted : forall p, In p A -> cur <> Some p -> Parsed (kids st p) ->
              StronglySorted le_time (kids st p)
}.

(** The links [reorganizeForDisplay] draws whatever the timestamps are: a
    response holds thinking nodes, tool invocations and other responses; a
    node that is neither a response nor a tool result holds the tool
    results that name it. *)
Definition isLink (p x : ConversationNode) : bool :=
  (hasType assistant p && (hasType thinking x || isToolFamily x || hasType assistant x))
  || (negb (hasType assistant p) && negb (hasType tool_result p) &&
      hasType tool_result x && parentIs x p).

(** What the loops of [reorganizeForDisplay] keep true of the children
    arrays of the nodes [A] for any timestamps: roots and children are nodes
    of [A], every link is of one of the two kinds, whoever holds or is a
    child is marked, a response with children is a root or the response
    [cur] being filled, a response that is a child has no children, and
    [cur] is no one's child. *)
Record Links (A : list ConversationNode) (cur : option ConversationNode)
    (u : list string) (st : Registry) (R : list ConversationNode) : Prop := mkLinks {
  lk_roots_in : forall r, In r R -> In r A;
  lk_kids_in : forall p x, In p A -> In x (kids st p) -> In x A;
  lk_edge : forall p x, In p A -> In x (kids st p) -> isLink p x = true;
  lk_used : forall p, In p A -> kids st p <> [] -> In (id p) u;
  lk_kid : forall p x, In p A -> In x (kids st p) -> In (id x) u;
  lk_resp : forall p, In p A -> hasType assistant p = true -> kids st p <> [] ->
            In p R \/ cur = Some p;
  lk_leaf : forall p x, In p A -> In x (kids st p) -> hasType assistant x = true ->
            kids st x = [];
  lk_cur : forall a, cur = Some a ->
           hasType assistant a = true /\ forall p, In p A -> ~ In a (kids st p)
}.

(** The tree below [n] when nothing lies more than two links below it. *)
Definition full (st : Registry) (n : ConversationNode) : Tree :=
  TNode n (map (fun y => TNode y (map (fun z => TNode z []) (kids st y))) (kids st n)).

(** A window of the loop over the turn starters [ts] that holds [p]: a
    starter earlier than [p] whose successor in the list, if there is one,
    is later than [p]. *)
Fixpoint windowAhead (p : ConversationNode) (ts : list ConversationNode) : Prop :=
  match ts with
  | [] => False
  | t :: rest =>
      (Time_lt (timestamp t) (timestamp p) = true /\
       match rest with
       | [] => True
       | n :: _ => Time_lt (timestamp p) (timestamp n) = true
       end) \/ windowAhead p rest
  end.

(** The node [t] is strictly earlier than both [p] and [r], or strictly
    later than both. *)
Definition clearOf (p r t : ConversationNode) : Prop :=
  (Time_lt (timestamp t) (timestamp p) = true /\
   Time_lt (timestamp t) (timestamp r) = true) \/
  (Time_lt (timestamp p) (timestamp t) = true /\
   Time_lt (timestamp r) (timestamp t) = true).

(** [a] is not later than [b]: both timestamps parse, and the first is at
    most the second. *)
Definition notLater (a b : ConversationNode) : Prop :=
  match timestamp a, timestamp b with
  | Ms x, Ms y => (x <= y)%Z
  | _, _ => False
  end.

(** The roots so far are in time order, none is a tool result, and none is
    later than [bound]. *)
Definition RootsBy (bound : option Z) (R : list ConversationNode) : Prop :=
  StronglySorted le_time R /\
  (forall r, In r R -> hasType tool_result r = false) /\
  (forall r b, In r R -> bound = Some b -> (time r <= b)%Z).

(** A node [buildTree] makes a root before the display reorganization: it
    names no parent, or a parent the registry does not hold. *)
Definition isRawRoot (nodes : Registry) (n : ConversationNode) : bool :=
  match parentId n with
  | Some p => negb (Str.nonEmpty p && Map_has nodes p)
  | None => true
  end.

(** [x] hangs from such a root by at most [k] parent links, each to a node
    of the registry: the nodes the flattening of the first half of
    [buildTree] reaches. *)
Fixpoint anchored (nodes : Registry) (k : nat) (x : ConversationNode) : bool :=
  isRawRoot nodes x ||
  match k with
  | O => false
  | S k' =>
      match parentId x with
      | Some p =>
          match Map_get nodes p with
          | Some q => anchored nodes k' q
          | None => false
          end
      | None => false
      end
  end.

(** What a loop of [reorganizeForDisplay] adds: marks stay, what fills a
    slot keeps filling one, and a new mark is the id of a node of [cands]
    that now fills a slot. *)
Definition Adds (A cands : list ConversationNode) (s s' : Reorg) : Prop :=
  let '(u, st, R) := s in
  let '(u', st', R') := s' in
  (forall i, In i u -> In i u') /\
  (forall i, Placed A st R i -> Placed A st' R' i) /\
  (forall i, In i u' -> In i u \/ (Placed A st' R' i /\ In i (map id cands))).

(** The turn of [y] is over: [y] is earlier than the next turn starter to
    come, if there is one. *)
Definition turnOver (remaining : list ConversationNode) (y : ConversationNode) : Prop :=
  forall b, hd_error remaining = Some b -> (time y < time b)%Z.

(** [p] and [r] lie in one turn: no turn starter of [starters] is later
    than one and not later than the other. *)
Definition sameTurn (starters : list ConversationNode) (p r : ConversationNode) : Prop :=
  forall t, In t starters ->
    ((time t < time p)%Z <-> (time t < time r)%Z).

(** [y] lies in a turn: strictly later than some turn starter of [starters],
    and at the time of none. *)
Definition inSomeTurn (starters : list ConversationNode) (y : ConversationNode) : Prop :=
  (exists t, In t starters /\ (time t < time y)%Z) /\
  (forall t, In t starters -> time t <> time y).

(** ** The fallback fingerprint in closed form *)

(** The base-31 polynomial of the code units of [line], from [acc]. *)
Fixpoint poly31 (line : string) (acc : Z) : Z :=
  match line with
  | EmptyString => acc
  | String c r => poly31 r (acc * 31 + Z.of_nat (nat_of_ascii c))
  end.

(** The string holds a line feed. *)
Fixpoint has_lf (s : string) : bool :=
  match s with
  | EmptyString => false
  | String c r => Ascii.eqb c Str.lf || has_lf r
  end.

(** ** The session list's boilerplate test ([server/src/session-manager.ts]) *)

Module SessionManager.

Section Manager.

Variable rt : Runtime.

(** The [try] block of [isBoilerplateMessage]: [false] also when it throws. *)
Definition json_caveat (content : string) : bool :=
  match JSON_parse rt content with
  | Some (JArr (first :: _)) =>
      match member "type" first with
      | Some (JStr t) =>
          if negb (String.eqb t "text") then false else
          match orElse (member "text" first) (JStr EmptyString) with
          | JStr text => Str.includes text caveat
          | JArr items =>
              existsb (fun x => match x with JStr s => String.eqb s caveat | _ => false end) items
          | _ => false (* text.includes throws *)
          end
      | _ => false
      end
  | _ => false
  end.

Definition isBoilerplateMessage (content : string) : bool :=
  if Str.includes content caveat then true
  else if Str.includes content "<local-command-stdout>" then true
  else if Str.includes content "<command-name>" && Str.includes content "<command-message>"
  then true
  else if Str.startsWith content skill_prefix then json_caveat content
  else false.

(** [new Date(v).getTime()] for a parsed value; [None] is NaN. *)
Variable Date_getTime : option JSON -> option Z.

(** [k in v]: [None] when [v] is not an object, where the operator throws.
    The keys asked for here are no properties of an array. *)
Definition has_key (k : string) (v : JSON) : option bool :=
  match v with
  | JObj ms => Some (existsb (fun kv => String.eqb (fst kv) k) ms)
  | JArr _ => Some false
  | _ => None
  end.

(** [text.replace(/<[^>]+>/g, '')]: a tag is a less-than sign, one or more
    characters other than the greater-than sign, and a greater-than sign.
    [closes r] says that a tag opens before [r]. *)
Fixpoint has_gt (s : string) : bool :=
  match s with
  | EmptyString => false
  | String c r => Ascii.eqb c ">"%char || has_gt r
  end.

Definition closes (r : string) : bool :=
  match r with
  | EmptyString => false
  | String c _ => negb (Ascii.eqb c ">"%char) && has_gt r
  end.

Fixpoint strip_tags (inTag : bool) (s : string) : string :=
  match s with
  | EmptyString => EmptyString
  | String c r =>
      if inTag then strip_tags (negb (Ascii.eqb c ">"%char)) r
      else if Ascii.eqb c "<"%char && closes r then strip_tags true r
      else String c (strip_tags false r)
  end.

(** [text.replace(/\s+/g, ' ')]. *)
Fixpoint squeeze (afterWhite : bool) (s : string) : string :=
  match s with
  | EmptyString => EmptyString
  | String c r =>
      if Str.isWhite c then
        if afterWhite then squeeze true r else String " "%char (squeeze true r)
      else String c (squeeze false r)
  end.

(** The clean-up of the first message. *)
Definition clean (content : string) : string :=
  Str.slice0 (Str.trim (squeeze false (strip_tags false content))) 150.

(** The variables of the loop of [getSessionMetadata]. *)
Record Tally : Type := mkTally {
  firstUserMessage : string;
  messageCount : nat;
  toolCount : nat;
  firstTimestamp : option Z;
  lastTimestamp : option Z
}.

Definition isToolUse (block : JSON) : bool :=
  match member "type" block with
  | Some (JStr t) => String.eqb t "tool_use"
  | _ => false
  end.

Definition isNull (v : JSON) : bool := match v with JNull => true | _ => false end.

(** The body of the loop, with its [try]: a line that throws keeps what was
    assigned before the throw. *)
Definition tallyLine (s : Tally) (line : string) : Tally :=
  match JSON_parse rt line with
  | None => s
  | Some entry =>
      match has_key "timestamp" entry with
      | None => s
      | Some hasTimestamp =>
          let s1 :=
            if hasTimestamp then
              match Date_getTime (member "timestamp" entry) with
              | Some ts =>
                  mkTally (firstUserMessage s) (messageCount s) (toolCount s)
                    (match firstTimestamp s with Some f => Some f | None => Some ts end)
                    (Some ts)
              | None => s
              end
            else s in
          match member "type" entry with
          | Some (JStr t) =>
              if String.eqb t "user" then
                let s2 := mkTally (firstUserMessage s1) (S (messageCount s1)) (toolCount s1)
                            (firstTimestamp s1) (lastTimestamp s1) in
                if Str.nonEmpty (firstUserMessage s2) then s2
                else
                  match member "message" entry with
                  | Some msg =>
                      match has_key "content" msg, member "content" msg with
                      | Some true, Some (JStr content) =>
                          if isBoilerplateMessage content then s2
                          else mkTally (clean content) (messageCount s2) (toolCount s2)
                                 (firstTimestamp s2) (lastTimestamp s2)
                      | _, _ => s2
                      end
                  | None => s2
                  end
              else if String.eqb t "assistant" then
                match member "message" entry with
                | Some assistantMsg =>
                    if negb (truthy (Some assistantMsg)) then s1
                    else
                      match has_key "content" assistantMsg, member "content" assistantMsg with
                      | Some true, Some (JArr blocks) =>
                          if existsb isNull blocks then s1
                          else mkTally (firstUserMessage s1) (messageCount s1)
                                 (toolCount s1 + List.length (filter isToolUse blocks))
                                 (firstTimestamp s1) (lastTimestamp s1)
                      | _, _ => s1
                      end
                | None => s1
                end
              else s1
          | _ => s1
          end
      end
  end.

(** The line parses to an object whose [type] is user. *)
Definition isUserRecord (line : string) : bool :=
  match JSON_parse rt line with
  | Some (JObj ms) =>
      match member "type" (JObj ms) with
      | Some (JStr t) => String.eqb t "user"
      | _ => false
      end
  | _ => false
  end.

(** [getSessionMetadata], given the file's text ([None]: the read fails):
    message count, tool count, first message, duration. *)
Definition getSessionMetadata (content : option string) : nat * nat * string * Z :=
  match content with
  | None => (0, 0, EmptyString, 0%Z)
  | Some text =>
      let lines := filter (fun line => Str.nonEmpty (Str.trim line)) (Str.split_lf text) in
      let s := fold_left tallyLine lines (mkTally EmptyString 0 0 None None) in
      let duration :=
        match firstTimestamp s, lastTimestamp s with
        | Some f, Some l =>
            if negb (f =? 0)%Z && negb (l =? 0)%Z then (l - f)%Z else 0%Z
        | _, _ => 0%Z
        end in
      (messageCount s, toolCount s, firstUserMessage s, duration)
  end.

(** [fm] is the cleaned text of a user record among [lines] whose message
    content is a string that is no boilerplate. *)
Definition first_from (lines : list string) (fm : string) : Prop :=
  exists line ms msg c,
    In line lines /\ JSON_parse rt line = Some (JObj ms) /\
    member "type" (JObj ms) = Some (JStr "user") /\
    member "message" (JObj ms) = Some msg /\
    member "content" msg = Some (JStr c) /\
    isBoilerplateMessage c = false /\
    fm = clean c.

End Manager.

End SessionManager.

(** ** The server's handlers ([server/src/index.ts])

    A handler is a step from one state of [currentWatcher] to the next, with
    what it broadcasts; the text a read of the file returns is part of the
    event.  Each handler runs to its end before the next event: the
    interleavings of the asynchronous handlers are not modelled.  The
    watcher emits init events only, so the relay of update events never
    runs. *)

Module Server.

(** [WsMessage], by its [type]; an init message carries the tree and the
    session file. *)
Inductive WsMessage : Type :=
| Init (nodes : list Tree) (sessionFile : string)
| Update (node : Tree)
| Clear.

(** [currentWatcher]: the watcher's file path and its state, or [null]. *)
Definition State : Type := option (string * SessionWatcher).

(** What reaches the server: a POST to /api/watch with the file's text at
    the watcher's first read ([None]: the read fails), a change of the
    watched file with its text then, a POST to /api/stop. *)
Inductive Event : Type :=
| PostWatch (sessionFile : string) (content : option string)
| FileChange (content : option string)
| PostStop.

Section Handlers.

Variable rt : Runtime.

(** The handler of /api/watch: the new state, what is broadcast, and the
    status of the response. *)
Definition postWatch (sessionFile : string) (content : option string) (s : State)
  : State * list WsMessage * Z :=
  if negb (Str.nonEmpty sessionFile) then (s, [], 400%Z)
  else
    match content with
    | Some c =>
        let '(w, tree) := readFile rt c initial in
        (Some (sessionFile, w), [Init tree sessionFile], 200%Z)
    | None => (Some (sessionFile, initial), [], 500%Z)
    end.

(** The watcher's change listener, relayed by the init listener of
    /api/watch. *)
Definition fileChange (content : option string) (s : State) : State * list WsMessage :=
  match s, content with
  | Some (f, w), Some c =>
      let '(w', emitted) := readNewContent rt c w in
      (Some (f, w'), match emitted with Some tree => [Init tree f] | None => [] end)
  | _, _ => (s, [])
  end.

(** The handler of /api/stop. *)
Definition postStop (s : State) : State * list WsMessage :=
  match s with
  | Some _ => (None, [Clear])
  | None => (None, [])
  end.

(** The connection handler: what the new client is sent. *)
Definition connection (s : State) : State * option WsMessage :=
  match s with
  | Some (f, w) => let '(w', tree) := getNodes w in (Some (f, w'), Some (Init tree f))
  | None => (None, None)
  end.

Definition handle (s : State) (e : Event) : State * list WsMessage :=
  match e with
  | PostWatch f c => let '(s', out, _) := postWatch f c s in (s', out)
  | FileChange c => fileChange c s
  | PostStop => postStop s
  end.

(** The server over a sequence of events: the last state and everything
    broadcast, in order. *)
Fixpoint serve (events : list Event) (s : State) : State * list WsMessage :=
  match events with
  | [] => (s, [])
  | e :: later =>
      let '(s1, out1) := handle s e in
      let '(s2, out2) := serve later s1 in
      (s2, out1 ++ out2)
  end.

End Handlers.

End Server.

(** ** The client's tree functions ([client/src/store.ts], [TreeView.tsx],
    [Toolbar.tsx], [StatsBar.tsx])

    On the client a node object holds its children, so a node is a [Tree]
    and the store's [nodes] a list of trees. *)

Module Client.

(** The first result a scan of [l] gives. *)
Definition first_some {X Y : Type} (f : X -> option Y) : list X -> option Y :=
  fix scan (l : list X) : option Y :=
    match l with
    | [] => None
    | x :: r => match f x with Some y => Some y | None => scan r end
    end.

(** One round of the loop of [findNode]: the node itself, else the first
    find among its children. *)
Fixpoint findIn (i : string) (t : Tree) : option Tree :=
  match t with
  | TNode n kids => if String.eqb (id n) i then Some t else first_some (findIn i) kids
  end.

(** [findNode(nodes, id)]; a null or empty [id] finds nothing. *)
Definition findNode (nodes : list Tree) (i : option string) : option Tree :=
  match i with
  | Some k => if Str.nonEmpty k then first_some (findIn k) nodes else None
  | None => None
  end.

Fixpoint idsOf (t : Tree) : list string :=
  match t with
  | TNode n kids => id n :: flat_map idsOf kids
  end.

Definition getAllNodeIds (nodes : list Tree) : list string := flat_map idsOf nodes.

(** [flattenNodes] of the stats bar, [flattenVisibleNodes] of the tree
    view: every node object, parents first. *)
Fixpoint subtrees (t : Tree) : list Tree :=
  match t with
  | TNode n kids => TNode n kids :: flat_map subtrees kids
  end.

Definition flattenNodes (nodes : list Tree) : list Tree := flat_map subtrees nodes.

(** [countNodes] of the toolbar. *)
Fixpoint countIn (showSystem : bool) (t : Tree) : nat :=
  match t with
  | TNode n kids =>
      if negb showSystem && hasType system n then 0
      else S (list_sum (map (countIn showSystem) kids))
  end.

Definition countNodes (nodes : list Tree) (showSystem : bool) : nat :=
  list_sum (map (countIn showSystem) nodes).

(** The part of the store the tree functions read and write. *)
Record WorkflowStore : Type := mkStore {
  currentSessionFile : option string;
  nodes : list Tree;
  selectedNodeId : option string;
  expandedNodeIds : list string
}.

Definition clearNodes (s : WorkflowStore) : WorkflowStore :=
  mkStore (currentSessionFile s) [] None [].

(** [n.id === node.parentId]. *)
Definition isParentOf (n : ConversationNode) (node : Tree) : bool :=
  match parentId (root_of node) with
  | Some p => String.eqb (id n) p
  | None => false
  end.

(** [updateTree] of [addNode], on one node of the list it maps. *)
Fixpoint updateIn (node : Tree) (t : Tree) : Tree :=
  match t with
  | TNode n kids =>
      if isParentOf n node then TNode n (kids ++ [node])
      else TNode n (map (updateIn node) kids)
  end.

Definition updateTree (node : Tree) (l : list Tree) : list Tree := map (updateIn node) l.

Definition addNode (node : Tree) (s : WorkflowStore) : WorkflowStore :=
  mkStore (currentSessionFile s)
    (match findNode (nodes s) (parentId (root_of node)) with
     | Some _ => updateTree node (nodes s)
     | None => nodes s ++ [node]
     end)
    (selectedNodeId s) (expandedNodeIds s).

(** The string a node's [type] is on the wire. *)
Definition NodeType_name (t : NodeType) : string :=
  match t with
  | user => "user"
  | assistant => "assistant"
  | thinking => "thinking"
  | tool_call => "tool_call"
  | tool_result => "tool_result"
  | agent => "agent"
  | skill => "skill"
  | command => "command"
  | system => "system"
  end.

Section TreeView.

(** [String.prototype.toLowerCase]. *)
Variable toLowerCase : string -> string.

(** The predicate [filterNodes] filters by. *)
Fixpoint keeps (filterType : option string) (searchQuery : string) (showSystem : bool)
    (t : Tree) : bool :=
  match t with
  | TNode node kids =>
      let childrenMatch :=
        (0 <? List.length (filter (keeps filterType searchQuery showSystem) kids))%nat in
      if negb showSystem && hasType system node then false
      else if
        match filterType with
        | Some f => Str.nonEmpty f && negb (String.eqb (NodeType_name (type node)) f) &&
                    negb childrenMatch
        | None => false
        end
      then false
      else if Str.nonEmpty searchQuery then
        let query := toLowerCase searchQuery in
        let matchesSummary := Str.includes (toLowerCase (summary node)) query in
        let matchesTool :=
          match toolName node with
          | Some tn => Str.includes (toLowerCase tn) query
          | None => false
          end in
        negb (negb matchesSummary && negb matchesTool && negb childrenMatch)
      else true
  end.

Definition filterNodes (nodes : list Tree) (filterType : option string)
    (searchQuery : string) (showSystem : bool) : list Tree :=
  filter (keeps filterType searchQuery showSystem) nodes.

End TreeView.

(** A tree holds a node of the type named [f]. *)
Fixpoint holdsType (f : string) (t : Tree) : bool :=
  match t with
  | TNode n kids => String.eqb (NodeType_name (type n)) f || existsb (holdsType f) kids
  end.

Definition setNodes (tree : list Tree) (s : WorkflowStore) : WorkflowStore :=
  mkStore (currentSessionFile s) tree (selectedNodeId s) (expandedNodeIds s).

Definition setCurrentSessionFile (file : option string) (s : WorkflowStore)
  : WorkflowStore :=
  mkStore file (nodes s) (selectedNodeId s) (expandedNodeIds s).

(** The application of a message to the store ([ws.onmessage]). *)
Definition onMessage (m : Server.WsMessage) (s : WorkflowStore) : WorkflowStore :=
  match m with
  | Server.Init tree f =>
      let s := setNodes tree s in
      if Str.nonEmpty f then setCurrentSessionFile (Some f) s else s
  | Server.Update node => addNode node s
  | Server.Clear => setCurrentSessionFile None (clearNodes s)
  end.

End Client.

(** * Properties *)

(** * Generic facts *)

Section Rebuild.

Context {rt : Runtime}.

Lemma fold_left_inv {A B : Type} (P : A -> Prop) (f : A -> B -> A) (l : list B) (a : A) :
  P a -> (forall x b, In b l -> P x -> P (f x b)) -> P (fold_left f l a).
Proof.
  revert a. induction l as [|b l IH]; intros a Ha Hstep; simpl; auto.
  apply IH.
  - apply Hstep; simpl; auto.
  - intros x b' Hin. apply Hstep. simpl; auto.
Qed.

(** * The children arrays only *)


Lemma updChildren_keys k f st : Map_values (updChildren k f st) = Map_values st.
Proof.
  unfold Map_values, updChildren. rewrite map_map. apply map_ext.
  intros e. destruct (String.eqb (id (fst e)) k); reflexivity.
Qed.

Lemma cleared_keys st : Map_values (cleared st) = Map_values st.
Proof. unfold Map_values, cleared. rewrite map_map. reflexivity. Qed.

Lemma cleared_of_keys st st' : Map_values st = Map_values st' -> cleared st = cleared st'.
Proof.
  unfold Map_values, cleared. revert st'.
  induction st as [|e st IH]; intros [|e' st'] H; simpl in *; try discriminate; auto.
  injection H as H1 H2. rewrite H1. f_equal. auto.
Qed.

Lemma Map_has_keys st k : Map_has st k = existsb (fun n => String.eqb (id n) k) (Map_values st).
Proof.
  unfold Map_has, Map_values. induction st as [|e st IH]; simpl; auto. now rewrite IH.
Qed.

Lemma reset_fold l st :
  fold_left (fun s node => resetChildren node s) l st =
  map (fun e => if existsb (sameNode (fst e)) l then (fst e, []) else e) st.
Proof.
  revert st. induction l as [|n l IH]; intros st; simpl.
  - symmetry. apply map_id.
  - rewrite IH. unfold resetChildren, updChildren. rewrite map_map.
    apply map_ext. intros e. unfold sameNode. simpl.
    destruct (String.eqb (id (fst e)) (id n)); simpl; auto.
    destruct (existsb _ l); reflexivity.
Qed.

Lemma reset_all st :
  fold_left (fun s node => resetChildren node s) (Map_values st) st = cleared st.
Proof.
  rewrite reset_fold. unfold cleared. apply map_ext_in.
  intros e He.
  assert (H : existsb (sameNode (fst e)) (Map_values st) = true).
  { apply existsb_exists. exists (fst e). split.
    - unfold Map_values. now apply in_map.
    - unfold sameNode. apply String.eqb_refl. }
  now rewrite H.
Qed.

Lemma linkNode_keys nodes nodes' s node :
  Map_values nodes = Map_values nodes' -> linkNode nodes s node = linkNode nodes' s node.
Proof.
  intros E. unfold linkNode. destruct s as [st roots].
  destruct (parentId node); auto. now rewrite !Map_has_keys, E.
Qed.

Lemma fold_left_ext {A B : Type} (f g : A -> B -> A) l a :
  (forall x b, f x b = g x b) -> fold_left f l a = fold_left g l a.
Proof.
  intros E. revert a. induction l as [|b l IH]; intros a; simpl; auto.
  rewrite E. apply IH.
Qed.

Lemma rawLinkage_cleared nodes : rawLinkage (cleared nodes) = rawLinkage nodes.
Proof.
  unfold rawLinkage. rewrite !reset_all, cleared_keys.
  rewrite (cleared_of_keys (cleared nodes) nodes) by apply cleared_keys.
  rewrite (fold_left_ext (linkNode (cleared nodes)) (linkNode nodes)); auto.
  intros x b. apply linkNode_keys, cleared_keys.
Qed.

Lemma buildTree_cleared nodes : buildTree (cleared nodes) = buildTree nodes.
Proof. unfold buildTree. now rewrite rawLinkage_cleared. Qed.

(** Every step of the rebuild writes children arrays only. *)

Lemma fold_upd_keys {B : Type} (f : Registry -> B -> Registry) l st :
  (forall s b, Map_values (f s b) = Map_values s) ->
  Map_values (fold_left f l st) = Map_values st.
Proof.
  intros H. apply (fold_left_inv (fun s => Map_values s = Map_values st)); auto.
  intros x b _ Hx. now rewrite H.
Qed.

Lemma attachResult_keys owner s r :
  Map_values (snd (attachResult owner s r)) = Map_values (snd s).
Proof. destruct s as [u st]. simpl. apply updChildren_keys. Qed.

Lemma attachResults_keys owner trs u st :
  Map_values (snd (attachResults owner trs u st)) = Map_values st.
Proof.
  unfold attachResults.
  apply (fold_left_inv (fun s => Map_values (snd s) = Map_values st)); auto.
  intros x b _ Hx. now rewrite attachResult_keys.
Qed.

Lemma attachOne_keys target s x :
  Map_values (snd (attachOne target s x)) = Map_values (snd s).
Proof.
  destruct s as [u st]. unfold attachOne. destruct (Set_has u (id x)); simpl; auto.
  apply updChildren_keys.
Qed.

Lemma attachUnused_keys target xs u st :
  Map_values (snd (attachUnused target xs u st)) = Map_values st.
Proof.
  unfold attachUnused.
  apply (fold_left_inv (fun s => Map_values (snd s) = Map_values st)); auto.
  intros x b _ Hx. now rewrite attachOne_keys.
Qed.

Lemma attachTool_keys ai trs s tool :
  Map_values (snd (attachTool ai trs s tool)) = Map_values (snd s).
Proof.
  destruct s as [u st]. unfold attachTool. destruct (Set_has u (id tool)); simpl; auto.
  pose proof (attachResults_keys tool trs (Set_add u (id tool)) st) as H.
  destruct (attachResults tool trs (Set_add u (id tool)) st) as [u' st']. simpl in *.
  unfold pushChild. now rewrite updChildren_keys.
Qed.


Lemma promote_keys trs s node :
  Map_values (reorg_st (promote trs s node)) = Map_values (reorg_st s).
Proof.
  destruct s as [[u st] roots]. unfold promote, reorg_st.
  destruct (negb (hasType tool_result node) && negb (Set_has u (id node))); simpl; auto.
  pose proof (attachResults_keys node trs (Set_add u (id node)) st) as H.
  destruct (attachResults node trs (Set_add u (id node)) st) as [u' st']. simpl in *. auto.
Qed.

Lemma turn_keys allNodes t nx s :
  Map_values (reorg_st (turn allNodes t nx s)) = Map_values (reorg_st s).
Proof.
  destruct s as [[u st] roots]. unfold turn.
  set (u1 := Set_add u (id t)).
  set (turnNodes := filter (inTurn t nx u1) allNodes).
  destruct (last_opt (filter (hasType assistant) turnNodes)) as [ai|].
  - pose proof (attachUnused_keys ai (filter (hasType thinking) turnNodes)
                  (Set_add u1 (id ai)) st) as H1.
    destruct (attachUnused ai (filter (hasType thinking) turnNodes) _ st) as [u2 st2].
    simpl in H1.
    match goal with |- context [fold_left (attachTool ai ?trs) ?l (u2, st2)] =>
      assert (H2 : Map_values (snd (fold_left (attachTool ai trs) l (u2, st2))) = Map_values st2)
    end.
    { apply (fold_left_inv (fun s => Map_values (snd s) = Map_values st2)); auto.
      intros x b _ Hx. now rewrite attachTool_keys. }
    destruct (fold_left (attachTool ai _) _ (u2, st2)) as [u3 st3]. simpl in H2.
    match goal with |- context [attachUnused ai ?l u3 st3] =>
      pose proof (attachUnused_keys ai l u3 st3) as H3;
      destruct (attachUnused ai l u3 st3) as [u4 st4]
    end.
    simpl in *. unfold reorg_st. simpl. rewrite updChildren_keys. congruence.
  - destruct turnNodes as [|n0 rest] eqn:E; [reflexivity|].
    apply (fold_left_inv (fun s => Map_values (reorg_st s) = Map_values st)); auto.
    intros x b _ Hx. now rewrite promote_keys.
Qed.

Lemma turns_keys allNodes ts s :
  Map_values (reorg_st (turns allNodes ts s)) = Map_values (reorg_st s).
Proof.
  revert s. induction ts as [|t ts IH]; intros s; simpl; auto.
  rewrite IH. apply turn_keys.
Qed.

Lemma reorganizeForDisplay_keys st roots :
  Map_values (fst (reorganizeForDisplay st roots)) = Map_values st.
Proof.
  unfold reorganizeForDisplay.
  destruct (flattenTree st roots) as [|n0 l0] eqn:E; [reflexivity|].
  set (st1 := fold_left _ (n0 :: l0) st).
  assert (H1 : Map_values st1 = Map_values st).
  { apply fold_upd_keys. intros; apply updChildren_keys. }
  destruct (filter isTurnStarter (sortByTimestamp (n0 :: l0))) as [|t ts] eqn:Et; [exact H1|].
  pose proof (turns_keys (sortByTimestamp (n0 :: l0)) (t :: ts) ([], st1, [])) as H2.
  destruct (turns _ (t :: ts) ([], st1, [])) as [[u st2] roots2].
  unfold reorg_st in H2. simpl in *. congruence.
Qed.

Lemma linkNode_st_keys nodes s node :
  Map_values (fst (linkNode nodes s node)) = Map_values (fst s).
Proof.
  destruct s as [st roots]. unfold linkNode.
  destruct (parentId node) as [p|]; simpl; auto.
  destruct (Str.nonEmpty p && Map_has nodes p); simpl; auto. apply updChildren_keys.
Qed.

Lemma rawLinkage_keys nodes : Map_values (fst (rawLinkage nodes)) = Map_values nodes.
Proof.
  unfold rawLinkage. rewrite reset_all.
  pose proof (fold_left_inv (fun s => Map_values (fst s) = Map_values nodes)
                (linkNode nodes) (Map_values nodes) (cleared nodes, [])) as H.
  destruct (fold_left (linkNode nodes) (Map_values nodes) (cleared nodes, [])) as [st roots].
  simpl. rewrite fold_upd_keys by (intros; apply updChildren_keys).
  apply H.
  - apply cleared_keys.
  - intros x b _ Hx. now rewrite linkNode_st_keys.
Qed.

Lemma buildTree_keys nodes : Map_values (fst (buildTree nodes)) = Map_values nodes.
Proof.
  unfold buildTree. pose proof (rawLinkage_keys nodes) as H.
  destruct (rawLinkage nodes) as [st roots]. simpl in H.
  now rewrite reorganizeForDisplay_keys.
Qed.

Lemma buildTree_again nodes : buildTree (fst (buildTree nodes)) = buildTree nodes.
Proof.
  rewrite <- buildTree_cleared.
  rewrite (cleared_of_keys _ nodes) by apply buildTree_keys.
  apply buildTree_cleared.
Qed.

Lemma buildTree_of_keys a b : Map_values a = Map_values b -> buildTree a = buildTree b.
Proof.
  intros E. rewrite <- (buildTree_cleared a), <- (buildTree_cleared b).
  now rewrite (cleared_of_keys a b).
Qed.

(** C5. Rebuild is idempotent.  [getNodes] rebuilds the children arrays of the
    registry's node objects in place and returns the tree a listener reads.
    Calling it a second time, with no insertion in between, returns the same
    list of trees: the same nodes, the same parent/child edges, the same order
    of roots and of siblings.  The second call also leaves every children
    array as the first call left it. *)
Theorem getNodes_idempotent (w : SessionWatcher) :
  snd (getNodes (fst (getNodes w))) = snd (getNodes w) /\
  nodes (fst (getNodes (fst (getNodes w)))) = nodes (fst (getNodes w)).
Proof.
  unfold getNodes.
  destruct (buildTree (nodes w)) as [st roots] eqn:E. simpl.
  assert (H : buildTree st = (st, roots)).
  { replace st with (fst (buildTree (nodes w))) at 1 by now rewrite E.
    rewrite buildTree_again. exact E. }
  rewrite H. simpl. auto.
Qed.

(** * Children arrays, sets and sorting *)

Lemma Set_has_In u k : Set_has u k = true <-> In k u.
Proof.
  unfold Set_has. rewrite existsb_exists. split.
  - intros (x & Hx & E). apply String.eqb_eq in E. now subst.
  - intros H. exists k. split; auto. apply String.eqb_refl.
Qed.

Lemma Set_has_not_In u k : Set_has u k = false <-> ~ In k u.
Proof.
  rewrite <- Set_has_In. destruct (Set_has u k); split; intros; try discriminate; auto.
  exfalso; auto.
Qed.

Lemma Set_add_In u k i : In i (Set_add u k) <-> In i u \/ i = k.
Proof.
  unfold Set_add. destruct (Set_has u k) eqn:E.
  - apply Set_has_In in E. split; [auto|]. intros [H| ->]; auto.
  - rewrite in_app_iff. simpl. split; intros [H|H]; auto.
    + destruct H as [<-|[]]; auto.
Qed.

Lemma Map_has_In st k : Map_has st k = true <-> In k (map id (Map_values st)).
Proof.
  unfold Map_has, Map_values. rewrite existsb_exists, map_map, in_map_iff. split.
  - intros (e & He & E). apply String.eqb_eq in E. eauto.
  - intros (e & E & He). exists e. split; auto. now apply String.eqb_eq.
Qed.

Lemma Map_has_upd k f st j : Map_has (updChildren k f st) j = Map_has st j.
Proof. now rewrite !Map_has_keys, updChildren_keys. Qed.

Lemma getChildren_upd_same k f st :
  Map_has st k = true -> getChildren (updChildren k f st) k = f (getChildren st k).
Proof.
  unfold Map_has, getChildren, updChildren.
  induction st as [|e st IH]; simpl; [discriminate|].
  destruct (String.eqb (id (fst e)) k) eqn:E; simpl.
  - intros _. now rewrite E.
  - intros H. rewrite E. auto.
Qed.

Lemma getChildren_upd_other k f st j :
  j <> k -> getChildren (updChildren k f st) j = getChildren st j.
Proof.
  intros Hj. unfold getChildren, updChildren.
  induction st as [|e st IH]; simpl; auto.
  destruct (String.eqb (id (fst e)) k) eqn:E; simpl.
  - apply String.eqb_eq in E. rewrite E.
    destruct (String.eqb k j) eqn:E2; [apply String.eqb_eq in E2; congruence|].
    exact IH.
  - destruct (String.eqb (id (fst e)) j); auto.
Qed.

Lemma getChildren_absent st k : Map_has st k = false -> getChildren st k = [].
Proof.
  unfold Map_has, getChildren. induction st as [|e st IH]; simpl; auto.
  destruct (String.eqb (id (fst e)) k); simpl; [discriminate|auto].
Qed.

Lemma updChildren_absent k f st : Map_has st k = false -> updChildren k f st = st.
Proof.
  unfold Map_has, updChildren. induction st as [|e st IH]; simpl; auto.
  destruct (String.eqb (id (fst e)) k); simpl; [discriminate|].
  intros H. now rewrite IH.
Qed.

Lemma getChildren_cleared st k : getChildren (cleared st) k = [].
Proof.
  unfold getChildren, cleared. induction st as [|e st IH]; simpl; auto.
  destruct (String.eqb (id (fst e)) k); auto.
Qed.

(** After the reset loop over [l], the nodes of [l] have no children and the
    others keep theirs. *)
Lemma getChildren_reset l st k :
  getChildren (fold_left (fun s node => resetChildren node s) l st) k =
  if existsb (fun n => String.eqb (id n) k) l then [] else getChildren st k.
Proof.
  revert st. induction l as [|n l IH]; intros st; simpl; auto.
  rewrite IH. destruct (existsb _ l) eqn:E.
  - now rewrite orb_true_r.
  - rewrite orb_false_r. unfold resetChildren.
    destruct (String.eqb (id n) k) eqn:E2.
    + apply String.eqb_eq in E2. subst k.
      destruct (Map_has st (id n)) eqn:Eh.
      * now rewrite getChildren_upd_same.
      * rewrite updChildren_absent by auto. now apply getChildren_absent.
    + apply getChildren_upd_other. intros ->. now rewrite String.eqb_refl in E2.
Qed.

Lemma insert_perm x l : Permutation (insertByTimestamp x l) (x :: l).
Proof.
  induction l as [|y l IH]; simpl; auto.
  destruct (byTimestamp x y <=? 0)%Z; auto.
  rewrite IH. apply perm_swap.
Qed.

Lemma insertion_perm l : Permutation (fold_right insertByTimestamp [] l) l.
Proof.
  induction l as [|x l IH]; simpl; auto.
  rewrite insert_perm. now constructor.
Qed.

(** Whatever the timestamps, sorting permutes. *)
Lemma sort_perm l : Permutation (sortByTimestamp l) l.
Proof.
  unfold sortByTimestamp. destruct (consistent l).
  - apply insertion_perm.
  - apply Array_sort_permutes.
Qed.

Lemma parses_time n : parses n = true -> timestamp n = Ms (time n).
Proof. unfold parses, time. now destruct (timestamp n). Qed.

Lemma byTimestamp_time x y :
  parses x = true -> parses y = true -> byTimestamp x y = (time x - time y)%Z.
Proof.
  intros Hx Hy. unfold byTimestamp.
  now rewrite (parses_time x Hx), (parses_time y Hy).
Qed.

Lemma Time_lt_time x y :
  Time_lt (timestamp x) (timestamp y) = true <->
  parses x = true /\ parses y = true /\ (time x < time y)%Z.
Proof.
  unfold Time_lt, parses, time.
  destruct (timestamp x), (timestamp y); simpl; rewrite ?Z.ltb_lt;
    intuition (try discriminate; auto).
Qed.

Lemma Parsed_perm l l' : Permutation l l' -> Parsed l -> Parsed l'.
Proof. intros H P n Hn. apply P. eapply Permutation_in; [apply Permutation_sym|]; eauto. Qed.

Lemma Parsed_cons x l : Parsed (x :: l) <-> parses x = true /\ Parsed l.
Proof.
  unfold Parsed. simpl. split.
  - intros H. split; auto.
  - intros [H1 H2] n [<-|Hn]; auto.
Qed.

Lemma Parsed_consistent l : Parsed l -> consistent l = true.
Proof.
  intros H. unfold consistent. apply orb_true_iff. left.
  apply forallb_forall. exact H.
Qed.

Lemma insert_sorted x l :
  parses x = true -> Parsed l ->
  StronglySorted le_time l -> StronglySorted le_time (insertByTimestamp x l).
Proof.
  intros Hx Hl. induction 1 as [|y l Hs IH Hy]; simpl.
  - repeat constructor.
  - apply Parsed_cons in Hl. destruct Hl as [Hpy Hl].
    rewrite (byTimestamp_time x y Hx Hpy).
    destruct (Z.leb_spec (time x - time y) 0).
    + constructor; [constructor; auto|].
      constructor; [unfold le_time; lia|].
      rewrite Forall_forall in *. intros z Hz. unfold le_time in *.
      specialize (Hy z Hz). lia.
    + constructor; auto.
      rewrite Forall_forall in *. intros z Hz.
      apply (Permutation_in _ (insert_perm x l)) in Hz.
      destruct Hz as [<-|Hz]; [unfold le_time; lia|auto].
Qed.

(** When every timestamp parses, sorting puts the nodes in time order. *)
Lemma sort_sorted l : Parsed l -> StronglySorted le_time (sortByTimestamp l).
Proof.
  intros H. unfold sortByTimestamp. rewrite (Parsed_consistent l H).
  induction l as [|x l IH]; simpl; [constructor|].
  apply Parsed_cons in H. destruct H as [Hx Hl].
  apply insert_sorted; auto.
  apply (Parsed_perm l); auto. apply Permutation_sym, insertion_perm.
Qed.

Lemma filter_sorted (f : ConversationNode -> bool) l :
  StronglySorted le_time l -> StronglySorted le_time (filter f l).
Proof.
  induction 1 as [|y l Hs IH Hy]; simpl; [constructor|].
  destruct (f y); auto. constructor; auto.
  rewrite Forall_forall in *. intros z Hz. apply filter_In in Hz. apply Hy; tauto.
Qed.

Lemma sort_In l x : In x (sortByTimestamp l) <-> In x l.
Proof.
  split; apply Permutation_in; [apply sort_perm|apply Permutation_sym, sort_perm].
Qed.

Lemma sort_ids_perm l : Permutation (map id (sortByTimestamp l)) (map id l).
Proof. apply Permutation_map, sort_perm. Qed.

Lemma NoDup_filter_ids (f : ConversationNode -> bool) l :
  NoDup (map id l) -> NoDup (map id (filter f l)).
Proof.
  induction l as [|x l IH]; simpl; auto.
  intros H. inversion H as [|? ? Hx Hl]; subst.
  destruct (f x); simpl; auto. constructor; auto.
  intros Hin. apply Hx. apply in_map_iff in Hin. destruct Hin as (y & E & Hy).
  apply filter_In in Hy. apply in_map_iff. exists y. tauto.
Qed.

(** Ids name the nodes of a list without repeated ids. *)
Lemma id_inj A x y :
  NoDup (map id A) -> In x A -> In y A -> id x = id y -> x = y.
Proof.
  induction A as [|a A IH]; simpl; [tauto|].
  intros H Hx Hy E. inversion H as [|? ? Ha HA]; subst.
  destruct Hx as [->|Hx], Hy as [->|Hy]; auto.
  - exfalso. apply Ha. rewrite E. now apply in_map.
  - exfalso. apply Ha. rewrite <- E. now apply in_map.
Qed.

(** * Forests of children arrays *)

Lemma NoDup_snoc {T : Type} (l : list T) (a : T) : NoDup l -> ~ In a l -> NoDup (l ++ [a]).
Proof.
  intros Hl Ha. apply NoDup_app; auto.
  - repeat constructor. simpl; tauto.
  - intros x Hx [<-|[]]. contradiction.
Qed.

Lemma kids_upd st k f q :
  kids (updChildren k f st) q =
  if String.eqb (id q) k && Map_has st k then f (kids st q) else kids st q.
Proof.
  unfold kids. destruct (String.eqb (id q) k) eqn:E; simpl.
  - apply String.eqb_eq in E. subst k. destruct (Map_has st (id q)) eqn:Eh.
    + now apply getChildren_upd_same.
    + now rewrite updChildren_absent.
  - apply getChildren_upd_other. intros E2. rewrite E2 in E.
    now rewrite String.eqb_refl in E.
Qed.

Lemma Held_upd A st k f : Held A st -> Held A (updChildren k f st).
Proof. intros H a Ha. rewrite Map_has_upd. auto. Qed.

(** Permuting roots and children arrays keeps a forest a forest. *)
Lemma forest_perm A st st' R R' :
  (forall q, Permutation (kids st' q) (kids st q)) -> Permutation R' R ->
  Forest A st R -> Forest A st' R'.
Proof.
  intros Hk HR [F1 F2 F3 F4 F5 F6].
  assert (Hin : forall q i, In i (map id (kids st' q)) <-> In i (map id (kids st q))).
  { intros q i. split; apply Permutation_in, Permutation_map; auto.
    now apply Permutation_sym. }
  assert (HinR : forall i, In i (map id R') <-> In i (map id R)).
  { intros i. split; apply Permutation_in, Permutation_map; auto.
    now apply Permutation_sym. }
  constructor.
  - eapply Permutation_NoDup; [|exact F1]. apply Permutation_map, Permutation_sym, HR.
  - intros p Hp. eapply Permutation_NoDup; [|exact (F2 p Hp)].
    apply Permutation_map, Permutation_sym, Hk.
  - intros p q i Hp Hq H1 H2. apply (F3 p q i); auto; now apply Hin.
  - intros p i Hp H1 H2. apply (F4 p i); auto; [now apply HinR|now apply Hin].
  - intros r Hr. apply F5. eapply Permutation_in; eauto.
  - intros p x Hp Hx. apply (F6 p); auto. eapply Permutation_in; eauto.
Qed.

Lemma placed_perm A st st' R R' i :
  (forall q, Permutation (kids st' q) (kids st q)) -> Permutation R' R ->
  (Placed A st' R' i <-> Placed A st R i).
Proof.
  intros Hk HR. unfold Placed. split; intros [H|(p & Hp & H)].
  - left. eapply Permutation_in; [apply Permutation_map; exact HR|auto].
  - right. exists p. split; auto.
    eapply Permutation_in; [apply Permutation_map, Hk|auto].
  - left. eapply Permutation_in; [apply Permutation_map, Permutation_sym; exact HR|auto].
  - right. exists p. split; auto.
    eapply Permutation_in; [apply Permutation_map, Permutation_sym, Hk|auto].
Qed.

Lemma kids_upd_perm st k f q :
  (forall l, Permutation (f l) l) -> Permutation (kids (updChildren k f st) q) (kids st q).
Proof.
  intros Hf. rewrite kids_upd. destruct (String.eqb (id q) k && Map_has st k); auto.
Qed.

Section ForestSteps.

Variable A : list ConversationNode.
Hypothesis A_nodup : NoDup (map id A).

Lemma In_kids_push st p x q y :
  Held A st -> In p A ->
  (In y (kids (pushChild (id p) x st) q) <->
   In y (kids st q) \/ (id q = id p /\ y = x)).
Proof.
  intros Hh Hp. unfold pushChild. rewrite kids_upd, (Hh p Hp), andb_true_r.
  destruct (String.eqb (id q) (id p)) eqn:E.
  - apply String.eqb_eq in E. rewrite in_app_iff. simpl. intuition.
  - apply String.eqb_neq in E. intuition.
Qed.

Lemma In_ids_kids_push st p x q i :
  Held A st -> In p A ->
  (In i (map id (kids (pushChild (id p) x st) q)) <->
   In i (map id (kids st q)) \/ (id q = id p /\ i = id x)).
Proof.
  intros Hh Hp. rewrite !in_map_iff. split.
  - intros (y & E & Hy). apply (In_kids_push st p x q y Hh Hp) in Hy.
    destruct Hy as [Hy|[Hq ->]]; eauto.
  - intros [(y & E & Hy)|[Hq ->]].
    + exists y. split; auto. apply In_kids_push; auto.
    + exists x. split; auto. apply In_kids_push; auto.
Qed.

Lemma push_kid_placed st R p x i :
  Held A st -> In p A ->
  (Placed A (pushChild (id p) x st) R i <-> Placed A st R i \/ i = id x).
Proof.
  intros Hh Hp. unfold Placed. split.
  - intros [H|(q & Hq & H)]; auto.
    apply In_ids_kids_push in H; auto. destruct H as [H|[_ ->]]; eauto.
  - intros [[H|(q & Hq & H)]| ->]; auto.
    + right. exists q. split; auto. apply In_ids_kids_push; auto.
    + right. exists p. split; auto. apply In_ids_kids_push; auto.
Qed.

Lemma push_kid_forest st R p x :
  Forest A st R -> Held A st -> In p A -> In x A -> ~ Placed A st R (id x) ->
  Forest A (pushChild (id p) x st) R.
Proof.
  intros [F1 F2 F3 F4 F5 F6] Hh Hp Hx Hnp.
  assert (Hfree : forall q, In q A -> ~ In (id x) (map id (kids st q))).
  { intros q Hq H. apply Hnp. right. eauto. }
  constructor; auto.
  - intros q Hq. unfold pushChild. rewrite kids_upd, (Hh p Hp), andb_true_r.
    destruct (String.eqb (id q) (id p)); auto.
    rewrite map_app. apply NoDup_snoc; auto.
  - intros q q' i Hq Hq' H1 H2.
    apply In_ids_kids_push in H1; auto. apply In_ids_kids_push in H2; auto.
    destruct H1 as [H1|[E1 ->]], H2 as [H2|[E2 E2']]; try congruence.
    + apply (F3 q q' i); auto.
    + subst i. exfalso. apply (Hfree q Hq H1).
    + exfalso. apply (Hfree q' Hq' H2).
  - intros q i Hq Hi H. apply In_ids_kids_push in H; auto.
    destruct H as [H|[_ ->]]; [eapply F4; eauto|]. apply Hnp. now left.
  - intros q y Hq Hy. apply In_kids_push in Hy; auto.
    destruct Hy as [Hy|[_ ->]]; eauto.
Qed.

Lemma push_root_placed st R x i :
  Placed A st (R ++ [x]) i <-> Placed A st R i \/ i = id x.
Proof.
  unfold Placed. rewrite map_app, in_app_iff. simpl. intuition.
Qed.

Lemma push_root_forest st R x :
  Forest A st R -> In x A -> ~ Placed A st R (id x) -> Forest A st (R ++ [x]).
Proof.
  intros [F1 F2 F3 F4 F5 F6] Hx Hnp. constructor; auto.
  - rewrite map_app. apply NoDup_snoc; auto. intros H. apply Hnp. now left.
  - intros p i Hp Hi H. rewrite map_app, in_app_iff in Hi. simpl in Hi.
    destruct Hi as [Hi|[<-|[]]]; [eapply F4; eauto|]. apply Hnp. right. eauto.
  - intros r Hr. apply in_app_iff in Hr. simpl in Hr. destruct Hr as [Hr|[<-|[]]]; auto.
Qed.

(** ** Flattening a forest *)

Lemma reach_in st R k a x : Forest A st R -> In a A -> reach st k a x -> In x A.
Proof.
  intros F. revert a. induction k as [|k IH]; simpl; intros a Ha H.
  - now subst.
  - destruct H as (b & Hb & H). apply (IH b); auto. eapply kids_in; eauto.
Qed.

(** The last link of a chain. *)
Lemma reach_last st k a x :
  reach st (S k) a x -> exists q, reach st k a q /\ In x (kids st q).
Proof.
  revert a. induction k as [|k IH]; intros a H.
  - destruct H as (b & Hb & E). simpl in E. subst. exists a. simpl. auto.
  - destruct H as (b & Hb & H). apply IH in H. destruct H as (q & Hq & Hx).
    exists q. split; auto. simpl. eauto.
Qed.

Lemma reach_snoc st k a q x : reach st k a q -> In x (kids st q) -> reach st (S k) a x.
Proof.
  revert a. induction k as [|k IH]; simpl; intros a H Hx.
  - subst. eauto.
  - destruct H as (b & Hb & H). exists b. split; auto. apply IH; auto.
Qed.

(** Two chains that end in the same node: the shorter one starts on the
    longer one. *)
Lemma reach_converge st R k k' a b x :
  Forest A st R -> In a A -> In b A ->
  reach st k a x -> reach st (k + k') b x -> reach st k' b a.
Proof.
  intros F. revert x. induction k as [|k IH]; intros x Ha Hb H1 H2.
  - simpl in *. now subst.
  - apply reach_last in H1. destruct H1 as (q & Hq & Hx).
    simpl in H2. apply reach_last in H2. destruct H2 as (q' & Hq' & Hx').
    assert (In q A) by (apply (reach_in st R k a q F Ha Hq)).
    assert (In q' A) by (apply (reach_in st R (k + k') b q' F Hb Hq')).
    assert (E : id q = id q').
    { eapply (one_parent _ _ _ F q q' (id x)); auto; now apply in_map. }
    assert (q = q') by (apply (id_inj A); auto). subst q'.
    eapply IH; eauto.
Qed.

Lemma apart_roots st R : Forest A st R -> Apart A st R.
Proof.
  intros F. split; [apply F|]. split; [apply F|].
  intros a b m Ha Hb H. apply reach_last in H. destruct H as (q & Hq & Hx).
  assert (In q A). { apply (reach_in st R m b q F); auto. apply F; auto. }
  eapply (root_not_kid _ _ _ F q (id a)); auto; now apply in_map.
Qed.

Lemma apart_kids st R l a : Forest A st R -> Apart A st l -> In a l -> Apart A st (kids st a).
Proof.
  intros F (Hnd & HA & Hno) Ha. pose proof (HA a Ha) as HaA.
  split; [now apply F|]. split; [intros c Hc; eapply kids_in; eauto|].
  intros c d m Hc Hd H.
  apply reach_last in H. destruct H as (q & Hq & Hx).
  assert (HdA : In d A) by (eapply kids_in; eauto).
  assert (HqA : In q A) by (apply (reach_in st R m d q F HdA Hq)).
  assert (E : id q = id a).
  { eapply (one_parent _ _ _ F q a (id c)); auto; now apply in_map. }
  assert (q = a) by (apply (id_inj A); auto). subst q.
  apply (Hno a a m Ha Ha). simpl. eauto.
Qed.

Lemma apart_tail st a l : Apart A st (a :: l) -> Apart A st l.
Proof.
  intros (Hnd & HA & Hno). split; [now inversion Hnd|].
  split; [intros; apply HA; simpl; auto|].
  intros x y m Hx Hy. apply Hno; simpl; auto.
Qed.

Lemma flatten_reach st f l x :
  In x (flatten f st l) -> exists a k, In a l /\ reach st k a x.
Proof.
  revert l. induction f as [|f IH]; intros l H; simpl in H.
  - exists x, 0. simpl. auto.
  - apply in_flat_map in H. destruct H as (a & Ha & [->|H]).
    + exists x, 0. simpl. auto.
    + apply IH in H. destruct H as (b & k & Hb & Hr).
      exists a, (S k). split; auto. simpl. eauto.
Qed.

Lemma flatten_in st R f l x :
  Forest A st R -> (forall a, In a l -> In a A) -> In x (flatten f st l) -> In x A.
Proof.
  intros F Hl H. apply flatten_reach in H. destruct H as (a & k & Ha & Hr).
  apply (reach_in st R k a x F (Hl a Ha) Hr).
Qed.

(** The flattening of a forest lists no id twice, whatever the fuel. *)
Lemma flatten_nodup st R f l :
  Forest A st R -> Apart A st l -> NoDup (map id (flatten f st l)).
Proof.
  intros F. revert l. induction f as [|f IH]; intros l Hap; simpl.
  - apply Hap.
  - induction l as [|a l IHl]; simpl; [constructor|].
    pose proof Hap as (Hnd & HA & Hno).
    assert (HaA : In a A) by (apply HA; simpl; auto).
    assert (Hka : Apart A st (kids st a)) by (eapply apart_kids; eauto; simpl; auto).
    rewrite map_app. simpl. rewrite app_comm_cons. apply NoDup_app.
    + constructor; [|apply IH; exact Hka].
      intros H. apply in_map_iff in H. destruct H as (x & E & Hx).
      assert (HxA : In x A) by (apply (flatten_in st R f _ x F (proj1 (proj2 Hka)) Hx)).
      assert (x = a) by (apply (id_inj A); auto). subst x.
      apply flatten_reach in Hx. destruct Hx as (b & k & Hb & Hr).
      apply (Hno a a k); simpl; eauto.
    + apply IHl. eapply apart_tail; eauto.
    + intros i Hi1 Hi2.
      apply in_map_iff in Hi2. destruct Hi2 as (y & Ey & Hy).
      change (flat_map _ l) with (flatten (S f) st l) in Hy.
      assert (HyA : In y A).
      { apply (flatten_in st R (S f) l y F); auto. intros; apply HA; simpl; auto. }
      apply flatten_reach in Hy. destruct Hy as (b & k' & Hb & Hr').
      assert (Hx : exists k, reach st k a y).
      { destruct Hi1 as [E|Hi1].
        - assert (y = a) by (apply (id_inj A); auto; congruence). subst y.
          exists 0. reflexivity.
        - apply in_map_iff in Hi1. destruct Hi1 as (x & Ex & Hx).
          assert (HxA : In x A) by (apply (flatten_in st R f _ x F (proj1 (proj2 Hka)) Hx)).
          assert (x = y) by (apply (id_inj A); auto; congruence). subst x.
          apply flatten_reach in Hx. destruct Hx as (c & k & Hc & Hr).
          exists (S k). simpl. eauto. }
      destruct Hx as (k & Hr).
      assert (HbA : In b A) by (apply HA; simpl; auto).
      assert (Hab : id a <> id b).
      { inversion Hnd as [|? ? Hn _]; subst. intros E. apply Hn. rewrite E. now apply in_map. }
      destruct (Nat.le_gt_cases k k') as [Hle|Hgt].
      * replace k' with (k + (k' - k)) in Hr' by lia.
        pose proof (reach_converge st R k (k' - k) a b y F HaA HbA Hr Hr') as Hc.
        destruct (k' - k) as [|m]; simpl in Hc.
        -- subst b. auto.
        -- apply (Hno a b m); simpl; auto.
      * replace k with (k' + (k - k')) in Hr by lia.
        pose proof (reach_converge st R k' (k - k') b a y F HbA HaA Hr' Hr) as Hc.
        destruct (k - k') as [|m] eqn:Ek; [lia|].
        apply (Hno b a m); simpl; auto.
Qed.

End ForestSteps.

(** * The raw linkage is a forest *)

Lemma fold_sort_kids_perm l st q :
  Permutation
    (kids (fold_left (fun s n => updChildren (id n) sortByTimestamp s) l st) q)
    (kids st q).
Proof.
  revert st. induction l as [|n l IH]; intros st; simpl; auto.
  rewrite IH. apply kids_upd_perm. apply sort_perm.
Qed.

Lemma fold_sort_kids_held A l st :
  Held A st -> Held A (fold_left (fun s n => updChildren (id n) sortByTimestamp s) l st).
Proof.
  revert st. induction l as [|n l IH]; intros st H; simpl; auto.
  apply IH. now apply Held_upd.
Qed.

Section RawLinkage.

Variable nodes : Registry.
Hypothesis nodes_nodup : NoDup (map id (Map_values nodes)).

Let A := Map_values nodes.

Lemma link_fold l :
  forall st R,
    Forest A st R -> Held A st ->
    (forall x, In x l -> In x A) -> NoDup (map id l) ->
    (forall x, In x l -> ~ Placed A st R (id x)) ->
    Forest A (fst (fold_left (linkNode nodes) l (st, R)))
             (snd (fold_left (linkNode nodes) l (st, R))) /\
    Held A (fst (fold_left (linkNode nodes) l (st, R))).
Proof.
  induction l as [|n l IH]; intros st R F Hh HA Hnd Hfree; cbn [fold_left fst snd]; auto.
  inversion Hnd as [|? ? Hn Hl]; subst.
  assert (HnA : In n A) by (apply HA; simpl; auto).
  assert (Hnp : ~ Placed A st R (id n)) by (apply Hfree; simpl; auto).
  assert (Hroot : Forest A st (R ++ [n]) /\
                  forall x, In x l -> ~ Placed A st (R ++ [n]) (id x)).
  { split; [now apply push_root_forest|].
    intros x Hx H. apply push_root_placed in H. destruct H as [H|E].
    - apply (Hfree x); simpl; auto.
    - apply Hn. rewrite <- E. now apply in_map. }
  assert (Hstep : Forest A (fst (linkNode nodes (st, R) n)) (snd (linkNode nodes (st, R) n)) /\
                  Held A (fst (linkNode nodes (st, R) n)) /\
                  forall x, In x l ->
                    ~ Placed A (fst (linkNode nodes (st, R) n))
                               (snd (linkNode nodes (st, R) n)) (id x)).
  { unfold linkNode. destruct (parentId n) as [p|]; [|simpl; tauto].
    destruct (Str.nonEmpty p && Map_has nodes p) eqn:E; [|simpl; tauto].
    apply andb_true_iff in E. destruct E as [_ E].
    apply Map_has_In in E. apply in_map_iff in E. destruct E as (q & <- & Hq).
    simpl. split; [now apply push_kid_forest|]. split; [now apply Held_upd|].
    intros x Hx H. apply push_kid_placed in H; auto. destruct H as [H|E].
    - apply (Hfree x); simpl; auto.
    - apply Hn. rewrite <- E. now apply in_map. }
  destruct (linkNode nodes (st, R) n) as [st1 R1]. simpl in Hstep.
  destruct Hstep as (S1 & S2 & S3).
  apply IH; auto. intros x Hx. apply HA. simpl. auto.
Qed.

Lemma rawLinkage_forest :
  Forest A (fst (rawLinkage nodes)) (snd (rawLinkage nodes)) /\
  Held A (fst (rawLinkage nodes)).
Proof.
  unfold rawLinkage. rewrite reset_all. fold A.
  assert (H0 : Forest A (cleared nodes) []).
  { constructor; simpl; try (intros; unfold kids; rewrite getChildren_cleared);
      try constructor; try tauto.
    - intros p q i _ _ H. unfold kids in H. now rewrite getChildren_cleared in H.
    - intros p x _ H. unfold kids in H. now rewrite getChildren_cleared in H. }
  assert (Hh0 : Held A (cleared nodes)).
  { intros a Ha. rewrite Map_has_keys, cleared_keys.
    apply existsb_exists. exists a. split; auto. apply String.eqb_refl. }
  destruct (link_fold A (cleared nodes) [] H0 Hh0) as [F Hh]; auto.
  { intros x _ [[]|(p & _ & H)]. unfold kids in H.
    now rewrite getChildren_cleared in H. }
  destruct (fold_left (linkNode nodes) A (cleared nodes, [])) as [st R]. simpl in *.
  split.
  - eapply forest_perm; [| |exact F].
    + intros q. apply fold_sort_kids_perm.
    + apply sort_perm.
  - now apply fold_sort_kids_held.
Qed.

End RawLinkage.

(** * The turns keep a forest *)

Lemma last_opt_In {T : Type} (l : list T) (a : T) : last_opt l = Some a -> In a l.
Proof.
  induction l as [|x l IH]; simpl; [discriminate|].
  destruct l as [|y l].
  - intros H. injection H as ->. auto.
  - intros H. right. apply IH. exact H.
Qed.

Section Turns.

Variable A : list ConversationNode.
Hypothesis A_nodup : NoDup (map id A).

Lemma Ext_refl c s : Ext A c s s.
Proof. destruct s as [[u st] R]. simpl. auto. Qed.

Lemma Ext_trans c s s' s'' : Ext A c s s' -> Ext A c s' s'' -> Ext A c s s''.
Proof.
  destruct s as [[u st] R], s' as [[u' st'] R'], s'' as [[u'' st''] R''].
  simpl. intros (H1 & H2 & H3) (K1 & K2 & K3). repeat split; auto.
  - intros i Hi. destruct (K2 i Hi); auto.
  - intros i Hi. destruct (K3 i Hi) as [H|H]; auto.
Qed.

Lemma Ext_weaken c c' s s' :
  (forall x, In x c -> In x c') -> Ext A c s s' -> Ext A c' s s'.
Proof.
  destruct s as [[u st] R], s' as [[u' st'] R']. simpl.
  intros Hc (H1 & H2 & H3). repeat split; auto.
  intros i Hi. destruct (H2 i Hi) as [H|H]; auto. right.
  apply in_map_iff in H. destruct H as (x & <- & Hx). apply in_map. auto.
Qed.

(** A marked id that fills no slot stays out of every slot. *)
Lemma Ext_pending c u st R u' st' R' i :
  Ext A c (u, st, R) (u', st', R') -> In i u -> ~ Placed A st R i ->
  In i u' /\ ~ Placed A st' R' i.
Proof.
  simpl. intros (H1 & H2 & H3) Hi Hn. split; auto.
  intros H. destruct (H3 i H); auto.
Qed.

(** The two primitive moves. *)
Lemma hang_spec u st R p x :
  Inv A (u, st, R) -> In p A -> In x A -> In (id x) u -> ~ Placed A st R (id x) ->
  Inv A (u, pushChild (id p) x st, R) /\
  forall i, Placed A (pushChild (id p) x st) R i -> Placed A st R i \/ i = id x.
Proof.
  simpl. intros (F & Hh & Hu) Hp Hx Hxu Hnp. split; [split; [|split]|].
  - now apply push_kid_forest.
  - now apply Held_upd.
  - intros i Hi. apply push_kid_placed in Hi; auto. destruct Hi as [Hi| ->]; auto.
  - intros i Hi. apply push_kid_placed in Hi; auto.
Qed.

Lemma root_spec u st R x :
  Inv A (u, st, R) -> In x A -> In (id x) u -> ~ Placed A st R (id x) ->
  Inv A (u, st, R ++ [x]) /\
  forall i, Placed A st (R ++ [x]) i -> Placed A st R i \/ i = id x.
Proof.
  simpl. intros (F & Hh & Hu) Hx Hxu Hnp. split; [split; [|split]|]; auto.
  - now apply push_root_forest.
  - intros i Hi. apply push_root_placed in Hi. destruct Hi as [Hi| ->]; auto.
  - intros i Hi. now apply push_root_placed in Hi.
Qed.

Lemma mark_spec u st R k : Inv A (u, st, R) -> Inv A (Set_add u k, st, R).
Proof.
  simpl. intros (F & Hh & Hu). split; [|split]; auto.
  intros i Hi. apply Set_add_In. auto.
Qed.

(** Marking and hanging an unmarked node. *)
Lemma mark_hang_spec u st R p x :
  Inv A (u, st, R) -> In p A -> In x A -> ~ In (id x) u ->
  Inv A (Set_add u (id x), pushChild (id p) x st, R) /\
  Ext A [x] (u, st, R) (Set_add u (id x), pushChild (id p) x st, R).
Proof.
  intros HI Hp Hx Hxu.
  assert (Hnp : ~ Placed A st R (id x)).
  { intros H. apply Hxu. simpl in HI. now apply HI. }
  destruct (hang_spec (Set_add u (id x)) st R p x) as [H1 H2]; auto.
  - now apply mark_spec.
  - apply Set_add_In. auto.
  - split; auto. simpl. repeat split.
    + intros i Hi. apply Set_add_In. auto.
    + intros i Hi. apply Set_add_In in Hi. destruct Hi as [Hi| ->]; auto.
    + intros i Hi. destruct (H2 i Hi) as [H| ->]; auto.
Qed.

Lemma attachResult_fold owner rs R :
  forall u st,
    Inv A (u, st, R) -> In owner A ->
    (forall r, In r rs -> In r A) -> NoDup (map id rs) ->
    (forall r, In r rs -> ~ In (id r) u) ->
    Inv A (fst (fold_left (attachResult owner) rs (u, st)),
           snd (fold_left (attachResult owner) rs (u, st)), R) /\
    Ext A rs (u, st, R)
        (fst (fold_left (attachResult owner) rs (u, st)),
         snd (fold_left (attachResult owner) rs (u, st)), R).
Proof.
  induction rs as [|r rs IH]; intros u st HI Ho HA Hnd Hu; cbn [fold_left fst snd].
  - split; auto. apply Ext_refl.
  - inversion Hnd as [|? ? Hr Hrs]; subst.
    destruct (mark_hang_spec u st R owner r) as [H1 H2]; auto.
    { apply HA; simpl; auto. } { apply Hu; simpl; auto. }
    unfold attachResult at 2 4 6 8.
    destruct (IH (Set_add u (id r)) (pushChild (id owner) r st)) as [K1 K2]; auto.
    { intros; apply HA; simpl; auto. }
    { intros r' Hr' H. apply Set_add_In in H. destruct H as [H|E].
      - apply (Hu r'); simpl; auto.
      - apply Hr. rewrite <- E. now apply in_map. }
    split; auto.
    eapply Ext_trans.
    + eapply Ext_weaken; [|exact H2]. intros x [<-|[]]. simpl. auto.
    + eapply Ext_weaken; [|exact K2]. intros x Hx. simpl. auto.
Qed.

Lemma attachResults_spec owner trs u st R :
  Inv A (u, st, R) -> In owner A ->
  (forall r, In r trs -> In r A) -> NoDup (map id trs) ->
  Inv A (fst (attachResults owner trs u st), snd (attachResults owner trs u st), R) /\
  Ext A trs (u, st, R)
      (fst (attachResults owner trs u st), snd (attachResults owner trs u st), R).
Proof.
  intros HI Ho HA Hnd. unfold attachResults.
  set (m := filter (fun r => parentIs r owner && negb (Set_has u (id r))) trs).
  destruct (attachResult_fold owner m R u st) as [H1 H2]; auto.
  - intros r Hr. apply filter_In in Hr. apply HA; tauto.
  - now apply NoDup_filter_ids.
  - intros r Hr. apply filter_In in Hr. destruct Hr as [_ Hr].
    apply andb_true_iff in Hr. destruct Hr as [_ Hr].
    apply negb_true_iff in Hr. now apply Set_has_not_In.
  - split; auto. eapply Ext_weaken; [|exact H2].
    intros x Hx. apply filter_In in Hx. tauto.
Qed.

Lemma attachOne_spec target R s x :
  Inv A (fst s, snd s, R) -> In target A -> In x A ->
  Inv A (fst (attachOne target s x), snd (attachOne target s x), R) /\
  Ext A [x] (fst s, snd s, R) (fst (attachOne target s x), snd (attachOne target s x), R).
Proof.
  destruct s as [u st]. cbn [fst snd]. intros HI Ht Hx. unfold attachOne.
  destruct (Set_has u (id x)) eqn:E; cbn [fst snd].
  - split; auto. apply Ext_refl.
  - apply mark_hang_spec; auto. now apply Set_has_not_In.
Qed.

Lemma attachUnused_spec target xs R :
  forall u st,
    Inv A (u, st, R) -> In target A -> (forall x, In x xs -> In x A) ->
    Inv A (fst (attachUnused target xs u st), snd (attachUnused target xs u st), R) /\
    Ext A xs (u, st, R)
        (fst (attachUnused target xs u st), snd (attachUnused target xs u st), R).
Proof.
  unfold attachUnused.
  induction xs as [|x xs IH]; intros u st HI Ht HA; cbn [fold_left fst snd].
  - split; auto. apply Ext_refl.
  - destruct (attachOne_spec target R (u, st) x) as [H1 H2]; auto.
    { apply HA; simpl; auto. }
    destruct (attachOne target (u, st) x) as [u1 st1]. cbn [fst snd] in *.
    destruct (IH u1 st1) as [K1 K2]; auto.
    { intros; apply HA; simpl; auto. }
    split; auto. eapply Ext_trans.
    + eapply Ext_weaken; [|exact H2]. intros y [<-|[]]. simpl. auto.
    + eapply Ext_weaken; [|exact K2]. intros y Hy. simpl. auto.
Qed.

Lemma attachTool_spec a trs R s tool :
  Inv A (fst s, snd s, R) -> In a A -> In tool A ->
  (forall r, In r trs -> In r A) -> NoDup (map id trs) ->
  Inv A (fst (attachTool a trs s tool), snd (attachTool a trs s tool), R) /\
  Ext A (tool :: trs) (fst s, snd s, R)
      (fst (attachTool a trs s tool), snd (attachTool a trs s tool), R).
Proof.
  destruct s as [u st]. cbn [fst snd]. intros HI Ha Ht HA Hnd. unfold attachTool.
  destruct (Set_has u (id tool)) eqn:E; cbn [fst snd].
  - split; auto. apply Ext_refl.
  - apply Set_has_not_In in E.
    assert (Hnp : ~ Placed A st R (id tool)).
    { intros H. apply E. simpl in HI. now apply HI. }
    pose proof (mark_spec u st R (id tool) HI) as HI1.
    destruct (attachResults_spec tool trs (Set_add u (id tool)) st R) as [H1 H2]; auto.
    destruct (attachResults tool trs (Set_add u (id tool)) st) as [u2 st2].
    cbn [fst snd] in *.
    destruct (Ext_pending trs _ _ _ _ _ _ (id tool) H2) as [Hu2 Hnp2]; auto.
    { apply Set_add_In. auto. }
    destruct (hang_spec u2 st2 R a tool) as [K1 K2]; auto.
    split; auto. simpl in H2. destruct H2 as (E1 & E2 & E3). simpl. repeat split.
    + intros i Hi. apply E1, Set_add_In. auto.
    + intros i Hi. destruct (E2 i Hi) as [H|H]; auto.
      apply Set_add_In in H. destruct H as [H| ->]; auto.
    + intros i Hi. destruct (K2 i Hi) as [H| ->]; auto.
      destruct (E3 i H) as [H'|H']; auto.
      right. intros Hi'. apply H'. apply Set_add_In. auto.
Qed.

Lemma attachTool_fold a trs R tools :
  forall u st,
    Inv A (u, st, R) -> In a A -> (forall x, In x tools -> In x A) ->
    (forall r, In r trs -> In r A) -> NoDup (map id trs) ->
    Inv A (fst (fold_left (attachTool a trs) tools (u, st)),
           snd (fold_left (attachTool a trs) tools (u, st)), R) /\
    Ext A (tools ++ trs) (u, st, R)
        (fst (fold_left (attachTool a trs) tools (u, st)),
         snd (fold_left (attachTool a trs) tools (u, st)), R).
Proof.
  induction tools as [|x tools IH]; intros u st HI Ha HT HA Hnd; cbn [fold_left fst snd].
  - split; auto. apply Ext_refl.
  - destruct (attachTool_spec a trs R (u, st) x) as [H1 H2]; auto.
    { apply HT; simpl; auto. }
    destruct (attachTool a trs (u, st) x) as [u1 st1]. cbn [fst snd] in *.
    destruct (IH u1 st1) as [K1 K2]; auto.
    { intros; apply HT; simpl; auto. }
    split; auto. eapply Ext_trans.
    + eapply Ext_weaken; [|exact H2]. intros y [<-|Hy]; simpl; auto.
      right. apply in_or_app. auto.
    + eapply Ext_weaken; [|exact K2]. intros y Hy. simpl. auto.
Qed.

Lemma promote_spec trs s node :
  Inv A s -> In node A -> (forall r, In r trs -> In r A) -> NoDup (map id trs) ->
  Inv A (promote trs s node) /\ Ext A (node :: trs) s (promote trs s node).
Proof.
  destruct s as [[u st] R]. intros HI Hn HA Hnd. unfold promote.
  destruct (negb (hasType tool_result node) && negb (Set_has u (id node))) eqn:E.
  - apply andb_true_iff in E. destruct E as [_ E]. apply negb_true_iff in E.
    apply Set_has_not_In in E.
    assert (Hnp : ~ Placed A st R (id node)).
    { intros H. apply E. simpl in HI. now apply HI. }
    pose proof (mark_spec u st R (id node) HI) as HI1.
    destruct (attachResults_spec node trs (Set_add u (id node)) st R) as [H1 H2]; auto.
    destruct (attachResults node trs (Set_add u (id node)) st) as [u2 st2].
    cbn [fst snd] in *.
    destruct (Ext_pending trs _ _ _ _ _ _ (id node) H2) as [Hu2 Hnp2]; auto.
    { apply Set_add_In. auto. }
    destruct (root_spec u2 st2 R node) as [K1 K2]; auto.
    split; auto. simpl in H2. destruct H2 as (E1 & E2 & E3). simpl. repeat split.
    + intros i Hi. apply E1, Set_add_In. auto.
    + intros i Hi. destruct (E2 i Hi) as [H|H]; auto.
      apply Set_add_In in H. destruct H as [H| ->]; auto.
    + intros i Hi. destruct (K2 i Hi) as [H| ->]; auto.
      destruct (E3 i H) as [H'|H']; auto.
      right. intros Hi'. apply H'. apply Set_add_In. auto.
  - split; auto. apply Ext_refl.
Qed.

Lemma promote_fold trs ns :
  forall s,
    Inv A s -> (forall x, In x ns -> In x A) ->
    (forall r, In r trs -> In r A) -> NoDup (map id trs) ->
    Inv A (fold_left (promote trs) ns s) /\
    Ext A (ns ++ trs) s (fold_left (promote trs) ns s).
Proof.
  induction ns as [|x ns IH]; intros s HI HN HA Hnd; cbn [fold_left].
  - split; auto. apply Ext_refl.
  - destruct (promote_spec trs s x) as [H1 H2]; auto.
    { apply HN; simpl; auto. }
    destruct (IH (promote trs s x)) as [K1 K2]; auto.
    { intros; apply HN; simpl; auto. }
    split; auto. eapply Ext_trans.
    + eapply Ext_weaken; [|exact H2]. intros y [<-|Hy]; simpl; auto.
      right. apply in_or_app. auto.
    + eapply Ext_weaken; [|exact K2]. intros y Hy. simpl. auto.
Qed.

(** One turn: the forest stays a forest; the new marks are the turn starter
    and nodes of this turn. *)
Lemma turn_spec allNodes t nx u st R :
  Inv A (u, st, R) -> (forall x, In x allNodes -> In x A) -> NoDup (map id allNodes) ->
  In t A -> ~ In (id t) u ->
  Inv A (turn allNodes t nx (u, st, R)) /\
  Ext A (t :: filter (inTurn t nx (Set_add u (id t))) allNodes)
      (u, st, R) (turn allNodes t nx (u, st, R)).
Proof.
  intros HI HA Hnd Ht Htu. unfold turn.
  set (u1 := Set_add u (id t)).
  set (turnNodes := filter (inTurn t nx u1) allNodes).
  assert (HTA : forall x, In x turnNodes -> In x A).
  { intros x Hx. apply filter_In in Hx. apply HA; tauto. }
  assert (HTu : forall x, In x turnNodes -> ~ In (id x) u1).
  { intros x Hx. apply filter_In in Hx. destruct Hx as [_ Hx].
    unfold inTurn in Hx. apply andb_true_iff in Hx. destruct Hx as [Hx _].
    apply andb_true_iff in Hx. destruct Hx as [_ Hx].
    apply negb_true_iff in Hx. now apply Set_has_not_In. }
  assert (HTnd : NoDup (map id turnNodes)) by now apply NoDup_filter_ids.
  assert (Hsub : forall f x, In x (filter f turnNodes) -> In x turnNodes).
  { intros f x Hx. apply filter_In in Hx. tauto. }
  assert (Hnp : ~ Placed A st R (id t)).
  { intros H. apply Htu. simpl in HI. now apply HI. }
  (* the turn starter becomes a root *)
  destruct (root_spec u1 st R t) as [I1 P1]; auto.
  { now apply mark_spec. } { apply Set_add_In. auto. }
  assert (E1 : Ext A (t :: turnNodes) (u, st, R) (u1, st, R ++ [t])).
  { simpl. repeat split.
    - intros i Hi. apply Set_add_In. auto.
    - intros i Hi. apply Set_add_In in Hi. destruct Hi as [Hi| ->]; auto.
    - intros i Hi. destruct (P1 i Hi) as [H| ->]; auto. }
  destruct (last_opt (filter (hasType assistant) turnNodes)) as [a|] eqn:Ea.
  - apply last_opt_In in Ea. apply Hsub in Ea.
    pose proof (HTA a Ea) as HaA. pose proof (HTu a Ea) as Hau.
    set (u2 := Set_add u1 (id a)).
    assert (I2 : Inv A (u2, st, R ++ [t])) by now apply mark_spec.
    assert (Hap : ~ Placed A st (R ++ [t]) (id a)).
    { intros H. apply Hau. simpl in I1. now apply I1. }
    assert (E2 : Ext A (t :: turnNodes) (u1, st, R ++ [t]) (u2, st, R ++ [t])).
    { simpl. repeat split; auto.
      - intros i Hi. apply Set_add_In. auto.
      - intros i Hi. apply Set_add_In in Hi. destruct Hi as [Hi| ->]; auto.
        right. right. now apply in_map. }
    destruct (attachUnused_spec a (filter (hasType thinking) turnNodes) (R ++ [t]) u2 st)
      as [I3 E3]; auto.
    { intros x Hx. apply HTA. eapply Hsub; eauto. }
    destruct (attachUnused a (filter (hasType thinking) turnNodes) u2 st) as [u3 st3].
    cbn [fst snd] in I3, E3.
    destruct (attachTool_fold a (filter (hasType tool_result) turnNodes) (R ++ [t])
                (filter isToolFamily turnNodes) u3 st3) as [I4 E4]; auto.
    { intros x Hx. apply HTA. eapply Hsub; eauto. }
    { intros x Hx. apply HTA. eapply Hsub; eauto. }
    { now apply NoDup_filter_ids. }
    destruct (fold_left (attachTool a (filter (hasType tool_result) turnNodes))
                (filter isToolFamily turnNodes) (u3, st3)) as [u4 st4].
    cbn [fst snd] in I4, E4.
    destruct (attachUnused_spec a
                (filter (fun n => negb (sameNode n a)) (filter (hasType assistant) turnNodes))
                (R ++ [t]) u4 st4) as [I5 E5]; auto.
    { intros x Hx. apply HTA. apply filter_In in Hx. destruct Hx as [Hx _].
      eapply Hsub; eauto. }
    destruct (attachUnused a _ u4 st4) as [u5 st5]. cbn [fst snd] in I5, E5.
    assert (E25 : Ext A (t :: turnNodes) (u2, st, R ++ [t]) (u5, st5, R ++ [t])).
    { eapply Ext_trans; [|eapply Ext_trans].
      - eapply Ext_weaken; [|exact E3]. intros x Hx. right. eapply Hsub; eauto.
      - eapply Ext_weaken; [|exact E4]. intros x Hx. right.
        apply in_app_or in Hx. destruct Hx as [Hx|Hx]; eapply Hsub; eauto.
      - eapply Ext_weaken; [|exact E5]. intros x Hx. right.
        apply filter_In in Hx. destruct Hx as [Hx _]. eapply Hsub; eauto. }
    destruct (Ext_pending _ _ _ _ _ _ _ (id a) E25) as [Hau5 Hap5]; auto.
    { apply Set_add_In. auto. }
    (* the children of the response are sorted, then it becomes a root *)
    set (st6 := updChildren (id a) sortByTimestamp st5).
    assert (Hk6 : forall q, Permutation (kids st6 q) (kids st5 q)).
    { intros q. apply kids_upd_perm. apply sort_perm. }
    assert (Hpl : forall i, Placed A st6 (R ++ [t]) i <-> Placed A st5 (R ++ [t]) i).
    { intros i. apply placed_perm; [exact Hk6|apply Permutation_refl]. }
    assert (I6 : Inv A (u5, st6, R ++ [t])).
    { simpl in I5. destruct I5 as (F5 & H5 & U5). simpl. split; [|split].
      - eapply forest_perm; [exact Hk6|apply Permutation_refl|exact F5].
      - now apply Held_upd.
      - intros i Hi. apply U5. now apply Hpl. }
    assert (Hap6 : ~ Placed A st6 (R ++ [t]) (id a)).
    { intros H. apply Hap5. now apply Hpl. }
    destruct (root_spec u5 st6 (R ++ [t]) a) as [I7 P7]; auto.
    split; auto.
    eapply Ext_trans; [exact E1|].
    simpl in E25. destruct E25 as (X1 & X2 & X3). simpl. repeat split.
    + intros i Hi. apply X1, Set_add_In. auto.
    + intros i Hi. destruct (X2 i Hi) as [H|H]; auto.
      apply Set_add_In in H. destruct H as [H| ->]; auto.
      right. right. now apply in_map.
    + intros i Hi. destruct (P7 i Hi) as [H| ->]; auto.
      assert (H5 : Placed A st5 (R ++ [t]) i) by now apply Hpl.
      destruct (X3 i H5) as [H'|H']; auto.
      right. intros Hi'. apply H'. apply Set_add_In. auto.
  - destruct turnNodes as [|n0 rest] eqn:Etn.
    + split; auto.
    + rewrite <- Etn in *.
      destruct (promote_fold (filter (hasType tool_result) turnNodes) turnNodes
                  (u1, st, R ++ [t])) as [I3 E3]; auto.
      { intros x Hx. apply HTA. eapply Hsub; eauto. }
      { now apply NoDup_filter_ids. }
      split; auto. eapply Ext_trans; [exact E1|].
      eapply Ext_weaken; [|exact E3]. intros x Hx. right.
      apply in_app_or in Hx. destruct Hx as [Hx|Hx]; auto. eapply Hsub; eauto.
Qed.

End Turns.

Lemma turns_spec A allNodes ts :
  NoDup (map id A) -> (forall x, In x allNodes -> In x A) -> NoDup (map id allNodes) ->
  forall s,
    Inv A s -> StronglySorted le_time ts -> NoDup (map id ts) ->
    (forall t, In t ts -> In t A) ->
    (forall t, In t ts -> ~ In (id t) (fst (fst s))) ->
    Inv A (turns allNodes ts s).
Proof.
  intros HA Hall Hnd.
  induction ts as [|t rest IH]; intros s HI Hs Hn HtA Htu; cbn [turns]; auto.
  destruct s as [[u st] R]. cbn [fst] in Htu.
  inversion Hs as [|? ? Hs' Hle]; subst. inversion Hn as [|? ? Hnt Hn']; subst.
  destruct (turn_spec A allNodes t (hd_error rest) u st R) as [I1 E1]; auto.
  { apply HtA; simpl; auto. } { apply Htu; simpl; auto. }
  apply IH; auto.
  { intros x Hx. apply HtA. simpl. auto. }
  destruct (turn allNodes t (hd_error rest) (u, st, R)) as [[u1 st1] R1].
  cbn [fst]. simpl in E1. destruct E1 as (_ & E2 & _).
  intros t' Ht' Hin. destruct (E2 _ Hin) as [H|[H|H]].
  - apply (Htu t'); simpl; auto.
  - apply Hnt. rewrite H. now apply in_map.
  - apply in_map_iff in H. destruct H as (n & En & Hn0).
    apply filter_In in Hn0. destruct Hn0 as [HnA Hturn].
    assert (n = t').
    { apply (id_inj A); auto. apply HtA. simpl. auto. }
    subst n. unfold inTurn in Hturn.
    apply andb_true_iff in Hturn. destruct Hturn as [_ Hturn].
    apply andb_true_iff in Hturn. destruct Hturn as [_ Hturn].
    destruct rest as [|nx rest']; [contradiction|]. cbn [hd_error] in Hturn.
    apply Time_lt_time in Hturn. destruct Hturn as (_ & _ & Hturn).
    destruct Ht' as [->|Ht']; [lia|].
    inversion Hs' as [|? ? _ Hle']; subst.
    rewrite Forall_forall in Hle'. specialize (Hle' t' Ht'). unfold le_time in Hle'. lia.
Qed.

Lemma flatten_self f st l x : In x l -> In x (flatten f st l).
Proof.
  destruct f as [|f]; simpl; auto.
  intros H. apply in_flat_map. exists x. simpl. auto.
Qed.

(** The display reorganization returns a forest over nodes of the tree it
    was given. *)
Lemma reorganize_forest A0 st R :
  NoDup (map id A0) -> Parsed A0 -> Forest A0 st R -> Held A0 st ->
  exists A',
    NoDup (map id A') /\ (forall x, In x A' -> In x A0) /\
    Forest A' (fst (reorganizeForDisplay st R)) (snd (reorganizeForDisplay st R)).
Proof.
  intros Hnd Hpar F Hh. unfold reorganizeForDisplay.
  set (all0 := flattenTree st R).
  assert (Hnd0 : NoDup (map id all0)).
  { apply (flatten_nodup A0 Hnd st R); auto. now apply (apart_roots A0 st R). }
  assert (Hin0 : forall x, In x all0 -> In x A0).
  { intros x Hx. apply (flatten_in A0 st R (List.length st) R x F); auto. apply F. }
  assert (HR0 : forall r, In r R -> In r all0).
  { intros r Hr. now apply flatten_self. }
  assert (Hpar0 : Parsed all0) by (intros x Hx; auto).
  destruct all0 as [|n0 l0] eqn:E0.
  - exists A0. auto.
  - rewrite <- E0 in *. clear E0. exists all0. split; auto. split; auto.
    set (st1 := fold_left (fun s node => resetChildren node s) all0 st).
    assert (Hk1 : forall a, In a all0 -> kids st1 a = []).
    { intros a Ha. unfold kids, st1. rewrite getChildren_reset.
      assert (Hx : existsb (fun n => String.eqb (id n) (id a)) all0 = true).
      { apply existsb_exists. exists a. split; auto. apply String.eqb_refl. }
      now rewrite Hx. }
    assert (Hh1 : Held all0 st1).
    { intros a Ha. unfold st1. rewrite Map_has_keys.
      rewrite fold_upd_keys by (intros; apply updChildren_keys).
      rewrite <- Map_has_keys. apply Hh. auto. }
    assert (Hnp1 : forall Rx i, Placed all0 st1 Rx i -> In i (map id Rx)).
    { intros Rx i [H|(p & Hp & H)]; auto. rewrite (Hk1 p Hp) in H. destruct H. }
    assert (F1 : forall Rx, NoDup (map id Rx) -> (forall r, In r Rx -> In r all0) ->
                 Forest all0 st1 Rx).
    { intros Rx H1 H2. constructor; auto.
      - intros p Hp. rewrite (Hk1 p Hp). constructor.
      - intros p q i Hp _ H. rewrite (Hk1 p Hp) in H. destruct H.
      - intros p i Hp _ H. rewrite (Hk1 p Hp) in H. destruct H.
      - intros p x Hp H. rewrite (Hk1 p Hp) in H. destruct H. }
    set (allNodes := sortByTimestamp all0).
    destruct (filter isTurnStarter allNodes) as [|t0 ts0] eqn:Ets.
    + cbn [fst snd]. apply F1; auto. apply F.
    + rewrite <- Ets.
      assert (I1 : Inv all0 (turns allNodes (filter isTurnStarter allNodes) ([], st1, []))).
      { apply turns_spec; auto.
        - intros x Hx. apply (proj1 (sort_In all0 x)). exact Hx.
        - eapply Permutation_NoDup; [|exact Hnd0].
          apply Permutation_sym, sort_ids_perm.
        - simpl. split; [|split]; auto.
          + apply F1; [constructor|intros r []].
          + intros i Hi. apply (Hnp1 [] i Hi).
        - apply filter_sorted, sort_sorted. exact Hpar0.
        - apply NoDup_filter_ids.
          eapply Permutation_NoDup; [|exact Hnd0].
          apply Permutation_sym, sort_ids_perm.
        - intros t Ht. apply filter_In in Ht. destruct Ht as [Ht _].
          apply (proj1 (sort_In all0 t)). exact Ht. }
      destruct (turns allNodes (filter isTurnStarter allNodes) ([], st1, []))
        as [[u2 st2] R2].
      cbn [fst snd]. apply I1.
Qed.

Lemma buildTree_forest nodes :
  NoDup (map id (Map_values nodes)) -> Parsed (Map_values nodes) ->
  exists A',
    NoDup (map id A') /\ (forall x, In x A' -> In x (Map_values nodes)) /\
    Forest A' (fst (buildTree nodes)) (snd (buildTree nodes)).
Proof.
  intros Hnd Hpar. unfold buildTree.
  destruct (rawLinkage_forest nodes Hnd) as [F Hh].
  destruct (rawLinkage nodes) as [st R]. cbn [fst snd] in *.
  now apply reorganize_forest.
Qed.

(** What a listener reads is the flattening of the roots. *)
Lemma forest_nodes_unfold f st l : forest_nodes (map (unfold f st) l) = flatten f st l.
Proof.
  unfold forest_nodes. revert l. induction f as [|f IH]; intros l.
  - induction l as [|n l IHl]; simpl in *; auto. f_equal. exact IHl.
  - induction l as [|n l IHl]; simpl in *; auto. f_equal.
    rewrite IH. f_equal. exact IHl.
Qed.

Lemma Map_set_ids_nodup reg n :
  NoDup (map id (Map_values reg)) -> NoDup (map id (Map_values (Map_set reg n))).
Proof.
  unfold Map_values. induction reg as [|e reg IH]; simpl; intros H.
  - repeat constructor. simpl. tauto.
  - inversion H as [|? ? He Hr]; subst. unfold sameNode.
    destruct (String.eqb (id (fst e)) (id n)) eqn:E; simpl.
    + apply String.eqb_eq in E. rewrite <- E. now constructor.
    + constructor; auto. intros Hin. apply He.
      clear IH H Hr He. induction reg as [|e' reg IHr]; simpl in *.
      * destruct Hin as [Hin|[]]. apply String.eqb_neq in E. congruence.
      * unfold sameNode in Hin. destruct (String.eqb (id (fst e')) (id n)) eqn:E'; simpl in Hin.
        -- apply String.eqb_eq in E'. apply String.eqb_neq in E.
           destruct Hin as [Hin|Hin]; [congruence|auto].
        -- destruct Hin as [Hin|Hin]; auto.
Qed.

(** The rebuilt tree lists no id twice and lists registry nodes only. *)
Lemma rebuilt_tree_ids nodes :
  NoDup (map id (Map_values nodes)) -> Parsed (Map_values nodes) ->
  NoDup (map id (forest_nodes (snapshot (fst (buildTree nodes)) (snd (buildTree nodes))))) /\
  (forall n, In n (forest_nodes (snapshot (fst (buildTree nodes)) (snd (buildTree nodes)))) ->
             In n (Map_values nodes)).
Proof.
  intros Hnd Hpar.
  destruct (buildTree_forest nodes Hnd Hpar) as (A' & HA & Hsub & F).
  destruct (buildTree nodes) as [st R]. cbn [fst snd] in *.
  unfold snapshot. rewrite forest_nodes_unfold. split.
  - apply (flatten_nodup A' HA st R); auto. now apply (apart_roots A' st R).
  - intros n Hn. apply Hsub. apply (flatten_in A' st R (List.length st) R n F); auto. apply F.
Qed.

(** C1, as the code has it.  When the registry names each node once and
    every timestamp parses as a date, in the tree [getNodes] returns no node
    identifier appears twice: not as two roots, not as two children, not as
    a root and a child.  Every node of the tree is a node of the registry.
    (The converse fails: a registry node may be left out of the tree; and
    with a timestamp that is no date a node can be shown twice.) *)
Theorem no_duplication (w : SessionWatcher) :
  NoDup (map id (Map_values (nodes w))) ->
  Parsed (Map_values (nodes w)) ->
  NoDup (map id (forest_nodes (snd (getNodes w)))) /\
  (forall n, In n (forest_nodes (snd (getNodes w))) -> In n (Map_values (nodes w))).
Proof.
  intros Hnd Hpar. unfold getNodes.
  pose proof (rebuilt_tree_ids (nodes w) Hnd Hpar) as H.
  destruct (buildTree (nodes w)) as [st R]. exact H.
Qed.

(** * The fuel is enough *)

Lemma reach_chain st k a x :
  reach st k a x -> exists path, List.length path = k /\ chain st a path.
Proof.
  revert a. induction k as [|k IH]; intros a H.
  - exists []. simpl. auto.
  - destruct H as (b & Hb & H). destruct (IH b H) as (path & Hl & Hc).
    exists (b :: path). simpl. auto.
Qed.

Lemma chain_reach st a path y :
  chain st a path -> In y path -> exists m, reach st (S m) a y.
Proof.
  revert a. induction path as [|b rest IH]; intros a Hc Hy; [destruct Hy|].
  destruct Hc as [Hb Hc]. destruct Hy as [->|Hy].
  - exists 0. simpl. eauto.
  - destruct (IH b Hc Hy) as (m & Hm). exists (S m). simpl. eauto.
Qed.

(** A chain from a node of a forest visits no node twice. *)
Lemma chain_nodup A st R path :
  NoDup (map id A) -> Forest A st R ->
  forall l a, Apart A st l -> In a l -> chain st a path ->
    NoDup (map id (a :: path)) /\ (forall y, In y (a :: path) -> In y A).
Proof.
  intros HA F. induction path as [|b rest IH]; intros l a Hap Ha Hc.
  - split; [repeat constructor; simpl; tauto|].
    intros y [<-|[]]. now apply Hap.
  - destruct Hc as [Hb Hc].
    pose proof (apart_kids A HA st R l a F Hap Ha) as Hk.
    destruct (IH (kids st a) b Hk Hb Hc) as [Hnd Hin].
    assert (HaA : In a A) by now apply Hap.
    split.
    + change (NoDup (id a :: map id (b :: rest))). constructor; auto.
      intros H. apply in_map_iff in H. destruct H as (y & E & Hy).
      assert (y = a) by (apply (id_inj A); auto). subst y.
      assert (Hr : exists m, reach st (S m) a a).
      { apply (chain_reach st a (b :: rest) a); simpl; auto. }
      destruct Hr as (m & Hr). destruct Hap as (_ & _ & Hno). now apply (Hno a a m).
    + intros y [<-|Hy]; auto.
Qed.

Lemma reach_bounded A st R k a x :
  NoDup (map id A) -> Forest A st R -> In a R -> reach st k a x -> k < List.length A.
Proof.
  intros HA F Ha H. apply reach_chain in H. destruct H as (path & <- & Hc).
  destruct (chain_nodup A st R path HA F R a) as [Hnd Hin]; auto.
  { now apply apart_roots. }
  assert (Hle : List.length (map id (a :: path)) <= List.length (map id A)).
  { apply NoDup_incl_length; auto. intros i Hi.
    apply in_map_iff in Hi. destruct Hi as (y & <- & Hy). apply in_map. auto. }
  rewrite !length_map in Hle. simpl in Hle. lia.
Qed.

Lemma unfold_stable_step st f :
  forall a, (forall x, ~ reach st (S f) a x) -> unfold (S f) st a = unfold f st a.
Proof.
  induction f as [|f IH]; intros a H.
  - simpl. destruct (getChildren st (id a)) as [|b l] eqn:E; [reflexivity|].
    exfalso. apply (H b). simpl. exists b. unfold kids. rewrite E. simpl. auto.
  - change (TNode a (map (unfold (S f) st) (getChildren st (id a))) =
            TNode a (map (unfold f st) (getChildren st (id a)))).
    f_equal. apply map_ext_in. intros b Hb. apply IH.
    intros x Hx. apply (H x). simpl. exists b. split; auto.
Qed.

Lemma flatten_stable_step st f :
  forall l, (forall a x, In a l -> ~ reach st (S f) a x) ->
            flatten (S f) st l = flatten f st l.
Proof.
  intros l H. rewrite <- !forest_nodes_unfold. f_equal.
  apply map_ext_in. intros a Ha. apply unfold_stable_step.
  intros x. now apply H.
Qed.

(** More fuel than the forest has nodes changes nothing. *)
Lemma fuel_enough A st R f :
  NoDup (map id A) -> Forest A st R -> List.length A <= f ->
  map (unfold f st) R = map (unfold (List.length A) st) R /\
  flatten f st R = flatten (List.length A) st R.
Proof.
  intros HA F Hle.
  replace f with (List.length A + (f - List.length A)) by lia.
  induction (f - List.length A) as [|d IH]; [rewrite Nat.add_0_r; auto|].
  rewrite Nat.add_succ_r. destruct IH as [IH1 IH2]. rewrite <- IH1, <- IH2.
  assert (Hno : forall a x, In a R -> ~ reach st (S (List.length A + d)) a x).
  { intros a x Ha Hr. apply (reach_bounded A st R _ a x HA F Ha) in Hr. lia. }
  split.
  - apply map_ext_in. intros a Ha. apply unfold_stable_step. intros x. now apply Hno.
  - now apply flatten_stable_step.
Qed.

Lemma sub_length A (B : list ConversationNode) :
  NoDup (map id A) -> (forall x, In x A -> In x B) -> List.length A <= List.length B.
Proof.
  intros HA Hsub.
  rewrite <- (length_map id A), <- (length_map id B).
  apply NoDup_incl_length; auto. intros i Hi.
  apply in_map_iff in Hi. destruct Hi as (y & <- & Hy). apply in_map. auto.
Qed.

(** [flattenTree] runs on the raw linkage with the registry's size as fuel:
    any larger fuel lists the same nodes. *)
Theorem flatten_fuel_enough (nodes : Registry) (f : nat) :
  NoDup (map id (Map_values nodes)) ->
  List.length (fst (rawLinkage nodes)) <= f ->
  flatten f (fst (rawLinkage nodes)) (snd (rawLinkage nodes)) =
  flattenTree (fst (rawLinkage nodes)) (snd (rawLinkage nodes)).
Proof.
  intros Hnd Hf. destruct (rawLinkage_forest nodes Hnd) as [F _].
  pose proof (rawLinkage_keys nodes) as Hk.
  assert (Hl : List.length (fst (rawLinkage nodes)) = List.length (Map_values nodes)).
  { rewrite <- Hk. unfold Map_values. now rewrite length_map. }
  unfold flattenTree.
  destruct (fuel_enough _ _ _ f Hnd F) as [_ H1]; [lia|].
  destruct (fuel_enough _ _ _ (List.length (fst (rawLinkage nodes))) Hnd F) as [_ H2]; [lia|].
  congruence.
Qed.

End Rebuild.

(** * Registries the watcher can reach *)

Section Reachable.

Variable rt : Runtime.

Lemma fold_Map_set_nodup l reg :
  NoDup (map id (Map_values reg)) -> NoDup (map id (Map_values (fold_left Map_set l reg))).
Proof.
  revert reg. induction l as [|n l IH]; intros reg H; simpl; auto.
  apply IH. now apply Map_set_ids_nodup.
Qed.

Lemma processLine_nodup line reg :
  NoDup (map id (Map_values reg)) ->
  NoDup (map id (Map_values (fst (processLine rt line reg)))).
Proof.
  intros H. unfold processLine. destruct (JSON_parse_entry rt line) as [e|]; auto.
  destruct e as [eb c|eb c t|m|u m]; unfold processEntry; cbn [fst]; auto.
  - destruct (createUserNode rt (UserMessageEntry eb c)); cbn [fst]; auto.
    now apply Map_set_ids_nodup.
  - now apply fold_Map_set_nodup.
Qed.

Lemma ingest_nodup lines s :
  NoDup (map id (Map_values (fst (fst s)))) ->
  NoDup (map id (Map_values (fst (fst (fold_left (ingestLine rt) lines s))))).
Proof.
  revert s. induction lines as [|l lines IH]; intros s H; simpl; auto.
  apply IH. destruct s as [[n p] h]. unfold ingestLine.
  destruct (isValidJsonLine rt l); auto.
  destruct (Set_has p (hashLine rt l)); auto. cbn [negb].
  pose proof (processLine_nodup l n H) as H'.
  destruct (processLine rt l n) as [n' r]. exact H'.
Qed.

Lemma getNodes_nodup w :
  NoDup (map id (Map_values (nodes w))) ->
  NoDup (map id (Map_values (nodes (fst (getNodes w))))).
Proof.
  intros H. unfold getNodes. pose proof (buildTree_keys (nodes w)) as Hk.
  destruct (buildTree (nodes w)) as [st R]. cbn [fst nodes] in *. now rewrite Hk.
Qed.

Lemma readFile_nodup content w :
  NoDup (map id (Map_values (nodes w))) ->
  NoDup (map id (Map_values (nodes (fst (readFile rt content w))))).
Proof.
  intros H. unfold readFile.
  pose proof (ingest_nodup (readLines content) (nodes w, processedLines w, false) H) as H'.
  destruct (fold_left (ingestLine rt) (readLines content) _) as [[n p] h].
  apply getNodes_nodup. exact H'.
Qed.

Lemma readNewContent_nodup content w :
  NoDup (map id (Map_values (nodes w))) ->
  NoDup (map id (Map_values (nodes (fst (readNewContent rt content w))))).
Proof.
  intros H. unfold readNewContent.
  destruct (List.length (readLines content) <=? lastLineCount w)%nat; auto.
  pose proof (ingest_nodup (skipn (lastLineCount w) (readLines content))
                (nodes w, processedLines w, false) H) as H'.
  destruct (fold_left (ingestLine rt) _ _) as [[n p] h]. cbn [fst] in H'.
  destruct h; auto.
  pose proof (getNodes_nodup (mkWatcher n (List.length (readLines content)) p) H') as H2.
  destruct (getNodes _) as [w2 t]. exact H2.
Qed.

(** Whatever the file held at each read, the registry of a watcher started
    fresh names no id twice: the tree theorems apply to it. *)
Lemma watch_nodup reads :
  NoDup (map id (Map_values (nodes (watch rt reads initial)))).
Proof.
  unfold watch. destruct reads as [|c later]; [constructor|].
  assert (H : NoDup (map id (Map_values (nodes (fst (readFile rt c initial)))))).
  { apply readFile_nodup. constructor. }
  revert H. generalize (fst (readFile rt c initial)).
  induction later as [|c' later IH]; intros w H; simpl; auto.
  apply IH. now apply readNewContent_nodup.
Qed.

(** So the tree of a watcher started fresh never shows an id twice, when
    the timestamps it has read all parse. *)
Lemma watched_tree_ids reads :
  Parsed (Map_values (nodes (watch rt reads initial))) ->
  NoDup (map id (forest_nodes (snd (getNodes (watch rt reads initial))))).
Proof.
  intros Hpar. unfold getNodes.
  pose proof (rebuilt_tree_ids (nodes (watch rt reads initial)) (watch_nodup reads) Hpar) as H.
  destruct (buildTree (nodes (watch rt reads initial))) as [st R]. apply H.
Qed.

End Reachable.

Lemma no_duplication_witness :
  let w := watch Ex.rt0 [Ex.log3] initial in
  NoDup (map id (forest_nodes (snd (getNodes (rt := Ex.rt0) w)))) /\
  (forall n, In n (forest_nodes (snd (getNodes (rt := Ex.rt0) w))) ->
             In n (Map_values (nodes w))).
Proof.
  apply (no_duplication (rt := Ex.rt0) (watch Ex.rt0 [Ex.log3] initial)).
  - vm_compute.
    repeat (constructor; [simpl; intuition discriminate|]). constructor.
  - vm_compute. intros n [<-|[<-|[<-|[<-|[<-|[]]]]]]; reflexivity.
Defined.

(** A tool result whose invocation is not in the log is held by the registry
    and appears nowhere in the tree. *)
Lemma orphan_result_dropped :
  map id (Map_values (nodes Ex.orphan_watcher)) = ["u1"; "u3"] /\
  map id (forest_nodes (snd (getNodes (rt := Ex.rt0) Ex.orphan_watcher))) = ["u1"].
Proof. vm_compute. split; reflexivity. Qed.

(** The timestamps must parse.  With one timestamp that is no date the
    comparator of the sort is not consistent; an engine that then leaves the
    array as it is (a sort by insertion does so here: every comparison with
    the unparsable timestamp counts as equal) keeps the user message of
    second 5 behind the one of second 10.  It then falls into the first turn,
    becomes a root there, and is made a root again as a turn starter. *)
Lemma unparsable_timestamp_shown_twice :
  map id (Map_values (nodes Ex.garbled_watcher)) = ["s"; "n"; "z"; "x"] /\
  map timestamp (Map_values (nodes Ex.garbled_watcher)) =
    [Ms 1000; Ms 10000; NaN; Ms 5000] /\
  map id (forest_nodes (snd (getNodes (rt := Ex.rt0) Ex.garbled_watcher))) =
    ["s"; "x"; "n"; "z"; "x"].
Proof. vm_compute. repeat split; reflexivity. Qed.

(** * The line tracker *)

Lemma split_lf_nonempty s : Str.split_lf s <> [].
Proof.
  destruct s as [|c r]; simpl; [discriminate|].
  destruct (Ascii.eqb c Str.lf); [discriminate|].
  destruct (Str.split_lf r); discriminate.
Qed.

(** Text appended after a line feed adds lines and changes none. *)
Lemma split_lf_app p s :
  Str.split_lf (p +++ String Str.lf s) = Str.split_lf p ++ Str.split_lf s.
Proof.
  induction p as [|c r IH]; simpl.
  - reflexivity.
  - rewrite IH. destruct (Ascii.eqb c Str.lf); [reflexivity|].
    pose proof (split_lf_nonempty r) as Hne.
    destruct (Str.split_lf r) as [|l ls]; [contradiction|reflexivity].
Qed.

Lemma readLines_app p s :
  readLines (p +++ String Str.lf s) = readLines p ++ readLines s.
Proof. unfold readLines. now rewrite split_lf_app, filter_app. Qed.

Section TrackerFacts.

Variable rt : Runtime.

Lemma Map_set_keys a b n :
  Map_values a = Map_values b -> Map_values (Map_set a n) = Map_values (Map_set b n).
Proof.
  unfold Map_values. revert b.
  induction a as [|e a IH]; intros [|e' b] H; simpl in *; try discriminate; auto.
  injection H as H1 H2. rewrite H1.
  destruct (sameNode (fst e') n); simpl; f_equal; auto.
Qed.

Lemma fold_Map_set_keys l a b :
  Map_values a = Map_values b ->
  Map_values (fold_left Map_set l a) = Map_values (fold_left Map_set l b).
Proof.
  revert a b. induction l as [|n l IH]; intros a b H; simpl; auto.
  apply IH. now apply Map_set_keys.
Qed.

Lemma processEntry_keys e a b :
  Map_values a = Map_values b ->
  Map_values (fst (processEntry rt e a)) = Map_values (fst (processEntry rt e b)) /\
  snd (processEntry rt e a) = snd (processEntry rt e b).
Proof.
  intros H. destruct e as [eb c|eb c t|m|u m]; unfold processEntry; cbn [fst snd]; auto.
  - destruct (createUserNode rt (UserMessageEntry eb c)); cbn [fst snd]; auto.
    split; auto. now apply Map_set_keys.
  - split; auto. now apply fold_Map_set_keys.
Qed.

Lemma processLine_keys line a b :
  Map_values a = Map_values b ->
  Map_values (fst (processLine rt line a)) = Map_values (fst (processLine rt line b)) /\
  snd (processLine rt line a) = snd (processLine rt line b).
Proof.
  intros H. unfold processLine. destruct (JSON_parse_entry rt line); auto.
  now apply processEntry_keys.
Qed.

Lemma ingestLine_same s s' line :
  same_ingest s s' -> same_ingest (ingestLine rt s line) (ingestLine rt s' line).
Proof.
  destruct s as [[n p] h], s' as [[n' p'] h']. unfold same_ingest. simpl.
  intros [Hn Hp]. subst p'. unfold ingestLine.
  destruct (isValidJsonLine rt line); simpl; auto.
  destruct (Set_has p (hashLine rt line)); simpl; auto.
  destruct (processLine_keys line n n' Hn) as [H1 H2].
  destruct (processLine rt line n) as [m r], (processLine rt line n') as [m' r'].
  simpl in *. auto.
Qed.

Lemma ingest_same lines s s' :
  same_ingest s s' ->
  same_ingest (fold_left (ingestLine rt) lines s) (fold_left (ingestLine rt) lines s').
Proof.
  revert s s'. induction lines as [|l lines IH]; intros s s' H; simpl; auto.
  apply IH. now apply ingestLine_same.
Qed.

(** A line that fails validation changes nothing. *)
Lemma ingest_invalid lines s :
  (forall l, In l lines -> isValidJsonLine rt l = false) ->
  fold_left (ingestLine rt) lines s = s.
Proof.
  revert s. induction lines as [|l lines IH]; intros s H; simpl; auto.
  assert (E : ingestLine rt s l = s).
  { destruct s as [[n p] h]. unfold ingestLine. rewrite (H l); simpl; auto. }
  rewrite E. apply IH. intros; apply H; simpl; auto.
Qed.

(** [hasNewNodes] stays false only if the registry was left alone. *)
Lemma getNodes_tree_of_keys w w' :
  Map_values (nodes w) = Map_values (nodes w') -> snd (getNodes w) = snd (getNodes w').
Proof.
  intros H. unfold getNodes. rewrite (buildTree_of_keys _ _ H).
  destruct (buildTree (nodes w')); reflexivity.
Qed.

Lemma getNodes_keys w : Map_values (nodes (fst (getNodes w))) = Map_values (nodes w).
Proof.
  unfold getNodes. pose proof (buildTree_keys (nodes w)) as H.
  destruct (buildTree (nodes w)); simpl in *. exact H.
Qed.

Lemma getNodes_rest w :
  lastLineCount (fst (getNodes w)) = lastLineCount w /\
  processedLines (fst (getNodes w)) = processedLines w.
Proof. unfold getNodes. destruct (buildTree (nodes w)); simpl; auto. Qed.

(** C6. Ingestion is monotonic.  Split a log's lines into a prefix and the
    remaining suffix: [p] is a text whose lines are the prefix, [full] a text
    whose lines are those of [p] followed by [rest].  Reading [p] with
    [readFile] and then [full] with [readNewContent] leaves a watcher whose
    tree ([getNodes]) is the tree [readFile] emits on [full] in one read; the
    two watchers also hold the same nodes in the same order, the same
    fingerprints and the same line count. *)
Theorem ingestion_monotonic (p full : string) (rest : list string) (w : SessionWatcher)
    (Hsplit : readLines full = readLines p ++ rest) :
  let w2 := fst (readNewContent rt full (fst (readFile rt p w))) in
  let w1 := fst (readFile rt full w) in
  snd (getNodes w2) = snd (readFile rt full w) /\
  Map_values (nodes w2) = Map_values (nodes w1) /\
  processedLines w2 = processedLines w1 /\
  lastLineCount w2 = lastLineCount w1.
Proof.
  cbv zeta. unfold readFile, readNewContent.
  rewrite Hsplit.
  set (Lp := readLines p). set (Ls := rest).
  rewrite fold_left_app.
  destruct (fold_left (ingestLine rt) Lp (nodes w, processedLines w, false))
    as [[n1 pr1] h1] eqn:E1.
  set (wa := mkWatcher n1 (List.length Lp) pr1).
  destruct (getNodes_rest wa) as [Hc Hp].
  pose proof (getNodes_keys wa) as Hk.
  rewrite Hc, Hp. simpl lastLineCount. simpl processedLines.
  destruct (Nat.leb_spec (List.length (Lp ++ Ls)) (List.length Lp)) as [Hle|Hgt].
  - (* nothing was appended *)
    assert (Ls = []) as ->.
    { rewrite length_app in Hle. destruct Ls; simpl in *; [reflexivity|lia]. }
    simpl fold_left. rewrite app_nil_r. simpl fst. fold wa.
    rewrite Hk, Hc, Hp.
    repeat split; auto.
    apply getNodes_tree_of_keys. exact Hk.
  - rewrite skipn_app, skipn_all, Nat.sub_diag. simpl skipn. simpl app.
    assert (Hsame : same_ingest (nodes (fst (getNodes wa)), pr1, false) (n1, pr1, h1)).
    { split; simpl; auto. }
    apply (ingest_same Ls) in Hsame.
    destruct (fold_left (ingestLine rt) Ls (nodes (fst (getNodes wa)), pr1, false))
      as [[n2' pr2'] h2'].
    destruct (fold_left (ingestLine rt) Ls (n1, pr1, h1)) as [[n2 pr2] h2].
    destruct Hsame as [Hn Hpr]. simpl in Hn, Hpr. subst pr2'.
    set (wb' := mkWatcher n2' (List.length (Lp ++ Ls)) pr2).
    set (wb := mkWatcher n2 (List.length (Lp ++ Ls)) pr2).
    assert (Hfin : forall wx, Map_values (nodes wx) = Map_values n2' ->
                   snd (getNodes wx) = snd (getNodes wb)).
    { intros wx Hx. apply getNodes_tree_of_keys. simpl. congruence. }
    destruct (getNodes_rest wb) as [Hc2 Hp2].
    pose proof (getNodes_keys wb) as Hk2.
    destruct h2'.
    + destruct (getNodes_rest wb') as [Hc3 Hp3].
      pose proof (getNodes_keys wb') as Hk3.
      destruct (getNodes wb') as [wc t]. simpl in *.
      repeat split; try congruence.
      apply Hfin. exact Hk3.
    + simpl in Hc2, Hp2, Hk2. simpl. repeat split; try congruence.
      apply (Hfin wb'). reflexivity.
Qed.

(** C9. A malformed trailing line is skipped silently.  Let the watcher have
    read [content] (its line count is that of [content]), and let the file
    now hold the same lines followed by the lines [bad], each of which fails
    [isValidJsonLine] (no brace at both ends, or not parsable).  Then the
    poll cycle [readNewContent] returns normally, emits no snapshot, keeps
    the registry (nodes and children arrays) and the fingerprints as they
    were, and the tree it would show is the tree from before the append. *)
Theorem malformed_line_skipped (content content' : string) (bad : list string)
    (w : SessionWatcher)
    (Hread : lastLineCount w = List.length (readLines content))
    (Happend : readLines content' = readLines content ++ bad)
    (Hbad : forall l, In l bad -> isValidJsonLine rt l = false) :
  let r := readNewContent rt content' w in
  snd r = None /\
  nodes (fst r) = nodes w /\
  processedLines (fst r) = processedLines w /\
  snd (getNodes (fst r)) = snd (getNodes w).
Proof.
  cbv zeta. unfold readNewContent. rewrite Happend, Hread.
  destruct (Nat.leb_spec (List.length (readLines content ++ bad))
                         (List.length (readLines content))) as [Hle|Hgt].
  - simpl. auto.
  - rewrite skipn_app, skipn_all, Nat.sub_diag. simpl skipn. simpl app.
    rewrite ingest_invalid by exact Hbad.
    simpl. repeat split; auto.
    apply getNodes_tree_of_keys. reflexivity.
Qed.

(** A read that finds no more lines than the last one counted is dropped
    whole, whatever the lines now say. *)
Lemma readNewContent_no_growth (c1 c2 : string) (w : SessionWatcher) :
  List.length (readLines c2) <= List.length (readLines c1) ->
  readNewContent rt c2 (fst (readFile rt c1 w)) = (fst (readFile rt c1 w), None).
Proof.
  intros H. unfold readNewContent, readFile.
  destruct (fold_left (ingestLine rt) (readLines c1) _) as [[n1 pr1] h1].
  destruct (getNodes_rest (mkWatcher n1 (List.length (readLines c1)) pr1)) as [Hc _].
  rewrite Hc. simpl lastLineCount.
  destruct (Nat.leb_spec (List.length (readLines c2)) (List.length (readLines c1)));
    [reflexivity|lia].
Qed.

(** ** Skipping by line count on a file that only grows *)

Lemma ingestLine_mono s line h :
  In h (processed_of s) -> In h (processed_of (ingestLine rt s line)).
Proof.
  destruct s as [[n p] b]. unfold processed_of, ingestLine. cbn [fst snd].
  intros H. destruct (isValidJsonLine rt line); auto.
  destruct (Set_has p (hashLine rt line)); auto. cbn [negb].
  destruct (processLine rt line n) as [n' r]. cbn [fst snd].
  unfold Set_add. destruct (Set_has p (hashLine rt line)); auto.
  apply in_or_app. auto.
Qed.

Lemma ingest_mono lines s h :
  In h (processed_of s) -> In h (processed_of (fold_left (ingestLine rt) lines s)).
Proof.
  revert s. induction lines as [|l lines IH]; intros s H; simpl; auto.
  apply IH. now apply ingestLine_mono.
Qed.

(** After the loop, every valid line's fingerprint is in the set. *)
Lemma ingest_marks lines s l :
  In l lines -> isValidJsonLine rt l = true ->
  In (hashLine rt l) (processed_of (fold_left (ingestLine rt) lines s)).
Proof.
  revert s. induction lines as [|x lines IH]; intros s Hin Hv; [destruct Hin|].
  simpl. destruct Hin as [->|Hin]; [|now apply IH].
  apply ingest_mono. destruct s as [[n p] b]. unfold processed_of, ingestLine.
  rewrite Hv. destruct (Set_has p (hashLine rt l)) eqn:E; cbn [negb fst snd].
  - unfold Set_has in E. apply existsb_exists in E. destruct E as (y & Hy & E).
    apply String.eqb_eq in E. now subst.
  - destruct (processLine rt l n) as [n' r]. cbn [fst snd].
    unfold Set_add. rewrite E. apply in_or_app. simpl. auto.
Qed.

(** Lines whose fingerprints are all in the set pass through the loop
    without effect. *)
Lemma ingest_noop lines s :
  (forall l, In l lines -> isValidJsonLine rt l = true -> In (hashLine rt l) (processed_of s)) ->
  fold_left (ingestLine rt) lines s = s.
Proof.
  induction lines as [|x lines IH]; intros H; simpl; auto.
  assert (E : ingestLine rt s x = s).
  { destruct s as [[n p] b]. unfold ingestLine.
    destruct (isValidJsonLine rt x) eqn:Ev; auto.
    assert (Hh : Set_has p (hashLine rt x) = true).
    { unfold Set_has. apply existsb_exists. exists (hashLine rt x). split.
      - apply (H x); simpl; auto.
      - apply String.eqb_refl. }
    now rewrite Hh. }
  rewrite E. apply IH. intros l Hl. apply H. simpl. auto.
Qed.

Lemma in_step_first c w :
  in_step rt c (fst (readFile rt c w)) (fst (readFile rt c w)).
Proof.
  unfold in_step, readFile.
  pose proof (fun l => ingest_marks (readLines c) (nodes w, processedLines w, false) l) as Hm.
  destruct (fold_left (ingestLine rt) (readLines c) _) as [[n p] h].
  destruct (getNodes_rest (mkWatcher n (List.length (readLines c)) p)) as [Hc Hp].
  rewrite Hc, Hp. repeat split; auto.
Qed.

Lemma in_step_next c c' Ls wa wd :
  readLines c' = readLines c ++ Ls ->
  in_step rt c wa wd ->
  in_step rt c' (fst (readNewContent rt c' wa)) (fst (readFile rt c' wd)).
Proof.
  intros Hsplit (Hk & Hp & Hc & Hm). unfold in_step, readNewContent, readFile.
  rewrite Hsplit, Hc, fold_left_app.
  set (Lc := readLines c) in *.
  rewrite (ingest_noop Lc (nodes wd, processedLines wd, false)) by exact Hm.
  assert (Hsame : same_ingest
            (fold_left (ingestLine rt) Ls (nodes wa, processedLines wa, false))
            (fold_left (ingestLine rt) Ls (nodes wd, processedLines wd, false))).
  { apply ingest_same. split; simpl; auto. }
  pose proof (fun l => ingest_marks Ls (nodes wd, processedLines wd, false) l) as Hmark.
  pose proof (fun h => ingest_mono Ls (nodes wd, processedLines wd, false) h) as Hmono.
  destruct (fold_left (ingestLine rt) Ls (nodes wd, processedLines wd, false))
    as [[nd pd] hd] eqn:Ed.
  unfold processed_of in Hmark, Hmono. cbn [fst snd] in Hmark, Hmono.
  assert (Hall : forall l, In l (Lc ++ Ls) -> isValidJsonLine rt l = true -> In (hashLine rt l) pd).
  { intros l Hl Hv. apply in_app_or in Hl. destruct Hl as [Hl|Hl]; auto. }
  destruct (getNodes_rest (mkWatcher nd (List.length (Lc ++ Ls)) pd)) as [Hc2 Hp2].
  pose proof (getNodes_keys (mkWatcher nd (List.length (Lc ++ Ls)) pd)) as Hk2.
  cbn [nodes lastLineCount processedLines] in Hc2, Hp2, Hk2.
  rewrite ?Hk2, ?Hc2, ?Hp2.
  destruct (Nat.leb_spec (List.length (Lc ++ Ls)) (List.length Lc)) as [Hle|Hgt].
  - assert (Ls = []) as HLs.
    { rewrite length_app in Hle. destruct Ls; simpl in *; [reflexivity|lia]. }
    rewrite HLs in *. simpl in Ed. injection Ed as <- <- <-.
    cbn [fst]. rewrite app_nil_r. rewrite app_nil_r in Hall. repeat split; auto.
  - rewrite skipn_app, skipn_all, Nat.sub_diag. simpl skipn. simpl app.
    destruct (fold_left (ingestLine rt) Ls (nodes wa, processedLines wa, false))
      as [[na pa] ha].
    destruct Hsame as [Hn Hpp]. simpl in Hn, Hpp. subst pa.
    destruct ha.
    + destruct (getNodes_rest (mkWatcher na (List.length (Lc ++ Ls)) pd)) as [Hc3 Hp3].
      pose proof (getNodes_keys (mkWatcher na (List.length (Lc ++ Ls)) pd)) as Hk3.
      destruct (getNodes (mkWatcher na (List.length (Lc ++ Ls)) pd)) as [wa'' t].
      cbn [fst nodes lastLineCount processedLines] in *.
      repeat split; try congruence; auto.
    + cbn [fst nodes lastLineCount processedLines]. repeat split; auto.
Qed.

Lemma in_step_reads later :
  forall c wa wd,
    appendOnly (c :: later) ->
    in_step rt c wa wd ->
    exists c',
      in_step rt c'
        (fold_left (fun w' x => fst (readNewContent rt x w')) later wa)
        (fold_left (fun w' x => fst (readFile rt x w')) later wd).
Proof.
  induction later as [|c1 later IH]; intros c wa wd Ha H; cbn [fold_left].
  - exists c. exact H.
  - destruct Ha as [(rest & Hsplit) Ha]. apply (IH c1); auto.
    now apply (in_step_next c c1 rest).
Qed.

(** C2, as the code has it.  Let a file only be appended to: every read
    finds the lines of the read before it, unchanged and in their order, and
    possibly more lines behind them.  Then skipping the lines below the last
    line count changes nothing: after the same reads, the watcher and
    deduplication by fingerprint alone (every line of every read validated
    and looked up in the fingerprint set) hold the same nodes in the same
    order and the same fingerprints, and show the same tree. *)
Theorem skip_neutral_when_growing (reads : list string) (w : SessionWatcher)
    (Happend : appendOnly reads) :
  Map_values (nodes (watch rt reads w)) = Map_values (nodes (dedupOnly rt reads w)) /\
  processedLines (watch rt reads w) = processedLines (dedupOnly rt reads w) /\
  snd (getNodes (watch rt reads w)) = snd (getNodes (dedupOnly rt reads w)).
Proof.
  unfold watch, dedupOnly. destruct reads as [|c0 later].
  - cbn [fold_left]. auto.
  - cbn [fold_left].
    destruct (in_step_reads later c0 _ _ Happend (in_step_first c0 w)) as (c' & Hk & Hp & _).
    repeat split; auto. now apply getNodes_tree_of_keys.
Qed.

End TrackerFacts.

(** Two logs on which skipping by line count loses a record that
    deduplication by fingerprint alone takes.  In the first the file's only
    line is replaced by another line: the second read finds no more lines
    than were counted and is dropped.  In the second the first read ends in a
    line still being written and the second read finds it complete: the
    partial line was counted, so the completed record is never looked at. *)
Lemma skip_not_neutral :
  (map id (Map_values (nodes (watch Ex.rt0 [Ex.line1; Ex.line4] initial))) = ["u1"] /\
   map id (Map_values (nodes (dedupOnly Ex.rt0 [Ex.line1; Ex.line4] initial))) = ["u1"; "u9"]) /\
  (let c1 := Ex.line1 +++ String Str.lf Ex.partial4 in
   let c2 := Ex.line1 +++ String Str.lf Ex.line4 in
   isValidJsonLine Ex.rt0 Ex.partial4 = false /\
   isValidJsonLine Ex.rt0 Ex.line4 = true /\
   map id (Map_values (nodes (watch Ex.rt0 [c1; c2] initial))) = ["u1"] /\
   map id (Map_values (nodes (dedupOnly Ex.rt0 [c1; c2] initial))) = ["u1"; "u9"]).
Proof. vm_compute. repeat split; reflexivity. Qed.

(** Two reads of a file whose writer ends every line with a line feed: the
    first read finds one record, the second the same record and one more. *)
Lemma skip_neutral_when_growing_witness :
  let c1 := Ex.line1 +++ String Str.lf EmptyString in
  let c2 := c1 +++ (Ex.line2 +++ String Str.lf EmptyString) in
  Map_values (nodes (watch Ex.rt0 [c1; c2] initial)) =
    Map_values (nodes (dedupOnly Ex.rt0 [c1; c2] initial)) /\
  processedLines (watch Ex.rt0 [c1; c2] initial) =
    processedLines (dedupOnly Ex.rt0 [c1; c2] initial) /\
  snd (getNodes (rt := Ex.rt0) (watch Ex.rt0 [c1; c2] initial)) =
    snd (getNodes (rt := Ex.rt0) (dedupOnly Ex.rt0 [c1; c2] initial)).
Proof.
  cbv zeta.
  apply (skip_neutral_when_growing Ex.rt0
           [Ex.line1 +++ String Str.lf EmptyString;
            (Ex.line1 +++ String Str.lf EmptyString) +++
            (Ex.line2 +++ String Str.lf EmptyString)] initial).
  simpl. split; [|exact I]. exists [Ex.line2]. vm_compute. reflexivity.
Defined.

(** The partial line fails validation whatever the parser says: it does not
    end with a closing brace. *)
Lemma partial4_invalid rt : isValidJsonLine rt Ex.partial4 = false.
Proof. reflexivity. Qed.

Lemma ingestion_monotonic_witness :
  let w2 := fst (readNewContent Ex.rt0 Ex.log3 (fst (readFile Ex.rt0 Ex.line1 initial))) in
  let w1 := fst (readFile Ex.rt0 Ex.log3 initial) in
  snd (getNodes (rt := Ex.rt0) w2) = snd (readFile Ex.rt0 Ex.log3 initial) /\
  Map_values (nodes w2) = Map_values (nodes w1) /\
  processedLines w2 = processedLines w1 /\
  lastLineCount w2 = lastLineCount w1.
Proof.
  apply (ingestion_monotonic Ex.rt0 Ex.line1 Ex.log3 [Ex.line2; Ex.line3] initial).
  vm_compute. reflexivity.
Defined.

Lemma malformed_line_skipped_witness :
  let w := fst (readFile Ex.rt0 Ex.log3 initial) in
  let r := readNewContent Ex.rt0 (Ex.log3 +++ String Str.lf Ex.partial4) w in
  snd r = None /\
  nodes (fst r) = nodes w /\
  processedLines (fst r) = processedLines w /\
  snd (getNodes (rt := Ex.rt0) (fst r)) = snd (getNodes (rt := Ex.rt0) w).
Proof.
  apply (malformed_line_skipped Ex.rt0 Ex.log3 (Ex.log3 +++ String Str.lf Ex.partial4)
           [Ex.partial4] (fst (readFile Ex.rt0 Ex.log3 initial))).
  - vm_compute. reflexivity.
  - vm_compute. reflexivity.
  - intros l [<-|[]]. vm_compute. reflexivity.
Defined.

(** * Record classification *)

Lemma append_inj_l u a b : u +++ a = u +++ b -> a = b.
Proof. induction u as [|c u IH]; simpl; intros H; auto. injection H as H. auto. Qed.

Lemma Map_get_set_same r n : Map_get (Map_set r n) (id n) = Some n.
Proof.
  unfold Map_get. induction r as [|e r IH]; simpl.
  - now rewrite String.eqb_refl.
  - unfold sameNode. destruct (String.eqb (id (fst e)) (id n)) eqn:E; simpl.
    + now rewrite String.eqb_refl.
    + now rewrite E.
Qed.

Lemma Map_get_set_other r n k : id n <> k -> Map_get (Map_set r n) k = Map_get r k.
Proof.
  intros Hk. apply String.eqb_neq in Hk.
  unfold Map_get. induction r as [|e r IH]; simpl.
  - now rewrite Hk.
  - unfold sameNode. destruct (String.eqb (id (fst e)) (id n)) eqn:E; simpl.
    + apply String.eqb_eq in E. rewrite E, Hk. reflexivity.
    + destruct (String.eqb (id (fst e)) k); auto.
Qed.

Lemma Map_get_fold_other l r k :
  (forall x, In x l -> id x <> k) -> Map_get (fold_left Map_set l r) k = Map_get r k.
Proof.
  revert r. induction l as [|m l IH]; intros r H; simpl; auto.
  rewrite IH by (intros; apply H; simpl; auto).
  apply Map_get_set_other. apply H. simpl; auto.
Qed.

(** Nodes with distinct ids all survive insertion. *)
Lemma Map_get_fold l r n :
  NoDup (map id l) -> In n l -> Map_get (fold_left Map_set l r) (id n) = Some n.
Proof.
  revert r. induction l as [|m l IH]; intros r Hnd Hin; simpl in *; [contradiction|].
  inversion Hnd as [|? ? Hm Hl]; subst.
  destruct Hin as [->|Hin].
  - rewrite Map_get_fold_other.
    + apply Map_get_set_same.
    + intros x Hx E. apply Hm. rewrite <- E. now apply in_map.
  - now apply IH.
Qed.

Section ClassifierFacts.

Variable rt : Runtime.

Lemma truncate_short text n :
  (Z.of_nat (String.length text) <= n)%Z -> truncate text n = text.
Proof. intros H. unfold truncate. apply Z.leb_le in H. now rewrite H. Qed.

Lemma truncate_long text n :
  (3 <= n)%Z -> (n < Z.of_nat (String.length text))%Z ->
  truncate text n = substring 0 (Z.to_nat (n - 3)) text +++ "...".
Proof.
  intros H3 H. unfold truncate.
  destruct (Z.leb_spec (Z.of_nat (String.length text)) n); [lia|].
  unfold Str.slice0. destruct (Z.ltb_spec (n - 3) 0); [lia|].
  now rewrite Z.min_l by lia.
Qed.

(** C8, as the code has it.  An ordinary user node (not a system message, not
    a tool result) carries its text as content, and its summary is
    [truncate content 100]: the whole content when that has 100 characters
    or fewer, and otherwise the first 97 characters followed by three dots
    (100 characters in all, the last three not taken from the content). *)
Theorem user_summary_truncated (e : ConversationEntry) (n : ConversationNode) :
  createUserNode rt e = Some n -> type n = user ->
  exists c, content n = ContentText c /\
    summary n = truncate c 100 /\
    (String.length c <= 100 -> summary n = c) /\
    (100 < String.length c -> summary n = substring 0 97 c +++ "...").
Proof.
  intros H Ht.
  assert (Hreg : forall eb mc, regularUserNode rt e eb mc = Some n ->
            exists c, content n = ContentText c /\ summary n = truncate c 100).
  { intros eb mc Hr. unfold regularUserNode in Hr.
    destruct (skip (detectSystemMessage rt _)); [discriminate|].
    injection Hr as Hr. subst n. simpl in *.
    destruct (isSystem (detectSystemMessage rt _)); [discriminate|].
    eexists; split; reflexivity. }
  assert (Hc : exists c, content n = ContentText c /\ summary n = truncate c 100).
  { destruct e as [eb mc| | |]; try discriminate. unfold createUserNode in H.
    destruct mc as [| | | |[|first rest]|]; try (eapply Hreg; eassumption).
    destruct (isToolResultItem first); [|eapply Hreg; eassumption].
    injection H as H. subst n. discriminate. }
  destruct Hc as (c & Hc & Hs). exists c. repeat split; auto.
  - intros Hl. rewrite Hs. apply truncate_short. lia.
  - intros Hl. rewrite Hs. rewrite truncate_long by lia. reflexivity.
Qed.

(** C7, as the code has it.  The rules of [detectSystemMessage] apply in
    order.  A plain-text user message that does not hold both command
    wrappers is dropped when it holds the local-command-stdout placeholder;
    it is also dropped when it holds the caveat marker, unless the
    command-message rule (with "is running") or the skill-prompt rule claims
    it first.  A dropped message gives no node, and processing its line
    leaves the registry as it was. *)
Theorem boilerplate_suppressed (eb : Entry.Base) (c : string)
    (Hcmd : Str.includes c "<command-name>" && Str.includes c "<command-message>" = false)
    (Hdrop :
       Str.includes c "<local-command-stdout>" = true \/
       (Str.includes c caveat = true /\
        Str.includes c "<command-message>" && Str.includes c "is running" = false /\
        (Str.startsWith c skill_prefix = true ->
         forall info, skill_prompt rt c = Some info -> skip info = true))) :
  let e := UserMessageEntry eb (JStr c) in
  createUserNode rt e = None /\
  (forall reg, processEntry rt e reg = (reg, None)) /\
  (forall line reg, JSON_parse_entry rt line = Some e -> processLine rt line reg = (reg, None)).
Proof.
  cbv zeta.
  assert (Hs : skip (detectSystemMessage rt c) = true).
  { unfold detectSystemMessage. rewrite Hcmd.
    destruct Hdrop as [Hout | (Hcav & Hrun & Hskill)].
    - now rewrite Hout.
    - destruct (Str.includes c "<local-command-stdout>"); [reflexivity|].
      rewrite Hrun.
      destruct (Str.startsWith c skill_prefix) eqn:Ep.
      + destruct (skill_prompt rt c) as [info|] eqn:Ei.
        * now apply Hskill.
        * now rewrite Hcav.
      + now rewrite Hcav. }
  assert (Hn : createUserNode rt (UserMessageEntry eb (JStr c)) = None).
  { unfold createUserNode, regularUserNode. now rewrite Hs. }
  assert (Hp : forall reg, processEntry rt (UserMessageEntry eb (JStr c)) reg = (reg, None)).
  { intros reg. unfold processEntry. now rewrite Hn. }
  repeat split; auto.
  intros line reg Hl. unfold processLine. rewrite Hl. apply Hp.
Qed.

Lemma Map_set_length reg n : List.length (Map_set reg n) <= S (List.length reg).
Proof.
  induction reg as [|e reg IH]; simpl; [lia|].
  destruct (sameNode (fst e) n); simpl; lia.
Qed.

Lemma Map_set_member reg n x :
  In x (Map_values (Map_set reg n)) -> In x (Map_values reg) \/ x = n.
Proof.
  induction reg as [|e reg IH]; simpl.
  - intros [<-|[]]. auto.
  - destruct (sameNode (fst e) n); simpl.
    + intros [<-|H]; auto.
    + intros [<-|H]; auto. destruct (IH H); auto.
Qed.

(** C10.  A user record gives at most one node.  When its content is an array
    whose first item is a tool result, the node is a tool result built from
    the record's base fields and that first item alone: its id is the
    record's uuid, its [parentId] names the tool use of the first item under
    the record's [parentUuid], its content and the outcome it stores are the
    first item's content, its summary is the summary of that content; the
    rest of the array changes nothing but the back-reference [raw].  When
    the first item is not a tool result, no later item makes the node a tool
    result.  Processing a user record adds at most one entry to the
    registry, and a node it adds is the node [createUserNode] made. *)
Theorem user_record_one_node (eb : Entry.Base) (first : JSON) (rest : list JSON) :
  let e := UserMessageEntry eb (JArr (first :: rest)) in
  (if isToolResultItem first then
     exists n,
       createUserNode rt e = Some n /\
       type n = tool_result /\
       id n = Entry.uuid eb /\
       parentId n = Some (parentUuid_text eb +++ "-tool-" +++
                          String_opt (member "tool_use_id" first)) /\
       timestamp n = Entry.timestamp eb /\
       content n = ContentValue (orElse (member "content" first) (JStr EmptyString)) /\
       summary n = getToolResultSummary rt
                     (orElse (member "content" first) (JStr EmptyString))
                     (truthy (member "is_error" first)) /\
       toolResult n =
         Some (if truthy (member "is_error" first)
               then mkToolUseResult None
                      (Some (orElse (member "content" first) (JStr EmptyString))) None
               else mkToolUseResult
                      (Some (orElse (member "content" first) (JStr EmptyString))) None None) /\
       toolName n = None /\ toolInput n = None /\ raw n = e /\
       forall rest',
         let e' := UserMessageEntry eb (JArr (first :: rest')) in
         createUserNode rt e' = Some (withRaw n e')
   else
     forall n, createUserNode rt e = Some n -> type n <> tool_result) /\
  (forall mc reg,
     let e0 := UserMessageEntry eb mc in
     List.length (fst (processEntry rt e0 reg)) <= S (List.length reg) /\
     (forall x, In x (Map_values (fst (processEntry rt e0 reg))) ->
                In x (Map_values reg) \/ createUserNode rt e0 = Some x) /\
     (createUserNode rt e0 = None -> fst (processEntry rt e0 reg) = reg)).
Proof.
  cbv zeta. split.
  - unfold createUserNode. destruct (isToolResultItem first) eqn:E.
    + exists (toolResultNode rt (UserMessageEntry eb (JArr (first :: rest))) eb first).
      split; [reflexivity|]. unfold toolResultNode.
      cbn [type id parentId timestamp content summary toolResult toolName toolInput raw].
      repeat split.
      destruct (truthy (member "is_error" first)); reflexivity.
    + intros n H. unfold regularUserNode in H.
      destruct (skip (detectSystemMessage rt _)); [discriminate|].
      injection H as H. subst n. simpl.
      destruct (isSystem (detectSystemMessage rt _)); discriminate.
  - intros mc reg. unfold processEntry.
    destruct (createUserNode rt (UserMessageEntry eb mc)) as [n|]; cbn [fst].
    + split; [apply Map_set_length|]. split; [|discriminate].
      intros x Hx. apply Map_set_member in Hx. destruct Hx as [Hx| ->]; auto.
    + split; [lia|]. split; auto.
Qed.

Lemma createToolNode_id e eb tur i name input :
  id (createToolNode rt e eb tur i name input) = Entry.uuid eb +++ "-tool-" +++ i.
Proof.
  unfold createToolNode.
  destruct (String.eqb name "Task"); [reflexivity|].
  destruct (String.eqb name "Skill"); [reflexivity|].
  destruct (String.eqb name "SlashCommand"); reflexivity.
Qed.

Lemma assistantNode_ids e eb tur b :
  map id (assistantNode rt e eb tur b) = map (String.append (Entry.uuid eb)) (segment_suffix b).
Proof.
  destruct b; simpl; auto. now rewrite createToolNode_id.
Qed.

Lemma assistantNodes_ids e eb tur blocks :
  map id (flat_map (assistantNode rt e eb tur) blocks) =
  map (String.append (Entry.uuid eb)) (flat_map segment_suffix blocks).
Proof.
  induction blocks as [|b blocks IH]; simpl; auto.
  now rewrite !map_app, IH, assistantNode_ids.
Qed.

Lemma createAssistantNodes_ids eb blocks tur :
  map id (createAssistantNodes rt (AssistantMessageEntry eb (Some blocks) tur)) =
  map (String.append (Entry.uuid eb)) (flat_map segment_suffix blocks).
Proof. unfold createAssistantNodes. apply assistantNodes_ids. Qed.

End ClassifierFacts.

(** An array with two tool results: the node is the result for the first,
    and nothing of the second shows in it. *)
Lemma user_record_one_node_witness :
  let e := UserMessageEntry (Entry.mk (Some "a1") "u2" (Ms 3000))
             (JArr [JObj [("tool_use_id", JStr "abc"); ("type", JStr "tool_result");
                          ("content", JStr "1 failing"); ("is_error", JBool false)];
                    Ex.another_result]) in
  exists n,
    createUserNode Ex.rt0 e = Some n /\
    type n = tool_result /\ id n = "u2" /\ parentId n = Some "a1-tool-abc" /\
    content n = ContentValue (JStr "1 failing") /\ summary n = "1 failing" /\
    map id (Map_values (fst (processEntry Ex.rt0 e []))) = ["u2"].
Proof.
  cbv zeta.
  destruct (user_record_one_node Ex.rt0 (Entry.mk (Some "a1") "u2" (Ms 3000))
              (JObj [("tool_use_id", JStr "abc"); ("type", JStr "tool_result");
                     ("content", JStr "1 failing"); ("is_error", JBool false)])
              [Ex.another_result]) as [H _].
  cbv zeta in H. change (isToolResultItem _) with true in H. cbv iota in H.
  destruct H as (n & Hn & Ht & Hi & Hp & _ & Hc & Hs & _).
  exists n. split; [exact Hn|]. split; [exact Ht|]. split; [exact Hi|].
  split; [exact Hp|]. split; [exact Hc|]. split; [exact Hs|].
  unfold processEntry. rewrite Hn. simpl. now rewrite Hi.
Defined.

Lemma suffix_in k blocks :
  In k (flat_map segment_suffix blocks) ->
  (k = "-thinking" /\ filter isThinkingBlock blocks <> []) \/
  (k = "-text" /\ filter isTextBlock blocks <> []) \/
  (exists i, k = "-tool-" +++ i /\ In i (toolUseIds blocks)).
Proof.
  induction blocks as [|b blocks IH]; simpl; [contradiction|].
  intros H. apply in_app_or in H. destruct H as [H|H].
  - destruct b as [th|tx|i name input|a c ie]; simpl in H; try contradiction;
      destruct H as [<-|[]].
    + left. split; auto. discriminate.
    + right; left. split; auto. discriminate.
    + right; right. exists i. split; auto. simpl. auto.
  - destruct (IH H) as [[-> Hf]|[[-> Hf]|(i & -> & Hi)]].
    + left. split; auto. destruct b; simpl; auto. discriminate.
    + right; left. split; auto. destruct b; simpl; auto. discriminate.
    + right; right. exists i. split; auto. apply in_or_app. auto.
Qed.

Lemma suffixes_distinct blocks :
  List.length (filter isThinkingBlock blocks) <= 1 ->
  List.length (filter isTextBlock blocks) <= 1 ->
  NoDup (toolUseIds blocks) ->
  NoDup (flat_map segment_suffix blocks).
Proof.
  induction blocks as [|b blocks IH]; simpl; intros Hth Htx Htool; [constructor|].
  destruct b as [th|tx|i name input|a c ie]; simpl in *.
  - constructor.
    + intros H. apply suffix_in in H.
      destruct H as [[_ Hf]|[[E _]|(i & E & _)]]; try discriminate.
      destruct (filter isThinkingBlock blocks); [congruence|simpl in Hth; lia].
    + apply IH; auto; lia.
  - constructor.
    + intros H. apply suffix_in in H.
      destruct H as [[E _]|[[_ Hf]|(i & E & _)]]; try discriminate.
      destruct (filter isTextBlock blocks); [congruence|simpl in Htx; lia].
    + apply IH; auto; lia.
  - inversion Htool as [|? ? Hi Hrest]; subst. constructor.
    + intros H. apply suffix_in in H.
      destruct H as [[E _]|[[E _]|(j & E & Hj)]]; try discriminate.
      apply (append_inj_l "-tool-") in E. subst j. contradiction.
    + apply IH; auto.
  - apply IH; auto.
Qed.

(** C4, as the code has it.  A node of an assistant record is named by the
    record's uuid followed by the kind of its segment ("-thinking", "-text")
    or, for a tool invocation, by "-tool-" and the block's id.  So the nodes
    of one record have pairwise distinct ids, and each is found in the
    registry after the record is processed, when the record has at most one
    thinking segment, at most one text segment, and tool invocations with
    pairwise distinct ids. *)
Theorem assistant_ids_distinct (rt : Runtime) (eb : Entry.Base) (blocks : list ContentBlock)
    (tur : option ToolUseResult) (reg : Registry)
    (Hth : List.length (filter isThinkingBlock blocks) <= 1)
    (Htx : List.length (filter isTextBlock blocks) <= 1)
    (Htool : NoDup (toolUseIds blocks)) :
  let e := AssistantMessageEntry eb (Some blocks) tur in
  NoDup (map id (createAssistantNodes rt e)) /\
  forall n, In n (createAssistantNodes rt e) ->
            Map_get (fst (processEntry rt e reg)) (id n) = Some n.
Proof.
  cbv zeta.
  assert (Hnd : NoDup (map id (createAssistantNodes rt (AssistantMessageEntry eb (Some blocks) tur)))).
  { rewrite createAssistantNodes_ids.
    apply Injective_map_NoDup.
    - intros a b. apply append_inj_l.
    - now apply suffixes_distinct. }
  split; auto.
  intros n Hn. unfold processEntry. cbn [fst]. now apply Map_get_fold.
Qed.

Lemma assistant_ids_distinct_witness :
  NoDup (map id (createAssistantNodes Ex.rt0 Ex.entry2)) /\
  forall n, In n (createAssistantNodes Ex.rt0 Ex.entry2) ->
            Map_get (fst (processEntry Ex.rt0 Ex.entry2 [])) (id n) = Some n.
Proof.
  apply (assistant_ids_distinct Ex.rt0 (Entry.mk (Some "u1") "a1" (Ms 2000))
           [ThinkingBlock "Look at the failing test";
            ToolUseBlock "abc" "Bash" [("command", JStr "npm test")];
            TextBlock "I will run the tests"] None []).
  - simpl. lia.
  - simpl. lia.
  - simpl. constructor; [simpl; tauto | constructor].
Defined.

(** Two text segments of one record get the same id, and the registry keeps
    the later one only. *)
Lemma two_texts_collide :
  (forall rt, map id (createAssistantNodes rt Ex.two_texts) = ["a1-text"; "a1-text"]) /\
  (forall rt, map (fun e => summary (fst e)) (fst (processEntry rt Ex.two_texts []))
              = ["second answer"]).
Proof. split; intros rt; vm_compute; reflexivity. Qed.

Lemma user_summary_truncated_witness :
  exists c, content Ex.node1 = ContentText c /\
    summary Ex.node1 = truncate c 100 /\
    (String.length c <= 100 -> summary Ex.node1 = c) /\
    (100 < String.length c -> summary Ex.node1 = substring 0 97 c +++ "...").
Proof.
  apply (user_summary_truncated Ex.rt0 Ex.entry1 Ex.node1).
  - vm_compute. reflexivity.
  - reflexivity.
Defined.

(** A user message of 101 characters: the summary ends in three dots and is
    not the first 100 characters of the content. *)
Lemma user_summary_not_prefix :
  exists n,
    (forall rt, createUserNode rt (UserMessageEntry (Entry.mk None "u1" (Ms 1000)) (JStr Ex.long_text))
                = Some n) /\
    type n = user /\
    content n = ContentText Ex.long_text /\
    String.length Ex.long_text = 101 /\
    summary n <> substring 0 100 Ex.long_text.
Proof.
  exists (mkNode "u1" None (Ms 1000) user (substring 0 97 Ex.long_text +++ "...")
            (ContentText Ex.long_text) None None None None None None
            (UserMessageEntry (Entry.mk None "u1" (Ms 1000)) (JStr Ex.long_text))).
  split; [intros rt; vm_compute; reflexivity|].
  repeat split. vm_compute. discriminate.
Qed.

Lemma boilerplate_suppressed_witness :
  let e := UserMessageEntry (Entry.mk None "u1" (Ms 1000)) (JStr Ex.placeholder) in
  createUserNode Ex.rt0 e = None /\
  (forall reg, processEntry Ex.rt0 e reg = (reg, None)) /\
  (forall line reg, JSON_parse_entry Ex.rt0 line = Some e ->
                    processLine Ex.rt0 line reg = (reg, None)).
Proof.
  apply (boilerplate_suppressed Ex.rt0 (Entry.mk None "u1" (Ms 1000)) Ex.placeholder).
  - vm_compute. reflexivity.
  - left. vm_compute. reflexivity.
Defined.

(** The caveat text alone is dropped, under every runtime. *)
Lemma caveat_alone_dropped rt eb :
  createUserNode rt (UserMessageEntry eb (JStr caveat)) = None.
Proof. reflexivity. Qed.

(** A user message that holds the caveat text inside a command wrapper is
    kept: the command rule comes first and makes it a system node, which
    enters the registry. *)
Lemma caveat_in_command_kept :
  Str.includes Ex.wrapped_caveat caveat = true /\
  exists n,
    (forall rt, createUserNode rt (UserMessageEntry (Entry.mk None "u1" (Ms 1000))
                                     (JStr Ex.wrapped_caveat)) = Some n) /\
    type n = system /\
    summary n = "Command: /clear" /\
    (forall rt, Map_values (fst (processEntry rt (UserMessageEntry (Entry.mk None "u1" (Ms 1000))
                                                   (JStr Ex.wrapped_caveat)) [])) = [n]).
Proof.
  split; [vm_compute; reflexivity|].
  exists (mkNode "u1" None (Ms 1000) system "Command: /clear" (ContentText Ex.wrapped_caveat)
            None None None None None None
            (UserMessageEntry (Entry.mk None "u1" (Ms 1000)) (JStr Ex.wrapped_caveat))).
  repeat split; intros rt; vm_compute; reflexivity.
Qed.


(** * The shape of the display tree *)

Lemma updChildren_ext k f g st :
  (forall l, f l = g l) -> updChildren k f st = updChildren k g st.
Proof.
  intros H. unfold updChildren. apply map_ext. intros e.
  destruct (String.eqb (id (fst e)) k); auto. now rewrite H.
Qed.

Lemma updChildren_same k f st : (forall l, f l = l) -> updChildren k f st = st.
Proof.
  intros H. unfold updChildren. rewrite <- (map_id st) at 2. apply map_ext. intros e.
  destruct (String.eqb (id (fst e)) k); auto. rewrite H. now destruct e.
Qed.

Lemma updChildren_comp k f g st :
  updChildren k g (updChildren k f st) = updChildren k (fun l => g (f l)) st.
Proof.
  unfold updChildren. rewrite map_map. apply map_ext. intros e.
  destruct (String.eqb (id (fst e)) k) eqn:E; cbn [fst snd]; now rewrite E.
Qed.

Lemma fold_Set_add_In l : forall u i, In i (fold_left Set_add l u) <-> In i u \/ In i l.
Proof.
  induction l as [|k l IH]; intros u i; simpl; [tauto|].
  rewrite IH, Set_add_In. intuition.
Qed.

(** The loop over the matching results, as one update: the results are
    marked and appended to the owner's array. *)
Lemma attachResult_fold_eq owner m :
  forall u st,
    fold_left (attachResult owner) m (u, st) =
    (fold_left Set_add (map id m) u, updChildren (id owner) (fun l => l ++ m) st).
Proof.
  induction m as [|r m IH]; intros u st; cbn [fold_left map].
  - rewrite updChildren_same; auto. intros l. apply app_nil_r.
  - unfold attachResult at 2. rewrite IH. unfold pushChild. rewrite updChildren_comp.
    f_equal. apply updChildren_ext. intros l. now rewrite <- app_assoc.
Qed.

Lemma sorted_snoc l x :
  StronglySorted le_time l -> (forall y, In y l -> le_time y x) ->
  StronglySorted le_time (l ++ [x]).
Proof.
  induction 1 as [|y l Hs IH Hy]; intros Hx; simpl.
  - repeat constructor.
  - constructor.
    + apply IH. intros z Hz. apply Hx. simpl. auto.
    + rewrite Forall_forall in *. intros z Hz. apply in_app_or in Hz.
      destruct Hz as [Hz|[<-|[]]]; auto. apply Hx. simpl. auto.
Qed.

Section ShapeSteps.

Context {rt : Runtime}.
Variable A : list ConversationNode.
Hypothesis A_nodup : NoDup (map id A).

Lemma kids_push st p x q :
  Held A st -> In p A ->
  kids (pushChild (id p) x st) q =
  if String.eqb (id q) (id p) then kids st q ++ [x] else kids st q.
Proof.
  intros Hh Hp. unfold pushChild. rewrite kids_upd, (Hh p Hp), andb_true_r. reflexivity.
Qed.

Lemma shape_mono cur u u' st R :
  Shape A cur u st R -> (forall i, In i u -> In i u') -> Shape A cur u' st R.
Proof. intros [E U P S] H. constructor; auto. Qed.

Lemma shape_begin a u st R : Shape A None u st R -> Shape A (Some a) u st R.
Proof.
  intros [E U P S]. constructor; auto.
  - intros p Hp Ht Hk. destruct (P p Hp Ht Hk) as [H|H]; auto. discriminate.
  - intros p Hp _. apply S; auto. discriminate.
Qed.

Lemma shape_root cur u st R x : Shape A cur u st R -> Shape A cur u st (R ++ [x]).
Proof.
  intros [E U P S]. constructor; auto.
  intros p Hp Ht Hk. destruct (P p Hp Ht Hk) as [H|H]; auto.
  left. apply in_or_app. auto.
Qed.

(** Hanging a node under the response being filled. *)
Lemma shape_push_cur a u st R x :
  Shape A (Some a) u st R -> Held A st -> In a A -> In (id a) u ->
  isDisplayEdge a x = true ->
  Shape A (Some a) u (pushChild (id a) x st) R.
Proof.
  intros [E U P S] Hh Ha Hau Hax. constructor.
  - intros p y Hp Hy. rewrite kids_push in Hy by auto.
    destruct (String.eqb (id p) (id a)) eqn:Eq; [|now apply E].
    apply String.eqb_eq in Eq. assert (p = a) by (apply (id_inj A); auto). subst p.
    apply in_app_or in Hy. destruct Hy as [Hy|[<-|[]]]; auto.
  - intros p Hp Hk. rewrite kids_push in Hk by auto.
    destruct (String.eqb (id p) (id a)) eqn:Eq; [|now apply U].
    apply String.eqb_eq in Eq. now rewrite Eq.
  - intros p Hp Ht Hk. rewrite kids_push in Hk by auto.
    destruct (String.eqb (id p) (id a)) eqn:Eq; [|now apply P].
    apply String.eqb_eq in Eq. assert (p = a) by (apply (id_inj A); auto). subst p. auto.
  - intros p Hp Hc. rewrite kids_push by auto.
    destruct (String.eqb (id p) (id a)) eqn:Eq; [|now apply S].
    apply String.eqb_eq in Eq. assert (p = a) by (apply (id_inj A); auto). subst p.
    congruence.
Qed.

(** Giving a marked, childless owner its tool results. *)
Lemma shape_results cur o m u st R :
  Shape A cur u st R -> Held A st -> In o A -> In (id o) u -> kids st o = [] ->
  hasType thinking o || isToolFamily o = true ->
  StronglySorted le_time m ->
  (forall r, In r m -> hasType tool_result r = true /\ parentIs r o = true) ->
  Shape A cur u (updChildren (id o) (fun l => l ++ m) st) R.
Proof.
  intros [E U P S] Hh Ho Hou Hk0 Hto Hs Hm.
  assert (Hk : forall p, In p A ->
            kids (updChildren (id o) (fun l => l ++ m) st) p =
            if String.eqb (id p) (id o) then m else kids st p).
  { intros p Hp. rewrite kids_upd, (Hh o Ho), andb_true_r.
    destruct (String.eqb (id p) (id o)) eqn:Eq; auto.
    apply String.eqb_eq in Eq. assert (p = o) by (apply (id_inj A); auto). subst p.
    now rewrite Hk0. }
  constructor.
  - intros p y Hp Hy. rewrite Hk in Hy by auto.
    destruct (String.eqb (id p) (id o)) eqn:Eq; [|now apply E].
    apply String.eqb_eq in Eq. assert (p = o) by (apply (id_inj A); auto). subst p.
    destruct (Hm y Hy) as [H1 H2]. unfold isDisplayEdge. rewrite Hto, H1, H2.
    apply orb_true_r.
  - intros p Hp Hkp. rewrite Hk in Hkp by auto.
    destruct (String.eqb (id p) (id o)) eqn:Eq; [|now apply U].
    apply String.eqb_eq in Eq. now rewrite Eq.
  - intros p Hp Ht Hkp. rewrite Hk in Hkp by auto.
    destruct (String.eqb (id p) (id o)) eqn:Eq; [|now apply P].
    apply String.eqb_eq in Eq. assert (p = o) by (apply (id_inj A); auto). subst p.
    exfalso. unfold hasType, isToolFamily in Ht, Hto.
    destruct (type o); cbn in Ht, Hto; congruence.
  - intros p Hp Hc. rewrite Hk by auto.
    destruct (String.eqb (id p) (id o)); auto.
Qed.

(** The end of a turn with a response: its array is sorted and it becomes a
    root. *)
Lemma shape_close a u st R :
  Shape A (Some a) u st R -> Held A st -> In a A ->
  Shape A None u (updChildren (id a) sortByTimestamp st) (R ++ [a]).
Proof.
  intros [E U P S] Hh Ha.
  assert (Hk : forall p, In p A ->
            kids (updChildren (id a) sortByTimestamp st) p =
            if String.eqb (id p) (id a) then sortByTimestamp (kids st p) else kids st p).
  { intros p Hp. rewrite kids_upd, (Hh a Ha), andb_true_r. reflexivity. }
  assert (Hne : forall l, sortByTimestamp l <> [] -> l <> []).
  { intros l H ->. now apply H. }
  constructor.
  - intros p y Hp Hy. rewrite Hk in Hy by auto.
    destruct (String.eqb (id p) (id a)); [|now apply E].
    apply (proj1 (sort_In _ _)) in Hy. now apply E.
  - intros p Hp Hkp. rewrite Hk in Hkp by auto.
    destruct (String.eqb (id p) (id a)); apply U; auto.
  - intros p Hp Ht Hkp. rewrite Hk in Hkp by auto. left.
    destruct (String.eqb (id p) (id a)) eqn:Eq.
    + apply String.eqb_eq in Eq. assert (p = a) by (apply (id_inj A); auto). subst p.
      apply in_or_app. simpl. auto.
    + destruct (P p Hp Ht Hkp) as [H|H].
      * apply in_or_app. auto.
      * injection H as ->. rewrite String.eqb_refl in Eq. discriminate.
  - intros p Hp _. rewrite Hk by auto.
    destruct (String.eqb (id p) (id a)) eqn:Eq.
    + intros Hpar. apply sort_sorted. eapply Parsed_perm; [apply sort_perm|exact Hpar].
    + apply S; auto. intros H. injection H as ->. rewrite String.eqb_refl in Eq. discriminate.
Qed.

(** An unmarked node has no children yet. *)
Lemma unmarked_childless cur u st R p :
  Shape A cur u st R -> In p A -> ~ In (id p) u -> kids st p = [].
Proof.
  intros [E U P S] Hp Hn. destruct (kids st p) as [|y l] eqn:Ek; auto.
  exfalso. apply Hn. apply U; auto. rewrite Ek. discriminate.
Qed.

Lemma attachUnused_shape a R xs :
  forall u st,
    Shape A (Some a) u st R -> Held A st -> In a A -> In (id a) u ->
    (forall x, In x xs -> isDisplayEdge a x = true) ->
    Shape A (Some a) (fst (attachUnused a xs u st)) (snd (attachUnused a xs u st)) R /\
    Held A (snd (attachUnused a xs u st)) /\
    (forall i, In i u -> In i (fst (attachUnused a xs u st))).
Proof.
  unfold attachUnused.
  induction xs as [|x xs IH]; intros u st Hs Hh Ha Hau Hx; cbn [fold_left fst snd]; auto.
  assert (Hstep : attachOne a (u, st) x =
                  if Set_has u (id x) then (u, st)
                  else (Set_add u (id x), pushChild (id a) x st)) by reflexivity.
  rewrite Hstep. clear Hstep.
  destruct (Set_has u (id x)) eqn:Eu.
  - apply IH; auto. intros y Hy. apply Hx. simpl. auto.
  - destruct (IH (Set_add u (id x)) (pushChild (id a) x st)) as (H1 & H2 & H3).
    + apply shape_push_cur; auto.
      * eapply shape_mono; [exact Hs|]. intros i Hi. apply Set_add_In. auto.
      * apply Set_add_In. auto.
      * apply Hx. simpl. auto.
    + now apply Held_upd.
    + exact Ha.
    + apply Set_add_In. auto.
    + intros y Hy. apply Hx. simpl. auto.
    + split; [exact H1|]. split; [exact H2|].
      intros i Hi. apply H3, Set_add_In. auto.
Qed.

(** What [attachResults] does to a marked owner that has no children. *)
Lemma attachResults_shape cur o trs u st R :
  Shape A cur u st R -> Held A st -> In o A -> In (id o) u -> kids st o = [] ->
  hasType thinking o || isToolFamily o = true ->
  StronglySorted le_time trs ->
  (forall r, In r trs -> hasType tool_result r = true) ->
  Shape A cur (fst (attachResults o trs u st)) (snd (attachResults o trs u st)) R /\
  Held A (snd (attachResults o trs u st)) /\
  (forall i, In i u -> In i (fst (attachResults o trs u st))).
Proof.
  intros Hs Hh Ho Hou Hk Hto Hsort Hres. unfold attachResults.
  rewrite attachResult_fold_eq. cbn [fst snd]. split; [|split].
  - eapply shape_mono.
    + apply shape_results; eauto.
      * now apply filter_sorted.
      * intros r Hr. apply filter_In in Hr. destruct Hr as [Hr Hc].
        apply andb_true_iff in Hc. split; [now apply Hres|tauto].
    + intros i Hi. apply fold_Set_add_In. auto.
  - now apply Held_upd.
  - intros i Hi. apply fold_Set_add_In. auto.
Qed.

Lemma attachTool_shape a trs R s tool :
  Shape A (Some a) (fst s) (snd s) R -> Held A (snd s) -> In a A -> In (id a) (fst s) ->
  hasType assistant a = true -> In tool A -> isToolFamily tool = true ->
  StronglySorted le_time trs -> (forall r, In r trs -> hasType tool_result r = true) ->
  Shape A (Some a) (fst (attachTool a trs s tool)) (snd (attachTool a trs s tool)) R /\
  Held A (snd (attachTool a trs s tool)) /\
  (forall i, In i (fst s) -> In i (fst (attachTool a trs s tool))).
Proof.
  destruct s as [u st]. cbn [fst snd]. intros Hs Hh Ha Hau Hta Ht Htt Hsort Hres.
  unfold attachTool. destruct (Set_has u (id tool)) eqn:Eu; cbn [fst snd]; auto.
  apply Set_has_not_In in Eu.
  pose proof (unmarked_childless _ _ _ _ _ Hs Ht Eu) as Hk.
  destruct (attachResults_shape (Some a) tool trs (Set_add u (id tool)) st R)
    as (H1 & H2 & H3); auto.
  { eapply shape_mono; [exact Hs|]. intros i Hi. apply Set_add_In. auto. }
  { apply Set_add_In. auto. }
  { rewrite Htt. apply orb_true_r. }
  destruct (attachResults tool trs (Set_add u (id tool)) st) as [u2 st2].
  cbn [fst snd] in *. split; [|split].
  - apply shape_push_cur; auto.
    + apply H3, Set_add_In. auto.
    + unfold isDisplayEdge. rewrite Hta, Htt. simpl. now rewrite orb_true_r.
  - now apply Held_upd.
  - intros i Hi. apply H3, Set_add_In. auto.
Qed.

Lemma attachTool_fold_shape a trs R tools :
  forall u st,
    Shape A (Some a) u st R -> Held A st -> In a A -> In (id a) u ->
    hasType assistant a = true ->
    (forall x, In x tools -> In x A /\ isToolFamily x = true) ->
    StronglySorted le_time trs -> (forall r, In r trs -> hasType tool_result r = true) ->
    Shape A (Some a) (fst (fold_left (attachTool a trs) tools (u, st)))
                     (snd (fold_left (attachTool a trs) tools (u, st))) R /\
    Held A (snd (fold_left (attachTool a trs) tools (u, st))) /\
    (forall i, In i u -> In i (fst (fold_left (attachTool a trs) tools (u, st)))).
Proof.
  induction tools as [|x tools IH]; intros u st Hs Hh Ha Hau Hta Ht Hsort Hres;
    cbn [fold_left fst snd]; auto.
  destruct (attachTool_shape a trs R (u, st) x) as (H1 & H2 & H3); auto;
    try (apply Ht; simpl; auto).
  destruct (attachTool a trs (u, st) x) as [u1 st1]. cbn [fst snd] in *.
  destruct (IH u1 st1) as (K1 & K2 & K3); auto.
  intros y Hy. apply Ht. simpl. auto.
Qed.

(** The roots a turn without a response adds. *)
Lemma promote_shape trs s node :
  Shape A None (fst (fst s)) (snd (fst s)) (snd s) -> Held A (snd (fst s)) ->
  In node A ->
  (hasType tool_result node = false -> hasType thinking node || isToolFamily node = true) ->
  StronglySorted le_time trs -> (forall r, In r trs -> hasType tool_result r = true) ->
  Shape A None (fst (fst (promote trs s node))) (snd (fst (promote trs s node)))
               (snd (promote trs s node)) /\
  Held A (snd (fst (promote trs s node))) /\
  (forall i, In i (fst (fst s)) -> In i (fst (fst (promote trs s node)))) /\
  (snd (promote trs s node) = snd s \/
   (snd (promote trs s node) = snd s ++ [node] /\ hasType tool_result node = false)).
Proof.
  destruct s as [[u st] R]. cbn [fst snd]. intros Hs Hh Hn Hty Hsort Hres.
  unfold promote.
  destruct (negb (hasType tool_result node) && negb (Set_has u (id node))) eqn:Ec;
    cbn [fst snd]; auto.
  apply andb_true_iff in Ec. destruct Ec as [E1 E2].
  apply negb_true_iff in E1, E2. apply Set_has_not_In in E2.
  pose proof (unmarked_childless _ _ _ _ _ Hs Hn E2) as Hk.
  destruct (attachResults_shape None node trs (Set_add u (id node)) st R)
    as (H1 & H2 & H3); auto.
  { eapply shape_mono; [exact Hs|]. intros i Hi. apply Set_add_In. auto. }
  { apply Set_add_In. auto. }
  destruct (attachResults node trs (Set_add u (id node)) st) as [u2 st2].
  cbn [fst snd] in *. split; [|split; [|split]]; auto.
  - now apply shape_root.
  - intros i Hi. apply H3, Set_add_In. auto.
Qed.

Lemma promote_fold_shape trs ns :
  forall s,
    Shape A None (fst (fst s)) (snd (fst s)) (snd s) -> Held A (snd (fst s)) ->
    (forall x, In x ns -> In x A /\
       (hasType tool_result x = false -> hasType thinking x || isToolFamily x = true)) ->
    StronglySorted le_time trs -> (forall r, In r trs -> hasType tool_result r = true) ->
    StronglySorted le_time ns -> StronglySorted le_time (snd s) ->
    (forall r y, In r (snd s) -> In y ns -> le_time r y) ->
    let s' := fold_left (promote trs) ns s in
    Shape A None (fst (fst s')) (snd (fst s')) (snd s') /\
    Held A (snd (fst s')) /\
    (forall i, In i (fst (fst s)) -> In i (fst (fst s'))) /\
    StronglySorted le_time (snd s') /\
    (forall r, In r (snd s') ->
       In r (snd s) \/ (In r ns /\ hasType tool_result r = false)).
Proof.
  induction ns as [|x ns IH]; intros s Hs Hh Hns Hsort Hres Hsn HsR Hle; cbn [fold_left].
  - cbv zeta. repeat (split; auto).
  - inversion Hsn as [|? ? Hsn' Hx]; subst. rewrite Forall_forall in Hx.
    destruct (promote_shape trs s x) as (H1 & H2 & H3 & H4); auto;
      try (apply Hns; simpl; auto).
    assert (HR1 : StronglySorted le_time (snd (promote trs s x))).
    { destruct H4 as [->|[-> _]]; auto. apply sorted_snoc; auto.
      intros y Hy. apply Hle; simpl; auto. }
    assert (Hle1 : forall r y, In r (snd (promote trs s x)) -> In y ns -> le_time r y).
    { intros r y Hr Hy. destruct H4 as [E|[E _]]; rewrite E in Hr.
      - apply Hle; simpl; auto.
      - apply in_app_or in Hr. destruct Hr as [Hr|[<-|[]]]; auto.
        apply Hle; simpl; auto. }
    destruct (IH (promote trs s x)) as (K1 & K2 & K3 & K4 & K5); auto.
    { intros y Hy. apply Hns. simpl. auto. }
    cbv zeta. split; [exact K1|]. split; [exact K2|]. split; [auto|]. split; [exact K4|].
    intros r Hr. destruct (K5 r Hr) as [H|[H H']].
    + destruct H4 as [E|[E Et]]; rewrite E in H; auto.
      apply in_app_or in H. destruct H as [H|[<-|[]]]; auto.
      right. simpl. auto.
    + right. simpl. auto.
Qed.

End ShapeSteps.

Lemma promote_fold_keeps trs ns :
  forall (s : Reorg) r, In r (snd s) -> In r (snd (fold_left (promote trs) ns s)).
Proof.
  induction ns as [|x l IH]; intros s r Hin; simpl; auto.
  apply IH. destruct s as [[u0 st0] R0]. unfold promote. cbn [snd] in *.
  destruct (negb (hasType tool_result x) && negb (Set_has u0 (id x))); cbn [snd]; auto.
  destruct (attachResults x trs (Set_add u0 (id x)) st0). cbn [snd].
  apply in_or_app. auto.
Qed.

Lemma last_opt_None {T : Type} (l : list T) : last_opt l = None -> l = [].
Proof.
  induction l as [|x l IH]; simpl; auto.
  destruct l as [|y l']; [discriminate|]. intros H. specialize (IH H). discriminate.
Qed.

Lemma inTurn_facts t nx u x :
  inTurn t nx u x = true ->
  ~ In (id x) u /\ (time t < time x)%Z /\
  (forall n, nx = Some n -> (time x < time n)%Z) /\ sameNode x t = false.
Proof.
  unfold inTurn. intros H.
  apply andb_true_iff in H. destruct H as [H H3].
  apply andb_true_iff in H. destruct H as [H1 H2].
  apply andb_true_iff in H3. destruct H3 as [H3 H4].
  apply negb_true_iff in H1, H2. apply Set_has_not_In in H2.
  apply Time_lt_time in H3. destruct H3 as (_ & _ & H3).
  repeat split; auto.
  intros n ->. apply Time_lt_time in H4. tauto.
Qed.

Section ShapeTurns.

Context {rt : Runtime}.
Variable A : list ConversationNode.
Hypothesis A_nodup : NoDup (map id A).

(** One turn keeps the shape; its roots are the turn starter and, after it,
    nodes of the turn in time order. *)
Lemma turn_shape allNodes t nx u st R :
  Shape A None u st R -> Held A st ->
  (forall x, In x allNodes -> In x A) -> StronglySorted le_time allNodes ->
  In t A -> hasType tool_result t = false ->
  (forall x, In x (filter (inTurn t nx (Set_add u (id t))) allNodes) ->
             isTurnStarter x = false) ->
  RootsBy (Some (time t)) R ->
  (forall n, nx = Some n -> le_time t n) ->
  let s' := turn allNodes t nx (u, st, R) in
  Shape A None (fst (fst s')) (snd (fst s')) (snd s') /\
  Held A (snd (fst s')) /\
  (forall i, In i u \/ i = id t -> In i (fst (fst s'))) /\
  RootsBy (option_map time nx) (snd s') /\
  (forall r, In r R \/ r = t -> In r (snd s')).
Proof.
  intros Hs Hh HA Hsort Ht Htt Hts (HR1 & HR2 & HR3) Hnx. cbv zeta. unfold turn.
  set (u1 := Set_add u (id t)) in *.
  set (turnNodes := filter (inTurn t nx u1) allNodes) in *.
  assert (HTA : forall x, In x turnNodes -> In x A).
  { intros x Hx. apply filter_In in Hx. apply HA; tauto. }
  assert (HTf : forall x, In x turnNodes ->
            (time t < time x)%Z /\
            forall n, nx = Some n -> (time x < time n)%Z).
  { intros x Hx. apply filter_In in Hx. destruct Hx as [_ Hx].
    apply inTurn_facts in Hx. tauto. }
  assert (HTs : StronglySorted le_time turnNodes) by now apply filter_sorted.
  assert (Hsub : forall f x, In x (filter f turnNodes) -> In x turnNodes /\ f x = true).
  { intros f x Hx. now apply filter_In in Hx. }
  assert (Hu1 : forall i, In i u \/ i = id t -> In i u1).
  { intros i Hi. apply Set_add_In. exact Hi. }
  assert (Hs1 : Shape A None u1 st (R ++ [t])).
  { apply shape_root. eapply shape_mono; [exact Hs|]. auto. }
  assert (HRt : StronglySorted le_time (R ++ [t])).
  { apply sorted_snoc; auto. intros y Hy. unfold le_time. now apply (HR3 y _ Hy). }
  assert (HRt2 : forall r, In r (R ++ [t]) -> hasType tool_result r = false).
  { intros r Hr. apply in_app_or in Hr. destruct Hr as [Hr|[<-|[]]]; auto. }
  assert (HRt3 : forall r, In r (R ++ [t]) -> (time r <= time t)%Z).
  { intros r Hr. apply in_app_or in Hr. destruct Hr as [Hr|[<-|[]]]; [|lia].
    now apply (HR3 r _ Hr). }
  assert (Hbound : forall r b, (time r <= time t)%Z ->
            option_map time nx = Some b -> (time r <= b)%Z).
  { intros r b Hr Hb. destruct nx as [n|]; [|discriminate]. injection Hb as <-.
    specialize (Hnx n eq_refl). unfold le_time in Hnx. lia. }
  assert (Hres : forall r, In r (filter (hasType tool_result) turnNodes) ->
            hasType tool_result r = true).
  { intros r Hr. now apply Hsub in Hr. }
  destruct (last_opt (filter (hasType assistant) turnNodes)) as [a|] eqn:Ea.
  - apply last_opt_In in Ea. apply Hsub in Ea. destruct Ea as [Ea Hta].
    pose proof (HTA a Ea) as HaA. destruct (HTf a Ea) as [Hat Han].
    set (u2 := Set_add u1 (id a)).
    assert (Hs2 : Shape A (Some a) u2 st (R ++ [t])).
    { apply shape_begin. eapply shape_mono; [exact Hs1|].
      intros i Hi. apply Set_add_In. auto. }
    assert (Hau2 : In (id a) u2) by (apply Set_add_In; auto).
    destruct (attachUnused_shape A A_nodup a (R ++ [t])
                (filter (hasType thinking) turnNodes) u2 st) as (S3 & H3 & M3); auto.
    { intros x Hx. apply Hsub in Hx. destruct Hx as [_ Hx].
      unfold isDisplayEdge. now rewrite Hta, Hx. }
    destruct (attachUnused a (filter (hasType thinking) turnNodes) u2 st) as [u3 st3].
    cbn [fst snd] in S3, H3, M3.
    destruct (attachTool_fold_shape A A_nodup a (filter (hasType tool_result) turnNodes)
                (R ++ [t]) (filter isToolFamily turnNodes) u3 st3) as (S4 & H4 & M4); auto.
    { intros x Hx. apply Hsub in Hx. destruct Hx as [Hx Hf]. split; auto. }
    { now apply filter_sorted. }
    destruct (fold_left (attachTool a (filter (hasType tool_result) turnNodes))
                (filter isToolFamily turnNodes) (u3, st3)) as [u4 st4].
    cbn [fst snd] in S4, H4, M4.
    destruct (attachUnused_shape A A_nodup a (R ++ [t])
                (filter (fun n => negb (sameNode n a))
                   (filter (hasType assistant) turnNodes)) u4 st4) as (S5 & H5 & M5); auto.
    { intros x Hx. apply filter_In in Hx. destruct Hx as [Hx _].
      apply Hsub in Hx. destruct Hx as [_ Hx].
      unfold isDisplayEdge. rewrite Hta, Hx. simpl. now rewrite !orb_true_r. }
    destruct (attachUnused a _ u4 st4) as [u5 st5]. cbn [fst snd] in S5, H5, M5.
    cbn [fst snd]. split; [|split; [|split; [|split]]].
    + now apply shape_close.
    + now apply Held_upd.
    + intros i Hi. apply M5, M4, M3. apply Set_add_In. left. auto.
    + split; [|split].
      * apply sorted_snoc; auto. intros y Hy. apply HRt3 in Hy. unfold le_time. lia.
      * intros r Hr. apply in_app_or in Hr. destruct Hr as [Hr|[<-|[]]]; auto.
        clear - Hta. unfold hasType in *. destruct (type a); simpl in *; congruence.
      * intros r b Hr Hb. apply in_app_or in Hr. destruct Hr as [Hr|[<-|[]]].
        -- apply Hbound; auto.
        -- destruct nx as [n|]; [|discriminate]. injection Hb as <-.
           specialize (Han n eq_refl). lia.
    + intros r Hr. apply in_or_app. left. apply in_or_app.
      destruct Hr as [Hr| ->]; simpl; auto.
  - apply last_opt_None in Ea.
    assert (Hna : forall x, In x turnNodes -> hasType assistant x = false).
    { intros x Hx. destruct (hasType assistant x) eqn:E; auto.
      assert (H : In x (filter (hasType assistant) turnNodes)) by (apply filter_In; auto).
      rewrite Ea in H. destruct H. }
    destruct turnNodes as [|n0 rest] eqn:Etn.
    + cbn [fst snd]. split; [exact Hs1|]. split; [exact Hh|]. split; [exact Hu1|].
      split.
      * split; [exact HRt|]. split; [exact HRt2|].
        intros r b Hr Hb. apply Hbound; auto.
      * intros r Hr. apply in_or_app. destruct Hr as [Hr| ->]; simpl; auto.
    + rewrite <- Etn in *.
      destruct (promote_fold_shape A A_nodup (filter (hasType tool_result) turnNodes)
                  turnNodes (u1, st, R ++ [t])) as (K1 & K2 & K3 & K4 & K5); auto.
      { intros x Hx. split; [now apply HTA|]. intros Hr.
        pose proof (Hna x Hx) as H1. pose proof (Hts x Hx) as H2.
        unfold hasType, isTurnStarter, isToolFamily in *.
        destruct (type x); simpl in *; congruence. }
      { now apply filter_sorted. }
      { cbn [snd]. intros r y Hr Hy. apply HRt3 in Hr. apply HTf in Hy.
        unfold le_time. lia. }
      cbn [fst snd] in K3, K5. split; [exact K1|]. split; [exact K2|].
      split; [intros i Hi; apply K3; auto|]. split.
      * split; [exact K4|]. split.
        -- intros r Hr. destruct (K5 r Hr) as [H|[_ H]]; auto.
        -- intros r b Hr Hb. destruct (K5 r Hr) as [H|[H _]].
           ++ apply Hbound; auto.
           ++ destruct nx as [n|]; [|discriminate]. injection Hb as <-.
              destruct (HTf r H) as [_ Hn]. specialize (Hn n eq_refl). lia.
      * intros r Hr.
        assert (Hin : In r (R ++ [t])).
        { apply in_or_app. destruct Hr as [Hr| ->]; simpl; auto. }
        apply promote_fold_keeps. exact Hin.
Qed.

End ShapeTurns.

Section DisplayTurns.

Context {rt : Runtime}.

Lemma starter_not_result t : isTurnStarter t = true -> hasType tool_result t = false.
Proof. unfold isTurnStarter, hasType. destruct (type t); simpl; congruence. Qed.

(** The loop over the turn starters. *)
Lemma turns_shape A allNodes :
  NoDup (map id A) -> (forall x, In x allNodes -> In x A) ->
  StronglySorted le_time allNodes ->
  forall ts u st R,
    Shape A None u st R -> Held A st ->
    StronglySorted le_time ts ->
    (forall t, In t ts -> In t allNodes /\ isTurnStarter t = true) ->
    (forall x, In x allNodes -> isTurnStarter x = true -> In (id x) u \/ In x ts) ->
    RootsBy (option_map time (hd_error ts)) R ->
    let s' := turns allNodes ts (u, st, R) in
    Shape A None (fst (fst s')) (snd (fst s')) (snd s') /\
    Held A (snd (fst s')) /\
    StronglySorted le_time (snd s') /\
    (forall r, In r (snd s') -> hasType tool_result r = false) /\
    (forall r, In r R \/ In r ts -> In r (snd s')).
Proof.
  intros HA Hall Hsort.
  induction ts as [|t rest IH]; intros u st R Hs Hh Hts Hin Hcov HR; cbv zeta; cbn [turns].
  - cbn [fst snd]. destruct HR as (H1 & H2 & _). repeat (split; auto).
    intros r [Hr|[]]. exact Hr.
  - inversion Hts as [|? ? Hts' Hle]; subst. rewrite Forall_forall in Hle.
    destruct (Hin t (or_introl eq_refl)) as [HtA Htt].
    assert (Hnx : forall n, hd_error rest = Some n -> le_time t n).
    { intros n Hn. apply Hle. destruct rest; [discriminate|]. injection Hn as ->.
      simpl. auto. }
    destruct (turn_shape A HA allNodes t (hd_error rest) u st R)
      as (S1 & H1 & M1 & R1 & K1); auto.
    { now apply starter_not_result. }
    { intros x Hx. apply filter_In in Hx. destruct Hx as [HxA Hx].
      apply inTurn_facts in Hx. destruct Hx as (Hu & _ & Hn & Hsame).
      destruct (isTurnStarter x) eqn:Ex; auto. exfalso.
      destruct (Hcov x HxA Ex) as [H|[H|H]].
      - apply Hu. apply Set_add_In. auto.
      - subst x. unfold sameNode in Hsame. now rewrite String.eqb_refl in Hsame.
      - destruct rest as [|n rest']; [destruct H|]. specialize (Hn n eq_refl).
        destruct H as [->|H]; [lia|].
        inversion Hts' as [|? ? _ Hle']; subst. rewrite Forall_forall in Hle'.
        specialize (Hle' x H). unfold le_time in Hle'. lia. }
    destruct (turn allNodes t (hd_error rest) (u, st, R)) as [[u1 st1] R1'].
    cbn [fst snd] in *.
    destruct (IH u1 st1 R1') as (S2 & H2 & Q2 & T2 & K2); auto.
    { intros t' Ht'. apply Hin. simpl. auto. }
    { intros x HxA Ex. destruct (Hcov x HxA Ex) as [H|[H|H]]; auto.
      subst x. left. apply M1. auto. }
    cbv zeta in *. split; [exact S2|]. split; [exact H2|]. split; [exact Q2|].
    split; [exact T2|].
    intros r [Hr|[Hr|Hr]]; apply K2; auto.
Qed.

(** The display reorganization, on the forest the first half of
    [buildTree] leaves: the result is a forest over the flattened nodes, its
    links are of the two kinds, parents are marked, a response with children
    is a root, and every array is in time order. *)
Lemma reorganize_display A0 st R :
  NoDup (map id A0) -> Parsed A0 -> Forest A0 st R -> Held A0 st ->
  StronglySorted le_time R ->
  let all0 := flattenTree st R in
  let st' := fst (reorganizeForDisplay st R) in
  let R' := snd (reorganizeForDisplay st R) in
  NoDup (map id all0) /\ (forall x, In x all0 -> In x A0) /\
  Forest all0 st' R' /\
  (exists u, Shape all0 None u st' R') /\
  StronglySorted le_time R' /\
  ((exists x, In x all0 /\ isTurnStarter x = true) ->
   (forall r, In r R' -> hasType tool_result r = false) /\
   (forall x, In x all0 -> isTurnStarter x = true -> In x R')) /\
  ((forall x, In x all0 -> isTurnStarter x = false) ->
   R' = R /\ forall x, In x all0 -> kids st' x = []).
Proof.
  intros Hnd Hpar F Hh HRs. cbv zeta. unfold reorganizeForDisplay.
  set (all0 := flattenTree st R).
  assert (Hnd0 : NoDup (map id all0)).
  { apply (flatten_nodup A0 Hnd st R); auto. now apply (apart_roots A0 st R). }
  assert (Hin0 : forall x, In x all0 -> In x A0).
  { intros x Hx. apply (flatten_in A0 st R (List.length st) R x F); auto. apply F. }
  assert (HR0 : forall r, In r R -> In r all0).
  { intros r Hr. now apply flatten_self. }
  assert (Hpar0 : Parsed all0) by (intros x Hx; apply Hpar, Hin0, Hx).
  split; [exact Hnd0|]. split; [exact Hin0|].
  destruct all0 as [|n0 l0] eqn:E0.
  - assert (R = []) as ->.
    { destruct R as [|r R0]; auto. destruct (HR0 r). simpl. auto. }
    cbn [fst snd]. split; [|split; [|split; [|split]]].
    + constructor; simpl; try tauto; constructor.
    + exists []. constructor; simpl; tauto.
    + constructor.
    + intros (x & [] & _).
    + intros _. split; auto. intros x [].
  - rewrite <- E0 in *. clear E0.
    set (st1 := fold_left (fun s node => resetChildren node s) all0 st).
    assert (Hk1 : forall a, In a all0 -> kids st1 a = []).
    { intros a Ha. unfold kids, st1. rewrite getChildren_reset.
      assert (Hx : existsb (fun n => String.eqb (id n) (id a)) all0 = true).
      { apply existsb_exists. exists a. split; auto. apply String.eqb_refl. }
      now rewrite Hx. }
    assert (Hh1 : Held all0 st1).
    { intros a Ha. unfold st1. rewrite Map_has_keys.
      rewrite fold_upd_keys by (intros; apply updChildren_keys).
      rewrite <- Map_has_keys. apply Hh. auto. }
    assert (F1 : forall Rx, NoDup (map id Rx) -> (forall r, In r Rx -> In r all0) ->
                 Forest all0 st1 Rx).
    { intros Rx H1 H2. constructor; auto.
      - intros p Hp. rewrite (Hk1 p Hp). constructor.
      - intros p q i Hp _ H. rewrite (Hk1 p Hp) in H. destruct H.
      - intros p i Hp _ H. rewrite (Hk1 p Hp) in H. destruct H.
      - intros p x Hp H. rewrite (Hk1 p Hp) in H. destruct H. }
    assert (S1 : forall u Rx, Shape all0 None u st1 Rx).
    { intros u Rx. constructor.
      - intros p x Hp Hx. rewrite (Hk1 p Hp) in Hx. destruct Hx.
      - intros p Hp Hk. now rewrite (Hk1 p Hp) in Hk.
      - intros p Hp _ Hk. now rewrite (Hk1 p Hp) in Hk.
      - intros p Hp _. rewrite (Hk1 p Hp). constructor. }
    set (allNodes := sortByTimestamp all0).
    assert (HallIn : forall x, In x allNodes <-> In x all0) by (intros; apply sort_In).
    assert (HndA : NoDup (map id allNodes)).
    { eapply Permutation_NoDup; [|exact Hnd0]. apply Permutation_sym, sort_ids_perm. }
    destruct (filter isTurnStarter allNodes) as [|t0 ts0] eqn:Ets.
    + cbn [fst snd].
      assert (Hnone : forall x, In x all0 -> isTurnStarter x = false).
      { intros x Hx. destruct (isTurnStarter x) eqn:Ex; auto.
        assert (H : In x (filter isTurnStarter allNodes)).
        { apply filter_In. split; auto. now apply HallIn. }
        rewrite Ets in H. destruct H. }
      split; [|split; [|split; [|split]]].
      * apply F1; auto. apply F.
      * exists []. apply S1.
      * exact HRs.
      * intros (x & Hx & Ex). rewrite Hnone in Ex by auto. discriminate.
      * intros _. split; auto.
    + rewrite <- Ets.
      set (ts := filter isTurnStarter allNodes).
      assert (Hts_in : forall t, In t ts -> In t allNodes /\ isTurnStarter t = true).
      { intros t Ht. now apply filter_In in Ht. }
      assert (I1 : Inv all0 (turns allNodes ts ([], st1, []))).
      { apply turns_spec; auto.
        - intros x Hx. now apply HallIn.
        - simpl. split; [|split]; auto.
          + apply F1; [constructor|intros r []].
          + intros i [[]|(p & Hp & H)]. rewrite (Hk1 p Hp) in H. destruct H.
        - apply filter_sorted, sort_sorted, Hpar0.
        - now apply NoDup_filter_ids.
        - intros t Ht. apply HallIn. now apply Hts_in. }
      destruct (turns_shape all0 allNodes Hnd0 (fun x => proj1 (HallIn x))
                  (sort_sorted all0 Hpar0) ts [] st1 []) as (S2 & H2 & Q2 & T2 & K2); auto.
      { apply filter_sorted, sort_sorted, Hpar0. }
      { intros x Hx Ex. right. apply filter_In. auto. }
      { split; [constructor|]. split; intros r; simpl; tauto. }
      destruct (turns allNodes ts ([], st1, [])) as [[u2 st2] R2].
      cbn [fst snd] in *. destruct I1 as (F2 & _ & _).
      split; [exact F2|]. split; [exists u2; exact S2|]. split; [exact Q2|]. split.
      * intros _. split; [exact T2|].
        intros x Hx Ex. apply K2. right. apply filter_In. split; auto. now apply HallIn.
      * intros Hnone. exfalso.
        assert (H : In t0 ts) by (unfold ts; rewrite Ets; simpl; auto).
        apply Hts_in in H. destruct H as [H1 H2']. apply HallIn in H1.
        rewrite Hnone in H2' by auto. discriminate.
Qed.

End DisplayTurns.

(** ** From the children arrays to the tree a listener reads *)

Lemma linkNode_roots nodes l :
  forall st R,
    snd (fold_left (linkNode nodes) l (st, R)) = R ++ filter (isRawRoot nodes) l.
Proof.
  induction l as [|n l IH]; intros st R; cbn [fold_left filter].
  - now rewrite app_nil_r.
  - assert (Hstep : snd (linkNode nodes (st, R) n) =
                    R ++ (if isRawRoot nodes n then [n] else [])).
    { unfold linkNode, isRawRoot. destruct (parentId n) as [p|]; auto.
      destruct (Str.nonEmpty p && Map_has nodes p); cbn [negb snd]; auto.
      now rewrite app_nil_r. }
    destruct (linkNode nodes (st, R) n) as [st1 R1]. cbn [snd] in Hstep. subst R1.
    rewrite IH. destruct (isRawRoot nodes n).
    + now rewrite <- app_assoc.
    + now rewrite app_nil_r.
Qed.

Section DisplayTree.

Context {rt : Runtime}.

(** The roots of the first half of [buildTree]. *)
Lemma rawLinkage_roots nodes :
  snd (rawLinkage nodes) = sortByTimestamp (filter (isRawRoot nodes) (Map_values nodes)).
Proof.
  unfold rawLinkage.
  pose proof (linkNode_roots nodes (Map_values nodes)
                (fold_left (fun s node => resetChildren node s) (Map_values nodes) nodes) [])
    as H.
  destruct (fold_left (linkNode nodes) (Map_values nodes) _) as [st R].
  cbn [snd] in *. now rewrite H.
Qed.

Lemma buildTree_display nodes :
  NoDup (map id (Map_values nodes)) -> Parsed (Map_values nodes) ->
  let all0 := flattenTree (fst (rawLinkage nodes)) (snd (rawLinkage nodes)) in
  let st' := fst (buildTree nodes) in
  let R' := snd (buildTree nodes) in
  NoDup (map id all0) /\ (forall x, In x all0 -> In x (Map_values nodes)) /\
  Forest all0 st' R' /\
  (exists u, Shape all0 None u st' R') /\
  StronglySorted le_time R' /\
  ((exists x, In x all0 /\ isTurnStarter x = true) ->
   (forall r, In r R' -> hasType tool_result r = false) /\
   (forall x, In x all0 -> isTurnStarter x = true -> In x R')) /\
  ((forall x, In x all0 -> isTurnStarter x = false) ->
   R' = snd (rawLinkage nodes) /\ forall x, In x all0 -> kids st' x = []).
Proof.
  intros Hnd Hpar. cbv zeta. unfold buildTree.
  destruct (rawLinkage_forest nodes Hnd) as [F Hh].
  pose proof (rawLinkage_roots nodes) as HR.
  destruct (rawLinkage nodes) as [st R]. cbn [fst snd] in *.
  apply (reorganize_display (Map_values nodes) st R); auto.
  rewrite HR. apply sort_sorted.
  intros x Hx. apply filter_In in Hx. apply Hpar. tauto.
Qed.

End DisplayTree.

Lemma root_unfold f st n : root_of (unfold f st n) = n.
Proof. destruct f; reflexivity. Qed.

Lemma roots_unfold f st l : map root_of (map (unfold f st) l) = l.
Proof.
  rewrite map_map. rewrite <- (map_id l) at 2. apply map_ext. intros n. apply root_unfold.
Qed.

Section ReadTree.

Variable A : list ConversationNode.
Variable st : Registry.
Hypothesis kids_closed : forall p x, In p A -> In x (kids st p) -> In x A.

Lemma unfold_edges f :
  forall n p x, In n A -> In (p, x) (tree_edges (unfold f st n)) ->
                In p A /\ In x (kids st p).
Proof.
  induction f as [|f IH]; intros n p x Hn H; cbn [unfold tree_edges] in H.
  - destruct H.
  - apply in_app_or in H. destruct H as [H|H].
    + rewrite map_map in H. apply in_map_iff in H. destruct H as (y & E & Hy).
      rewrite root_unfold in E. injection E as <- <-. auto.
    + apply in_flat_map in H. destruct H as (k & Hk & H).
      apply in_map_iff in Hk. destruct Hk as (y & <- & Hy).
      apply (IH y); auto. apply (kids_closed n); auto.
Qed.

Lemma unfold_siblings f :
  forall n l, In n A -> In l (sibling_lists (unfold f st n)) ->
              l = [] \/ exists p, In p A /\ l = kids st p.
Proof.
  induction f as [|f IH]; intros n l Hn H; cbn [unfold sibling_lists] in H.
  - destruct H as [<-|[]]. auto.
  - destruct H as [<-|H].
    + right. exists n. split; auto. apply roots_unfold.
    + apply in_flat_map in H. destruct H as (k & Hk & H).
      apply in_map_iff in Hk. destruct Hk as (y & <- & Hy).
      apply (IH y); auto. apply (kids_closed n); auto.
Qed.

Lemma depth_leaf f n : kids st n = [] -> depth (unfold f st n) = 1.
Proof. intros H. destruct f; cbn [unfold depth]; auto. unfold kids in H. now rewrite H. Qed.

Lemma depth_step f n k :
  (forall y, In y (kids st n) -> depth (unfold f st y) <= k) ->
  depth (unfold (S f) st n) <= S k.
Proof.
  intros H. cbn [unfold depth]. apply le_n_S. apply list_max_le.
  rewrite Forall_forall. intros d Hd. rewrite map_map in Hd.
  apply in_map_iff in Hd. destruct Hd as (y & <- & Hy). now apply H.
Qed.

Lemma depth_zero n : depth (unfold 0 st n) = 1.
Proof. reflexivity. Qed.

End ReadTree.

(** In a shaped forest nothing lies more than two links below a node. *)
Lemma shaped_depth A u st R f n :
  Forest A st R -> Shape A None u st R -> In n A -> depth (unfold f st n) <= 3.
Proof.
  intros F S Hn.
  assert (Hc : forall p x, In p A -> In x (kids st p) -> In x A) by apply F.
  assert (Hgk : forall y z, In y A -> In y (kids st n) -> In z (kids st y) ->
                kids st z = []).
  { intros y z HyA Hy Hz.
    pose proof (sh_edge _ _ _ _ _ S y z HyA Hz) as E1.
    assert (HzA : In z A) by (apply (Hc y); auto).
    destruct (kids st z) as [|w l] eqn:Ez; auto. exfalso.
    assert (Hw : In w (kids st z)) by (rewrite Ez; simpl; auto).
    pose proof (sh_edge _ _ _ _ _ S z w HzA Hw) as E2.
    assert (Hya : hasType assistant y = true).
    { unfold isDisplayEdge, hasType, isToolFamily in E1, E2 |- *.
      destruct (type y), (type z); simpl in *; congruence. }
    assert (Hky : kids st y <> []) by (intros E; rewrite E in Hz; destruct Hz).
    destruct (sh_resp _ _ _ _ _ S y HyA Hya Hky) as [HyR|Hcur]; [|discriminate].
    apply (root_not_kid _ _ _ F n (id y) Hn); now apply in_map. }
  destruct f as [|f]; [rewrite depth_zero; lia|].
  apply depth_step. intros y Hy.
  assert (HyA : In y A) by (apply (Hc n); auto).
  destruct f as [|f]; [rewrite depth_zero; lia|].
  apply depth_step. intros z Hz.
  rewrite depth_leaf; auto. apply (Hgk y z); auto.
Qed.

Lemma notLater_time a b :
  parses a = true -> parses b = true -> le_time a b -> notLater a b.
Proof.
  unfold parses, le_time, time, notLater.
  destruct (timestamp a), (timestamp b); simpl; auto; discriminate.
Qed.

Lemma sorted_notLater l :
  Parsed l -> StronglySorted le_time l -> StronglySorted notLater l.
Proof.
  intros Hp Hs. induction Hs as [|x l Hs IH Hx]; constructor.
  - apply IH. intros n Hn. apply Hp. simpl. auto.
  - rewrite Forall_forall in *. intros y Hy.
    apply notLater_time; auto; apply Hp; simpl; auto.
Qed.

(** What the rebuilt tree is, for a registry that names each node once and
    whose timestamps parse. *)
Lemma rebuilt_tree_shape {rt : Runtime} nodes :
  NoDup (map id (Map_values nodes)) -> Parsed (Map_values nodes) ->
  let tree := snapshot (fst (buildTree nodes)) (snd (buildTree nodes)) in
  (forall p x, In (p, x) (forest_edges tree) ->
     isDisplayEdge p x = true /\
     (hasType assistant p = true -> In p (map root_of tree))) /\
  Forall (fun t => depth t <= 3) tree /\
  Forall (StronglySorted notLater) (all_sibling_lists tree) /\
  (forall n, In n (Map_values nodes) -> isTurnStarter n = true -> isRawRoot nodes n = true ->
     In n (map root_of tree) /\
     forall r, In r (map root_of tree) -> hasType tool_result r = false).
Proof.
  intros Hnd Hpar. cbv zeta.
  destruct (buildTree_display nodes Hnd Hpar) as (Hnd0 & Hsub & F & (u & S) & HR & Hts & _).
  set (all0 := flattenTree (fst (rawLinkage nodes)) (snd (rawLinkage nodes))) in *.
  destruct (buildTree nodes) as [st R]. cbn [fst snd] in *.
  assert (Hc : forall p x, In p all0 -> In x (kids st p) -> In x all0) by apply F.
  assert (HRA : forall r, In r R -> In r all0) by apply F.
  unfold snapshot. rewrite roots_unfold.
  split; [|split; [|split]].
  - intros p x H. unfold forest_edges in H. apply in_flat_map in H.
    destruct H as (t & Ht & H). apply in_map_iff in Ht. destruct Ht as (r & <- & Hr).
    apply (unfold_edges all0 st Hc) in H; auto. destruct H as [Hp Hx]. split.
    + now apply (sh_edge _ _ _ _ _ S p x).
    + intros Ha.
      assert (Hkp : kids st p <> []) by (intros E; rewrite E in Hx; destruct Hx).
      destruct (sh_resp _ _ _ _ _ S p Hp Ha Hkp) as [H|H]; [exact H|discriminate].
  - rewrite Forall_forall. intros t Ht. apply in_map_iff in Ht.
    destruct Ht as (r & <- & Hr). apply (shaped_depth all0 u st R); auto.
  - rewrite Forall_forall. intros l Hl. unfold all_sibling_lists in Hl.
    rewrite roots_unfold in Hl. destruct Hl as [<-|Hl].
    { apply sorted_notLater; auto. intros x Hx. apply Hpar, Hsub, HRA, Hx. }
    apply in_flat_map in Hl. destruct Hl as (t & Ht & Hl).
    apply in_map_iff in Ht. destruct Ht as (r & <- & Hr).
    apply (unfold_siblings all0 st Hc) in Hl; auto.
    destruct Hl as [->|(p & Hp & ->)]; [constructor|].
    assert (Hkp : Parsed (kids st p)).
    { intros x Hx. apply Hpar, Hsub. apply (Hc p); auto. }
    apply sorted_notLater; auto.
    apply (sh_sorted _ _ _ _ _ S p Hp); [discriminate|exact Hkp].
  - intros n Hn Hs Hroot.
    assert (Hn0 : In n all0).
    { unfold all0, flattenTree. apply flatten_self. rewrite rawLinkage_roots.
      apply sort_In. apply filter_In. auto. }
    destruct Hts as [H1 H2]; [exists n; auto|]. split; auto.
Qed.

Lemma getNodes_snapshot {rt : Runtime} w :
  snd (getNodes w) = snapshot (fst (buildTree (nodes w))) (snd (buildTree (nodes w))).
Proof. unfold getNodes. now destruct (buildTree (nodes w)). Qed.

(** X1. The links of the display tree.  In the tree [getNodes] returns for
    a registry that names each node once and whose timestamps all parse as
    dates, every parent-child link is of one of two kinds: the parent is an
    assistant response and the child is a thinking node, a tool invocation
    (tool call, agent, skill, command) or another assistant response; or the
    parent is a thinking node or a tool invocation and the child is a tool
    result whose [parentId] is the parent's id.  An assistant response that
    has children is a root. *)
Theorem display_links {rt : Runtime} (w : SessionWatcher) (p x : ConversationNode)
    (Hids : NoDup (map id (Map_values (nodes w))))
    (Hparse : Parsed (Map_values (nodes w)))
    (Hlink : In (p, x) (forest_edges (snd (getNodes w)))) :
  isDisplayEdge p x = true /\
  (hasType assistant p = true -> In p (map root_of (snd (getNodes w)))).
Proof.
  rewrite getNodes_snapshot in *.
  destruct (rebuilt_tree_shape (nodes w) Hids Hparse) as (H & _). now apply H.
Qed.

(** X3. Siblings are in time order: when the registry names each node once
    and every timestamp parses as a date, the list of roots and every
    [children] array of the display tree is sorted by timestamp, earliest
    first. *)
Theorem siblings_chronological {rt : Runtime} (w : SessionWatcher)
    (Hids : NoDup (map id (Map_values (nodes w))))
    (Hparse : Parsed (Map_values (nodes w))) :
  Forall (StronglySorted notLater) (all_sibling_lists (snd (getNodes w))).
Proof.
  rewrite getNodes_snapshot.
  destruct (rebuilt_tree_shape (nodes w) Hids Hparse) as (_ & _ & H & _). exact H.
Qed.

(** X4. User and system nodes stay at the top level, when the registry
    names each node once and every timestamp parses as a date.  In the
    display tree no user or system node is the parent or the child of a
    link.  A user or system node of the registry that [buildTree] makes a
    root (its parent is not in the registry) is a root of the display tree,
    and when there is such a node no root of the display tree is a tool
    result. *)
Theorem turn_starters_top_level {rt : Runtime} (w : SessionWatcher)
    (Hids : NoDup (map id (Map_values (nodes w))))
    (Hparse : Parsed (Map_values (nodes w))) :
  (forall p x, In (p, x) (forest_edges (snd (getNodes w))) ->
     isTurnStarter p = false /\ isTurnStarter x = false) /\
  (forall n, In n (Map_values (nodes w)) -> isTurnStarter n = true ->
     isRawRoot (nodes w) n = true ->
     In n (map root_of (snd (getNodes w))) /\
     forall r, In r (map root_of (snd (getNodes w))) -> hasType tool_result r = false).
Proof.
  rewrite getNodes_snapshot.
  destruct (rebuilt_tree_shape (nodes w) Hids Hparse) as (H1 & _ & _ & H2). split; auto.
  intros p x H. apply H1 in H. destruct H as [H _].
  unfold isDisplayEdge, hasType, isToolFamily, isTurnStarter in *.
  destruct (type p), (type x); simpl in *; try discriminate; auto.
Qed.

(** X5. A registry without user and system nodes is shown flat.  When the
    registry names each node once and every timestamp parses as a date, the
    display tree is the list of the nodes whose parent is not in the
    registry, each without children, and that list is in time order,
    earliest first; the nodes that name a parent in the registry are not
    shown. *)
Theorem no_turn_starter_flat {rt : Runtime} (w : SessionWatcher)
    (Hids : NoDup (map id (Map_values (nodes w))))
    (Hparse : Parsed (Map_values (nodes w)))
    (Hnone : forall n, In n (Map_values (nodes w)) -> isTurnStarter n = false) :
  snd (getNodes w) =
  map (fun r => TNode r [])
      (sortByTimestamp (filter (isRawRoot (nodes w)) (Map_values (nodes w)))) /\
  StronglySorted notLater
      (sortByTimestamp (filter (isRawRoot (nodes w)) (Map_values (nodes w)))).
Proof.
  assert (Hpf : Parsed (filter (isRawRoot (nodes w)) (Map_values (nodes w)))).
  { intros x Hx. apply filter_In in Hx. apply Hparse. tauto. }
  split.
  - rewrite getNodes_snapshot.
    destruct (buildTree_display (nodes w) Hids Hparse)
      as (_ & Hsub & F & _ & _ & _ & Hflat).
    destruct Hflat as [HR Hk]; [intros x Hx; apply Hnone; auto|].
    rewrite <- rawLinkage_roots, <- HR.
    unfold snapshot. apply map_ext_in. intros r Hr.
    assert (H : kids (fst (buildTree (nodes w))) r = []).
    { apply Hk. now apply (roots_in _ _ _ F). }
    unfold kids in H.
    destruct (List.length (fst (buildTree (nodes w)))); cbn [unfold]; auto.
    now rewrite H.
  - apply sorted_notLater.
    + eapply Parsed_perm; [apply Permutation_sym, sort_perm|exact Hpf].
    + now apply sort_sorted.
Qed.

Lemma display_links_witness :
  let w := watch Ex.rt0 [Ex.log3] initial in
  let a := mkNode "a1-text" (Some "u1") (Ms 2000) assistant "I will run the tests"
             (ContentOfBlock (TextBlock "I will run the tests"))
             None None None None None None Ex.entry2 in
  let t := mkNode "a1-thinking" (Some "u1") (Ms 2000) thinking "Look at the failing test"
             (ContentOfBlock (ThinkingBlock "Look at the failing test"))
             None None None None None None Ex.entry2 in
  isDisplayEdge a t = true /\
  (hasType assistant a = true -> In a (map root_of (snd (getNodes (rt := Ex.rt0) w)))).
Proof.
  cbv zeta.
  apply (display_links (rt := Ex.rt0) (watch Ex.rt0 [Ex.log3] initial)).
  - vm_compute. repeat (constructor; [simpl; intuition discriminate|]). constructor.
  - vm_compute. intros n [<-|[<-|[<-|[<-|[<-|[]]]]]]; reflexivity.
  - vm_compute. left. reflexivity.
Defined.

Lemma siblings_chronological_witness :
  Forall (StronglySorted notLater)
         (all_sibling_lists
            (snd (getNodes (rt := Ex.rt0) (watch Ex.rt0 [Ex.log3] initial)))).
Proof.
  apply (siblings_chronological (rt := Ex.rt0) (watch Ex.rt0 [Ex.log3] initial)).
  - vm_compute. repeat (constructor; [simpl; intuition discriminate|]). constructor.
  - vm_compute. intros n [<-|[<-|[<-|[<-|[<-|[]]]]]]; reflexivity.
Defined.

Lemma turn_starters_top_level_witness :
  let w := watch Ex.rt0 [Ex.log3] initial in
  (forall p x, In (p, x) (forest_edges (snd (getNodes (rt := Ex.rt0) w))) ->
     isTurnStarter p = false /\ isTurnStarter x = false) /\
  (forall n, In n (Map_values (nodes w)) -> isTurnStarter n = true ->
     isRawRoot (nodes w) n = true ->
     In n (map root_of (snd (getNodes (rt := Ex.rt0) w))) /\
     forall r, In r (map root_of (snd (getNodes (rt := Ex.rt0) w))) ->
               hasType tool_result r = false).
Proof.
  apply (turn_starters_top_level (rt := Ex.rt0) (watch Ex.rt0 [Ex.log3] initial)).
  - vm_compute. repeat (constructor; [simpl; intuition discriminate|]). constructor.
  - vm_compute. intros n [<-|[<-|[<-|[<-|[<-|[]]]]]]; reflexivity.
Defined.

Lemma no_turn_starter_flat_witness :
  let w := fst (readFile Ex.rt0 Ex.line2 initial) in
  snd (getNodes (rt := Ex.rt0) w) =
  map (fun r => TNode r [])
      (sortByTimestamp (rt := Ex.rt0)
         (filter (isRawRoot (nodes w)) (Map_values (nodes w)))) /\
  StronglySorted notLater
      (sortByTimestamp (rt := Ex.rt0)
         (filter (isRawRoot (nodes w)) (Map_values (nodes w)))).
Proof.
  apply (no_turn_starter_flat (rt := Ex.rt0) (fst (readFile Ex.rt0 Ex.line2 initial))).
  - vm_compute. repeat (constructor; [simpl; intuition discriminate|]). constructor.
  - vm_compute. intros n [<-|[<-|[<-|[]]]]; reflexivity.
  - vm_compute. intros n [<-|[<-|[<-|[]]]]; reflexivity.
Defined.

(** * Which nodes are shown *)

Section AddsSteps.

Context {rt : Runtime}.
Variable A : list ConversationNode.

Lemma Adds_refl c s : Adds A c s s.
Proof. destruct s as [[u st] R]. simpl. auto. Qed.

Lemma Adds_trans c s s' s'' : Adds A c s s' -> Adds A c s' s'' -> Adds A c s s''.
Proof.
  destruct s as [[u st] R], s' as [[u' st'] R'], s'' as [[u'' st''] R''].
  simpl. intros (H1 & H2 & H3) (K1 & K2 & K3). split; [|split]; auto.
  intros i Hi. destruct (K3 i Hi) as [H|H]; auto.
  destruct (H3 i H) as [H'|[H' H'']]; auto.
Qed.

Lemma Adds_marks c s s' :
  Adds A c s s' -> forall i, In i (fst (fst s)) -> In i (fst (fst s')).
Proof.
  destruct s as [[u st] R], s' as [[u' st'] R']. simpl. intros (H & _). exact H.
Qed.

Lemma Adds_weaken c c' s s' :
  (forall x, In x c -> In x c') -> Adds A c s s' -> Adds A c' s s'.
Proof.
  destruct s as [[u st] R], s' as [[u' st'] R']. simpl.
  intros Hc (H1 & H2 & H3). split; [|split]; auto.
  intros i Hi. destruct (H3 i Hi) as [H|[H H']]; auto. right. split; auto.
  apply in_map_iff in H'. destruct H' as (x & <- & Hx). apply in_map. auto.
Qed.

(** Marking a node and hanging it. *)
Lemma Adds_hang u st R p x :
  Held A st -> In p A ->
  Adds A [x] (u, st, R) (Set_add u (id x), pushChild (id p) x st, R).
Proof.
  intros Hh Hp. simpl. split; [|split].
  - intros i Hi. apply Set_add_In. auto.
  - intros i Hi. apply push_kid_placed; auto.
  - intros i Hi. apply Set_add_In in Hi. destruct Hi as [Hi| ->]; auto.
    right. split; auto. apply push_kid_placed; auto.
Qed.

Lemma attachResult_fold_adds owner rs R :
  forall u st,
    Held A st -> In owner A ->
    Adds A rs (u, st, R)
         (fst (fold_left (attachResult owner) rs (u, st)),
          snd (fold_left (attachResult owner) rs (u, st)), R) /\
    Held A (snd (fold_left (attachResult owner) rs (u, st))).
Proof.
  induction rs as [|r rs IH]; intros u st Hh Ho; cbn [fold_left fst snd].
  - split; auto. apply Adds_refl.
  - assert (Hstep : attachResult owner (u, st) r =
                    (Set_add u (id r), pushChild (id owner) r st)) by reflexivity.
    rewrite Hstep.
    destruct (IH (Set_add u (id r)) (pushChild (id owner) r st)) as [H1 H2]; auto.
    { now apply Held_upd. }
    split; auto. eapply Adds_trans.
    + eapply Adds_weaken; [|apply (Adds_hang u st R owner r); auto]. intros x [<-|[]]. simpl. auto.
    + eapply Adds_weaken; [|exact H1]. intros x Hx. simpl. auto.
Qed.

Lemma attachResults_adds owner trs u st R :
  Held A st -> In owner A ->
  Adds A trs (u, st, R)
       (fst (attachResults owner trs u st), snd (attachResults owner trs u st), R) /\
  Held A (snd (attachResults owner trs u st)).
Proof.
  intros Hh Ho. unfold attachResults.
  destruct (attachResult_fold_adds owner
              (filter (fun r => parentIs r owner && negb (Set_has u (id r))) trs) R u st)
    as [H1 H2]; auto.
  split; auto. eapply Adds_weaken; [|exact H1].
  intros x Hx. apply filter_In in Hx. tauto.
Qed.

Lemma attachUnused_adds target xs R :
  forall u st,
    Held A st -> In target A ->
    Adds A xs (u, st, R)
         (fst (attachUnused target xs u st), snd (attachUnused target xs u st), R) /\
    Held A (snd (attachUnused target xs u st)) /\
    (forall x, In x xs -> In (id x) (fst (attachUnused target xs u st))).
Proof.
  unfold attachUnused.
  induction xs as [|x xs IH]; intros u st Hh Ht; cbn [fold_left fst snd].
  - split; [apply Adds_refl|]. split; auto. intros x [].
  - assert (Hstep : attachOne target (u, st) x =
                    if Set_has u (id x) then (u, st)
                    else (Set_add u (id x), pushChild (id target) x st)) by reflexivity.
    rewrite Hstep. clear Hstep.
    destruct (Set_has u (id x)) eqn:Eu.
    + destruct (IH u st) as (H1 & H2 & H3); auto.
      split; [|split]; auto.
      * eapply Adds_weaken; [|exact H1]. intros y Hy. simpl. auto.
      * intros y [<-|Hy]; auto.
        destruct H1 as (M & _). apply M. now apply Set_has_In.
    + destruct (IH (Set_add u (id x)) (pushChild (id target) x st)) as (H1 & H2 & H3); auto.
      { now apply Held_upd. }
      split; [|split]; auto.
      * eapply Adds_trans.
        -- eapply Adds_weaken; [|apply (Adds_hang u st R target x); auto]. intros y [<-|[]]. simpl. auto.
        -- eapply Adds_weaken; [|exact H1]. intros y Hy. simpl. auto.
      * intros y [<-|Hy]; auto.
        destruct H1 as (M & _). apply M. apply Set_add_In. auto.
Qed.

Lemma attachTool_adds a trs R s tool :
  Held A (snd s) -> In a A -> In tool A ->
  Adds A (tool :: trs) (fst s, snd s, R)
       (fst (attachTool a trs s tool), snd (attachTool a trs s tool), R) /\
  Held A (snd (attachTool a trs s tool)) /\
  In (id tool) (fst (attachTool a trs s tool)).
Proof.
  destruct s as [u st]. cbn [fst snd]. intros Hh Ha Ht. unfold attachTool.
  destruct (Set_has u (id tool)) eqn:Eu; cbn [fst snd].
  - split; [apply Adds_refl|]. split; auto. now apply Set_has_In.
  - destruct (attachResults_adds tool trs (Set_add u (id tool)) st R) as [H1 H2]; auto.
    destruct (attachResults tool trs (Set_add u (id tool)) st) as [u2 st2].
    cbn [fst snd] in *. simpl in H1. destruct H1 as (M1 & M2 & M3).
    split; [|split].
    + simpl. split; [|split].
      * intros i Hi. apply M1, Set_add_In. auto.
      * intros i Hi. apply push_kid_placed; auto.
      * intros i Hi. destruct (M3 i Hi) as [H|[H H']].
        -- apply Set_add_In in H. destruct H as [H| ->]; auto.
           right. split; auto. apply push_kid_placed; auto.
        -- right. split; auto. apply push_kid_placed; auto.
    + now apply Held_upd.
    + apply M1, Set_add_In. auto.
Qed.

Lemma attachTool_fold_adds a trs R tools :
  forall u st,
    Held A st -> In a A -> (forall x, In x tools -> In x A) ->
    Adds A (tools ++ trs) (u, st, R)
         (fst (fold_left (attachTool a trs) tools (u, st)),
          snd (fold_left (attachTool a trs) tools (u, st)), R) /\
    Held A (snd (fold_left (attachTool a trs) tools (u, st))) /\
    (forall x, In x tools -> In (id x) (fst (fold_left (attachTool a trs) tools (u, st)))).
Proof.
  induction tools as [|x tools IH]; intros u st Hh Ha HT; cbn [fold_left fst snd].
  - split; [apply Adds_refl|]. split; auto. intros x [].
  - destruct (attachTool_adds a trs R (u, st) x) as (H1 & H2 & H3); auto.
    { apply HT. simpl. auto. }
    destruct (attachTool a trs (u, st) x) as [u1 st1]. cbn [fst snd] in *.
    destruct (IH u1 st1) as (K1 & K2 & K3); auto.
    { intros y Hy. apply HT. simpl. auto. }
    split; [|split]; auto.
    + eapply Adds_trans.
      * eapply Adds_weaken; [|exact H1]. intros y [<-|Hy]; simpl; auto.
        right. apply in_or_app. auto.
      * eapply Adds_weaken; [|exact K1]. intros y Hy. simpl. auto.
    + intros y [<-|Hy]; auto. destruct K1 as (M & _). auto.
Qed.

Lemma promote_adds trs s node :
  Held A (snd (fst s)) -> In node A ->
  Adds A (node :: trs) s (promote trs s node) /\
  Held A (snd (fst (promote trs s node))) /\
  (hasType tool_result node = false -> In (id node) (fst (fst (promote trs s node)))).
Proof.
  destruct s as [[u st] R]. cbn [fst snd]. intros Hh Hn. unfold promote.
  destruct (negb (hasType tool_result node) && negb (Set_has u (id node))) eqn:E.
  - destruct (attachResults_adds node trs (Set_add u (id node)) st R) as [H1 H2]; auto.
    destruct (attachResults node trs (Set_add u (id node)) st) as [u2 st2].
    cbn [fst snd] in *. simpl in H1. destruct H1 as (M1 & M2 & M3).
    split; [|split]; auto.
    + simpl. split; [|split].
      * intros i Hi. apply M1, Set_add_In. auto.
      * intros i Hi. apply push_root_placed. auto.
      * intros i Hi. destruct (M3 i Hi) as [H|[H H']].
        -- apply Set_add_In in H. destruct H as [H| ->]; auto.
           right. split; auto. apply push_root_placed. auto.
        -- right. split; auto. apply push_root_placed. auto.
    + intros _. apply M1, Set_add_In. auto.
  - split; [apply Adds_refl|]. split; auto. cbn [fst snd].
    intros Hr. rewrite Hr in E. cbn [negb andb] in E.
    apply negb_false_iff in E. now apply Set_has_In.
Qed.

Lemma promote_fold_adds trs ns :
  forall s,
    Held A (snd (fst s)) -> (forall x, In x ns -> In x A) ->
    Adds A (ns ++ trs) s (fold_left (promote trs) ns s) /\
    Held A (snd (fst (fold_left (promote trs) ns s))) /\
    (forall x, In x ns -> hasType tool_result x = false ->
               In (id x) (fst (fst (fold_left (promote trs) ns s)))).
Proof.
  induction ns as [|x ns IH]; intros s Hh HN; cbn [fold_left].
  - split; [apply Adds_refl|]. split; auto. intros x [].
  - destruct (promote_adds trs s x) as (H1 & H2 & H3); auto.
    { apply HN. simpl. auto. }
    destruct (IH (promote trs s x)) as (K1 & K2 & K3); auto.
    { intros y Hy. apply HN. simpl. auto. }
    split; [|split]; auto.
    + eapply Adds_trans.
      * eapply Adds_weaken; [|exact H1]. intros y [<-|Hy]; simpl; auto.
        right. apply in_or_app. auto.
      * eapply Adds_weaken; [|exact K1]. intros y Hy. simpl. auto.
    + intros y [E|Hy] Hr; auto. subst y.
      specialize (H3 Hr).
      destruct (promote trs s x) as [[u1 st1] R1].
      destruct (fold_left (promote trs) ns (u1, st1, R1)) as [[u2 st2] R2].
      simpl in K1. destruct K1 as (M & _). cbn [fst] in *. auto.
Qed.

(** ** Tool results find their owner *)

Lemma attachResult_fold_marks owner rs :
  forall u st,
    (forall i, In i u -> In i (fst (fold_left (attachResult owner) rs (u, st)))) /\
    (forall r, In r rs -> In (id r) (fst (fold_left (attachResult owner) rs (u, st)))).
Proof.
  induction rs as [|x rs IH]; intros u st; cbn [fold_left fst].
  - split; auto. intros r [].
  - assert (Hstep : attachResult owner (u, st) x =
                    (Set_add u (id x), pushChild (id owner) x st)) by reflexivity.
    rewrite Hstep. destruct (IH (Set_add u (id x)) (pushChild (id owner) x st)) as [H1 H2].
    split.
    + intros i Hi. apply H1, Set_add_In. auto.
    + intros r [<-|Hr]; auto. apply H1, Set_add_In. auto.
Qed.

Lemma attachResults_marks owner trs u st r :
  In r trs -> parentIs r owner = true -> In (id r) (fst (attachResults owner trs u st)).
Proof.
  intros Hr Hp. unfold attachResults.
  destruct (attachResult_fold_marks owner
              (filter (fun r => parentIs r owner && negb (Set_has u (id r))) trs) u st)
    as [H1 H2].
  destruct (Set_has u (id r)) eqn:Eu.
  - apply H1. now apply Set_has_In.
  - apply H2. apply filter_In. split; auto. now rewrite Hp, Eu.
Qed.

(** The loop over the tool invocations: a result that names an invocation
    of the loop that is not yet marked ends up marked. *)
Lemma attachTool_fold_results a trs tools :
  forall u st,
    Held A st -> In a A -> (forall x, In x tools -> In x A) ->
    NoDup (map id tools) ->
    forall p r, In p tools -> ~ In (id p) u ->
                (forall r', In r' trs -> id r' <> id p) ->
                In r trs -> parentIs r p = true ->
                In (id r) (fst (fold_left (attachTool a trs) tools (u, st))).
Proof.
  induction tools as [|x tools IH]; intros u st Hh Ha HT Hnd p r Hp Hu Htr Hr Hpar;
    [destruct Hp|].
  cbn [fold_left]. inversion Hnd as [|? ? Hx Hnd']; subst.
  assert (HxA : In x A) by (apply HT; simpl; auto).
  assert (HTA : forall y, In y tools -> In y A) by (intros y Hy; apply HT; simpl; auto).
  destruct (attachTool_adds a trs [] (u, st) x Hh Ha HxA) as (Ad & H1 & _).
  destruct Hp as [->|Hp].
  - assert (Hm : In (id r) (fst (attachTool a trs (u, st) p))).
    { unfold attachTool. apply Set_has_not_In in Hu. rewrite Hu.
      pose proof (attachResults_marks p trs (Set_add u (id p)) st r Hr Hpar) as H.
      destruct (attachResults p trs (Set_add u (id p)) st) as [u2 st2]. exact H. }
    destruct (attachTool a trs (u, st) p) as [u1 st1]. cbn [fst snd] in *.
    destruct (attachTool_fold_adds a trs [] tools u1 st1 H1 Ha HTA) as (Ad2 & _).
    apply (Adds_marks _ _ _ Ad2). exact Hm.
  - destruct (attachTool a trs (u, st) x) as [u1 st1]. cbn [fst snd] in *.
    apply (IH u1 st1 H1 Ha HTA Hnd' p r); auto.
    intros Hi. simpl in Ad. destruct Ad as (_ & _ & Ad3).
    destruct (Ad3 _ Hi) as [H|[_ [E|H]]]; auto.
    + apply Hx. rewrite E. now apply in_map.
    + apply in_map_iff in H. destruct H as (r' & E & Hr'). now apply (Htr r').
Qed.

(** The loop of a turn with no assistant text, likewise. *)
Lemma promote_fold_results trs ns :
  forall s,
    Held A (snd (fst s)) -> (forall x, In x ns -> In x A) ->
    NoDup (map id ns) ->
    forall p r, In p ns -> ~ In (id p) (fst (fst s)) -> hasType tool_result p = false ->
                (forall r', In r' trs -> id r' <> id p) ->
                In r trs -> parentIs r p = true ->
                In (id r) (fst (fst (fold_left (promote trs) ns s))).
Proof.
  induction ns as [|x ns IH]; intros s Hh HN Hnd p r Hp Hu Hnr Htr Hr Hpar;
    [destruct Hp|].
  cbn [fold_left]. inversion Hnd as [|? ? Hx Hnd']; subst.
  assert (HxA : In x A) by (apply HN; simpl; auto).
  assert (HNA : forall y, In y ns -> In y A) by (intros y Hy; apply HN; simpl; auto).
  destruct (promote_adds trs s x Hh HxA) as (Ad & H1 & _).
  destruct Hp as [->|Hp].
  - assert (Hm : In (id r) (fst (fst (promote trs s p)))).
    { destruct s as [[u st] R0]. cbn [fst snd] in *. unfold promote.
      apply Set_has_not_In in Hu. rewrite Hnr, Hu. cbn [negb andb].
      pose proof (attachResults_marks p trs (Set_add u (id p)) st r Hr Hpar) as H.
      destruct (attachResults p trs (Set_add u (id p)) st) as [u2 st2]. exact H. }
    destruct (promote_fold_adds trs ns (promote trs s p) H1 HNA) as (Ad2 & _).
    apply (Adds_marks _ _ _ Ad2). exact Hm.
  - apply (IH (promote trs s x) H1 HNA Hnd' p r); auto.
    intros Hi. destruct s as [[u st] R0]. destruct (promote trs (u, st, R0) x) as [[u1 st1] R1].
    cbn [fst snd] in *. simpl in Ad. destruct Ad as (_ & _ & Ad3).
    destruct (Ad3 _ Hi) as [H|[_ [E|H]]]; auto.
    + apply Hx. rewrite E. now apply in_map.
    + apply in_map_iff in H. destruct H as (r' & E & Hr'). now apply (Htr r').
Qed.

(** One turn: the turn starter and every node of the turn that is no tool
    result are marked, and every new mark fills a slot. *)
Lemma turn_adds allNodes t nx u st R :
  Held A st -> (forall x, In x allNodes -> In x A) -> NoDup (map id allNodes) -> In t A ->
  let turnNodes := filter (inTurn t nx (Set_add u (id t))) allNodes in
  let s' := turn allNodes t nx (u, st, R) in
  Adds A (t :: turnNodes) (u, st, R) s' /\
  Held A (snd (fst s')) /\
  In (id t) (fst (fst s')) /\
  (forall y, In y turnNodes -> hasType tool_result y = false ->
             isTurnStarter y = false -> In (id y) (fst (fst s'))) /\
  (forall p r, In p turnNodes -> In r turnNodes -> isToolFamily p = true ->
               hasType tool_result r = true -> parentIs r p = true ->
               In (id r) (fst (fst s'))).
Proof.
  intros Hh HA Hnd Ht. cbv zeta. unfold turn.
  set (u1 := Set_add u (id t)).
  set (turnNodes := filter (inTurn t nx u1) allNodes).
  assert (HndT : NoDup (map id turnNodes)) by now apply NoDup_filter_ids.
  assert (Hfresh : forall x, In x turnNodes -> ~ In (id x) u1).
  { intros x Hx. apply filter_In in Hx. destruct Hx as [_ Hx].
    apply inTurn_facts in Hx. tauto. }
  assert (Hres : forall p r', In p turnNodes -> isToolFamily p = true ->
                   In r' (filter (hasType tool_result) turnNodes) -> id r' <> id p).
  { intros p r' Hp Hpf Hr' E. apply filter_In in Hr'. destruct Hr' as [Hr' Ht'].
    assert (r' = p) by (apply (id_inj turnNodes); auto). subst r'.
    unfold isToolFamily, hasType in *. destruct (type p); discriminate. }
  assert (HTA : forall x, In x turnNodes -> In x A).
  { intros x Hx. apply filter_In in Hx. apply HA; tauto. }
  assert (Hsub : forall f x, In x (filter f turnNodes) -> In x turnNodes).
  { intros f x Hx. apply filter_In in Hx. tauto. }
  assert (E1 : Adds A (t :: turnNodes) (u, st, R) (u1, st, R ++ [t])).
  { simpl. split; [|split].
    - intros i Hi. apply Set_add_In. auto.
    - intros i Hi. apply push_root_placed. auto.
    - intros i Hi. apply Set_add_In in Hi. destruct Hi as [Hi| ->]; auto.
      right. split; auto. apply push_root_placed. auto. }
  destruct (last_opt (filter (hasType assistant) turnNodes)) as [a|] eqn:Ea.
  - apply last_opt_In in Ea. pose proof (Hsub _ _ Ea) as EaT.
    apply filter_In in Ea. destruct Ea as [_ Hta].
    pose proof (HTA a EaT) as HaA.
    set (u2 := Set_add u1 (id a)).
    destruct (attachUnused_adds a (filter (hasType thinking) turnNodes) (R ++ [t]) u2 st)
      as (A3 & H3 & M3); auto.
    destruct (attachUnused a (filter (hasType thinking) turnNodes) u2 st) as [u3 st3].
    cbn [fst snd] in A3, H3, M3.
    destruct (attachTool_fold_adds a (filter (hasType tool_result) turnNodes) (R ++ [t])
                (filter isToolFamily turnNodes) u3 st3) as (A4 & H4 & M4); auto.
    { intros x Hx. apply HTA. eapply Hsub; eauto. }
    assert (Q4 : forall p r, In p turnNodes -> In r turnNodes -> isToolFamily p = true ->
                   hasType tool_result r = true -> parentIs r p = true ->
                   In (id r) (fst (fold_left
                                     (attachTool a (filter (hasType tool_result) turnNodes))
                                     (filter isToolFamily turnNodes) (u3, st3)))).
    { intros p r Hp Hr Hpf Hrt Hpar.
      apply (attachTool_fold_results a (filter (hasType tool_result) turnNodes)
               (filter isToolFamily turnNodes) u3 st3 H3 HaA) with (p := p); auto.
      - intros x Hx. apply HTA. eapply Hsub; eauto.
      - now apply NoDup_filter_ids.
      - apply filter_In. auto.
      - intros Hi. simpl in A3. destruct A3 as (_ & _ & A33).
        destruct (A33 _ Hi) as [H|[_ H]].
        + apply Set_add_In in H. destruct H as [H|E].
          * now apply (Hfresh p).
          * assert (p = a) by (apply (id_inj turnNodes); auto). subst p.
            unfold isToolFamily, hasType in *. destruct (type a); discriminate.
        + apply in_map_iff in H. destruct H as (y & E & Hy).
          apply filter_In in Hy. destruct Hy as [Hy Hty].
          assert (y = p) by (apply (id_inj turnNodes); auto). subst y.
          unfold isToolFamily, hasType in *. destruct (type p); discriminate.
      - apply filter_In. auto. }
    destruct (fold_left (attachTool a (filter (hasType tool_result) turnNodes))
                (filter isToolFamily turnNodes) (u3, st3)) as [u4 st4].
    cbn [fst snd] in A4, H4, M4, Q4.
    destruct (attachUnused_adds a
                (filter (fun n => negb (sameNode n a)) (filter (hasType assistant) turnNodes))
                (R ++ [t]) u4 st4) as (A5 & H5 & M5); auto.
    destruct (attachUnused a _ u4 st4) as [u5 st5]. cbn [fst snd] in A5, H5, M5.
    assert (A25 : Adds A (t :: turnNodes) (u2, st, R ++ [t]) (u5, st5, R ++ [t])).
    { eapply Adds_trans; [|eapply Adds_trans].
      - eapply Adds_weaken; [|exact A3]. intros x Hx. right. eapply Hsub; eauto.
      - eapply Adds_weaken; [|exact A4]. intros x Hx. right.
        apply in_app_or in Hx. destruct Hx as [Hx|Hx]; eapply Hsub; eauto.
      - eapply Adds_weaken; [|exact A5]. intros x Hx. right.
        apply filter_In in Hx. destruct Hx as [Hx _]. eapply Hsub; eauto. }
    set (st6 := updChildren (id a) sortByTimestamp st5).
    assert (Hpl : forall Rx i, Placed A st6 Rx i <-> Placed A st5 Rx i).
    { intros Rx i. apply placed_perm; [|apply Permutation_refl].
      intros q. apply kids_upd_perm. apply sort_perm. }
    simpl in A25. destruct A25 as (N1 & N2 & N3).
    simpl in E1. destruct E1 as (F1 & F2 & F3).
    cbn [fst snd]. split; [|split; [|split; [|split]]].
    + simpl. split; [|split].
      * intros i Hi. apply N1, Set_add_In. left. now apply F1.
      * intros i Hi. apply push_root_placed. left. apply Hpl. apply N2. now apply F2.
      * intros i Hi. destruct (N3 i Hi) as [H|[H H']].
        -- apply Set_add_In in H. destruct H as [H| ->].
           ++ destruct (F3 i H) as [H0|[H0 H0']]; auto.
              right. split; auto. apply push_root_placed. left. apply Hpl. now apply N2.
           ++ right. split.
              ** apply push_root_placed. auto.
              ** simpl. right. now apply in_map.
        -- right. split; auto. apply push_root_placed. left. now apply Hpl.
    + now apply Held_upd.
    + apply N1, Set_add_In. left. apply Set_add_In. auto.
    + intros y Hy Hr Hs.
      assert (Hm5 : forall i, In i u4 -> In i u5) by (destruct A5 as (M & _); exact M).
      assert (Hm4 : forall i, In i u3 -> In i u4) by (destruct A4 as (M & _); exact M).
      assert (Hm3 : forall i, In i u2 -> In i u3) by (destruct A3 as (M & _); exact M).
      unfold hasType in Hr. unfold isTurnStarter in Hs.
      destruct (type y) eqn:Ety; cbn in Hr, Hs; try discriminate.
      * destruct (sameNode y a) eqn:Es.
        -- apply String.eqb_eq in Es. rewrite Es.
           apply Hm5, Hm4, Hm3. apply Set_add_In. auto.
        -- apply M5. apply filter_In. split; [|now rewrite Es].
           apply filter_In. split; auto. unfold hasType. now rewrite Ety.
      * apply Hm5, Hm4, M3. apply filter_In. split; auto.
        unfold hasType. now rewrite Ety.
      * apply Hm5, M4. apply filter_In. split; auto.
        unfold isToolFamily. now rewrite Ety.
      * apply Hm5, M4. apply filter_In. split; auto.
        unfold isToolFamily. now rewrite Ety.
      * apply Hm5, M4. apply filter_In. split; auto.
        unfold isToolFamily. now rewrite Ety.
      * apply Hm5, M4. apply filter_In. split; auto.
        unfold isToolFamily. now rewrite Ety.
    + intros p r Hp Hr Hpf Hrt Hpar.
      destruct A5 as (M & _). apply M. now apply (Q4 p r).
  - destruct turnNodes as [|n0 ns] eqn:Etn.
    + cbn [fst snd]. split; [exact E1|]. split; auto. split; [|split].
      * apply Set_add_In. auto.
      * intros y [].
      * intros p r [].
    + destruct (promote_fold_adds (filter (hasType tool_result) (n0 :: ns)) (n0 :: ns)
                  (u1, st, R ++ [t])) as (P1 & P2 & P3); auto.
      split; [|split; [|split; [|split]]]; auto.
      * eapply Adds_trans; [exact E1|].
        eapply Adds_weaken; [|exact P1]. intros x Hx. right.
        apply in_app_or in Hx. destruct Hx as [Hx|Hx]; auto.
        apply filter_In in Hx. tauto.
      * apply (Adds_marks _ _ _ P1). cbn [fst]. apply Set_add_In. auto.
      * intros p r Hp Hr Hpf Hrt Hpar.
        apply (promote_fold_results (filter (hasType tool_result) (n0 :: ns)) (n0 :: ns)
                 (u1, st, R ++ [t])) with (p := p); auto.
        -- clear - Hpf. unfold isToolFamily, hasType in *. destruct (type p); auto; discriminate.
        -- apply filter_In. auto.
Qed.

End AddsSteps.

Lemma sorted_app_le (l1 l2 : list ConversationNode) :
  StronglySorted le_time (l1 ++ l2) ->
  StronglySorted le_time l2 /\ forall a b, In a l1 -> In b l2 -> le_time a b.
Proof.
  induction l1 as [|x l1 IH]; simpl; intros H.
  - split; auto. intros a b [].
  - inversion H as [|? ? H1 H2]; subst. destruct (IH H1) as [K1 K2]. split; auto.
    intros a b [<-|Ha] Hb; auto.
    rewrite Forall_forall in H2. apply H2. apply in_or_app. auto.
Qed.

Lemma turnOver_nil y : turnOver [] y.
Proof. intros b H. discriminate. Qed.

Section ShownTurns.

Context {rt : Runtime}.

(** The loop over the turn starters [TS], at the starters [ts] still to
    come: what is marked fills a slot; a mark is a turn starter or a node of
    a turn that is over; every node of such a turn that is neither a turn
    starter nor a tool result is marked; and so is every tool result of such
    a turn that names a tool invocation of the same turn. *)
Lemma turns_shown A allNodes TS :
  NoDup (map id A) -> (forall x, In x allNodes -> In x A) -> NoDup (map id allNodes) ->
  Parsed allNodes -> StronglySorted le_time TS ->
  (forall t, In t TS -> In t allNodes /\ isTurnStarter t = true) ->
  forall ts done u st R,
    TS = done ++ ts ->
    Held A st ->
    (forall i, In i u -> Placed A st R i) ->
    (forall i, In i u -> exists y, In y allNodes /\ id y = i /\
       (isTurnStarter y = true \/ (inSomeTurn TS y /\ turnOver ts y))) ->
    (forall y, In y allNodes -> isTurnStarter y = false -> hasType tool_result y = false ->
       inSomeTurn TS y -> turnOver ts y -> In (id y) u) ->
    (forall p r, In p allNodes -> In r allNodes -> isToolFamily p = true ->
       hasType tool_result r = true -> parentIs r p = true ->
       inSomeTurn TS p -> inSomeTurn TS r -> sameTurn TS p r -> turnOver ts r ->
       In (id r) u) ->
    let s' := turns allNodes ts (u, st, R) in
    (forall i, In i (fst (fst s')) -> Placed A (snd (fst s')) (snd s') i) /\
    (forall i, In i (fst (fst s')) -> exists y, In y allNodes /\ id y = i /\
       (isTurnStarter y = true \/ inSomeTurn TS y)) /\
    (forall y, In y allNodes -> isTurnStarter y = false -> hasType tool_result y = false ->
       inSomeTurn TS y -> In (id y) (fst (fst s'))) /\
    (forall p r, In p allNodes -> In r allNodes -> isToolFamily p = true ->
       hasType tool_result r = true -> parentIs r p = true ->
       inSomeTurn TS p -> inSomeTurn TS r -> sameTurn TS p r ->
       In (id r) (fst (fst s'))).
Proof.
  intros HA Hall HndA HPa HTS Hin.
  induction ts as [|t rest IH]; intros done u st R ETS Hh K J G G2; cbv zeta; cbn [turns].
  - cbn [fst snd]. split; [exact K|]. split; [|split].
    + intros i Hi. destruct (J i Hi) as (y & Hy & E & [H|[H _]]); exists y; auto.
    + intros y Hy H1 H2 H3. apply G; auto. apply turnOver_nil.
    + intros p r Hp Hr H1 H2 H3 H4 H5 H6. apply (G2 p r); auto. apply turnOver_nil.
  - assert (HtTS : In t TS) by (rewrite ETS; apply in_or_app; simpl; auto).
    destruct (Hin t HtTS) as [HtAll Htt].
    assert (HtA : In t A) by auto.
    rewrite ETS in HTS. apply sorted_app_le in HTS. destruct HTS as [Hs Hdone].
    destruct (StronglySorted_inv Hs) as [Hs' Hle]. rewrite Forall_forall in Hle.
    assert (Hnext : forall y, turnOver (t :: rest) y -> turnOver rest y).
    { intros y Hy b Hb. specialize (Hy t eq_refl).
      assert (Hb' : In b rest)
        by (destruct rest; [discriminate|]; injection Hb as ->; simpl; auto).
      specialize (Hle b Hb'). unfold le_time in Hle. lia. }
    assert (Hbefore : forall y, (time y < time t)%Z -> turnOver (t :: rest) y).
    { intros y Hy b Hb. injection Hb as <-. exact Hy. }
    assert (HinTurn : forall y, In y allNodes -> isTurnStarter y = false ->
              (time t < time y)%Z -> turnOver rest y ->
              In y (filter (inTurn t (hd_error rest) (Set_add u (id t))) allNodes)).
    { intros y Hy Hns Hgt Ho.
      assert (Hid : id y <> id t).
      { intros E. assert (y = t) by (apply (id_inj A); auto). subst y. congruence. }
      apply filter_In. split; auto.
      unfold inTurn. apply andb_true_iff. split; [apply andb_true_iff; split|].
      - apply negb_true_iff. unfold sameNode. now apply String.eqb_neq.
      - apply negb_true_iff. apply Set_has_not_In. intros Hu.
        apply Set_add_In in Hu. destruct Hu as [Hu|Hu]; [|contradiction].
        destruct (J _ Hu) as (y' & Hy' & E & [Hst|[_ Ho']]).
        + assert (y' = y) by (apply (id_inj A); auto). subst y'. congruence.
        + assert (y' = y) by (apply (id_inj A); auto). subst y'.
          specialize (Ho' t eq_refl). lia.
      - assert (Hpy : parses y = true) by now apply HPa.
        apply andb_true_iff. split; [apply Time_lt_time; auto using HPa|].
        destruct (hd_error rest) as [n|] eqn:En; auto.
        apply Time_lt_time. split; [exact Hpy|]. split; [|now apply Ho].
        apply HPa, Hin. rewrite ETS. apply in_or_app. right. right.
        destruct rest; [discriminate|]. injection En as ->. simpl. auto. }
    destruct (turn_adds A allNodes t (hd_error rest) u st R Hh Hall HndA HtA)
      as (Ad & H1 & Mt & Mk & Mr).
    assert (Hmono := Adds_marks A _ _ _ Ad). cbn [fst] in Hmono.
    destruct (turn allNodes t (hd_error rest) (u, st, R)) as [[u1 st1] R1].
    cbn [fst snd] in *. simpl in Ad. destruct Ad as (_ & Ad2 & Ad3).
    apply (IH (done ++ [t])); auto.
    + rewrite <- app_assoc. exact ETS.
    + intros i Hi. destruct (Ad3 i Hi) as [H|[H _]]; auto.
    + intros i Hi. destruct (Ad3 i Hi) as [H|[_ H]].
      * destruct (J i H) as (y & Hy & E & [Hst|[Hw Ho]]); exists y;
          (split; [exact Hy|split; [exact E|]]); [left; exact Hst|right; split; auto].
      * destruct H as [<-|H]; [exists t; auto|].
        apply in_map_iff in H. destruct H as (y & E & Hy).
        apply filter_In in Hy. destruct Hy as [HyA Hy].
        apply inTurn_facts in Hy. destruct Hy as (_ & Hlt & Hnx & _).
        exists y. split; auto. split; auto. right. split; [split|].
        -- exists t. auto.
        -- intros t' Ht'. rewrite ETS in Ht'. apply in_app_or in Ht'.
           destruct Ht' as [Ht'|[<-|Ht']].
           ++ specialize (Hdone t' t Ht' (or_introl eq_refl)). unfold le_time in Hdone. lia.
           ++ lia.
           ++ destruct rest as [|n rest']; [destruct Ht'|].
              specialize (Hnx n eq_refl). destruct Ht' as [<-|Ht']; [lia|].
              destruct (StronglySorted_inv Hs') as [_ Hle'].
              rewrite Forall_forall in Hle'.
              specialize (Hle' t' Ht'). unfold le_time in Hle'. lia.
        -- intros b Hb. now apply Hnx.
    + intros y Hy Hns Hnr Hw Ho.
      destruct (Z_lt_le_dec (time y) (time t)) as [Hlt|Hge].
      * apply Hmono. apply G; auto.
      * assert (Hgt : (time t < time y)%Z).
        { destruct Hw as [_ Hw]. specialize (Hw t HtTS). lia. }
        apply Mk; auto.
    + intros p r Hp Hr Hpf Hrt Hpar Hwp Hwr Hsame Ho.
      destruct (Z_lt_le_dec (time r) (time t)) as [Hlt|Hge].
      * apply Hmono. apply (G2 p r); auto.
      * assert (Hgt : (time t < time r)%Z).
        { destruct Hwr as [_ Hw]. specialize (Hw t HtTS). lia. }
        assert (Hgp : (time t < time p)%Z) by now apply (Hsame t HtTS).
        assert (Hop : turnOver rest p).
        { intros b Hb. specialize (Ho b Hb).
          assert (HbTS : In b TS).
          { rewrite ETS. apply in_or_app. right. right.
            destruct rest; [discriminate|]. injection Hb as ->. simpl. auto. }
          destruct Hwp as [_ Hwp]. specialize (Hwp b HbTS).
          pose proof (Hsame b HbTS) as Hb2.
          destruct (Z_lt_le_dec (time b) (time p)) as [Hc|Hc]; [|lia].
          apply Hb2 in Hc. lia. }
        apply (Mr p r); auto.
        -- apply HinTurn; auto.
           unfold isToolFamily, isTurnStarter in *. destruct (type p); auto; discriminate.
        -- apply HinTurn; auto.
           unfold hasType, isTurnStarter in *. destruct (type r); auto; discriminate.
Qed.

Lemma inSomeTurn_ext l l' y :
  (forall t, In t l <-> In t l') -> inSomeTurn l y -> inSomeTurn l' y.
Proof.
  intros H [(t & Ht & Hlt) Hne]. split.
  - exists t. split; auto. now apply H.
  - intros t' Ht'. apply Hne. now apply H.
Qed.

(** The display reorganization, when some node is a turn starter: a node
    that is no turn starter fills a slot only if it lies in a turn, and does
    so whenever it lies in a turn and is no tool result. *)
Lemma reorganize_shown A0 st R :
  NoDup (map id A0) -> Parsed A0 -> Forest A0 st R -> Held A0 st ->
  let all0 := flattenTree st R in
  let TS := filter isTurnStarter all0 in
  let st' := fst (reorganizeForDisplay st R) in
  let R' := snd (reorganizeForDisplay st R) in
  (exists x, In x all0 /\ isTurnStarter x = true) ->
  (forall y, In y all0 -> isTurnStarter y = false -> hasType tool_result y = false ->
     inSomeTurn TS y -> Placed all0 st' R' (id y)) /\
  (forall y, In y all0 -> isTurnStarter y = false ->
     Placed all0 st' R' (id y) -> inSomeTurn TS y) /\
  (forall p r, In p all0 -> In r all0 -> isToolFamily p = true ->
     hasType tool_result r = true -> parentIs r p = true ->
     inSomeTurn TS p -> inSomeTurn TS r -> sameTurn TS p r ->
     Placed all0 st' R' (id r)).
Proof.
  intros Hnd HPa F Hh. cbv zeta. unfold reorganizeForDisplay.
  set (all0 := flattenTree st R).
  assert (Hnd0 : NoDup (map id all0)).
  { apply (flatten_nodup A0 Hnd st R); auto. now apply (apart_roots A0 st R). }
  assert (Hpar0 : Parsed all0).
  { intros x Hx. apply HPa.
    apply (flatten_in A0 st R (List.length st) R x F); auto. apply F. }
  intros (x0 & Hx0 & Ex0).
  destruct all0 as [|n0 l0] eqn:E0; [destruct Hx0|].
  rewrite <- E0 in *. clear E0.
  set (st1 := fold_left (fun s node => resetChildren node s) all0 st).
  assert (Hk1 : forall a, In a all0 -> kids st1 a = []).
  { intros a Ha. unfold kids, st1. rewrite getChildren_reset.
    assert (Hx : existsb (fun n => String.eqb (id n) (id a)) all0 = true).
    { apply existsb_exists. exists a. split; auto. apply String.eqb_refl. }
    now rewrite Hx. }
  assert (Hh1 : Held all0 st1).
  { intros a Ha. unfold st1. rewrite Map_has_keys.
    rewrite fold_upd_keys by (intros; apply updChildren_keys).
    rewrite <- Map_has_keys. apply Hh.
    apply (flatten_in A0 st R (List.length st) R a F); auto. apply F. }
  set (allNodes := sortByTimestamp all0).
  assert (HallIn : forall x, In x allNodes <-> In x all0) by (intros; apply sort_In).
  assert (HndA : NoDup (map id allNodes)).
  { eapply Permutation_NoDup; [|exact Hnd0]. apply Permutation_sym, sort_ids_perm. }
  set (TS := filter isTurnStarter allNodes).
  assert (HTS : forall t, In t TS <-> In t (filter isTurnStarter all0)).
  { intros t. unfold TS. rewrite !filter_In, HallIn. tauto. }
  assert (HTSs : StronglySorted le_time TS) by apply filter_sorted, sort_sorted, Hpar0.
  assert (I1 : Inv all0 (turns allNodes TS ([], st1, []))).
  { apply turns_spec; auto.
    - intros x Hx. now apply HallIn.
    - simpl. split; [|split]; auto.
      + constructor; simpl; try tauto; try constructor.
        * intros p Hp. rewrite (Hk1 p Hp). constructor.
        * intros p q i Hp _ H. rewrite (Hk1 p Hp) in H. destruct H.
        * intros p x Hp H. rewrite (Hk1 p Hp) in H. destruct H.
      + intros i [[]|(p & Hp & H)]. rewrite (Hk1 p Hp) in H. destruct H.
    - now apply NoDup_filter_ids.
    - intros t Ht. apply filter_In in Ht. destruct Ht as [Ht _]. now apply HallIn. }
  assert (Hnone : forall z, inSomeTurn TS z -> turnOver TS z -> False).
  { intros z [(t & Ht & Hlt) _] Ho.
    destruct TS as [|b rest] eqn:Eb; [destruct Ht|].
    specialize (Ho b eq_refl).
    destruct Ht as [<-|Ht]; [lia|].
    destruct (StronglySorted_inv HTSs) as [_ Hle]. rewrite Forall_forall in Hle.
    specialize (Hle t Ht). unfold le_time in Hle. lia. }
  destruct (turns_shown all0 allNodes TS Hnd0 (fun x Hx => proj1 (HallIn x) Hx) HndA
              (fun x Hx => Hpar0 x (proj1 (HallIn x) Hx)) HTSs
              (fun t Ht => proj1 (filter_In _ _ _) Ht) TS [] [] st1 [] eq_refl Hh1)
    as (K & J & G & G2).
  { intros i []. }
  { intros i []. }
  { intros z _ _ _ Hw Ho. destruct (Hnone z Hw Ho). }
  { intros p r _ _ _ _ _ _ Hw _ Ho. destruct (Hnone r Hw Ho). }
  assert (Hext : forall z, inSomeTurn (filter isTurnStarter all0) z <-> inSomeTurn TS z).
  { intros z. split; apply inSomeTurn_ext; intros t; [symmetry|]; apply HTS. }
  assert (Ets : TS <> []).
  { intros E. assert (H : In x0 TS) by (apply HTS, filter_In; auto).
    rewrite E in H. destruct H. }
  clearbody TS.
  assert (Hm : forall (X : Type) (a b : X),
             match TS with [] => a | _ :: _ => b end = b).
  { intros X a b. destruct TS; [congruence|reflexivity]. }
  rewrite Hm. clear Hm.
  destruct (turns allNodes TS ([], st1, [])) as [[u2 st2] R2].
  cbn [fst snd] in *. simpl in I1. destruct I1 as (F2 & H2 & P2). split; [|split].
  - intros y Hy Hns Hnr Hw. apply K. apply G; auto.
    + now apply HallIn.
    + now apply Hext.
  - intros y Hy Hns Hp. apply P2 in Hp. apply Hext.
    destruct (J _ Hp) as (y' & Hy' & E & [Hst|Hw]).
    + assert (y' = y) by (apply (id_inj all0); auto; now apply HallIn).
      subst y'. congruence.
    + assert (y' = y) by (apply (id_inj all0); auto; now apply HallIn).
      now subst y'.
  - intros p r Hp Hr Hpf Hrt Hpar Hwp Hwr Hsame. apply K.
    apply (G2 p r); auto; try (now apply HallIn); try (now apply Hext).
    intros t Ht. apply Hsame. now apply HTS.
Qed.

(** ** What the flattening of the first half of [buildTree] reaches *)

End ShownTurns.

Lemma reach_flatten st j :
  forall f l r x, reach st j r x -> In r l -> j <= f -> In x (flatten f st l).
Proof.
  induction j as [|j IH]; intros f l r x Hr Hl Hf.
  - simpl in Hr. subst x. now apply flatten_self.
  - destruct f as [|f]; [lia|]. destruct Hr as (b & Hb & Hr). cbn [flatten].
    apply in_flat_map. exists r. split; auto. right.
    apply (IH f _ b); auto. lia.
Qed.

Lemma flatten_placed A st R f x :
  Forest A st R -> In x (flatten f st R) -> Placed A st R (id x).
Proof.
  intros F H. apply flatten_reach in H. destruct H as (a & k & Ha & Hr).
  destruct k as [|k].
  - simpl in Hr. subst x. left. now apply in_map.
  - apply reach_last in Hr. destruct Hr as (q & Hq & Hx). right. exists q. split.
    + apply (reach_in A st R k a q F); auto. now apply (roots_in _ _ _ F).
    + now apply in_map.
Qed.

Lemma Map_get_In nodes p q :
  Map_get nodes p = Some q -> In q (Map_values nodes) /\ id q = p.
Proof.
  unfold Map_get. destruct (find _ nodes) as [e|] eqn:E; [|discriminate].
  intros H. injection H as <-. apply find_some in E. destruct E as [He E].
  apply String.eqb_eq in E. split; auto. unfold Map_values. now apply in_map.
Qed.

Section RawReach.

Context {rt : Runtime}.
Variable nodes : Registry.

Let A := Map_values nodes.

Lemma linkNode_kids_mono st R n q y :
  In y (kids st q) -> In y (kids (fst (linkNode nodes (st, R) n)) q).
Proof.
  intros H. unfold linkNode. destruct (parentId n) as [p|]; auto.
  destruct (Str.nonEmpty p && Map_has nodes p); auto. cbn [fst].
  unfold pushChild. rewrite kids_upd.
  destruct (String.eqb (id q) p && Map_has st p); auto. apply in_or_app. auto.
Qed.

Lemma link_kids_mono l :
  forall st R q y,
    In y (kids st q) -> In y (kids (fst (fold_left (linkNode nodes) l (st, R))) q).
Proof.
  induction l as [|n l IH]; intros st R q y H; cbn [fold_left]; auto.
  pose proof (linkNode_kids_mono st R n q y H) as H1.
  destruct (linkNode nodes (st, R) n) as [st1 R1]. now apply IH.
Qed.

Lemma linkNode_held st R n : Held A st -> Held A (fst (linkNode nodes (st, R) n)).
Proof.
  intros H. unfold linkNode. destruct (parentId n) as [p|]; auto.
  destruct (Str.nonEmpty p && Map_has nodes p); auto. cbn [fst]. now apply Held_upd.
Qed.

(** The first loop of [buildTree] hangs every node that names a parent in
    the registry under that parent. *)
Lemma link_kids l :
  forall st R,
    Held A st ->
    forall x q, In x l -> In q A -> parentId x = Some (id q) ->
                Str.nonEmpty (id q) = true ->
                In x (kids (fst (fold_left (linkNode nodes) l (st, R))) q).
Proof.
  induction l as [|n l IH]; intros st R Hh x q Hx Hq Hp Hne; [destruct Hx|].
  cbn [fold_left]. destruct Hx as [->|Hx].
  - assert (H1 : In x (kids (fst (linkNode nodes (st, R) x)) q)).
    { unfold linkNode. rewrite Hp, Hne.
      assert (Hm : Map_has nodes (id q) = true).
      { apply Map_has_In. now apply in_map. }
      rewrite Hm. cbn [andb fst]. apply (In_kids_push A st q x q x Hh Hq). auto. }
    destruct (linkNode nodes (st, R) x) as [st1 R1]. now apply link_kids_mono.
  - pose proof (linkNode_held st R n Hh) as H1.
    destruct (linkNode nodes (st, R) n) as [st1 R1]. now apply IH.
Qed.

Lemma rawLinkage_kids x q :
  In x A -> In q A -> parentId x = Some (id q) -> Str.nonEmpty (id q) = true ->
  In x (kids (fst (rawLinkage nodes)) q).
Proof.
  intros Hx Hq Hp Hne. unfold rawLinkage. rewrite reset_all. fold A.
  assert (Hh0 : Held A (cleared nodes)).
  { intros a Ha. rewrite Map_has_keys, cleared_keys.
    apply existsb_exists. exists a. split; auto. apply String.eqb_refl. }
  pose proof (link_kids A (cleared nodes) [] Hh0 x q Hx Hq Hp Hne) as H.
  destruct (fold_left (linkNode nodes) A (cleared nodes, [])) as [st R]. cbn [fst] in *.
  eapply Permutation_in; [|exact H]. apply Permutation_sym, fold_sort_kids_perm.
Qed.

Lemma rawLinkage_length : List.length (fst (rawLinkage nodes)) = List.length nodes.
Proof.
  pose proof (rawLinkage_keys nodes) as H.
  unfold Map_values in H. rewrite <- (length_map fst), H. apply length_map.
Qed.

(** A node that hangs from a root of the first half is reached by the
    flattening. *)
Lemma anchored_flattened k :
  forall x, In x A -> anchored nodes k x = true -> k <= List.length nodes ->
            In x (flatten (List.length (fst (rawLinkage nodes)))
                          (fst (rawLinkage nodes)) (snd (rawLinkage nodes))).
Proof.
  assert (H : forall k x, In x A -> anchored nodes k x = true ->
              exists r j, In r (snd (rawLinkage nodes)) /\ j <= k /\
                          reach (fst (rawLinkage nodes)) j r x).
  { clear k. induction k as [|k IH]; intros x Hx Ha.
    - simpl in Ha. rewrite orb_false_r in Ha. exists x, 0. split; [|split]; auto.
      + rewrite rawLinkage_roots. apply sort_In. apply filter_In. auto.
      + reflexivity.
    - cbn [anchored] in Ha. destruct (isRawRoot nodes x) eqn:Er.
      + exists x, 0. split; [|split]; [| lia| reflexivity].
        rewrite rawLinkage_roots. apply sort_In. apply filter_In. auto.
      + cbn [orb] in Ha. destruct (parentId x) as [p|] eqn:Ep; [|discriminate].
        destruct (Map_get nodes p) as [q|] eqn:Eq; [|discriminate].
        apply Map_get_In in Eq. destruct Eq as [Hq <-].
        destruct (IH q Hq Ha) as (r & j & Hr & Hj & Hreach).
        exists r, (S j). split; auto. split; [lia|].
        apply (reach_snoc _ j r q x); auto.
        apply rawLinkage_kids; auto.
        unfold isRawRoot in Er. rewrite Ep in Er. apply negb_false_iff in Er.
        apply andb_true_iff in Er. tauto. }
  intros x Hx Ha Hk. destruct (H k x Hx Ha) as (r & j & Hr & Hj & Hreach).
  apply (reach_flatten _ j _ _ r); auto. rewrite rawLinkage_length. lia.
Qed.

End RawReach.

(** In a shaped forest, a node that is no tool result and fills a slot is a
    root or a child of a root. *)
Lemma placed_shown A u st R x :
  NoDup (map id A) -> Forest A st R -> Shape A None u st R ->
  In x A -> hasType tool_result x = false ->
  Placed A st R (id x) -> In x (flatten (List.length st) st R).
Proof.
  intros Hnd F S Hx Hnr [H|(p & Hp & H)].
  - apply in_map_iff in H. destruct H as (r & E & Hr).
    assert (r = x) by (apply (id_inj A); auto; now apply (roots_in _ _ _ F)).
    subst r. now apply flatten_self.
  - apply in_map_iff in H. destruct H as (y & E & Hy).
    assert (y = x).
    { apply (id_inj A); auto. now apply (kids_in _ _ _ F p). }
    subst y.
    pose proof (sh_edge _ _ _ _ _ S p x Hp Hy) as He.
    assert (Ha : hasType assistant p = true).
    { unfold isDisplayEdge in He. rewrite Hnr in He.
      rewrite andb_false_r, andb_false_l, orb_false_r in He.
      apply andb_true_iff in He. tauto. }
    assert (Hk : kids st p <> []) by (intros E0; rewrite E0 in Hy; destruct Hy).
    destruct (sh_resp _ _ _ _ _ S p Hp Ha Hk) as [HpR|Hc]; [|discriminate].
    assert (Hlen : 1 <= List.length st).
    { destruct st; [|simpl; lia]. unfold kids, getChildren in Hy. simpl in Hy. destruct Hy. }
    apply (reach_flatten st 1 _ R p x); auto.
    exists x. split; auto. reflexivity.
Qed.

Lemma unfold_edge_in st f :
  forall n k p x, reach st k n p -> k < f -> In x (kids st p) ->
                  In (p, x) (tree_edges (unfold f st n)).
Proof.
  induction f as [|f IH]; intros n k p x Hr Hk Hx; [lia|].
  cbn [unfold tree_edges]. apply in_or_app. destruct k as [|k].
  - simpl in Hr. subst p. left. rewrite map_map. apply in_map_iff.
    exists x. split; auto. now rewrite root_unfold.
  - destruct Hr as (b & Hb & Hr). right. apply in_flat_map.
    exists (unfold f st b). split; [now apply in_map|].
    apply (IH b k); auto. lia.
Qed.

Lemma result_edge p r :
  isDisplayEdge p r = true -> hasType tool_result r = true -> parentIs r p = true.
Proof.
  unfold isDisplayEdge, hasType, isToolFamily.
  destruct (type p), (type r); simpl; intros H1 H2; try discriminate; auto.
Qed.

Lemma invocation_edge a p :
  isDisplayEdge a p = true -> isToolFamily p = true -> hasType assistant a = true.
Proof.
  unfold isDisplayEdge, hasType, isToolFamily.
  destruct (type a), (type p); simpl; intros H1 H2; try discriminate; auto.
Qed.

Lemma parentIs_inj r p q : parentIs r p = true -> parentIs r q = true -> id p = id q.
Proof.
  unfold parentIs. destruct (parentId r) as [k|]; [|discriminate].
  intros H1 H2. apply String.eqb_eq in H1, H2. congruence.
Qed.

(** The rebuilt tree, read by a listener: which nodes that are no turn
    starters it shows. *)
Lemma buildTree_shown {rt : Runtime} nodes :
  NoDup (map id (Map_values nodes)) -> Parsed (Map_values nodes) ->
  let all0 := flattenTree (fst (rawLinkage nodes)) (snd (rawLinkage nodes)) in
  let TS := filter isTurnStarter all0 in
  let tree := snapshot (fst (buildTree nodes)) (snd (buildTree nodes)) in
  (forall y, In y all0 -> isTurnStarter y = false -> hasType tool_result y = false ->
     inSomeTurn TS y -> In y (forest_nodes tree)) /\
  (forall r, In r (map root_of tree) -> In r all0) /\
  ((exists x, In x all0 /\ isTurnStarter x = true) ->
   (forall t, In t TS -> In t (map root_of tree)) /\
   (forall y, In y (forest_nodes tree) -> isTurnStarter y = false -> inSomeTurn TS y)).
Proof.
  intros Hnd HPa. cbv zeta.
  destruct (buildTree_display nodes Hnd HPa) as (Hnd0 & Hsub & F & (u & Sh) & _ & Hts & _).
  destruct (rawLinkage_forest nodes Hnd) as [F0 Hh0].
  pose proof (reorganize_shown (Map_values nodes) (fst (rawLinkage nodes))
                (snd (rawLinkage nodes)) Hnd HPa F0 Hh0) as Hshown.
  cbv zeta in Hshown.
  assert (Eb : buildTree nodes =
               reorganizeForDisplay (fst (rawLinkage nodes)) (snd (rawLinkage nodes))).
  { unfold buildTree. now destruct (rawLinkage nodes). }
  rewrite <- Eb in Hshown.
  pose proof (buildTree_keys nodes) as Hkeys.
  set (all0 := flattenTree (fst (rawLinkage nodes)) (snd (rawLinkage nodes))) in *.
  destruct (buildTree nodes) as [st R]. cbn [fst snd] in *.
  assert (Hlen : List.length all0 <= List.length st).
  { rewrite <- (length_map fst st). fold (Map_values st). rewrite Hkeys.
    now apply sub_length. }
  unfold snapshot. rewrite roots_unfold, forest_nodes_unfold.
  assert (Hstart : forall z, inSomeTurn (filter isTurnStarter all0) z ->
                     exists x, In x all0 /\ isTurnStarter x = true).
  { intros z [(t & Ht & _) _]. apply filter_In in Ht. exists t. exact Ht. }
  split; [|split].
  - intros y Hy Hns Hnr Hw.
    apply (placed_shown all0 u st R y); auto.
    destruct (Hshown (Hstart y Hw)) as (H & _). now apply H.
  - apply F.
  - intros Hex. destruct (Hshown Hex) as (_ & H & _). split.
    + intros t Ht. apply filter_In in Ht. destruct Ht as [Ht Hs].
      destruct (Hts Hex) as [_ H']. now apply H'.
    + intros y Hy Hns.
      assert (HyA : In y all0).
      { apply (flatten_in all0 st R (List.length st) R y F); auto. apply F. }
      apply H; auto. now apply (flatten_placed all0 st R (List.length st)).
Qed.

(** X18. Which nodes the display tree shows.  In a registry that names each
    node once and whose timestamps all parse as dates, a node that is
    neither a user or system node nor a tool result is shown in the tree
    [getNodes] returns when it hangs, by parent links inside the registry,
    from a node whose parent is not in the registry; some user or system
    node that hangs so is strictly earlier; and no user or system node has
    its timestamp. *)
Theorem node_in_turn_is_shown {rt : Runtime} (w : SessionWatcher) (x : ConversationNode)
    (Hids : NoDup (map id (Map_values (nodes w))))
    (Hparse : Parsed (Map_values (nodes w)))
    (Hx : In x (Map_values (nodes w)))
    (Hanch : anchored (nodes w) (List.length (nodes w)) x = true)
    (Hns : isTurnStarter x = false)
    (Hnr : hasType tool_result x = false)
    (Hafter : exists t, In t (Map_values (nodes w)) /\ isTurnStarter t = true /\
                        anchored (nodes w) (List.length (nodes w)) t = true /\
                        Time_lt (timestamp t) (timestamp x) = true)
    (Hneq : forall t, In t (Map_values (nodes w)) -> isTurnStarter t = true ->
                      timestamp t <> timestamp x) :
  In x (forest_nodes (snd (getNodes w))).
Proof.
  rewrite getNodes_snapshot.
  destruct (buildTree_shown (nodes w) Hids Hparse) as (H & _).
  destruct (buildTree_display (nodes w) Hids Hparse) as (_ & Hsub & _).
  destruct Hafter as (t & Ht & Hts & Hta & Hlt).
  apply H; auto.
  - apply (anchored_flattened (nodes w) (List.length (nodes w))); auto.
  - split.
    + exists t. split; [|now apply Time_lt_time in Hlt]. apply filter_In. split; auto.
      apply (anchored_flattened (nodes w) (List.length (nodes w))); auto.
    + intros t' Ht'. apply filter_In in Ht'. destruct Ht' as [Ht' Hs'].
      pose proof (Hneq t' (Hsub t' Ht') Hs') as Hne.
      pose proof (Hparse t' (Hsub t' Ht')) as Hp1. pose proof (Hparse x Hx) as Hp2.
      unfold parses, time in *. destruct (timestamp t'), (timestamp x); try discriminate.
      congruence.
Qed.

(** X19. What the display tree shows lies in a turn.  In a registry that
    names each node once and whose timestamps all parse as dates, when some
    root of the tree [getNodes] returns is a user or system node, every node
    of the tree that is no user or system node is strictly later than some
    user or system root, and has the timestamp of none: a node earlier than
    every user and system message, or at the very time of one, is not
    shown. *)
Theorem shown_node_lies_in_a_turn {rt : Runtime} (w : SessionWatcher) (x : ConversationNode)
    (Hids : NoDup (map id (Map_values (nodes w))))
    (Hparse : Parsed (Map_values (nodes w)))
    (Hstart : exists r, In r (map root_of (snd (getNodes w))) /\ isTurnStarter r = true)
    (Hx : In x (forest_nodes (snd (getNodes w))))
    (Hns : isTurnStarter x = false) :
  (exists t, In t (map root_of (snd (getNodes w))) /\ isTurnStarter t = true /\
             Time_lt (timestamp t) (timestamp x) = true) /\
  (forall r, In r (map root_of (snd (getNodes w))) -> isTurnStarter r = true ->
             timestamp r <> timestamp x).
Proof.
  rewrite getNodes_snapshot in *.
  destruct (rebuilt_tree_ids (nodes w) Hids Hparse) as (_ & Hreg).
  destruct (buildTree_shown (nodes w) Hids Hparse) as (_ & HR & H).
  destruct Hstart as (r0 & Hr0 & Hs0).
  destruct H as [Hroot Hturn]; [exists r0; auto|].
  destruct (Hturn x Hx Hns) as [(t & Ht & Hlt) Hne].
  pose proof (Hparse x (Hreg x Hx)) as Hpx. split.
  - exists t. split; [now apply Hroot|]. apply filter_In in Ht. split; [tauto|].
    apply Time_lt_time. split; [|split; auto].
    destruct (buildTree_display (nodes w) Hids Hparse) as (_ & Hsub & _).
    apply Hparse, Hsub. tauto.
  - intros r Hr Hs E. apply (Hne r); [apply filter_In; auto|].
    unfold time. now rewrite E.
Qed.

Lemma node_in_turn_is_shown_witness :
  let w := watch Ex.rt0 [Ex.log3] initial in
  let a := mkNode "a1-text" (Some "u1") (Ms 2000) assistant "I will run the tests"
             (ContentOfBlock (TextBlock "I will run the tests"))
             None None None None None None Ex.entry2 in
  In a (forest_nodes (snd (getNodes (rt := Ex.rt0) w))).
Proof.
  cbv zeta.
  apply (node_in_turn_is_shown (rt := Ex.rt0) (watch Ex.rt0 [Ex.log3] initial)).
  - vm_compute. repeat (constructor; [simpl; intuition discriminate|]). constructor.
  - vm_compute. intros n [<-|[<-|[<-|[<-|[<-|[]]]]]]; reflexivity.
  - vm_compute. right. right. right. left. reflexivity.
  - vm_compute. reflexivity.
  - reflexivity.
  - reflexivity.
  - eexists. split; [vm_compute; left; reflexivity|].
    split; [reflexivity|]. split; [vm_compute; reflexivity|]. vm_compute. reflexivity.
  - vm_compute. intros t [<-|[<-|[<-|[<-|[<-|[]]]]]]; simpl; intros H; discriminate.
Defined.

Lemma shown_node_lies_in_a_turn_witness :
  let w := watch Ex.rt0 [Ex.log3] initial in
  let a := mkNode "a1-text" (Some "u1") (Ms 2000) assistant "I will run the tests"
             (ContentOfBlock (TextBlock "I will run the tests"))
             None None None None None None Ex.entry2 in
  (exists t, In t (map root_of (snd (getNodes (rt := Ex.rt0) w))) /\
             isTurnStarter t = true /\
             Time_lt (timestamp t) (timestamp a) = true) /\
  (forall r, In r (map root_of (snd (getNodes (rt := Ex.rt0) w))) ->
             isTurnStarter r = true -> timestamp r <> timestamp a).
Proof.
  cbv zeta.
  apply (shown_node_lies_in_a_turn (rt := Ex.rt0) (watch Ex.rt0 [Ex.log3] initial)).
  - vm_compute. repeat (constructor; [simpl; intuition discriminate|]). constructor.
  - vm_compute. intros n [<-|[<-|[<-|[<-|[<-|[]]]]]]; reflexivity.
  - eexists. split; [vm_compute; left; reflexivity|reflexivity].
  - vm_compute. right. left. reflexivity.
  - reflexivity.
Defined.

(** * The display tree for any timestamps *)

(** What follows assumes nothing of the timestamps: the sort may return any
    permutation. *)

Lemma assistant_not_result x :
  hasType assistant x = true -> hasType tool_result x = false.
Proof. unfold hasType. destruct (type x); simpl; congruence. Qed.

Lemma tool_not_assistant x : isToolFamily x = true -> hasType assistant x = false.
Proof. unfold hasType, isToolFamily. destruct (type x); simpl; congruence. Qed.

Lemma tool_not_result x : isToolFamily x = true -> hasType tool_result x = false.
Proof. unfold hasType, isToolFamily. destruct (type x); simpl; congruence. Qed.

Section LinkSteps.

Context {rt : Runtime}.
Variable A : list ConversationNode.
Hypothesis A_nodup : NoDup (map id A).

Lemma kids_append st o m q :
  Held A st -> In o A ->
  kids (updChildren (id o) (fun l => l ++ m) st) q =
  if String.eqb (id q) (id o) then kids st q ++ m else kids st q.
Proof. intros Hh Ho. rewrite kids_upd, (Hh o Ho), andb_true_r. reflexivity. Qed.

Lemma same_id p q : In p A -> In q A -> String.eqb (id p) (id q) = true -> p = q.
Proof. intros Hp Hq E. apply String.eqb_eq in E. now apply (id_inj A). Qed.

Lemma links_mono cur u u' st R :
  Links A cur u st R -> (forall i, In i u -> In i u') -> Links A cur u' st R.
Proof.
  intros [L1 L2 L3 L4 L5 L6 L7 L8] H. constructor; auto.
  intros p x Hp Hx. apply H. now apply (L5 p).
Qed.

(** Starting on a response that is not marked yet. *)
Lemma links_begin a u st R :
  Links A None u st R -> hasType assistant a = true -> ~ In (id a) u ->
  Links A (Some a) u st R.
Proof.
  intros [L1 L2 L3 L4 L5 L6 L7 L8] Ha Hu. constructor; auto.
  - intros p Hp Ht Hk. destruct (L6 p Hp Ht Hk) as [H|H]; auto. discriminate.
  - intros a' E. injection E as <-. split; auto.
    intros p Hp Hin. apply Hu. now apply (L5 p a).
Qed.

Lemma links_root cur u st R x :
  Links A cur u st R -> In x A -> Links A cur u st (R ++ [x]).
Proof.
  intros [L1 L2 L3 L4 L5 L6 L7 L8] Hx. constructor; auto.
  - intros r Hr. apply in_app_or in Hr. destruct Hr as [Hr|[<-|[]]]; auto.
  - intros p Hp Ht Hk. destruct (L6 p Hp Ht Hk) as [H|H]; auto.
    left. apply in_or_app. auto.
Qed.

(** The response is done and becomes a root. *)
Lemma links_end a u st R :
  Links A (Some a) u st R -> In a A -> Links A None u st (R ++ [a]).
Proof.
  intros [L1 L2 L3 L4 L5 L6 L7 L8] Ha. constructor; auto.
  - intros r Hr. apply in_app_or in Hr. destruct Hr as [Hr|[<-|[]]]; auto.
  - intros p Hp Ht Hk. left. apply in_or_app.
    destruct (L6 p Hp Ht Hk) as [H|H]; auto. injection H as <-. simpl. auto.
  - intros a' E. discriminate.
Qed.

(** Reordering children arrays changes nothing. *)
Lemma links_perm cur u st st' R :
  Links A cur u st R -> (forall q, Permutation (kids st' q) (kids st q)) ->
  Links A cur u st' R.
Proof.
  intros [L1 L2 L3 L4 L5 L6 L7 L8] Hp.
  assert (Hin : forall q x, In x (kids st' q) -> In x (kids st q)).
  { intros q x. apply Permutation_in, Hp. }
  assert (Hne : forall q, kids st' q <> [] -> kids st q <> []).
  { intros q H E. apply H. apply Permutation_nil. apply Permutation_sym.
    rewrite <- E. apply Hp. }
  assert (Hnil : forall q, kids st q = [] -> kids st' q = []).
  { intros q E. apply Permutation_nil. apply Permutation_sym. rewrite <- E. apply Hp. }
  constructor; auto.
  - intros p x Hq Hx. apply (L2 p); auto.
  - intros p x Hq Hx. apply (L5 p); auto.
  - intros p x Hq Hx Ht. apply Hnil. apply (L7 p); auto.
  - intros a E. destruct (L8 a E) as [H1 H2]. split; auto.
    intros p Hq Hx. apply (H2 p Hq). auto.
Qed.

Lemma links_unmarked cur u st R p :
  Links A cur u st R -> In p A -> ~ In (id p) u ->
  kids st p = [] /\ forall q, In q A -> ~ In p (kids st q).
Proof.
  intros L Hp Hn. split.
  - destruct (kids st p) as [|y l] eqn:Ek; auto.
    exfalso. apply Hn. apply (lk_used _ _ _ _ _ L); auto. rewrite Ek. discriminate.
  - intros q Hq Hin. apply Hn. now apply (lk_kid _ _ _ _ _ L q).
Qed.

(** Hanging a marked node under the response being filled. *)
Lemma links_push_cur a u st R x :
  Links A (Some a) u st R -> Held A st -> In a A -> In (id a) u ->
  In x A -> In (id x) u -> id x <> id a ->
  hasType thinking x || isToolFamily x || hasType assistant x = true ->
  (hasType assistant x = true -> kids st x = []) ->
  Links A (Some a) u (pushChild (id a) x st) R.
Proof.
  intros [L1 L2 L3 L4 L5 L6 L7 L8] Hh Ha Hau Hx Hxu Hne Hty Hleaf.
  destruct (L8 a eq_refl) as [Hta Hnk].
  assert (Hk : forall q, kids (pushChild (id a) x st) q =
                         if String.eqb (id q) (id a) then kids st q ++ [x] else kids st q).
  { intros q. now apply (kids_push A). }
  assert (Hold : forall p y, In p A -> In y (kids st p) -> String.eqb (id y) (id a) = false).
  { intros p y Hp Hy. destruct (String.eqb (id y) (id a)) eqn:E; auto.
    apply same_id in E; auto; [|now apply (L2 p)]. subst y. destruct (Hnk p Hp Hy). }
  constructor.
  - exact L1.
  - intros p y Hp Hy. rewrite Hk in Hy.
    destruct (String.eqb (id p) (id a)); [|now apply (L2 p)].
    apply in_app_or in Hy. destruct Hy as [Hy|[<-|[]]]; auto. now apply (L2 p).
  - intros p y Hp Hy. rewrite Hk in Hy.
    destruct (String.eqb (id p) (id a)) eqn:E; [|now apply L3].
    apply same_id in E; auto. subst p.
    apply in_app_or in Hy. destruct Hy as [Hy|[<-|[]]]; [now apply L3|].
    unfold isLink. now rewrite Hta, Hty.
  - intros p Hp Hkp. rewrite Hk in Hkp.
    destruct (String.eqb (id p) (id a)) eqn:E; [|now apply L4].
    apply String.eqb_eq in E. now rewrite E.
  - intros p y Hp Hy. rewrite Hk in Hy.
    destruct (String.eqb (id p) (id a)); [|now apply (L5 p)].
    apply in_app_or in Hy. destruct Hy as [Hy|[<-|[]]]; auto. now apply (L5 p).
  - intros p Hp Ht Hkp. rewrite Hk in Hkp.
    destruct (String.eqb (id p) (id a)) eqn:E; [|now apply L6].
    apply same_id in E; auto. subst p. auto.
  - intros p y Hp Hy Hya. rewrite Hk in Hy. rewrite Hk.
    destruct (String.eqb (id p) (id a)).
    + apply in_app_or in Hy. destruct Hy as [Hy|[<-|[]]].
      * rewrite (Hold p y Hp Hy). now apply (L7 p).
      * apply String.eqb_neq in Hne. rewrite Hne. auto.
    + rewrite (Hold p y Hp Hy). now apply (L7 p).
  - intros a' Ea. injection Ea as <-. split; auto. intros p Hp Hin. rewrite Hk in Hin.
    destruct (String.eqb (id p) (id a)); [|now apply (Hnk p)].
    apply in_app_or in Hin. destruct Hin as [Hin|[E|[]]]; [now apply (Hnk p)|].
    apply Hne. now rewrite E.
Qed.

(** Giving a marked owner, neither a response nor a tool result, marked tool
    results that name it. *)
Lemma links_results cur o m u st R :
  Links A cur u st R -> Held A st -> In o A -> In (id o) u ->
  hasType assistant o = false -> hasType tool_result o = false ->
  (forall r, In r m -> In r A /\ In (id r) u /\
             hasType tool_result r = true /\ parentIs r o = true) ->
  Links A cur u (updChildren (id o) (fun l => l ++ m) st) R.
Proof.
  intros [L1 L2 L3 L4 L5 L6 L7 L8] Hh Ho Hou Hoa Hor Hm.
  assert (Hk : forall q, kids (updChildren (id o) (fun l => l ++ m) st) q =
                         if String.eqb (id q) (id o) then kids st q ++ m else kids st q).
  { intros q. now apply kids_append. }
  assert (Hnoa : forall y, In y A -> hasType assistant y = true ->
                           String.eqb (id y) (id o) = false).
  { intros y Hy Hya. destruct (String.eqb (id y) (id o)) eqn:E; auto.
    apply same_id in E; auto. subst y. congruence. }
  assert (Hmr : forall y, In y m -> hasType assistant y = true -> False).
  { intros y Hy Hya. destruct (Hm y Hy) as (_ & _ & Hr & _).
    rewrite (assistant_not_result y Hya) in Hr. discriminate. }
  constructor.
  - exact L1.
  - intros p y Hp Hy. rewrite Hk in Hy.
    destruct (String.eqb (id p) (id o)); [|now apply (L2 p)].
    apply in_app_or in Hy. destruct Hy as [Hy|Hy]; [now apply (L2 p)|]. now apply Hm.
  - intros p y Hp Hy. rewrite Hk in Hy.
    destruct (String.eqb (id p) (id o)) eqn:E; [|now apply L3].
    apply same_id in E; auto. subst p.
    apply in_app_or in Hy. destruct Hy as [Hy|Hy]; [now apply L3|].
    destruct (Hm y Hy) as (_ & _ & H1 & H2).
    unfold isLink. rewrite Hoa, Hor, H1, H2. reflexivity.
  - intros p Hp Hkp. rewrite Hk in Hkp.
    destruct (String.eqb (id p) (id o)) eqn:E; [|now apply L4].
    apply String.eqb_eq in E. now rewrite E.
  - intros p y Hp Hy. rewrite Hk in Hy.
    destruct (String.eqb (id p) (id o)); [|now apply (L5 p)].
    apply in_app_or in Hy. destruct Hy as [Hy|Hy]; [now apply (L5 p)|]. now apply Hm.
  - intros p Hp Ht Hkp. rewrite Hk in Hkp. rewrite (Hnoa p Hp Ht) in Hkp. now apply L6.
  - intros p y Hp Hy Hya. rewrite Hk in Hy. rewrite Hk.
    assert (HyA : In y (kids st p) -> kids st y = [] /\ String.eqb (id y) (id o) = false).
    { intros H. split; [now apply (L7 p)|]. apply Hnoa; auto. now apply (L2 p). }
    destruct (String.eqb (id p) (id o)).
    + apply in_app_or in Hy. destruct Hy as [Hy|Hy]; [|destruct (Hmr y Hy Hya)].
      destruct (HyA Hy) as [H1 H2]. now rewrite H2.
    + destruct (HyA Hy) as [H1 H2]. now rewrite H2.
  - intros a Ea. destruct (L8 a Ea) as [Hta Hnk]. split; auto.
    intros p Hp Hin. rewrite Hk in Hin.
    destruct (String.eqb (id p) (id o)); [|now apply (Hnk p)].
    apply in_app_or in Hin. destruct Hin as [Hin|Hin]; [now apply (Hnk p)|].
    now apply (Hmr a).
Qed.

Lemma attachUnused_links a R xs :
  forall u st,
    Links A (Some a) u st R -> Held A st -> In a A -> In (id a) u ->
    (forall x, In x xs -> In x A /\
       hasType thinking x || isToolFamily x || hasType assistant x = true) ->
    Links A (Some a) (fst (attachUnused a xs u st)) (snd (attachUnused a xs u st)) R /\
    Held A (snd (attachUnused a xs u st)) /\
    (forall i, In i u -> In i (fst (attachUnused a xs u st))).
Proof.
  unfold attachUnused.
  induction xs as [|x xs IH]; intros u st L Hh Ha Hau Hx; cbn [fold_left fst snd]; auto.
  assert (Hstep : attachOne a (u, st) x =
                  if Set_has u (id x) then (u, st)
                  else (Set_add u (id x), pushChild (id a) x st)) by reflexivity.
  rewrite Hstep. clear Hstep.
  destruct (Hx x (or_introl eq_refl)) as [HxA Hxt].
  destruct (Set_has u (id x)) eqn:Eu.
  - apply IH; auto. intros y Hy. apply Hx. simpl. auto.
  - apply Set_has_not_In in Eu.
    destruct (links_unmarked _ _ _ _ x L HxA Eu) as [Hk0 _].
    destruct (IH (Set_add u (id x)) (pushChild (id a) x st)) as (H1 & H2 & H3).
    + apply links_push_cur; auto.
      * eapply links_mono; [exact L|]. intros i Hi. apply Set_add_In. auto.
      * apply Set_add_In. auto.
      * apply Set_add_In. auto.
      * intros E. apply Eu. now rewrite E.
    + now apply Held_upd.
    + exact Ha.
    + apply Set_add_In. auto.
    + intros y Hy. apply Hx. simpl. auto.
    + split; [exact H1|]. split; [exact H2|].
      intros i Hi. apply H3, Set_add_In. auto.
Qed.

Lemma attachResults_links cur o trs u st R :
  Links A cur u st R -> Held A st -> In o A -> In (id o) u ->
  hasType assistant o = false -> hasType tool_result o = false ->
  (forall r, In r trs -> In r A /\ hasType tool_result r = true) ->
  Links A cur (fst (attachResults o trs u st)) (snd (attachResults o trs u st)) R /\
  Held A (snd (attachResults o trs u st)) /\
  (forall i, In i u -> In i (fst (attachResults o trs u st))).
Proof.
  intros L Hh Ho Hou Hoa Hor Hres. unfold attachResults.
  rewrite attachResult_fold_eq. cbn [fst snd]. split; [|split].
  - apply links_results; auto.
    + eapply links_mono; [exact L|]. intros i Hi. apply fold_Set_add_In. auto.
    + apply fold_Set_add_In. auto.
    + intros r Hr. pose proof Hr as Hr0. apply filter_In in Hr. destruct Hr as [Hr Hc].
      apply andb_true_iff in Hc. destruct (Hres r Hr) as [H1 H2].
      split; [exact H1|]. split; [|tauto].
      apply fold_Set_add_In. right. now apply in_map.
  - now apply Held_upd.
  - intros i Hi. apply fold_Set_add_In. auto.
Qed.

Lemma attachTool_links a trs R s tool :
  Links A (Some a) (fst s) (snd s) R -> Held A (snd s) -> In a A -> In (id a) (fst s) ->
  In tool A -> isToolFamily tool = true ->
  (forall r, In r trs -> In r A /\ hasType tool_result r = true) ->
  Links A (Some a) (fst (attachTool a trs s tool)) (snd (attachTool a trs s tool)) R /\
  Held A (snd (attachTool a trs s tool)) /\
  (forall i, In i (fst s) -> In i (fst (attachTool a trs s tool))).
Proof.
  destruct s as [u st]. cbn [fst snd]. intros L Hh Ha Hau Ht Htt Hres.
  unfold attachTool. destruct (Set_has u (id tool)) eqn:Eu; cbn [fst snd]; auto.
  apply Set_has_not_In in Eu.
  destruct (attachResults_links (Some a) tool trs (Set_add u (id tool)) st R)
    as (H1 & H2 & H3); auto.
  { eapply links_mono; [exact L|]. intros i Hi. apply Set_add_In. auto. }
  { apply Set_add_In. auto. }
  { now apply tool_not_assistant. }
  { now apply tool_not_result. }
  destruct (attachResults tool trs (Set_add u (id tool)) st) as [u2 st2].
  cbn [fst snd] in *. split; [|split].
  - apply links_push_cur; auto.
    + apply H3, Set_add_In. auto.
    + apply H3, Set_add_In. auto.
    + intros E. apply Eu. now rewrite E.
    + rewrite Htt. now rewrite orb_true_r.
    + intros Hta. rewrite (tool_not_assistant tool Htt) in Hta. discriminate.
  - now apply Held_upd.
  - intros i Hi. apply H3, Set_add_In. auto.
Qed.

Lemma attachTool_fold_links a trs R tools :
  forall u st,
    Links A (Some a) u st R -> Held A st -> In a A -> In (id a) u ->
    (forall x, In x tools -> In x A /\ isToolFamily x = true) ->
    (forall r, In r trs -> In r A /\ hasType tool_result r = true) ->
    Links A (Some a) (fst (fold_left (attachTool a trs) tools (u, st)))
                     (snd (fold_left (attachTool a trs) tools (u, st))) R /\
    Held A (snd (fold_left (attachTool a trs) tools (u, st))) /\
    (forall i, In i u -> In i (fst (fold_left (attachTool a trs) tools (u, st)))).
Proof.
  induction tools as [|x tools IH]; intros u st L Hh Ha Hau Ht Hres;
    cbn [fold_left fst snd]; auto.
  destruct (attachTool_links a trs R (u, st) x) as (H1 & H2 & H3); auto;
    try (apply Ht; simpl; auto).
  destruct (attachTool a trs (u, st) x) as [u1 st1]. cbn [fst snd] in *.
  destruct (IH u1 st1) as (K1 & K2 & K3); auto.
  intros y Hy. apply Ht. simpl. auto.
Qed.

(** The roots a turn without a response adds. *)
Lemma promote_links trs s node :
  Links A None (fst (fst s)) (snd (fst s)) (snd s) -> Held A (snd (fst s)) ->
  In node A -> hasType assistant node = false ->
  (forall r, In r trs -> In r A /\ hasType tool_result r = true) ->
  (forall r, In r (snd s) -> hasType tool_result r = false) ->
  Links A None (fst (fst (promote trs s node))) (snd (fst (promote trs s node)))
               (snd (promote trs s node)) /\
  Held A (snd (fst (promote trs s node))) /\
  (forall r, In r (snd (promote trs s node)) -> hasType tool_result r = false).
Proof.
  destruct s as [[u st] R]. cbn [fst snd]. intros L Hh Hn Hna Hres HR.
  unfold promote.
  destruct (negb (hasType tool_result node) && negb (Set_has u (id node))) eqn:Ec;
    cbn [fst snd]; auto.
  apply andb_true_iff in Ec. destruct Ec as [E1 E2].
  apply negb_true_iff in E1, E2.
  destruct (attachResults_links None node trs (Set_add u (id node)) st R)
    as (H1 & H2 & H3); auto.
  { eapply links_mono; [exact L|]. intros i Hi. apply Set_add_In. auto. }
  { apply Set_add_In. auto. }
  destruct (attachResults node trs (Set_add u (id node)) st) as [u2 st2].
  cbn [fst snd] in *. split; [|split]; auto.
  - now apply links_root.
  - intros r Hr. apply in_app_or in Hr. destruct Hr as [Hr|[<-|[]]]; auto.
Qed.

Lemma promote_fold_links trs ns :
  forall s,
    Links A None (fst (fst s)) (snd (fst s)) (snd s) -> Held A (snd (fst s)) ->
    (forall x, In x ns -> In x A /\ hasType assistant x = false) ->
    (forall r, In r trs -> In r A /\ hasType tool_result r = true) ->
    (forall r, In r (snd s) -> hasType tool_result r = false) ->
    let s' := fold_left (promote trs) ns s in
    Links A None (fst (fst s')) (snd (fst s')) (snd s') /\
    Held A (snd (fst s')) /\
    (forall r, In r (snd s') -> hasType tool_result r = false).
Proof.
  induction ns as [|x ns IH]; intros s L Hh Hns Hres HR; cbn [fold_left]; cbv zeta; auto.
  destruct (promote_links trs s x) as (H1 & H2 & H3); auto; try (apply Hns; simpl; auto).
  apply IH; auto. intros y Hy. apply Hns. simpl. auto.
Qed.

(** One turn keeps the links, and no root is a tool result. *)
Lemma turn_links allNodes t nx u st R :
  Links A None u st R -> Held A st ->
  (forall x, In x allNodes -> In x A) -> In t A -> hasType tool_result t = false ->
  (forall r, In r R -> hasType tool_result r = false) ->
  let s' := turn allNodes t nx (u, st, R) in
  Links A None (fst (fst s')) (snd (fst s')) (snd s') /\
  Held A (snd (fst s')) /\
  (forall r, In r (snd s') -> hasType tool_result r = false).
Proof.
  intros L Hh HA Ht Htt HR. cbv zeta. unfold turn.
  set (u1 := Set_add u (id t)) in *.
  set (turnNodes := filter (inTurn t nx u1) allNodes) in *.
  assert (HTA : forall x, In x turnNodes -> In x A).
  { intros x Hx. apply filter_In in Hx. apply HA; tauto. }
  assert (Hfresh : forall x, In x turnNodes -> ~ In (id x) u1).
  { intros x Hx. apply filter_In in Hx. destruct Hx as [_ Hx].
    apply inTurn_facts in Hx. tauto. }
  assert (Hsub : forall f x, In x (filter f turnNodes) -> In x turnNodes /\ f x = true).
  { intros f x Hx. now apply filter_In in Hx. }
  assert (L1 : Links A None u1 st (R ++ [t])).
  { apply links_root; auto. eapply links_mono; [exact L|].
    intros i Hi. apply Set_add_In. auto. }
  assert (HRt : forall r, In r (R ++ [t]) -> hasType tool_result r = false).
  { intros r Hr. apply in_app_or in Hr. destruct Hr as [Hr|[<-|[]]]; auto. }
  assert (Hres : forall r, In r (filter (hasType tool_result) turnNodes) ->
            In r A /\ hasType tool_result r = true).
  { intros r Hr. apply Hsub in Hr. destruct Hr as [Hr Hrt]. split; auto. }
  destruct (last_opt (filter (hasType assistant) turnNodes)) as [a|] eqn:Ea.
  - apply last_opt_In in Ea. apply Hsub in Ea. destruct Ea as [Ea Hta].
    pose proof (HTA a Ea) as HaA.
    set (u2 := Set_add u1 (id a)).
    assert (L2 : Links A (Some a) u2 st (R ++ [t])).
    { eapply links_mono; [apply links_begin; [exact L1|exact Hta|now apply Hfresh]|].
      intros i Hi. apply Set_add_In. auto. }
    assert (Hau2 : In (id a) u2) by (apply Set_add_In; auto).
    destruct (attachUnused_links a (R ++ [t])
                (filter (hasType thinking) turnNodes) u2 st) as (S3 & H3 & M3); auto.
    { intros x Hx. apply Hsub in Hx. destruct Hx as [Hx Hf]. split; auto.
      now rewrite Hf. }
    destruct (attachUnused a (filter (hasType thinking) turnNodes) u2 st) as [u3 st3].
    cbn [fst snd] in S3, H3, M3.
    destruct (attachTool_fold_links a (filter (hasType tool_result) turnNodes)
                (R ++ [t]) (filter isToolFamily turnNodes) u3 st3) as (S4 & H4 & M4); auto.
    { intros x Hx. apply Hsub in Hx. destruct Hx as [Hx Hf]. split; auto. }
    destruct (fold_left (attachTool a (filter (hasType tool_result) turnNodes))
                (filter isToolFamily turnNodes) (u3, st3)) as [u4 st4].
    cbn [fst snd] in S4, H4, M4.
    destruct (attachUnused_links a (R ++ [t])
                (filter (fun n => negb (sameNode n a))
                   (filter (hasType assistant) turnNodes)) u4 st4) as (S5 & H5 & M5); auto.
    { intros x Hx. apply filter_In in Hx. destruct Hx as [Hx _].
      apply Hsub in Hx. destruct Hx as [Hx Hf]. split; auto.
      rewrite Hf. now rewrite !orb_true_r. }
    destruct (attachUnused a _ u4 st4) as [u5 st5]. cbn [fst snd] in S5, H5, M5.
    cbn [fst snd]. split; [|split].
    + apply links_end; auto.
      eapply links_perm; [exact S5|]. intros q. apply kids_upd_perm. apply sort_perm.
    + now apply Held_upd.
    + intros r Hr. apply in_app_or in Hr. destruct Hr as [Hr|[<-|[]]]; auto.
      now apply assistant_not_result.
  - apply last_opt_None in Ea.
    assert (Hna : forall x, In x turnNodes -> hasType assistant x = false).
    { intros x Hx. destruct (hasType assistant x) eqn:E; auto.
      assert (H : In x (filter (hasType assistant) turnNodes)) by (apply filter_In; auto).
      rewrite Ea in H. destruct H. }
    destruct turnNodes as [|n0 rest] eqn:Etn.
    + cbn [fst snd]. auto.
    + rewrite <- Etn in *.
      apply (promote_fold_links (filter (hasType tool_result) turnNodes)
               turnNodes (u1, st, R ++ [t])); auto.
Qed.

(** The loop over the turn starters. *)
Lemma turns_links allNodes :
  (forall x, In x allNodes -> In x A) ->
  forall ts u st R,
    Links A None u st R -> Held A st ->
    (forall t, In t ts -> In t A /\ isTurnStarter t = true) ->
    (forall r, In r R -> hasType tool_result r = false) ->
    let s' := turns allNodes ts (u, st, R) in
    Links A None (fst (fst s')) (snd (fst s')) (snd s') /\
    Held A (snd (fst s')) /\
    (forall r, In r (snd s') -> hasType tool_result r = false).
Proof.
  intros HA.
  induction ts as [|t rest IH]; intros u st R L Hh Hts HR; cbv zeta; cbn [turns]; auto.
  destruct (Hts t (or_introl eq_refl)) as [HtA Htt].
  destruct (turn_links allNodes t (hd_error rest) u st R) as (L1 & H1 & R1); auto.
  { now apply starter_not_result. }
  destruct (turn allNodes t (hd_error rest) (u, st, R)) as [[u1 st1] R1'].
  cbn [fst snd] in *. apply IH; auto.
  intros t' Ht'. apply Hts. simpl. auto.
Qed.

End LinkSteps.

Section LinkedTree.

Context {rt : Runtime}.

(** The display reorganization, on the forest the first half of
    [buildTree] leaves, for any timestamps. *)
Lemma reorganize_links A0 st R :
  NoDup (map id A0) -> Forest A0 st R -> Held A0 st ->
  let all0 := flattenTree st R in
  let st' := fst (reorganizeForDisplay st R) in
  let R' := snd (reorganizeForDisplay st R) in
  NoDup (map id all0) /\ (forall x, In x all0 -> In x A0) /\
  (exists u, Links all0 None u st' R') /\
  ((exists x, In x all0 /\ isTurnStarter x = true) ->
   forall r, In r R' -> hasType tool_result r = false).
Proof.
  intros Hnd F Hh. cbv zeta. unfold reorganizeForDisplay.
  set (all0 := flattenTree st R).
  assert (Hnd0 : NoDup (map id all0)).
  { apply (flatten_nodup A0 Hnd st R); auto. now apply (apart_roots A0 st R). }
  assert (Hin0 : forall x, In x all0 -> In x A0).
  { intros x Hx. apply (flatten_in A0 st R (List.length st) R x F); auto. apply F. }
  assert (HR0 : forall r, In r R -> In r all0).
  { intros r Hr. now apply flatten_self. }
  split; [exact Hnd0|]. split; [exact Hin0|].
  destruct all0 as [|n0 l0] eqn:E0.
  - assert (R = []) as ->.
    { destruct R as [|r R0]; auto. destruct (HR0 r). simpl. auto. }
    cbn [fst snd]. split.
    + exists []. constructor; simpl; try tauto. intros a E. discriminate.
    + intros (x & [] & _).
  - rewrite <- E0 in *. clear E0.
    set (st1 := fold_left (fun s node => resetChildren node s) all0 st).
    assert (Hk1 : forall a, In a all0 -> kids st1 a = []).
    { intros a Ha. unfold kids, st1. rewrite getChildren_reset.
      assert (Hx : existsb (fun n => String.eqb (id n) (id a)) all0 = true).
      { apply existsb_exists. exists a. split; auto. apply String.eqb_refl. }
      now rewrite Hx. }
    assert (Hh1 : Held all0 st1).
    { intros a Ha. unfold st1. rewrite Map_has_keys.
      rewrite fold_upd_keys by (intros; apply updChildren_keys).
      rewrite <- Map_has_keys. apply Hh. auto. }
    assert (S1 : forall u Rx, (forall r, In r Rx -> In r all0) -> Links all0 None u st1 Rx).
    { intros u Rx HRx. constructor; auto.
      - intros p x Hp Hx. rewrite (Hk1 p Hp) in Hx. destruct Hx.
      - intros p x Hp Hx. rewrite (Hk1 p Hp) in Hx. destruct Hx.
      - intros p Hp Hk. now rewrite (Hk1 p Hp) in Hk.
      - intros p x Hp Hx. rewrite (Hk1 p Hp) in Hx. destruct Hx.
      - intros p Hp _ Hk. now rewrite (Hk1 p Hp) in Hk.
      - intros p x Hp Hx. rewrite (Hk1 p Hp) in Hx. destruct Hx.
      - intros a E. discriminate. }
    set (allNodes := sortByTimestamp all0).
    assert (HallIn : forall x, In x allNodes <-> In x all0) by (intros; apply sort_In).
    destruct (filter isTurnStarter allNodes) as [|t0 ts0] eqn:Ets.
    + cbn [fst snd]. split.
      * exists []. now apply S1.
      * intros (x & Hx & Ex).
        assert (H : In x (filter isTurnStarter allNodes)).
        { apply filter_In. split; auto. now apply HallIn. }
        rewrite Ets in H. destruct H.
    + rewrite <- Ets.
      set (ts := filter isTurnStarter allNodes).
      destruct (turns_links all0 Hnd0 allNodes (fun x => proj1 (HallIn x)) ts [] st1 [])
        as (L2 & H2 & R2).
      { apply S1. intros r []. }
      { exact Hh1. }
      { intros t Ht. apply filter_In in Ht. destruct Ht as [Ht Hs]. split; auto.
        now apply HallIn. }
      { intros r []. }
      destruct (turns allNodes ts ([], st1, [])) as [[u2 st2] R2'].
      cbn [fst snd] in *. split; [exists u2; exact L2|]. intros _. exact R2.
Qed.

Lemma buildTree_links nodes :
  NoDup (map id (Map_values nodes)) ->
  let all0 := flattenTree (fst (rawLinkage nodes)) (snd (rawLinkage nodes)) in
  NoDup (map id all0) /\ (forall x, In x all0 -> In x (Map_values nodes)) /\
  (exists u, Links all0 None u (fst (buildTree nodes)) (snd (buildTree nodes))) /\
  ((exists x, In x all0 /\ isTurnStarter x = true) ->
   forall r, In r (snd (buildTree nodes)) -> hasType tool_result r = false).
Proof.
  intros Hnd. cbv zeta. unfold buildTree.
  destruct (rawLinkage_forest nodes Hnd) as [F Hh].
  destruct (rawLinkage nodes) as [st R]. cbn [fst snd] in *.
  now apply (reorganize_links (Map_values nodes) st R).
Qed.

End LinkedTree.

(** ** Reading a linked forest *)

Lemma two_members {X : Type} (l : list X) (x y : X) :
  In x l -> In y l -> x <> y -> 2 <= List.length l.
Proof.
  intros Hx Hy Hne. destruct l as [|a [|b l']]; simpl in *; try lia.
  destruct Hx as [<-|[]], Hy as [<-|[]]. congruence.
Qed.

Section ReadLinks.

Variable A : list ConversationNode.
Variable u : list string.
Variable st : Registry.
Variable R : list ConversationNode.
Hypothesis A_nodup : NoDup (map id A).
Hypothesis linked : Links A None u st R.

Lemma isLink_holder p x :
  isLink p x = true ->
  hasType tool_result p = false /\
  (hasType assistant p = false -> hasType tool_result x = true).
Proof.
  unfold isLink, hasType, isToolFamily.
  destruct (type p), (type x); simpl; intros H; try discriminate; auto;
    split; auto; intros; discriminate.
Qed.

(** Nothing lies more than two links below a node. *)
Lemma links_grandkid p y z :
  In p A -> In y (kids st p) -> In z (kids st y) -> kids st z = [].
Proof.
  intros Hp Hy Hz.
  assert (HyA : In y A) by now apply (lk_kids_in _ _ _ _ _ linked p).
  assert (HzA : In z A) by now apply (lk_kids_in _ _ _ _ _ linked y).
  destruct (kids st z) as [|w l] eqn:Ez; auto. exfalso.
  assert (Hw : In w (kids st z)) by (rewrite Ez; simpl; auto).
  destruct (isLink_holder z w (lk_edge _ _ _ _ _ linked z w HzA Hw)) as [Hzr _].
  destruct (isLink_holder y z (lk_edge _ _ _ _ _ linked y z HyA Hz)) as [_ Hya].
  destruct (hasType assistant y) eqn:Ey.
  - pose proof (lk_leaf _ _ _ _ _ linked p y Hp Hy Ey) as H. rewrite H in Hz. destruct Hz.
  - specialize (Hya eq_refl). congruence.
Qed.

Lemma links_no_loop y : In y A -> ~ In y (kids st y).
Proof.
  intros Hy Hin.
  pose proof (links_grandkid y y y Hy Hin Hin) as H. rewrite H in Hin. destruct Hin.
Qed.

Lemma unfold_leaf f n : kids st n = [] -> unfold f st n = TNode n [].
Proof. intros H. destruct f; cbn [unfold]; auto. unfold kids in H. now rewrite H. Qed.

(** With fuel for every node of [A], the reading of a node is its whole
    tree. *)
Lemma unfold_full f n :
  In n A -> List.length A <= f -> unfold f st n = full st n.
Proof.
  intros Hn Hf. unfold full.
  destruct (kids st n) as [|y0 l0] eqn:Ekn.
  - rewrite unfold_leaf; auto.
  - rewrite <- Ekn.
    assert (Hne : exists y, In y (kids st n)) by (rewrite Ekn; simpl; eauto).
    destruct f as [|f]; [destruct A; [destruct Hn|simpl in Hf; lia]|].
    cbn [unfold]. fold (kids st n). f_equal. apply map_ext_in. intros y Hy.
    assert (HyA : In y A) by now apply (lk_kids_in _ _ _ _ _ linked n).
    destruct (kids st y) as [|z0 l1] eqn:Eky.
    + rewrite unfold_leaf; auto.
    + rewrite <- Eky.
      assert (Hny : n <> y).
      { intros E. subst y. now apply (links_no_loop n). }
      pose proof (two_members A n y Hn HyA Hny) as H2.
      destruct f as [|f]; [lia|].
      cbn [unfold]. fold (kids st y). f_equal. apply map_ext_in. intros z Hz.
      apply unfold_leaf. now apply (links_grandkid n y z).
Qed.

Lemma depth_full n : depth (full st n) <= 3.
Proof.
  unfold full. cbn [depth]. apply le_n_S. apply list_max_le.
  rewrite Forall_forall. intros d Hd. rewrite map_map in Hd.
  apply in_map_iff in Hd. destruct Hd as (y & <- & Hy).
  cbn [depth]. apply le_n_S. apply list_max_le.
  rewrite Forall_forall. intros d Hd. rewrite map_map in Hd.
  apply in_map_iff in Hd. destruct Hd as (z & <- & Hz). simpl. lia.
Qed.

(** Every node read below a node of [A] is read as its whole tree. *)
Lemma subtrees_full n t :
  In n A -> In t (Client.subtrees (full st n)) -> exists m, In m A /\ t = full st m.
Proof.
  intros Hn Ht. unfold full in Ht. cbn [Client.subtrees] in Ht.
  destruct Ht as [<-|Ht]; [exists n; auto|].
  apply in_flat_map in Ht. destruct Ht as (ty & Hty & Ht).
  apply in_map_iff in Hty. destruct Hty as (y & <- & Hy).
  assert (HyA : In y A) by now apply (lk_kids_in _ _ _ _ _ linked n).
  cbn [Client.subtrees] in Ht. destruct Ht as [<-|Ht].
  - exists y. split; auto. unfold full. f_equal. apply map_ext_in. intros z Hz.
    now rewrite (links_grandkid n y z).
  - apply in_flat_map in Ht. destruct Ht as (tz & Htz & Ht).
    apply in_map_iff in Htz. destruct Htz as (z & <- & Hz).
    cbn [Client.subtrees flat_map] in Ht. destruct Ht as [<-|[]].
    exists z. split; [now apply (lk_kids_in _ _ _ _ _ linked y)|].
    unfold full. now rewrite (links_grandkid n y z).
Qed.

End ReadLinks.

(** ** The rebuilt tree for any timestamps *)

Lemma rebuilt_tree_full {rt : Runtime} nodes :
  NoDup (map id (Map_values nodes)) ->
  exists A u,
    NoDup (map id A) /\ (forall x, In x A -> In x (Map_values nodes)) /\
    Links A None u (fst (buildTree nodes)) (snd (buildTree nodes)) /\
    (forall f, List.length (fst (buildTree nodes)) <= f ->
       map (unfold f (fst (buildTree nodes))) (snd (buildTree nodes)) =
       map (full (fst (buildTree nodes))) (snd (buildTree nodes))).
Proof.
  intros Hnd.
  destruct (buildTree_links nodes Hnd) as (Hnd0 & Hsub & (u & L) & _).
  set (A := flattenTree (fst (rawLinkage nodes)) (snd (rawLinkage nodes))) in *.
  exists A, u. split; [exact Hnd0|]. split; [exact Hsub|]. split; [exact L|].
  intros f Hf. apply map_ext_in. intros r Hr.
  apply (unfold_full A u _ _ Hnd0 L).
  - now apply (lk_roots_in _ _ _ _ _ L).
  - pose proof (sub_length A (Map_values nodes) Hnd0 Hsub) as Hle.
    pose proof (buildTree_keys nodes) as Hk.
    assert (Hl : List.length (fst (buildTree nodes)) = List.length (Map_values nodes)).
    { rewrite <- Hk. unfold Map_values. now rewrite length_map. }
    lia.
Qed.

(** [snapshot] reads the rebuilt tree with the registry's size as fuel: any
    larger fuel reads the same trees. *)
Theorem snapshot_fuel_enough {rt : Runtime} (nodes : Registry) (f : nat) :
  NoDup (map id (Map_values nodes)) ->
  List.length (fst (buildTree nodes)) <= f ->
  map (unfold f (fst (buildTree nodes))) (snd (buildTree nodes)) =
  snapshot (fst (buildTree nodes)) (snd (buildTree nodes)).
Proof.
  intros Hnd Hf. destruct (rebuilt_tree_full nodes Hnd) as (A & u & _ & _ & _ & H).
  unfold snapshot. rewrite (H f Hf). symmetry. apply H. lia.
Qed.

(** X2. The display tree is at most three levels deep: a root, the nodes
    nested under it, and the tool results under those. *)
Theorem display_depth {rt : Runtime} (w : SessionWatcher)
    (Hids : NoDup (map id (Map_values (nodes w)))) :
  Forall (fun t => depth t <= 3) (snd (getNodes w)).
Proof.
  rewrite getNodes_snapshot.
  destruct (rebuilt_tree_full (nodes w) Hids) as (A & u & _ & _ & _ & H).
  unfold snapshot. rewrite (H _ (le_n _)). rewrite Forall_forall.
  intros t Ht. apply in_map_iff in Ht. destruct Ht as (r & <- & _). apply depth_full.
Qed.

Lemma display_depth_witness :
  Forall (fun t => depth t <= 3)
         (snd (getNodes (rt := Ex.rt0) (watch Ex.rt0 [Ex.log3] initial))).
Proof.
  apply (display_depth (rt := Ex.rt0) (watch Ex.rt0 [Ex.log3] initial)).
  vm_compute. repeat (constructor; [simpl; intuition discriminate|]). constructor.
Defined.

(** ** A tool result and its invocation, for any timestamps *)

Lemma Time_lt_asym a b : Time_lt a b = true -> Time_lt b a = true -> False.
Proof.
  destruct a as [x|], b as [y|]; simpl; try discriminate.
  intros H1 H2. apply Z.ltb_lt in H1, H2. lia.
Qed.

Lemma Time_lt_finite a b : Time_lt a b = true -> Time_finite b = true.
Proof. destruct a, b; simpl; auto. Qed.

Lemma starter_not_tool t : isTurnStarter t = true -> isToolFamily t = false.
Proof. unfold isTurnStarter, isToolFamily. destruct (type t); simpl; congruence. Qed.

(** When every turn starter is clear of [p] and [r] and one is earlier,
    some window of the loop holds [p]. *)
Lemma window_ahead_exists p r ts :
  (forall t, In t ts -> clearOf p r t) ->
  (exists t, In t ts /\ Time_lt (timestamp t) (timestamp p) = true) ->
  windowAhead p ts.
Proof.
  induction ts as [|t rest IH]; intros Hc (w & Hw & Hlt); [destruct Hw|].
  cbn [windowAhead]. destruct rest as [|n rest'].
  - left. destruct Hw as [<-|[]]. auto.
  - assert (Hrest : forall t', In t' (n :: rest') -> clearOf p r t').
    { intros t' Ht'. apply Hc. simpl. simpl in Ht'. tauto. }
    destruct (Hc n) as [[Hn _]|[Hn _]]; [simpl; auto| |].
    + right. apply IH; auto. exists n. simpl. auto.
    + destruct (Hc t) as [[Ht _]|[Ht _]]; [simpl; auto| |].
      * left. auto.
      * right. apply IH; auto. destruct Hw as [<-|Hw].
        -- destruct (Time_lt_asym _ _ Hlt Ht).
        -- exists w. auto.
Qed.

Section ResultTurns.

Context {rt : Runtime}.
Variable A : list ConversationNode.
Hypothesis A_nodup : NoDup (map id A).
Variable allNodes : list ConversationNode.
Hypothesis all_in : forall x, In x allNodes -> In x A.
Hypothesis all_nodup : NoDup (map id allNodes).
Variables p r : ConversationNode.
Hypothesis Hp : In p allNodes.
Hypothesis Hr : In r allNodes.
Hypothesis Hpf : isToolFamily p = true.
Hypothesis Hrt : hasType tool_result r = true.
Hypothesis Hpar : parentIs r p = true.

(** A window holds the result when it holds the invocation. *)
Lemma inTurn_both t nx u :
  clearOf p r t -> (forall n, nx = Some n -> clearOf p r n) ->
  ~ In (id r) u -> id r <> id t ->
  inTurn t nx u p = true -> inTurn t nx u r = true.
Proof.
  intros Ht Hn Hu Hne H. unfold inTurn in *.
  apply andb_true_iff in H. destruct H as [_ H].
  apply andb_true_iff in H. destruct H as [H1 H2].
  apply andb_true_iff. split; [apply andb_true_iff; split|apply andb_true_iff; split].
  - apply negb_true_iff. unfold sameNode. now apply String.eqb_neq.
  - apply negb_true_iff. now apply Set_has_not_In.
  - destruct Ht as [[_ Ht]|[Ht _]]; auto. destruct (Time_lt_asym _ _ H1 Ht).
  - destruct nx as [n|].
    + destruct (Hn n eq_refl) as [[Hn' _]|[_ Hn']]; auto.
      destruct (Time_lt_asym _ _ H2 Hn').
    + destruct Ht as [[_ Ht]|[Ht _]].
      * now apply Time_lt_finite in Ht.
      * destruct (Time_lt_asym _ _ H1 Ht).
Qed.

(** The loop over the turn starters marks the result in the first window
    that holds the invocation. *)
Lemma turns_result_marked :
  forall ts u st R,
    Held A st ->
    (forall t, In t ts -> In t A /\ isTurnStarter t = true /\ clearOf p r t) ->
    In (id r) u \/ (~ In (id p) u /\ ~ In (id r) u /\ windowAhead p ts) ->
    In (id r) (fst (fst (turns allNodes ts (u, st, R)))).
Proof.
  induction ts as [|t rest IH]; intros u st R Hh Hts Hinv; cbn [turns fst].
  - destruct Hinv as [H|(_ & _ & [])]. exact H.
  - destruct (Hts t (or_introl eq_refl)) as (HtA & Htt & Htc).
    assert (Hidp : id p <> id t).
    { intros E. assert (p = t) by (apply (id_inj A); auto). subst t.
      rewrite (starter_not_tool p Htt) in Hpf. discriminate. }
    assert (Hidr : id r <> id t).
    { intros E. assert (r = t) by (apply (id_inj A); auto). subst t.
      rewrite (starter_not_result r Htt) in Hrt. discriminate. }
    assert (Hnx : forall n, hd_error rest = Some n -> clearOf p r n).
    { intros n Hn. apply Hts. right. destruct rest; [discriminate|].
      injection Hn as ->. simpl. auto. }
    destruct (turn_adds A allNodes t (hd_error rest) u st R Hh all_in all_nodup HtA)
      as (Ad & H1 & _ & _ & Mr).
    pose proof (Adds_marks A _ _ _ Ad) as Hmono. cbn [fst] in Hmono.
    set (turnNodes := filter (inTurn t (hd_error rest) (Set_add u (id t))) allNodes) in *.
    destruct (turn allNodes t (hd_error rest) (u, st, R)) as [[u1 st1] R1] eqn:Eturn.
    cbn [fst snd] in *. simpl in Ad. destruct Ad as (_ & _ & Ad3).
    apply IH; auto.
    { intros t' Ht'. apply Hts. simpl. auto. }
    destruct Hinv as [H|(Hup & Hur & Hw)]; [left; auto|].
    destruct (inTurn t (hd_error rest) (Set_add u (id t)) p) eqn:Ep.
    + left. apply (Mr p r); auto.
      * apply filter_In. auto.
      * apply filter_In. split; auto.
        apply inTurn_both; auto.
        intros Hu. apply Set_add_In in Hu. destruct Hu as [Hu|Hu]; auto.
    + destruct (in_dec string_dec (id r) u1) as [Hr1|Hr1]; [left; exact Hr1|].
      right. split; [|split; [exact Hr1|]].
      * intros Hp1. destruct (Ad3 _ Hp1) as [H|[_ [H|H]]]; auto.
        apply in_map_iff in H. destruct H as (y & E & Hy).
        assert (y = p).
        { apply (id_inj A); auto. apply all_in. apply filter_In in Hy. tauto. }
        subst y. apply filter_In in Hy. destruct Hy as [_ Hy]. congruence.
      * cbn [windowAhead] in Hw. destruct Hw as [[Hlt Hn]|Hw]; auto.
        exfalso. unfold inTurn in Ep.
        assert (E1 : sameNode p t = false) by (unfold sameNode; now apply String.eqb_neq).
        assert (E2 : Set_has (Set_add u (id t)) (id p) = false).
        { apply Set_has_not_In. intros Hu. apply Set_add_In in Hu.
          destruct Hu as [Hu|Hu]; auto. }
        rewrite E1, E2, Hlt in Ep. cbn [negb andb] in Ep.
        destruct rest as [|n rest']; cbn [hd_error] in Ep.
        -- rewrite (Time_lt_finite _ _ Hlt) in Ep. discriminate.
        -- rewrite Hn in Ep. discriminate.
Qed.

(** Whatever the loop marks fills a slot. *)
Lemma turns_marks_placed :
  forall ts u st R,
    Held A st -> (forall t, In t ts -> In t A) ->
    (forall i, In i u -> Placed A st R i) ->
    let s' := turns allNodes ts (u, st, R) in
    forall i, In i (fst (fst s')) -> Placed A (snd (fst s')) (snd s') i.
Proof.
  induction ts as [|t rest IH]; intros u st R Hh Hts Hpl; cbv zeta; cbn [turns fst snd]; auto.
  destruct (turn_adds A allNodes t (hd_error rest) u st R Hh all_in all_nodup
              (Hts t (or_introl eq_refl))) as (Ad & H1 & _).
  destruct (turn allNodes t (hd_error rest) (u, st, R)) as [[u1 st1] R1].
  cbn [fst snd] in *. simpl in Ad. destruct Ad as (_ & Ad2 & Ad3).
  apply IH; auto.
  - intros t' Ht'. apply Hts. simpl. auto.
  - intros i Hi. destruct (Ad3 i Hi) as [H|[H _]]; auto.
Qed.

End ResultTurns.

Lemma edges_full st n p x :
  (p = n /\ In x (kids st n)) \/ (In p (kids st n) /\ In x (kids st p)) ->
  In (p, x) (tree_edges (full st n)).
Proof.
  unfold full. cbn [tree_edges]. intros [[-> Hx]|[Hp Hx]]; apply in_or_app.
  - left. rewrite map_map. cbn [root_of]. now apply (in_map (fun y => (n, y))).
  - right. apply in_flat_map.
    exists (TNode p (map (fun z => TNode z []) (kids st p))).
    split; [now apply (in_map (fun y => TNode y (map (fun z => TNode z []) (kids st y))))|].
    cbn [tree_edges]. apply in_or_app. left. rewrite map_map. cbn [root_of].
    now apply (in_map (fun z => (p, z))).
Qed.

Section ResultTree.

Context {rt : Runtime}.

(** The display reorganization marks the result, and what is marked fills
    a slot. *)
Lemma reorganize_result A0 st R p r :
  NoDup (map id A0) -> Forest A0 st R -> Held A0 st ->
  let all0 := flattenTree st R in
  let st' := fst (reorganizeForDisplay st R) in
  let R' := snd (reorganizeForDisplay st R) in
  In p all0 -> In r all0 -> isToolFamily p = true -> hasType tool_result r = true ->
  parentIs r p = true ->
  (exists t, In t all0 /\ isTurnStarter t = true /\
             Time_lt (timestamp t) (timestamp p) = true) ->
  (forall t, In t all0 -> isTurnStarter t = true -> clearOf p r t) ->
  exists u, Links all0 None u st' R' /\
            (forall i, In i u -> Placed all0 st' R' i) /\
            In (id r) u /\
            (forall x, In x R' -> hasType tool_result x = false).
Proof.
  intros Hnd F Hh. cbv zeta. unfold reorganizeForDisplay.
  set (all0 := flattenTree st R).
  intros Hp Hr Hpf Hrt Hpar (t0 & Ht0 & Hts0 & Hlt0) Hclear.
  assert (Hnd0 : NoDup (map id all0)).
  { apply (flatten_nodup A0 Hnd st R); auto. now apply (apart_roots A0 st R). }
  assert (Hin0 : forall x, In x all0 -> In x A0).
  { intros x Hx. apply (flatten_in A0 st R (List.length st) R x F); auto. apply F. }
  destruct all0 as [|n0 l0] eqn:E0; [destruct Hp|].
  rewrite <- E0 in *. clear E0.
  set (st1 := fold_left (fun s node => resetChildren node s) all0 st).
  assert (Hk1 : forall a, In a all0 -> kids st1 a = []).
  { intros a Ha. unfold kids, st1. rewrite getChildren_reset.
    assert (Hx : existsb (fun n => String.eqb (id n) (id a)) all0 = true).
    { apply existsb_exists. exists a. split; auto. apply String.eqb_refl. }
    now rewrite Hx. }
  assert (Hh1 : Held all0 st1).
  { intros a Ha. unfold st1. rewrite Map_has_keys.
    rewrite fold_upd_keys by (intros; apply updChildren_keys).
    rewrite <- Map_has_keys. apply Hh. auto. }
  assert (S1 : Links all0 None [] st1 []).
  { constructor.
    - intros x [].
    - intros q x Hq Hx. rewrite (Hk1 q Hq) in Hx. destruct Hx.
    - intros q x Hq Hx. rewrite (Hk1 q Hq) in Hx. destruct Hx.
    - intros q Hq Hk. now rewrite (Hk1 q Hq) in Hk.
    - intros q x Hq Hx. rewrite (Hk1 q Hq) in Hx. destruct Hx.
    - intros q Hq _ Hk. now rewrite (Hk1 q Hq) in Hk.
    - intros q x Hq Hx. rewrite (Hk1 q Hq) in Hx. destruct Hx.
    - intros a E. discriminate. }
  set (allNodes := sortByTimestamp all0).
  assert (HallIn : forall x, In x allNodes <-> In x all0) by (intros; apply sort_In).
  assert (Hall : forall x, In x allNodes -> In x all0) by (intros x; apply HallIn).
  assert (HndA : NoDup (map id allNodes)).
  { eapply Permutation_NoDup; [|exact Hnd0]. apply Permutation_sym, sort_ids_perm. }
  set (TS := filter isTurnStarter allNodes).
  assert (HTS : forall t, In t TS ->
            In t all0 /\ isTurnStarter t = true /\ clearOf p r t).
  { intros t Ht. apply filter_In in Ht. destruct Ht as [Ht Hs].
    apply HallIn in Ht. auto. }
  assert (Hw : windowAhead p TS).
  { apply (window_ahead_exists p r).
    - intros t Ht. now apply HTS.
    - exists t0. split; auto. apply filter_In. split; auto. now apply HallIn. }
  destruct (turns_links all0 Hnd0 allNodes Hall TS [] st1 []) as (L2 & H2 & R2); auto.
  { intros t Ht. destruct (HTS t Ht) as (H1 & H3 & _). auto. }
  { intros x []. }
  pose proof (turns_result_marked all0 Hnd0 allNodes Hall HndA p r
                (proj2 (HallIn p) Hp) (proj2 (HallIn r) Hr) Hpf Hrt Hpar
                TS [] st1 [] Hh1 HTS) as Hm.
  pose proof (turns_marks_placed all0 allNodes Hall HndA TS [] st1 [] Hh1) as Hpl.
  cbv zeta in Hpl.
  assert (Ets : TS <> []).
  { intros E. rewrite E in Hw. destruct Hw. }
  clearbody TS.
  assert (Hmt : forall (X : Type) (a b : X),
             match TS with [] => a | _ :: _ => b end = b).
  { intros X a b. destruct TS; [congruence|reflexivity]. }
  rewrite Hmt. clear Hmt.
  destruct (turns allNodes TS ([], st1, [])) as [[u2 st2] R2'].
  cbn [fst snd] in *. exists u2. split; [exact L2|]. split; [|split; [|exact R2]].
  - apply Hpl.
    + intros t Ht. now apply HTS.
    + intros i [].
  - apply Hm. right. split; [|split]; auto.
Qed.

(** The rebuilt tree has the link from the invocation to its result. *)
Lemma buildTree_result nodes p r :
  NoDup (map id (Map_values nodes)) ->
  let all0 := flattenTree (fst (rawLinkage nodes)) (snd (rawLinkage nodes)) in
  In p all0 -> In r all0 -> isToolFamily p = true -> hasType tool_result r = true ->
  parentIs r p = true ->
  (exists t, In t all0 /\ isTurnStarter t = true /\
             Time_lt (timestamp t) (timestamp p) = true) ->
  (forall t, In t all0 -> isTurnStarter t = true -> clearOf p r t) ->
  In (p, r) (forest_edges (snapshot (fst (buildTree nodes)) (snd (buildTree nodes)))).
Proof.
  intros Hnd. cbv zeta. intros Hp Hr Hpf Hrt Hpar Hex Hclear.
  destruct (rebuilt_tree_full nodes Hnd) as (A' & u' & _ & _ & _ & Hfull).
  unfold snapshot. rewrite (Hfull _ (le_n _)). clear Hfull A' u'.
  destruct (buildTree_links nodes Hnd) as (Hnd0 & Hsub & _ & _).
  destruct (rawLinkage_forest nodes Hnd) as [F0 Hh0].
  pose proof (reorganize_result (Map_values nodes) (fst (rawLinkage nodes))
                (snd (rawLinkage nodes)) p r Hnd F0 Hh0 Hp Hr Hpf Hrt Hpar Hex Hclear)
    as (u & L & Hpl & Hmr & HR).
  assert (Eb : buildTree nodes =
               reorganizeForDisplay (fst (rawLinkage nodes)) (snd (rawLinkage nodes))).
  { unfold buildTree. now destruct (rawLinkage nodes). }
  rewrite <- Eb in L, Hpl, HR.
  set (all0 := flattenTree (fst (rawLinkage nodes)) (snd (rawLinkage nodes))) in *.
  destruct (buildTree nodes) as [st R]. cbn [fst snd] in *.
  assert (Hkid : In r (kids st p)).
  { destruct (Hpl _ Hmr) as [H|(q & Hq & H)].
    - apply in_map_iff in H. destruct H as (y & E & Hy).
      assert (y = r) by (apply (id_inj all0); auto; now apply (lk_roots_in _ _ _ _ _ L)).
      subst y. rewrite (HR r Hy) in Hrt. discriminate.
    - apply in_map_iff in H. destruct H as (y & E & Hy).
      assert (y = r) by (apply (id_inj all0); auto; now apply (lk_kids_in _ _ _ _ _ L q)).
      subst y. pose proof (lk_edge _ _ _ _ _ L q r Hq Hy) as He.
      assert (Hq2 : parentIs r q = true).
      { unfold isLink in He. apply orb_true_iff in He. destruct He as [He|He].
        - apply andb_true_iff in He. destruct He as [_ He]. exfalso.
          clear - He Hrt. unfold hasType, isToolFamily in *.
          destruct (type r); simpl in *; discriminate.
        - apply andb_true_iff in He. tauto. }
      assert (q = p).
      { apply (id_inj all0); auto. now apply (parentIs_inj r). }
      now subst q. }
  assert (Hkp : kids st p <> []) by (intros E; rewrite E in Hkid; destruct Hkid).
  pose proof (lk_used _ _ _ _ _ L p Hp Hkp) as Hpu.
  unfold forest_edges. apply in_flat_map.
  destruct (Hpl _ Hpu) as [H|(a & Ha & H)].
  - apply in_map_iff in H. destruct H as (y & E & Hy).
    assert (y = p) by (apply (id_inj all0); auto; now apply (lk_roots_in _ _ _ _ _ L)).
    subst y. exists (full st p). split; [now apply in_map|].
    apply edges_full. left. auto.
  - apply in_map_iff in H. destruct H as (y & E & Hy).
    assert (y = p) by (apply (id_inj all0); auto; now apply (lk_kids_in _ _ _ _ _ L a)).
    subst y. pose proof (lk_edge _ _ _ _ _ L a p Ha Hy) as He.
    assert (Haa : hasType assistant a = true).
    { destruct (hasType assistant a) eqn:Ea; auto.
      destruct (isLink_holder a p He) as [_ H]. specialize (H Ea).
      rewrite (tool_not_result p Hpf) in H. discriminate. }
    assert (Hka : kids st a <> []) by (intros E0; rewrite E0 in Hy; destruct Hy).
    destruct (lk_resp _ _ _ _ _ L a Ha Haa Hka) as [HaR|Hc]; [|discriminate].
    exists (full st a). split; [now apply in_map|].
    apply edges_full. right. auto.
Qed.

End ResultTree.

(** X30. A tool result hangs under its invocation.  When a tool result and
    the tool invocation (tool call, agent, skill or command) its [parentId]
    names both hang from nodes whose parent is not in the registry, some
    user or system node that hangs so is strictly earlier than both, and
    every user or system node is strictly earlier than both or strictly
    later than both, then the tree [getNodes] returns has the link from the
    invocation to the result. *)
Theorem result_hangs_under_invocation {rt : Runtime} (w : SessionWatcher)
    (p r : ConversationNode)
    (Hids : NoDup (map id (Map_values (nodes w))))
    (Hp : In p (Map_values (nodes w))) (Hr : In r (Map_values (nodes w)))
    (Hpa : anchored (nodes w) (List.length (nodes w)) p = true)
    (Hra : anchored (nodes w) (List.length (nodes w)) r = true)
    (Hpf : isToolFamily p = true)
    (Hrt : hasType tool_result r = true)
    (Hlink : parentId r = Some (id p))
    (Hafter : exists t, In t (Map_values (nodes w)) /\ isTurnStarter t = true /\
                        anchored (nodes w) (List.length (nodes w)) t = true /\
                        Time_lt (timestamp t) (timestamp p) = true /\
                        Time_lt (timestamp t) (timestamp r) = true)
    (Hturn : forall t, In t (Map_values (nodes w)) -> isTurnStarter t = true ->
               (Time_lt (timestamp t) (timestamp p) = true /\
                Time_lt (timestamp t) (timestamp r) = true) \/
               (Time_lt (timestamp p) (timestamp t) = true /\
                Time_lt (timestamp r) (timestamp t) = true)) :
  In (p, r) (forest_edges (snd (getNodes w))).
Proof.
  rewrite getNodes_snapshot.
  destruct (buildTree_links (nodes w) Hids) as (_ & Hsub & _).
  destruct Hafter as (t & Ht & Hts & Hta & Hlp & Hlr).
  apply buildTree_result; auto.
  - apply (anchored_flattened (nodes w) (List.length (nodes w))); auto.
  - apply (anchored_flattened (nodes w) (List.length (nodes w))); auto.
  - unfold parentIs. rewrite Hlink. apply String.eqb_refl.
  - exists t. split; auto.
    apply (anchored_flattened (nodes w) (List.length (nodes w))); auto.
  - intros t' Ht' Hs'. apply Hturn; auto.
Qed.

Lemma result_hangs_under_invocation_witness :
  let w := watch Ex.rt0 [Ex.log3] initial in
  exists p r,
    id p = "a1-tool-abc" /\ id r = "u2" /\
    In (p, r) (forest_edges (snd (getNodes (rt := Ex.rt0) w))).
Proof.
  cbv zeta.
  set (d := mkNode "a1-text" (Some "u1") (Ms 2000) assistant "I will run the tests"
              (ContentOfBlock (TextBlock "I will run the tests"))
              None None None None None None Ex.entry2).
  exists (nth 2 (Map_values (nodes (watch Ex.rt0 [Ex.log3] initial))) d).
  exists (nth 4 (Map_values (nodes (watch Ex.rt0 [Ex.log3] initial))) d).
  split; [vm_compute; reflexivity|]. split; [vm_compute; reflexivity|].
  apply (result_hangs_under_invocation (rt := Ex.rt0) (watch Ex.rt0 [Ex.log3] initial)).
  - vm_compute. repeat (constructor; [simpl; intuition discriminate|]). constructor.
  - vm_compute. right. right. left. reflexivity.
  - vm_compute. do 4 right. left. reflexivity.
  - vm_compute. reflexivity.
  - vm_compute. reflexivity.
  - vm_compute. reflexivity.
  - vm_compute. reflexivity.
  - vm_compute. reflexivity.
  - eexists. split; [vm_compute; left; reflexivity|].
    split; [reflexivity|]. split; [vm_compute; reflexivity|]. vm_compute. split; reflexivity.
  - vm_compute. intros t [<-|[<-|[<-|[<-|[<-|[]]]]]]; simpl; intros H;
      try discriminate; left; split; reflexivity.
Defined.

(** * The scenario of the specification *)

Lemma filter_Permutation {X : Type} (f : X -> bool) l l' :
  Permutation l l' -> Permutation (filter f l) (filter f l').
Proof.
  induction 1 as [|x l l' _ IH|x y l|l l' l'' _ IH1 _ IH2]; simpl.
  - constructor.
  - destruct (f x); auto.
  - destruct (f x), (f y); auto. constructor.
  - eapply Permutation_trans; eauto.
Qed.

(** A filter that keeps one node of a list keeps that node of any
    rearrangement of the list. *)
Lemma filter_one {X : Type} (f : X -> bool) l l' x :
  Permutation l l' -> filter f l' = [x] -> filter f l = [x].
Proof.
  intros Hp H. apply (filter_Permutation f) in Hp. rewrite H in Hp.
  apply Permutation_sym in Hp. now apply Permutation_length_1_inv in Hp.
Qed.

Section OneTurn.

Context {rt : Runtime}.

(** With one turn starter the display reorganization is one turn, begun
    with every children array empty. *)
Lemma reorganize_one_turn A0 st R t :
  NoDup (map id A0) -> Forest A0 st R -> Held A0 st ->
  let all0 := flattenTree st R in
  filter isTurnStarter (sortByTimestamp all0) = [t] ->
  exists st1,
    (forall a, In a all0 -> kids st1 a = []) /\ Held all0 st1 /\
    Map_values st1 = Map_values st /\
    reorganizeForDisplay st R =
    (snd (fst (turn (sortByTimestamp all0) t None ([], st1, []))),
     snd (turn (sortByTimestamp all0) t None ([], st1, []))).
Proof.
  intros Hnd F Hh. cbv zeta. unfold reorganizeForDisplay.
  set (all0 := flattenTree st R). intros Hts.
  assert (Hin0 : forall x, In x all0 -> In x A0).
  { intros x Hx. apply (flatten_in A0 st R (List.length st) R x F); auto. apply F. }
  destruct all0 as [|n0 l0] eqn:E0.
  { exfalso. assert (H : In t (filter isTurnStarter (sortByTimestamp []))).
    { rewrite Hts. simpl. auto. }
    apply filter_In in H. destruct H as [H _]. apply sort_In in H. destruct H. }
  rewrite <- E0 in *. clear E0.
  set (st1 := fold_left (fun s node => resetChildren node s) all0 st).
  exists st1. split; [|split; [|split]].
  - intros a Ha. unfold kids, st1. rewrite getChildren_reset.
    assert (Hx : existsb (fun n => String.eqb (id n) (id a)) all0 = true).
    { apply existsb_exists. exists a. split; auto. apply String.eqb_refl. }
    now rewrite Hx.
  - intros a Ha. unfold st1. rewrite Map_has_keys.
    rewrite fold_upd_keys by (intros; apply updChildren_keys).
    rewrite <- Map_has_keys. apply Hh. auto.
  - unfold st1. apply fold_upd_keys. intros. apply updChildren_keys.
  - rewrite Hts. cbn [turns hd_error].
    now destruct (turn (sortByTimestamp all0) t None ([], st1, [])) as [[u2 st2] R2].
Qed.

End OneTurn.

(** ** The rebuild on the five nodes of the scenario *)

Section ScenarioRebuild.

Context {rt : Runtime}.
Variables nu nth ntool ntext nres : ConversationNode.
Variables t1 t2 t3 : Z.
Hypothesis ty_u : type nu = user.
Hypothesis ty_th : type nth = thinking.
Hypothesis ty_tool : type ntool = tool_call.
Hypothesis ty_text : type ntext = assistant.
Hypothesis ty_res : type nres = tool_result.
Hypothesis ts_u : timestamp nu = Ms t1.
Hypothesis ts_th : timestamp nth = Ms t2.
Hypothesis ts_tool : timestamp ntool = Ms t2.
Hypothesis ts_text : timestamp ntext = Ms t2.
Hypothesis ts_res : timestamp nres = Ms t3.
Hypothesis lt12 : (t1 < t2)%Z.
Hypothesis lt13 : (t1 < t3)%Z.
Hypothesis pa_u : parentId nu = None.
Hypothesis pa_th : parentId nth = Some (id nu).
Hypothesis pa_tool : parentId ntool = Some (id nu).
Hypothesis pa_text : parentId ntext = Some (id nu).
Hypothesis pa_res : parentId nres = Some (id ntool).
Hypothesis ids : NoDup [id nu; id nth; id ntool; id ntext; id nres].
Hypothesis ne_u : Str.nonEmpty (id nu) = true.
Hypothesis ne_tool : Str.nonEmpty (id ntool) = true.

Local Arguments String.eqb : simpl never.
Local Arguments Z.leb : simpl never.
Local Arguments Z.ltb : simpl never.
Local Arguments Z.sub : simpl never.
Local Arguments Str.nonEmpty : simpl never.
Local Arguments updChildren : simpl never.
Local Arguments pushChild : simpl never.

Lemma five_distinct a b :
  In a [nu; nth; ntool; ntext; nres] -> In b [nu; nth; ntool; ntext; nres] -> a = b \/ String.eqb (id a) (id b) = false.
Proof.
  intros Ha Hb. destruct (String.eqb (id a) (id b)) eqn:E; auto. left.
  apply String.eqb_eq in E. apply (id_inj [nu; nth; ntool; ntext; nres]); auto.
Qed.

Ltac apart a b :=
  let H := fresh in
  destruct (five_distinct a b) as [H|H];
  [simpl; tauto | simpl; tauto
  | exfalso; clear - H ty_u ty_th ty_tool ty_text ty_res; subst; congruence
  | ].

Ltac known :=
  rewrite ?ty_u, ?ty_th, ?ty_tool, ?ty_text, ?ty_res,
          ?ts_u, ?ts_th, ?ts_tool, ?ts_text, ?ts_res,
          ?pa_u, ?pa_th, ?pa_tool, ?pa_text, ?pa_res, ?ne_u, ?ne_tool,
          ?String.eqb_refl.

Lemma scenario_eqb :
  (String.eqb (id nu) (id nth) = false /\ String.eqb (id nth) (id nu) = false /\
   String.eqb (id nu) (id ntool) = false /\ String.eqb (id ntool) (id nu) = false /\
   String.eqb (id nu) (id ntext) = false /\ String.eqb (id ntext) (id nu) = false /\
   String.eqb (id nu) (id nres) = false /\ String.eqb (id nres) (id nu) = false /\
   String.eqb (id nth) (id ntool) = false /\ String.eqb (id ntool) (id nth) = false) /\
  (String.eqb (id nth) (id ntext) = false /\ String.eqb (id ntext) (id nth) = false /\
   String.eqb (id nth) (id nres) = false /\ String.eqb (id nres) (id nth) = false /\
   String.eqb (id ntool) (id ntext) = false /\ String.eqb (id ntext) (id ntool) = false /\
   String.eqb (id ntool) (id nres) = false /\ String.eqb (id nres) (id ntool) = false /\
   String.eqb (id ntext) (id nres) = false /\ String.eqb (id nres) (id ntext) = false).
Proof.
  apart nu nth. apart nth nu. apart nu ntool. apart ntool nu. apart nu ntext.
  apart ntext nu. apart nu nres. apart nres nu. apart nth ntool. apart ntool nth.
  apart nth ntext. apart ntext nth. apart nth nres. apart nres nth. apart ntool ntext.
  apart ntext ntool. apart ntool nres. apart nres ntool. apart ntext nres. apart nres ntext.
  repeat split; assumption.
Qed.

Ltac facts :=
  destruct scenario_eqb as
    ((E1 & F1 & E2 & F2 & E3 & F3 & E4 & F4 & E5 & F5) &
     (E6 & F6 & E7 & F7 & E8 & F8 & E9 & F9 & E10 & F10)).

Ltac unequal :=
  match goal with
  | H : String.eqb _ _ = false |- _ => rewrite H
  end.

Ltac ev := repeat first [progress cbn | progress known | progress unequal].

Lemma scenario_nodup : NoDup (map id (Map_values [(nu, []); (nth, []); (ntool, []); (ntext, []); (nres, [])])).
Proof. exact ids. Qed.

Lemma scenario_anchored x :
  In x [nu; nth; ntool; ntext; nres] -> anchored [(nu, []); (nth, []); (ntool, []); (ntext, []); (nres, [])] 5 x = true.
Proof.
  facts. intros [<-|[<-|[<-|[<-|[<-|[]]]]]]; unfold anchored, isRawRoot, Map_get, Map_has; ev;
    reflexivity.
Qed.

(** The flattening of the first half of [buildTree] reaches the five nodes. *)
Lemma scenario_flattened :
  Permutation (flattenTree (fst (rawLinkage [(nu, []); (nth, []); (ntool, []); (ntext, []); (nres, [])])) (snd (rawLinkage [(nu, []); (nth, []); (ntool, []); (ntext, []); (nres, [])]))) [nu; nth; ntool; ntext; nres].
Proof.
  destruct (buildTree_links [(nu, []); (nth, []); (ntool, []); (ntext, []); (nres, [])] scenario_nodup) as (Hnd0 & Hsub & _).
  apply NoDup_Permutation.
  - now apply NoDup_map_inv in Hnd0.
  - exact (NoDup_map_inv id [nu; nth; ntool; ntext; nres] ids).
  - intros x. split; [apply Hsub|]. intros Hx.
    apply (anchored_flattened [(nu, []); (nth, []); (ntool, []); (ntext, []); (nres, [])] 5 x); auto. now apply scenario_anchored.
Qed.

Ltac zfacts :=
  match goal with
  | H : (_ <? _)%Z = _ |- _ => rewrite H
  | H : (_ <=? _)%Z = _ |- _ => rewrite H
  end.

Ltac ev2 := repeat first [progress cbn | progress known | progress unequal | progress zfacts].

Lemma scenario_turn allNodes st1 :
  Permutation allNodes [nu; nth; ntool; ntext; nres] ->
  exists u,
    turn allNodes nu None ([], st1, []) =
    (u,
     updChildren (id ntext) sortByTimestamp
       (pushChild (id ntext) ntool
          (pushChild (id ntool) nres (pushChild (id ntext) nth st1))),
     [nu; ntext]).
Proof.
  facts. intros Hp.
  assert (L12 : (t1 <? t2)%Z = true) by (apply Z.ltb_lt; lia).
  assert (L13 : (t1 <? t3)%Z = true) by (apply Z.ltb_lt; lia).
  assert (L22 : (t2 - t2 <=? 0)%Z = true) by (apply Z.leb_le; lia).
  assert (Eai : filter (hasType assistant)
                  (filter (inTurn nu None (Set_add [] (id nu))) allNodes) = [ntext]).
  { apply (filter_one _ _ (filter (inTurn nu None (Set_add [] (id nu))) [nu; nth; ntool; ntext; nres]));
      [now apply filter_Permutation|].
    unfold inTurn, hasType, sameNode, Set_add, Set_has. ev2. reflexivity. }
  assert (Etool : filter isToolFamily
                    (filter (inTurn nu None (Set_add [] (id nu))) allNodes) = [ntool]).
  { apply (filter_one _ _ (filter (inTurn nu None (Set_add [] (id nu))) [nu; nth; ntool; ntext; nres]));
      [now apply filter_Permutation|].
    unfold inTurn, isToolFamily, sameNode, Set_add, Set_has. ev2. reflexivity. }
  assert (Eres : filter (hasType tool_result)
                   (filter (inTurn nu None (Set_add [] (id nu))) allNodes) = [nres]).
  { apply (filter_one _ _ (filter (inTurn nu None (Set_add [] (id nu))) [nu; nth; ntool; ntext; nres]));
      [now apply filter_Permutation|].
    unfold inTurn, hasType, sameNode, Set_add, Set_has. ev2. reflexivity. }
  assert (Eth : filter (hasType thinking)
                  (filter (inTurn nu None (Set_add [] (id nu))) allNodes) = [nth]).
  { apply (filter_one _ _ (filter (inTurn nu None (Set_add [] (id nu))) [nu; nth; ntool; ntext; nres]));
      [now apply filter_Permutation|].
    unfold inTurn, hasType, sameNode, Set_add, Set_has. ev2. reflexivity. }
  unfold turn. cbv beta iota zeta. rewrite Eai, Etool, Eres, Eth.
  unfold attachUnused, attachTool, attachResults, attachOne, attachResult, parentIs,
    sameNode, Set_add, Set_has.
  ev2. eexists. reflexivity.
Qed.

Lemma scenario_kids st1 :
  (forall x, In x [nu; nth; ntool; ntext; nres] -> Map_has st1 (id x) = true) ->
  (forall x, In x [nu; nth; ntool; ntext; nres] -> kids st1 x = []) ->
  let st' := updChildren (id ntext) sortByTimestamp
               (pushChild (id ntext) ntool
                  (pushChild (id ntool) nres (pushChild (id ntext) nth st1))) in
  kids st' nu = [] /\ kids st' nth = [] /\ kids st' ntool = [nres] /\
  kids st' ntext = [nth; ntool] /\ kids st' nres = [].
Proof.
  facts. intros Hh Hk. cbv zeta. unfold pushChild.
  assert (L22 : (t2 - t2 <=? 0)%Z = true) by (apply Z.leb_le; lia).
  rewrite !kids_upd, !Map_has_upd.
  rewrite !Hh by (simpl; tauto). rewrite !Hk by (simpl; tauto).
  unfold sortByTimestamp, consistent, parses.
  ev2. unfold byTimestamp. ev2. repeat split; reflexivity.
Qed.

(** The tree of the five nodes: the user node, then the response with the
    thinking node and the tool call, which holds the result. *)
Lemma scenario_tree :
  snapshot (fst (buildTree [(nu, []); (nth, []); (ntool, []); (ntext, []); (nres, [])])) (snd (buildTree [(nu, []); (nth, []); (ntool, []); (ntext, []); (nres, [])])) =
  [TNode nu []; TNode ntext [TNode nth []; TNode ntool [TNode nres []]]].
Proof.
  pose proof scenario_flattened as Hp.
  destruct (rawLinkage_forest [(nu, []); (nth, []); (ntool, []); (ntext, []); (nres, [])] scenario_nodup) as [F Hh].
  pose proof (buildTree_keys [(nu, []); (nth, []); (ntool, []); (ntext, []); (nres, [])]) as Hkeys.
  assert (Eb : buildTree [(nu, []); (nth, []); (ntool, []); (ntext, []); (nres, [])] =
               reorganizeForDisplay (fst (rawLinkage [(nu, []); (nth, []); (ntool, []); (ntext, []); (nres, [])])) (snd (rawLinkage [(nu, []); (nth, []); (ntool, []); (ntext, []); (nres, [])]))).
  { unfold buildTree. now destruct (rawLinkage [(nu, []); (nth, []); (ntool, []); (ntext, []); (nres, [])]). }
  set (all0 := flattenTree (fst (rawLinkage [(nu, []); (nth, []); (ntool, []); (ntext, []); (nres, [])])) (snd (rawLinkage [(nu, []); (nth, []); (ntool, []); (ntext, []); (nres, [])]))) in *.
  assert (Hsort : Permutation (sortByTimestamp all0) [nu; nth; ntool; ntext; nres]).
  { eapply Permutation_trans; [apply sort_perm|exact Hp]. }
  assert (Hts : filter isTurnStarter (sortByTimestamp all0) = [nu]).
  { apply (filter_one _ _ [nu; nth; ntool; ntext; nres]); auto. unfold isTurnStarter. ev. reflexivity. }
  destruct (reorganize_one_turn (Map_values [(nu, []); (nth, []); (ntool, []); (ntext, []); (nres, [])]) _ _ nu scenario_nodup F Hh Hts)
    as (st1 & Hk1 & Hh1 & _ & Er).
  destruct (scenario_turn (sortByTimestamp all0) st1 Hsort) as (u & Et).
  unfold all0 in *. rewrite Et in Er. cbn [fst snd] in Er.
  destruct (scenario_kids st1) as (K1 & K2 & K3 & K4 & K5).
  { intros x Hx. apply Hh1. eapply Permutation_in; [apply Permutation_sym, Hp|exact Hx]. }
  { intros x Hx. apply Hk1. eapply Permutation_in; [apply Permutation_sym, Hp|exact Hx]. }
  cbv zeta in K1, K2, K3, K4, K5.
  rewrite Eb, Er in *. cbn [fst snd] in *.
  set (st' := updChildren (id ntext) sortByTimestamp
                (pushChild (id ntext) ntool
                   (pushChild (id ntool) nres (pushChild (id ntext) nth st1)))) in *.
  assert (Hlen : List.length st' = 5).
  { rewrite <- (length_map fst st'). fold (Map_values st'). now rewrite Hkeys. }
  assert (U : forall f n, unfold (S f) st' n = TNode n (map (unfold f st') (kids st' n)))
    by reflexivity.
  unfold snapshot. rewrite Hlen. cbn [map].
  rewrite !U, K1, K4. cbn [map]. rewrite !U, K2, K3. cbn [map]. rewrite !U, K5.
  reflexivity.
Qed.

End ScenarioRebuild.

Lemma nonEmpty_append a b : Str.nonEmpty b = true -> Str.nonEmpty (a +++ b) = true.
Proof. destruct a; simpl; auto. Qed.

Section ScenarioLog.

Variable rt : Runtime.

Local Arguments String.eqb : simpl nomatch.
Local Arguments String.append : simpl nomatch.
Local Arguments Str.nonEmpty : simpl nomatch.
Local Arguments detectSystemMessage : simpl never.
Local Arguments truncate : simpl never.
Local Arguments getToolSummary : simpl never.
Local Arguments getToolResultSummary : simpl never.

(** C3, as the code has it.  A log of three records, read by [readFile]
    from a fresh watcher: a user record with a plain text that is neither
    boilerplate nor a command; an assistant record that answers it (its
    [parentUuid] is the user record's uuid) with a thinking segment, a Bash
    tool invocation of id abc and a text segment, in this order; a user
    record whose [parentUuid] is the assistant record's uuid and whose
    content is an array with one tool result for abc.  When the three uuids
    are not empty and differ, the five node ids differ, the three timestamps
    parse, and the first record is strictly earlier than the two others,
    the emitted tree has exactly two roots, the user node and then the
    assistant text node; the user node has no children; the assistant
    node's children are the thinking node and the tool_call node; the
    tool_call node has exactly one child, the tool_result node, which is a
    leaf.  The five nodes are the nodes [createUserNode] and
    [createAssistantNodes] make of the three records. *)
Theorem scenario_tool_result (content l1 l2 l3 : string)
    (e1 e2 e3 : ConversationEntry)
    (u1 a1 u2 : string) (t1 t2 t3 : Z) (txt th tx : string)
    (input : list (string * JSON)) (item : JSON) (tur : option ToolUseResult)
    (Hlines : readLines content = [l1; l2; l3])
    (V1 : isValidJsonLine rt l1 = true) (P1 : JSON_parse_entry rt l1 = Some e1)
    (V2 : isValidJsonLine rt l2 = true) (P2 : JSON_parse_entry rt l2 = Some e2)
    (V3 : isValidJsonLine rt l3 = true) (P3 : JSON_parse_entry rt l3 = Some e3)
    (R1 : e1 = UserMessageEntry (Entry.mk None u1 (Ms t1)) (JStr txt))
    (R2 : e2 = AssistantMessageEntry (Entry.mk (Some u1) a1 (Ms t2))
                 (Some [ThinkingBlock th; ToolUseBlock "abc" "Bash" input; TextBlock tx])
                 tur)
    (R3 : e3 = UserMessageEntry (Entry.mk (Some a1) u2 (Ms t3)) (JArr [item]))
    (Hitem : isToolResultItem item = true)
    (Huse : member "tool_use_id" item = Some (JStr "abc"))
    (Hplain : skip (detectSystemMessage rt txt) = false /\
              isSystem (detectSystemMessage rt txt) = false)
    (Hu1 : Str.nonEmpty u1 = true) (Ha1 : Str.nonEmpty a1 = true)
    (Hu2 : Str.nonEmpty u2 = true)
    (Huuids : NoDup [u1; a1; u2])
    (Hids : NoDup [u1; a1 +++ "-thinking"; a1 +++ "-tool-abc"; a1 +++ "-text"; u2])
    (Ht12 : (t1 < t2)%Z) (Ht13 : (t1 < t3)%Z) :
  exists u a t c r,
    snd (readFile rt content initial) =
      [TNode u []; TNode a [TNode t []; TNode c [TNode r []]]] /\
    (createUserNode rt e1 = Some u /\ createAssistantNodes rt e2 = [t; c; a] /\
     createUserNode rt e3 = Some r) /\
    (id u = u1 /\ type u = user) /\
    (id a = a1 +++ "-text" /\ type a = assistant) /\
    (id t = a1 +++ "-thinking" /\ type t = thinking) /\
    (id c = a1 +++ "-tool-abc" /\ type c = tool_call /\ toolName c = Some "Bash") /\
    (id r = u2 /\ type r = tool_result /\ parentId r = Some (id c)).
Proof.
  destruct Hplain as [Hskip Hsys].
  assert (C1 : exists nu, createUserNode rt e1 = Some nu /\ id nu = u1 /\ type nu = user /\
                 timestamp nu = Ms t1 /\ parentId nu = None).
  { rewrite R1. cbn [createUserNode]. unfold regularUserNode. rewrite Hskip, Hsys.
    eexists. split; [reflexivity|]. repeat split. }
  assert (C2 : exists nth ntool ntext,
             createAssistantNodes rt e2 = [nth; ntool; ntext] /\
             (id nth = a1 +++ "-thinking" /\ type nth = thinking /\
              timestamp nth = Ms t2 /\ parentId nth = Some u1) /\
             (id ntool = a1 +++ "-tool-abc" /\ type ntool = tool_call /\
              timestamp ntool = Ms t2 /\ parentId ntool = Some u1 /\
              toolName ntool = Some "Bash") /\
             (id ntext = a1 +++ "-text" /\ type ntext = assistant /\
              timestamp ntext = Ms t2 /\ parentId ntext = Some u1)).
  { rewrite R2. do 3 eexists. split; [reflexivity|]. repeat split. }
  assert (C3 : exists nres, createUserNode rt e3 = Some nres /\ id nres = u2 /\
                 type nres = tool_result /\ timestamp nres = Ms t3 /\
                 parentId nres = Some (a1 +++ "-tool-abc")).
  { rewrite R3. cbn [createUserNode]. rewrite Hitem.
    eexists. split; [reflexivity|]. repeat split.
    unfold toolResultNode. cbn [parentId]. unfold parentUuid_text. cbn [Entry.parentUuid].
    rewrite Huse. reflexivity. }
  destruct C1 as (nu & Cu & Iu & Tu & Su & Pu).
  destruct C2 as (nth & ntool & ntext & Ca & (Ith & Tth & Sth & Pth) &
                  (Itool & Ttool & Stool & Ptool & Ntool) & (Itext & Ttext & Stext & Ptext)).
  destruct C3 as (nres & Cr & Ir & Tr & Sr & Pr).
  assert (Hnd : NoDup [id nu; id nth; id ntool; id ntext; id nres]).
  { now rewrite Iu, Ith, Itool, Itext, Ir. }
  destruct (scenario_eqb nu nth ntool ntext nres Tu Tth Ttool Ttext Tr Hnd) as
    ((E1 & F1 & E2 & F2 & E3 & F3 & E4 & F4 & E5 & F5) &
     (E6 & F6 & E7 & F7 & E8 & F8 & E9 & F9 & E10 & F10)).
  assert (Q : String.eqb a1 u1 = false /\ String.eqb u2 u1 = false /\
              String.eqb u2 a1 = false).
  { inversion Huuids as [|? ? N1 Hr1]; subst. inversion Hr1 as [|? ? N2 _]; subst.
    simpl in N1, N2. repeat split; apply String.eqb_neq; intros E; subst; tauto. }
  destruct Q as (Q1 & Q2 & Q3).
  assert (H1 : hashLine rt l1 = u1).
  { unfold hashLine. rewrite P1, R1. cbn [Entry.uuid]. now rewrite Hu1. }
  assert (H2 : hashLine rt l2 = a1).
  { unfold hashLine. rewrite P2, R2. cbn [Entry.uuid]. now rewrite Ha1. }
  assert (H3 : hashLine rt l3 = u2).
  { unfold hashLine. rewrite P3, R3. cbn [Entry.uuid]. now rewrite Hu2. }
  assert (PE1 : forall reg, processLine rt l1 reg = (Map_set reg nu, Some nu)).
  { intros reg. unfold processLine. rewrite P1. unfold processEntry. rewrite Cu.
    now rewrite R1. }
  assert (PE2 : forall reg, processLine rt l2 reg =
                            (fold_left Map_set [nth; ntool; ntext] reg, Some nth)).
  { intros reg. unfold processLine. rewrite P2. unfold processEntry. rewrite Ca.
    now rewrite R2. }
  assert (PE3 : forall reg, processLine rt l3 reg = (Map_set reg nres, Some nres)).
  { intros reg. unfold processLine. rewrite P3. unfold processEntry. rewrite Cr.
    now rewrite R3. }
  exists nu, ntext, nth, ntool, nres. split; [|repeat split; auto; congruence].
  unfold readFile, initial. rewrite Hlines. cbn [nodes processedLines].
  match goal with
  | |- context [fold_left ?f ?l ?s0] =>
      assert (Hreg : fold_left f l s0 =
                     ([(nu, []); (nth, []); (ntool, []); (ntext, []); (nres, [])],
                      [u1; a1; u2], true))
  end.
  { cbn [fold_left]. unfold ingestLine, Set_has, Set_add.
    repeat first
      [ progress cbn
      | progress unfold sameNode
      | progress rewrite ?V1, ?V2, ?V3, ?H1, ?H2, ?H3, ?PE1, ?PE2, ?PE3, ?Q1, ?Q2, ?Q3,
                         ?E1, ?F1, ?E2, ?F2, ?E3, ?F3, ?E4, ?F4, ?E5, ?F5,
                         ?E6, ?F6, ?E7, ?F7, ?E8, ?F8, ?E9, ?F9, ?E10, ?F10 ].
    reflexivity. }
  rewrite Hreg.
  rewrite getNodes_snapshot. cbn [nodes].
  apply (scenario_tree nu nth ntool ntext nres t1 t2 t3); auto; try congruence.
  - rewrite Itool. now apply nonEmpty_append.
Qed.

End ScenarioLog.

Lemma scenario_tool_result_witness :
  exists u a t c r,
    snd (readFile Ex.rt0 Ex.log3 initial) =
      [TNode u []; TNode a [TNode t []; TNode c [TNode r []]]] /\
    (createUserNode Ex.rt0 Ex.entry1 = Some u /\
     createAssistantNodes Ex.rt0 Ex.entry2 = [t; c; a] /\
     createUserNode Ex.rt0 Ex.entry3 = Some r) /\
    (id u = "u1" /\ type u = user) /\
    (id a = "a1" +++ "-text" /\ type a = assistant) /\
    (id t = "a1" +++ "-thinking" /\ type t = thinking) /\
    (id c = "a1" +++ "-tool-abc" /\ type c = tool_call /\ toolName c = Some "Bash") /\
    (id r = "u2" /\ type r = tool_result /\ parentId r = Some (id c)).
Proof.
  apply (scenario_tool_result Ex.rt0 Ex.log3 Ex.line1 Ex.line2 Ex.line3
           Ex.entry1 Ex.entry2 Ex.entry3 "u1" "a1" "u2" 1000 2000 3000
           "Fix the bug" "Look at the failing test" "I will run the tests"
           [("command", JStr "npm test")]
           (JObj [("tool_use_id", JStr "abc"); ("type", JStr "tool_result");
                  ("content", JStr "1 failing"); ("is_error", JBool false)])
           None);
    try (vm_compute; reflexivity); try lia.
  - vm_compute. split; reflexivity.
  - repeat (constructor; [simpl; intuition discriminate|]). constructor.
  - repeat (constructor; [simpl; intuition discriminate|]). constructor.
Defined.

(** The conditions on timestamps and parents are needed.  With the
    assistant record at the very time of the user record, its nodes lie in
    no turn and the tree is the user node alone.  With a tool result whose
    [parentUuid] is not the assistant record's uuid, the result names no
    node of the registry: the tool call has no child and the result is not
    shown. *)
Lemma scenario_conditions_needed :
  (let tree := snd (readFile Ex.rt_tied Ex.log_tied initial) in
   map (fun n => (id n, type n)) (forest_nodes tree) = [("u1", user)]) /\
  (let tree := snd (readFile Ex.rt_stray Ex.log_stray initial) in
   map id (map root_of tree) = ["u1"; "a1-text"] /\
   map (fun e => (id (fst e), id (snd e))) (forest_edges tree) =
     [("a1-text", "a1-thinking"); ("a1-text", "a1-tool-abc")]).
Proof. vm_compute. repeat split; reflexivity. Qed.

(** * Summaries, fingerprints and the classifier *)

Lemma length_append s t : String.length (s +++ t) = String.length s + String.length t.
Proof. induction s as [|c s IH]; simpl; auto. Qed.

Lemma length_substring0 n : forall s, String.length (substring 0 n s) = Nat.min n (String.length s).
Proof.
  induction n as [|n IH]; intros [|c s]; simpl; auto.
Qed.

Lemma has_lf_append s t : has_lf (s +++ t) = has_lf s || has_lf t.
Proof. induction s as [|c s IH]; simpl; auto. now rewrite IH, orb_assoc. Qed.

Lemma has_lf_substring0 n : forall s, has_lf s = false -> has_lf (substring 0 n s) = false.
Proof.
  induction n as [|n IH]; intros [|c s]; simpl; auto.
  intros H. apply orb_false_iff in H. destruct H as [H1 H2]. rewrite H1. simpl. auto.
Qed.

Lemma has_lf_replace s : has_lf (Str.replace_lf_space s) = false.
Proof.
  induction s as [|c s IH]; simpl; auto. rewrite IH, orb_false_r.
  destruct (Ascii.eqb c Str.lf) eqn:E; auto.
Qed.

Lemma truncate_length text n :
  (3 <= n)%Z -> (Z.of_nat (String.length (truncate text n)) <= n)%Z.
Proof.
  intros H3. destruct (Z.leb_spec (Z.of_nat (String.length text)) n) as [Hle|Hgt].
  - now rewrite truncate_short.
  - rewrite truncate_long by lia. rewrite length_append, length_substring0. simpl. lia.
Qed.

Lemma truncate_has_lf text n :
  (3 <= n)%Z -> has_lf text = false -> has_lf (truncate text n) = false.
Proof.
  intros H3 H. destruct (Z.leb_spec (Z.of_nat (String.length text)) n) as [Hle|Hgt].
  - now rewrite truncate_short.
  - rewrite truncate_long by lia. rewrite has_lf_append, has_lf_substring0; auto.
Qed.

(** X6. What [truncate] returns is never longer than the limit, for a limit
    of three or more, and truncating it again changes nothing. *)
Theorem truncate_bounded (text : string) (maxLength : Z) (Hmax : (3 <= maxLength)%Z) :
  (Z.of_nat (String.length (truncate text maxLength)) <= maxLength)%Z /\
  truncate (truncate text maxLength) maxLength = truncate text maxLength.
Proof.
  split; [now apply truncate_length|].
  apply truncate_short. now apply truncate_length.
Qed.

Lemma truncate_bounded_witness :
  (Z.of_nat (String.length (truncate Ex.long_text 100)) <= 100)%Z /\
  truncate (truncate Ex.long_text 100) 100 = truncate Ex.long_text 100.
Proof. apply (truncate_bounded Ex.long_text 100). lia. Defined.

Section SummaryFacts.

Variable rt : Runtime.

(** X7. The summary of a tool result.  For an error it is the word Error,
    a colon and a space, followed by at most 80 characters.  Otherwise it
    is the count of the non-blank lines followed by the words lines of
    output when there are more than three such lines, and else a single
    line (no line feed) of at most 100 characters. *)
Theorem tool_result_summary_shape (content : JSON) (isError : bool) :
  let contentStr := match content with JStr s => s | _ => JSON_stringify rt content end in
  let lines := filter (fun l => Str.nonEmpty (Str.trim l)) (Str.split_lf contentStr) in
  let summary := getToolResultSummary rt content isError in
  if isError then
    exists tail, summary = "Error: " +++ tail /\ String.length tail <= 80
  else if (3 <? List.length lines)%nat then
    summary = Str.of_Z (Z.of_nat (List.length lines)) +++ " lines of output"
  else
    String.length summary <= 100 /\ has_lf summary = false.
Proof.
  cbv zeta. unfold getToolResultSummary.
  set (contentStr := match content with JStr s => s | _ => JSON_stringify rt content end).
  destruct isError.
  - exists (truncate contentStr 80). split; auto.
    pose proof (truncate_length contentStr 80). lia.
  - destruct (3 <? List.length _)%nat; auto. split.
    + pose proof (truncate_length (Str.replace_lf_space contentStr) 100). lia.
    + apply truncate_has_lf; [lia|]. apply has_lf_replace.
Qed.

End SummaryFacts.

(** ** The fallback fingerprint *)

Lemma toInt32_range z : (-2147483648 <= toInt32 z < 2147483648)%Z.
Proof.
  unfold toInt32. pose proof (Z.mod_pos_bound (z + 2147483648) 4294967296). lia.
Qed.

Lemma toInt32_mod z : (toInt32 z mod 4294967296 = z mod 4294967296)%Z.
Proof.
  unfold toInt32.
  assert (E : ((z + 2147483648) mod 4294967296 - 2147483648 =
               z + (- ((z + 2147483648) / 4294967296)) * 4294967296)%Z).
  { pose proof (Z.div_mod (z + 2147483648) 4294967296). lia. }
  rewrite E. apply Z_mod_plus_full.
Qed.

Lemma toInt32_eqm x y :
  (x mod 4294967296 = y mod 4294967296)%Z -> toInt32 x = toInt32 y.
Proof.
  intros H. unfold toInt32. f_equal.
  rewrite (Z.add_mod x), (Z.add_mod y) by lia. now rewrite H.
Qed.

Lemma toInt32_id z : (-2147483648 <= z < 2147483648)%Z -> toInt32 z = z.
Proof. intros H. unfold toInt32. rewrite Z.mod_small; lia. Qed.

Lemma stringHash_poly line :
  forall h, (stringHash line h mod 4294967296 = poly31 line h mod 4294967296)%Z.
Proof.
  induction line as [|c r IH]; intros h; cbn [stringHash poly31]; auto.
  rewrite IH.
  assert (E : forall a b, (a mod 4294967296 = b mod 4294967296)%Z ->
              (poly31 r a mod 4294967296 = poly31 r b mod 4294967296)%Z).
  { clear. induction r as [|c r IH]; intros a b H; cbn [poly31]; auto.
    apply IH. rewrite (Z.add_mod (a * 31)), (Z.add_mod (b * 31)) by lia.
    rewrite (Z.mul_mod a), (Z.mul_mod b) by lia. now rewrite H. }
  apply E. rewrite toInt32_mod.
  rewrite (Z.add_mod (toInt32 (h * 32) - h)), (Z.add_mod (h * 31)) by lia.
  f_equal. f_equal.
  rewrite Zminus_mod, toInt32_mod, <- Zminus_mod. f_equal. lia.
Qed.

Lemma stringHash_range line :
  forall h, (-2147483648 <= h < 2147483648)%Z ->
            (-2147483648 <= stringHash line h < 2147483648)%Z.
Proof.
  induction line as [|c r IH]; intros h H; cbn [stringHash]; auto.
  apply IH. apply toInt32_range.
Qed.

(** X8. The fallback of [hashLine] in closed form: the hash of a line is
    the base-31 polynomial of its code units, reduced to a signed 32-bit
    integer; it lies in the 32-bit range. *)
Theorem stringHash_polynomial (line : string) :
  stringHash line 0 = toInt32 (poly31 line 0) /\
  (-2147483648 <= stringHash line 0 < 2147483648)%Z.
Proof.
  assert (R : (-2147483648 <= stringHash line 0 < 2147483648)%Z).
  { apply stringHash_range. lia. }
  split; auto.
  rewrite <- (toInt32_id (stringHash line 0)) by exact R.
  apply toInt32_eqm. apply stringHash_poly.
Qed.

Section MarkerFacts.

Variable rt : Runtime.

(** When no rule of [detectSystemMessage] fires, the content holds none of
    the markers. *)
Lemma not_system_no_marker c :
  isSystem (detectSystemMessage rt c) = false ->
  Str.includes c caveat = false /\
  Str.includes c "<local-command-stdout>" = false /\
  Str.includes c "<command-name>" && Str.includes c "<command-message>" = false /\
  Str.includes c "<command-message>" && Str.includes c "is running" = false.
Proof.
  unfold detectSystemMessage.
  destruct (Str.includes c "<command-name>" && Str.includes c "<command-message>");
    [discriminate|].
  destruct (Str.includes c "<local-command-stdout>"); [discriminate|].
  destruct (Str.includes c "<command-message>" && Str.includes c "is running");
    [discriminate|].
  destruct (Str.startsWith c skill_prefix).
  - destruct (skill_prompt rt c) as [info|] eqn:E.
    + unfold skill_prompt in E.
      destruct (JSON_parse rt c) as [[| | | |[|first l]|]|]; try discriminate.
      destruct (member "type" first) as [[| | |t| |]|]; try discriminate.
      destruct (negb (String.eqb t "text")); [discriminate|].
      destruct (orElse (member "text" first) (JStr EmptyString)) as [| | |text|items|];
        try discriminate.
      * destruct (Str.includes text caveat); injection E as <-; discriminate.
      * destruct (existsb _ items); [injection E as <-|]; discriminate.
    + destruct (Str.includes c caveat); [discriminate|]. auto.
  - destruct (Str.includes c caveat); [discriminate|]. auto.
Qed.

(** X9. What is shown as an ordinary user message holds no marker: when
    [createUserNode] gives a node of type user, the node's content is a
    text that holds neither the caveat text nor the local-command-stdout
    placeholder, not both command wrappers, and not the command-message
    wrapper together with the words is running. *)
Theorem user_node_has_no_marker (entry : ConversationEntry) (n : ConversationNode)
    (Hnode : createUserNode rt entry = Some n) (Huser : type n = user) :
  exists c,
    content n = ContentText c /\
    Str.includes c caveat = false /\
    Str.includes c "<local-command-stdout>" = false /\
    Str.includes c "<command-name>" && Str.includes c "<command-message>" = false /\
    Str.includes c "<command-message>" && Str.includes c "is running" = false.
Proof.
  assert (Hreg : forall e b mc, regularUserNode rt e b mc = Some n ->
            exists c, content n = ContentText c /\ isSystem (detectSystemMessage rt c) = false).
  { intros e b mc H. unfold regularUserNode in H.
    set (c := match mc with JStr s => s | _ => JSON_stringify rt mc end) in *.
    destruct (skip (detectSystemMessage rt c)); [discriminate|].
    injection H as <-. cbn [content type] in *. exists c. split; auto.
    destruct (isSystem (detectSystemMessage rt c)); [discriminate|reflexivity]. }
  unfold createUserNode in Hnode.
  destruct entry as [b mc| | |]; try discriminate.
  assert (H : exists c, content n = ContentText c /\
                        isSystem (detectSystemMessage rt c) = false).
  { destruct mc as [| | | |[|first l]|]; try (eapply Hreg; eassumption).
    destruct (isToolResultItem first); [|eapply Hreg; eassumption].
    injection Hnode as <-. discriminate. }
  destruct H as (c & Hc & Hs). exists c. split; auto.
  now apply not_system_no_marker.
Qed.

(** Where the skill-prompt rule says skip, the session list's parse of the
    same text finds the caveat. *)
Lemma skill_skip_is_caveat c info :
  skill_prompt rt c = Some info -> skip info = true ->
  SessionManager.json_caveat rt c = true.
Proof.
  intros E Hs. unfold skill_prompt in E. unfold SessionManager.json_caveat.
  destruct (JSON_parse rt c) as [[| | | |[|first l]|]|]; try discriminate.
  destruct (member "type" first) as [[| | |t| |]|]; try discriminate.
  destruct (negb (String.eqb t "text")); [discriminate|].
  destruct (orElse (member "text" first) (JStr EmptyString)) as [| | |text|items|];
    try discriminate.
  - destruct (Str.includes text caveat); auto.
    injection E as <-. discriminate.
  - destruct (existsb _ items); auto. discriminate.
Qed.

(** X10. What the watcher drops, the session list ignores: a text for which
    [detectSystemMessage] says skip is boilerplate for
    [isBoilerplateMessage], so it is never taken as a session's first
    message. *)
Theorem skip_is_boilerplate (c : string)
    (Hskip : skip (detectSystemMessage rt c) = true) :
  SessionManager.isBoilerplateMessage rt c = true.
Proof.
  unfold SessionManager.isBoilerplateMessage.
  destruct (Str.includes c caveat) eqn:Ec; auto.
  destruct (Str.includes c "<local-command-stdout>") eqn:Eo; auto.
  destruct (Str.includes c "<command-name>" && Str.includes c "<command-message>") eqn:Ew;
    auto.
  unfold detectSystemMessage in Hskip. rewrite Ew, Eo in Hskip.
  destruct (Str.includes c "<command-message>" && Str.includes c "is running");
    [discriminate|].
  destruct (Str.startsWith c skill_prefix).
  - destruct (skill_prompt rt c) as [info|] eqn:E.
    + now apply (skill_skip_is_caveat c info).
    + rewrite Ec in Hskip. discriminate.
  - rewrite Ec in Hskip. discriminate.
Qed.

(** X11. A tool result finds its tool.  Take the node of a tool invocation
    with block id [i] in an assistant record, and the node of a tool-result
    record whose [parentUuid] is that record's uuid and whose first item
    names the tool use [j].  The result's [parentId] is the invocation's id
    exactly when [j] is [i]. *)
Theorem tool_result_names_its_tool (ea eu : ConversationEntry) (ba bu : Entry.Base)
    (tur : option ToolUseResult) (i name : string) (input : list (string * JSON))
    (first : JSON) (j : string)
    (Hparent : Entry.parentUuid bu = Some (Entry.uuid ba))
    (Huse : member "tool_use_id" first = Some (JStr j)) :
  parentIs (toolResultNode rt eu bu first) (createToolNode rt ea ba tur i name input) = true
  <-> j = i.
Proof.
  unfold parentIs. rewrite createToolNode_id.
  unfold toolResultNode. cbn [parentId]. unfold parentUuid_text. rewrite Hparent, Huse.
  cbn [String_opt String_]. rewrite String.eqb_eq. split.
  - intros H. apply append_inj_l in H. now apply (append_inj_l "-tool-") in H.
  - now intros ->.
Qed.

End MarkerFacts.

Lemma user_node_has_no_marker_witness :
  exists c,
    content Ex.node1 = ContentText c /\
    Str.includes c caveat = false /\
    Str.includes c "<local-command-stdout>" = false /\
    Str.includes c "<command-name>" && Str.includes c "<command-message>" = false /\
    Str.includes c "<command-message>" && Str.includes c "is running" = false.
Proof.
  apply (user_node_has_no_marker Ex.rt0 Ex.entry1 Ex.node1); reflexivity.
Defined.

Lemma skip_is_boilerplate_witness :
  SessionManager.isBoilerplateMessage Ex.rt0 Ex.placeholder = true.
Proof. apply (skip_is_boilerplate Ex.rt0 Ex.placeholder). reflexivity. Defined.

Lemma tool_result_names_its_tool_witness :
  parentIs
    (toolResultNode Ex.rt0 Ex.entry3 (Entry.mk (Some "a1") "u2" (Ms 3000))
       (JObj [("tool_use_id", JStr "abc"); ("type", JStr "tool_result");
              ("content", JStr "1 failing"); ("is_error", JBool false)]))
    (createToolNode Ex.rt0 Ex.entry2 (Entry.mk (Some "u1") "a1" (Ms 2000)) None
       "abc" "Bash" [("command", JStr "npm test")]) = true
  <-> "abc" = "abc".
Proof.
  apply (tool_result_names_its_tool Ex.rt0 Ex.entry2 Ex.entry3
           (Entry.mk (Some "u1") "a1" (Ms 2000)) (Entry.mk (Some "a1") "u2" (Ms 3000))
           None "abc" "Bash" [("command", JStr "npm test")]); reflexivity.
Defined.

(** * What the watcher emits and what clients receive *)

Lemma last_opt_app {T : Type} (l1 l2 : list T) :
  last_opt (l1 ++ l2) =
  match last_opt l2 with Some x => Some x | None => last_opt l1 end.
Proof.
  induction l1 as [|a l1 IH].
  - simpl. now destruct (last_opt l2).
  - change ((a :: l1) ++ l2) with (a :: (l1 ++ l2)).
    destruct (l1 ++ l2) as [|t l] eqn:E.
    + apply app_eq_nil in E. destruct E as [-> ->]. reflexivity.
    + change (last_opt (a :: t :: l)) with (last_opt (t :: l)). rewrite IH.
      destruct (last_opt l2) eqn:E2; auto.
      destruct l1 as [|b l1]; [|reflexivity].
      simpl in E. subst l2. apply last_opt_None in E2. discriminate.
Qed.

Section EmitFacts.

Variable rt : Runtime.

Lemma processEntry_none e reg :
  snd (processEntry rt e reg) = None -> fst (processEntry rt e reg) = reg.
Proof.
  destruct e as [b c|b c t|m|u m]; unfold processEntry; cbn [fst snd]; auto.
  - destruct (createUserNode rt (UserMessageEntry b c)); cbn [fst snd]; auto. discriminate.
  - destruct (createAssistantNodes rt (AssistantMessageEntry b c t)); [auto|discriminate].
Qed.

Lemma processLine_none line reg :
  snd (processLine rt line reg) = None -> fst (processLine rt line reg) = reg.
Proof.
  unfold processLine. destruct (JSON_parse_entry rt line); auto. apply processEntry_none.
Qed.

(** A loop that ends with [hasNewNodes] unset has not touched the
    registry. *)
Lemma ingest_unflagged lines :
  forall s, snd (fold_left (ingestLine rt) lines s) = false ->
            fst (fst (fold_left (ingestLine rt) lines s)) = fst (fst s) /\ snd s = false.
Proof.
  induction lines as [|l lines IH]; intros s H; cbn [fold_left] in *; auto.
  destruct (IH _ H) as [H1 H2]. rewrite H1. clear IH H H1.
  destruct s as [[n p] h]. unfold ingestLine in *. cbn [fst snd] in *.
  destruct (isValidJsonLine rt l); auto.
  destruct (negb (Set_has p (hashLine rt l))); auto.
  pose proof (processLine_none l n) as Hn.
  destruct (processLine rt l n) as [n' r]. cbn [fst snd] in *.
  destruct r; [discriminate|]. auto.
Qed.

(** What a poll emits, and what it leaves when it emits nothing. *)
Lemma readNewContent_emits (content : string) (w : SessionWatcher) :
  match snd (readNewContent rt content w) with
  | Some tree => snd (getNodes (fst (readNewContent rt content w))) = tree
  | None => nodes (fst (readNewContent rt content w)) = nodes w
  end.
Proof.
  unfold readNewContent.
  destruct (List.length (readLines content) <=? lastLineCount w)%nat; cbn [fst snd]; auto.
  destruct (fold_left (ingestLine rt) (skipn (lastLineCount w) (readLines content))
              (nodes w, processedLines w, false)) as [[n p] h] eqn:E.
  destruct h.
  - set (w' := mkWatcher n (List.length (readLines content)) p).
    pose proof (getNodes_keys rt w') as Hk.
    destruct (getNodes w') as [w'' t] eqn:Eg. cbn [fst snd] in *.
    rewrite (getNodes_tree_of_keys rt w'' w' Hk). now rewrite Eg.
  - cbn [fst snd nodes].
    pose proof (ingest_unflagged (skipn (lastLineCount w) (readLines content))
                  (nodes w, processedLines w, false)) as H.
    rewrite E in H. cbn [fst snd] in H. now apply H.
Qed.

(** X12. A poll emits the current tree or changes nothing to see.  When
    [readNewContent] emits a tree, it is the tree [getNodes] returns on the
    state the poll leaves; when it emits nothing, the registry is the one
    from before the poll, children arrays included, and [getNodes] returns
    the tree it returned before the poll. *)
Theorem poll_emits_current_tree (content : string) (w : SessionWatcher) :
  match snd (readNewContent rt content w) with
  | Some tree => snd (getNodes (fst (readNewContent rt content w))) = tree
  | None =>
      nodes (fst (readNewContent rt content w)) = nodes w /\
      snd (getNodes (fst (readNewContent rt content w))) = snd (getNodes w)
  end.
Proof.
  pose proof (readNewContent_emits content w) as H.
  destruct (snd (readNewContent rt content w)) as [tree|]; [exact H|].
  split; [exact H|].
  apply getNodes_tree_of_keys. now rewrite H.
Qed.

(** The changes of a watched file, served in order. *)
Lemma serve_changes f changes :
  forall w tree,
    snd (getNodes w) = tree ->
    snd (Server.connection rt
           (fst (Server.serve rt (map Server.FileChange changes) (Some (f, w))))) =
    last_opt (Server.Init tree f ::
              snd (Server.serve rt (map Server.FileChange changes) (Some (f, w)))).
Proof.
  induction changes as [|c changes IH]; intros w tree Ht; cbn [map Server.serve].
  - cbn [fst snd last_opt Server.connection].
    destruct (getNodes w) as [w' t]. cbn [snd] in *. now subst.
  - cbn [Server.handle Server.fileChange].
    destruct c as [c|].
    + pose proof (readNewContent_emits c w) as Hp.
      destruct (readNewContent rt c w) as [w1 e]. cbn [fst snd] in Hp.
      destruct e as [t1|].
      * specialize (IH w1 t1 Hp).
        destruct (Server.serve rt (map Server.FileChange changes) (Some (f, w1)))
          as [s2 out2]. cbn [fst snd] in *. rewrite IH.
        change (Server.Init tree f :: [Server.Init t1 f] ++ out2)
          with ([Server.Init tree f; Server.Init t1 f] ++ out2).
        change (Server.Init t1 f :: out2) with ([Server.Init t1 f] ++ out2).
        rewrite !last_opt_app. now destruct (last_opt out2).
      * assert (Ht1 : snd (getNodes w1) = tree).
        { rewrite <- Ht. apply getNodes_tree_of_keys. now rewrite Hp. }
        specialize (IH w1 tree Ht1).
        destruct (Server.serve rt (map Server.FileChange changes) (Some (f, w1)))
          as [s2 out2]. cbn [fst snd app] in *. exact IH.
    + specialize (IH w tree Ht).
      destruct (Server.serve rt (map Server.FileChange changes) (Some (f, w)))
        as [s2 out2]. cbn [fst snd app] in *. exact IH.
Qed.

(** X13. A client that connects late sees what the others saw last.  After
    a request to watch a file whose first read succeeds, and any number of
    changes of that file (some of whose reads may fail), the init message
    the connection handler sends a new client is the last message that was
    broadcast. *)
Theorem late_client_sees_last_broadcast (sessionFile content : string)
    (changes : list (option string)) (s0 : Server.State)
    (Hfile : Str.nonEmpty sessionFile = true) :
  let events := Server.PostWatch sessionFile (Some content)
                :: map Server.FileChange changes in
  snd (Server.connection rt (fst (Server.serve rt events s0))) =
  last_opt (snd (Server.serve rt events s0)).
Proof.
  cbv zeta. cbn [Server.serve Server.handle]. unfold Server.postWatch.
  rewrite Hfile. cbn [negb].
  assert (Hr : snd (getNodes (fst (readFile rt content initial))) =
               snd (readFile rt content initial)).
  { unfold readFile.
    destruct (fold_left (ingestLine rt) (readLines content)
                (nodes initial, processedLines initial, false)) as [[n p] h].
    set (w' := mkWatcher n (List.length (readLines content)) p).
    apply getNodes_tree_of_keys. apply getNodes_keys. }
  destruct (readFile rt content initial) as [w tree]. cbn [fst snd] in Hr.
  pose proof (serve_changes sessionFile changes w tree Hr) as H.
  destruct (Server.serve rt (map Server.FileChange changes) (Some (sessionFile, w)))
    as [s2 out2]. cbn [fst snd app] in *. exact H.
Qed.

(** X14. A fingerprint is taken once.  When the file's lines are those of
    an earlier text followed by one more line, and that line's fingerprint
    ([hashLine]: the record's uuid when it has one) is the fingerprint of a
    valid line of the earlier text, reading the file gives the same
    registry, the same fingerprints and the same tree as reading the
    earlier text: the line is ignored, whatever it holds. *)
Theorem repeated_fingerprint_ignored (content content' line seen : string)
    (w : SessionWatcher)
    (Hlines : readLines content' = readLines content ++ [line])
    (Hseen : In seen (readLines content))
    (Hvalid : isValidJsonLine rt seen = true)
    (Hsame : hashLine rt line = hashLine rt seen) :
  nodes (fst (readFile rt content' w)) = nodes (fst (readFile rt content w)) /\
  processedLines (fst (readFile rt content' w)) = processedLines (fst (readFile rt content w)) /\
  snd (readFile rt content' w) = snd (readFile rt content w).
Proof.
  unfold readFile. rewrite Hlines, fold_left_app. cbn [fold_left].
  pose proof (ingest_marks rt (readLines content) (nodes w, processedLines w, false)
                seen Hseen Hvalid) as Hm.
  destruct (fold_left (ingestLine rt) (readLines content)
              (nodes w, processedLines w, false)) as [[n p] h].
  unfold processed_of in Hm. cbn [fst snd] in Hm.
  assert (E : ingestLine rt (n, p, h) line = (n, p, h)).
  { unfold ingestLine. destruct (isValidJsonLine rt line); auto.
    assert (Hh : Set_has p (hashLine rt line) = true).
    { apply Set_has_In. now rewrite Hsame. }
    now rewrite Hh. }
  rewrite E. unfold getNodes. cbn [nodes lastLineCount processedLines].
  destruct (buildTree n) as [st R]. cbn [fst snd nodes processedLines]. auto.
Qed.

End EmitFacts.

Lemma late_client_sees_last_broadcast_witness :
  let events := Server.PostWatch "session.jsonl" (Some Ex.line1)
                :: map Server.FileChange [Some Ex.log3; None] in
  snd (Server.connection Ex.rt0 (fst (Server.serve Ex.rt0 events None))) =
  last_opt (snd (Server.serve Ex.rt0 events None)).
Proof.
  apply (late_client_sees_last_broadcast Ex.rt0 "session.jsonl" Ex.line1
           [Some Ex.log3; None] None).
  reflexivity.
Defined.

Lemma repeated_fingerprint_ignored_witness :
  let c := Ex.log3 in
  let c' := Ex.log3 +++ String Str.lf Ex.line1 in
  nodes (fst (readFile Ex.rt0 c' initial)) = nodes (fst (readFile Ex.rt0 c initial)) /\
  processedLines (fst (readFile Ex.rt0 c' initial)) =
  processedLines (fst (readFile Ex.rt0 c initial)) /\
  snd (readFile Ex.rt0 c' initial) = snd (readFile Ex.rt0 c initial).
Proof.
  apply (repeated_fingerprint_ignored Ex.rt0 Ex.log3 (Ex.log3 +++ String Str.lf Ex.line1)
           Ex.line1 Ex.line1 initial).
  - vm_compute. reflexivity.
  - vm_compute. left. reflexivity.
  - vm_compute. reflexivity.
  - reflexivity.
Defined.

(** * The client's tree functions *)

(** Induction on trees, with the property at hand for every child. *)
Lemma Tree_rect_kids (P : Tree -> Prop) :
  (forall n kids, Forall P kids -> P (TNode n kids)) -> forall t, P t.
Proof.
  intros H. fix go 1. intros [n kids]. apply H.
  induction kids as [|k kids IH]; constructor; auto.
Qed.


Lemma first_some_app {X Y : Type} (f : X -> option Y) l1 l2 :
  Client.first_some f (l1 ++ l2) =
  match Client.first_some f l1 with Some y => Some y | None => Client.first_some f l2 end.
Proof.
  induction l1 as [|x l1 IH]; simpl; auto. destruct (f x); auto.
Qed.

Lemma find_app' {X : Type} (g : X -> bool) l1 l2 :
  find g (l1 ++ l2) = match find g l1 with Some y => Some y | None => find g l2 end.
Proof. induction l1 as [|x l1 IH]; simpl; auto. destruct (g x); auto. Qed.

Lemma find_flat_map {X Y : Type} (g : Y -> bool) (f : X -> list Y) l :
  find g (flat_map f l) = Client.first_some (fun x => find g (f x)) l.
Proof.
  induction l as [|x l IH]; simpl; auto.
  rewrite find_app'. destruct (find g (f x)); auto.
Qed.

Lemma first_some_ext {X Y : Type} (f g : X -> option Y) l :
  Forall (fun x => f x = g x) l -> Client.first_some f l = Client.first_some g l.
Proof.
  induction 1 as [|x l Hx _ IH]; simpl; auto. now rewrite Hx, IH.
Qed.

(** One round of [Client.findNode] is the first match among the node and what is
    below it. *)
Lemma findIn_find k t :
  Client.findIn k t = find (fun s => String.eqb (id (root_of s)) k) (Client.subtrees t).
Proof.
  induction t as [n kids IH] using Tree_rect_kids.
  cbn [Client.findIn Client.subtrees find root_of].
  destruct (String.eqb (id n) k); auto.
  rewrite find_flat_map. now apply first_some_ext.
Qed.

Lemma findNode_find nodes k :
  Str.nonEmpty k = true ->
  Client.findNode nodes (Some k) =
  find (fun t => String.eqb (id (root_of t)) k) (Client.flattenNodes nodes).
Proof.
  intros Hk. unfold Client.findNode, Client.flattenNodes. rewrite Hk.
  rewrite find_flat_map. apply first_some_ext.
  rewrite Forall_forall. intros t _. apply findIn_find.
Qed.

(** X15. [Client.findNode] is a first-match search of the flattened tree: for an
    id that is not empty it returns the first node, parents before
    children and earlier siblings first, whose id is the one asked for; a
    null or empty id finds nothing. *)
Theorem findNode_first_match (nodes : list Tree) (i : option string) :
  Client.findNode nodes i =
  match i with
  | Some k =>
      if Str.nonEmpty k
      then find (fun t => String.eqb (id (root_of t)) k) (Client.flattenNodes nodes)
      else None
  | None => None
  end.
Proof.
  destruct i as [k|]; auto.
  destruct (Str.nonEmpty k) eqn:Hk; [now apply findNode_find|].
  unfold Client.findNode. now rewrite Hk.
Qed.

Lemma subtrees_roots t : map root_of (Client.subtrees t) = tree_nodes t.
Proof.
  induction t as [n kids IH] using Tree_rect_kids.
  cbn [Client.subtrees tree_nodes map root_of]. f_equal.
  induction IH as [|k kids Hk _ IHk]; simpl; auto.
  now rewrite map_app, Hk, IHk.
Qed.

Lemma flattenNodes_roots ts : map root_of (Client.flattenNodes ts) = forest_nodes ts.
Proof.
  unfold Client.flattenNodes, forest_nodes. induction ts as [|t ts IH]; simpl; auto.
  now rewrite map_app, subtrees_roots, IH.
Qed.

Lemma idsOf_nodes t : Client.idsOf t = map id (tree_nodes t).
Proof.
  induction t as [n kids IH] using Tree_rect_kids.
  cbn [Client.idsOf tree_nodes map]. f_equal.
  induction IH as [|k kids Hk _ IHk]; simpl; auto.
  now rewrite map_app, Hk, IHk.
Qed.

Lemma getAllNodeIds_nodes ts : Client.getAllNodeIds ts = map id (forest_nodes ts).
Proof.
  unfold Client.getAllNodeIds, forest_nodes. induction ts as [|t ts IH]; simpl; auto.
  now rewrite map_app, idsOf_nodes, IH.
Qed.

Lemma countIn_all t : Client.countIn true t = List.length (tree_nodes t).
Proof.
  induction t as [n kids IH] using Tree_rect_kids.
  cbn [Client.countIn tree_nodes negb andb List.length]. f_equal.
  induction IH as [|k kids Hk _ IHk]; simpl; auto.
  now rewrite length_app, Hk, IHk.
Qed.

Lemma countIn_le t : Client.countIn false t <= Client.countIn true t.
Proof.
  induction t as [n kids IH] using Tree_rect_kids.
  cbn [Client.countIn negb andb]. destruct (hasType system n); [lia|].
  apply le_n_S. induction IH as [|k kids Hk _ IHk]; simpl; lia.
Qed.

(** X16. The client's traversals agree.  The ids [Client.getAllNodeIds] collects
    are the ids of the nodes [Client.flattenNodes] lists, in the same order; the
    toolbar's count with system nodes shown is their number, and hiding
    system nodes never raises the count. *)
Theorem client_traversals_agree (nodes : list Tree) :
  Client.getAllNodeIds nodes = map (fun t => id (root_of t)) (Client.flattenNodes nodes) /\
  Client.countNodes nodes true = List.length (Client.flattenNodes nodes) /\
  Client.countNodes nodes false <= Client.countNodes nodes true.
Proof.
  split; [|split].
  - rewrite getAllNodeIds_nodes, <- flattenNodes_roots. now rewrite map_map.
  - rewrite <- (length_map root_of), flattenNodes_roots.
    unfold Client.countNodes, forest_nodes. induction nodes as [|t ts IH]; simpl; auto.
    now rewrite length_app, countIn_all, IH.
  - unfold Client.countNodes. induction nodes as [|t ts IH]; simpl; auto.
    pose proof (countIn_le t). lia.
Qed.

Lemma find_first_same {X : Type} (g : X -> bool) l x :
  In x l -> g x = true -> (forall y, In y l -> g y = true -> y = x) ->
  find g l = Some x.
Proof.
  induction l as [|a l IH]; intros Hin Hg Hsame; [destruct Hin|].
  simpl. destruct (g a) eqn:Ea.
  - f_equal. apply Hsame; simpl; auto.
  - destruct Hin as [->|Hin]; [congruence|].
    apply IH; auto. intros y Hy. apply Hsame. simpl. auto.
Qed.

(** X17. Every node of the tree the watcher emits can be selected.  For a
    registry that names each node once, [Client.findNode] on the emitted tree,
    asked for the id of a node of that tree (with its children), returns
    that very node, provided the id is not empty. *)
Theorem emitted_node_is_found {rt : Runtime} (w : SessionWatcher) (t : Tree)
    (Hids : NoDup (map id (Map_values (nodes w))))
    (Hin : In t (Client.flattenNodes (snd (getNodes w))))
    (Hid : Str.nonEmpty (id (root_of t)) = true) :
  Client.findNode (snd (getNodes w)) (Some (id (root_of t))) = Some t.
Proof.
  rewrite findNode_find by exact Hid.
  rewrite getNodes_snapshot in *.
  destruct (rebuilt_tree_full (nodes w) Hids) as (A & u & HA & _ & L & Hfull).
  unfold snapshot in *. rewrite (Hfull _ (le_n _)) in *. clear Hfull.
  destruct (buildTree (nodes w)) as [st R]. cbn [fst snd] in *.
  assert (Hsub : forall y, In y (Client.flattenNodes (map (full st) R)) ->
            exists m, In m A /\ y = full st m).
  { intros y Hy. unfold Client.flattenNodes in Hy. apply in_flat_map in Hy.
    destruct Hy as (tr & Htr & Hy). apply in_map_iff in Htr.
    destruct Htr as (n & <- & Hn).
    apply (subtrees_full A u st R L n); auto. now apply (lk_roots_in _ _ _ _ _ L). }
  apply find_first_same; auto.
  - apply String.eqb_refl.
  - intros y Hy Hg. apply String.eqb_eq in Hg.
    destruct (Hsub y Hy) as (m1 & Hm1 & ->). destruct (Hsub t Hin) as (m2 & Hm2 & ->).
    cbn [full root_of] in Hg. f_equal. now apply (id_inj A).
Qed.

Lemma emitted_node_is_found_witness :
  let w := watch Ex.rt0 [Ex.log3] initial in
  Client.findNode (snd (getNodes (rt := Ex.rt0) w)) (Some "u1") = Some (TNode Ex.node1 []).
Proof.
  apply (emitted_node_is_found (rt := Ex.rt0) (watch Ex.rt0 [Ex.log3] initial)
           (TNode Ex.node1 [])).
  - vm_compute. repeat (constructor; [simpl; intuition discriminate|]). constructor.
  - vm_compute. left. reflexivity.
  - reflexivity.
Defined.

(** ** Adding a node *)

Lemma NoDup_app_disjoint {T : Type} (l1 l2 : list T) (a : T) :
  NoDup (l1 ++ l2) -> In a l1 -> In a l2 -> False.
Proof.
  induction l1 as [|x l1 IH]; simpl; [tauto|].
  intros H [->|H1] H2; inversion H as [|? ? Hx Hl]; subst.
  - apply Hx. apply in_or_app. auto.
  - now apply IH.
Qed.

Section AddNode.

Variable node : Tree.
Variable k : string.
Hypothesis node_parent : parentId (root_of node) = Some k.

Lemma updateIn_absent t : ~ In k (Client.idsOf t) -> Client.updateIn node t = t.
Proof.
  induction t as [n kids IH] using Tree_rect_kids. intros Hk.
  cbn [Client.updateIn Client.idsOf] in *. unfold Client.isParentOf. rewrite node_parent.
  destruct (String.eqb (id n) k) eqn:E.
  - apply String.eqb_eq in E. exfalso. apply Hk. simpl. auto.
  - f_equal. rewrite <- (map_id kids) at 2. apply map_ext_in. intros t Ht.
    rewrite Forall_forall in IH. apply IH; auto.
    intros H. apply Hk. simpl. right. apply in_flat_map. eauto.
Qed.

Lemma updateTree_absent l :
  ~ In k (flat_map Client.idsOf l) -> map (Client.updateIn node) l = l.
Proof.
  intros Hk. rewrite <- (map_id l) at 2. apply map_ext_in. intros t Ht.
  apply updateIn_absent. intros H. apply Hk. apply in_flat_map. eauto.
Qed.

Lemma updateTree_once l :
  Forall (fun t => NoDup (Client.idsOf t) -> In k (Client.idsOf t) ->
            Permutation (Client.idsOf (Client.updateIn node t))
                        (Client.idsOf t ++ Client.idsOf node)) l ->
  NoDup (flat_map Client.idsOf l) -> In k (flat_map Client.idsOf l) ->
  Permutation (flat_map Client.idsOf (map (Client.updateIn node) l))
              (flat_map Client.idsOf l ++ Client.idsOf node).
Proof.
  induction 1 as [|t l Ht _ IH]; intros Hnd Hin; [destruct Hin|].
  cbn [map flat_map] in *.
  pose proof (NoDup_app_remove_l _ _ Hnd) as Hl.
  pose proof (NoDup_app_remove_r _ _ Hnd) as Htn.
  apply in_app_or in Hin. destruct Hin as [Hin|Hin].
  - rewrite updateTree_absent.
    + rewrite (Ht Htn Hin). rewrite <- !app_assoc. apply Permutation_app_head.
      apply Permutation_app_comm.
    + intros H. apply (NoDup_app_disjoint _ _ k Hnd); auto.
  - rewrite updateIn_absent.
    + rewrite <- app_assoc. apply Permutation_app_head. now apply IH.
    + intros H. apply (NoDup_app_disjoint _ _ k Hnd); auto.
Qed.

Lemma updateIn_once t :
  NoDup (Client.idsOf t) -> In k (Client.idsOf t) ->
  Permutation (Client.idsOf (Client.updateIn node t)) (Client.idsOf t ++ Client.idsOf node).
Proof.
  induction t as [n kids IH] using Tree_rect_kids. intros Hnd Hin.
  cbn [Client.updateIn Client.idsOf] in *. unfold Client.isParentOf. rewrite node_parent.
  destruct (String.eqb (id n) k) eqn:E.
  - cbn [Client.idsOf]. rewrite flat_map_app. cbn [flat_map]. now rewrite app_nil_r.
  - cbn [Client.idsOf]. simpl. apply perm_skip.
    inversion Hnd as [|? ? _ Hk]; subst.
    apply updateTree_once; auto.
    destruct Hin as [Hin|Hin]; auto.
    apply String.eqb_neq in E. congruence.
Qed.

End AddNode.

(** X20. Adding a node adds it once.  When the ids of the store's tree are
    all different, the ids after [addNode] are the old ids and the ids of
    the added node (with what hangs below it), each once more: the node is
    hung under its parent when the tree holds one, and becomes the last
    root otherwise. *)
Theorem addNode_adds_once (node : Tree) (s : Client.WorkflowStore)
    (Hids : NoDup (Client.getAllNodeIds (Client.nodes s))) :
  Permutation (Client.getAllNodeIds (Client.nodes (Client.addNode node s)))
              (Client.getAllNodeIds (Client.nodes s) ++ Client.idsOf node) /\
  (Client.findNode (Client.nodes s) (parentId (root_of node)) = None ->
   Client.nodes (Client.addNode node s) = Client.nodes s ++ [node]).
Proof.
  unfold Client.addNode. cbn [Client.nodes]. split.
  - destruct (Client.findNode (Client.nodes s) (parentId (root_of node))) as [t|] eqn:Ef.
    + destruct (parentId (root_of node)) as [k|] eqn:Ep; [|discriminate].
      destruct (Str.nonEmpty k) eqn:Ek; [|unfold Client.findNode in Ef; now rewrite Ek in Ef].
      rewrite findNode_find in Ef by exact Ek.
      apply find_some in Ef. destruct Ef as [Ht Ei]. apply String.eqb_eq in Ei.
      unfold Client.updateTree, Client.getAllNodeIds in *.
      apply (updateTree_once node k Ep); auto.
      * rewrite Forall_forall. intros t' _. apply (updateIn_once node k Ep).
      * fold (Client.getAllNodeIds (Client.nodes s)).
        rewrite getAllNodeIds_nodes, <- flattenNodes_roots, map_map. rewrite <- Ei.
        now apply (in_map (fun x => id (root_of x))).
    + unfold Client.getAllNodeIds. rewrite flat_map_app. cbn [flat_map].
      now rewrite app_nil_r.
  - intros ->. reflexivity.
Qed.

Lemma addNode_adds_once_witness :
  let s := Client.mkStore None [TNode Ex.node1 []] None [] in
  let node := TNode (mkNode "u9" (Some "u1") (Ms 9000) user "thanks" (ContentText "thanks")
                       None None None None None None Ex.entry4) [] in
  Permutation (Client.getAllNodeIds (Client.nodes (Client.addNode node s)))
              (Client.getAllNodeIds (Client.nodes s) ++ Client.idsOf node) /\
  (Client.findNode (Client.nodes s) (parentId (root_of node)) = None ->
   Client.nodes (Client.addNode node s) = Client.nodes s ++ [node]).
Proof.
  cbv zeta.
  apply (addNode_adds_once
           (TNode (mkNode "u9" (Some "u1") (Ms 9000) user "thanks" (ContentText "thanks")
                     None None None None None None Ex.entry4) [])
           (Client.mkStore None [TNode Ex.node1 []] None [])).
  vm_compute. repeat (constructor; [simpl; intuition discriminate|]). constructor.
Defined.

(** ** The tree view's filter *)

Lemma filter_none {X : Type} (g : X -> bool) l : Forall (fun x => g x = false) l -> filter g l = [].
Proof. induction 1 as [|x l Hx _ IH]; simpl; auto. now rewrite Hx. Qed.

Lemma some_kept {X : Type} (g : X -> bool) l :
  (0 <? List.length (filter g l))%nat = existsb g l.
Proof.
  induction l as [|x l IH]; simpl; auto. destruct (g x); simpl; auto.
Qed.

Section FilterFacts.

Variable toLowerCase : string -> string.

Lemma keeps_errors q sh t : Client.keeps toLowerCase (Some "errors") q sh t = false.
Proof.
  induction t as [n kids IH] using Tree_rect_kids. cbn [Client.keeps].
  rewrite (filter_none _ kids IH). cbn [List.length Nat.ltb Nat.leb negb andb].
  destruct (negb sh && hasType system n); auto.
  assert (E : String.eqb (Client.NodeType_name (type n)) "errors" = false)
    by (destruct (type n); reflexivity).
  now rewrite E.
Qed.

(** X21. The errors filter shows nothing.  With the filter value errors,
    which the toolbar and the stats bar set, [filterNodes] returns the empty
    list for every tree, every search text and either setting of the system
    switch: no node has that type, so no node and no child matches. *)
Theorem errors_filter_shows_nothing (nodes : list Tree) (searchQuery : string)
    (showSystem : bool) :
  Client.filterNodes toLowerCase nodes (Some "errors") searchQuery showSystem = [].
Proof.
  unfold Client.filterNodes. apply filter_none.
  rewrite Forall_forall. intros t _. apply keeps_errors.
Qed.

Lemma keeps_type f t :
  Str.nonEmpty f = true ->
  Client.keeps toLowerCase (Some f) EmptyString true t = Client.holdsType f t.
Proof.
  intros Hf. induction t as [n kids IH] using Tree_rect_kids.
  cbn [Client.keeps Client.holdsType negb andb Str.nonEmpty]. rewrite Hf, some_kept.
  assert (E : existsb (Client.keeps toLowerCase (Some f) EmptyString true) kids =
              existsb (Client.holdsType f) kids).
  { induction IH as [|k kids Hk _ IHk]; simpl; auto. now rewrite Hk, IHk. }
  rewrite E. cbn [andb].
  destruct (String.eqb (Client.NodeType_name (type n)) f); simpl; auto.
  now destruct (existsb (Client.holdsType f) kids).
Qed.

(** X22. The type filter keeps the roots that lead to a match.  With a
    type filter, no search text and system nodes shown, [filterNodes] keeps
    exactly the nodes of the list that are of the type or have a node of
    the type somewhere below them, in their order. *)
Theorem type_filter_keeps_holders (nodes : list Tree) (f : string)
    (Hf : Str.nonEmpty f = true) :
  Client.filterNodes toLowerCase nodes (Some f) EmptyString true =
  filter (Client.holdsType f) nodes.
Proof.
  unfold Client.filterNodes. apply filter_ext. intros t. now apply keeps_type.
Qed.

End FilterFacts.

Lemma type_filter_keeps_holders_witness :
  let tree := snd (getNodes (rt := Ex.rt0) (watch Ex.rt0 [Ex.log3] initial)) in
  Client.filterNodes (fun s => s) tree (Some "tool_result") EmptyString true =
  filter (Client.holdsType "tool_result") tree.
Proof.
  apply (type_filter_keeps_holders (fun s => s)
           (snd (getNodes (rt := Ex.rt0) (watch Ex.rt0 [Ex.log3] initial))) "tool_result").
  reflexivity.
Defined.

(** ** Hiding system nodes *)

Lemma countIn_hidden t :
  (forall p x, In (p, x) (tree_edges t) ->
               hasType system p = false /\ hasType system x = false) ->
  Client.countIn false t =
  List.length (filter (fun n => negb (hasType system n)) (tree_nodes t)).
Proof.
  induction t as [n kids IH] using Tree_rect_kids. intros He.
  cbn [Client.countIn tree_nodes filter negb andb].
  assert (Hk : list_sum (map (Client.countIn false) kids) =
               List.length (filter (fun n => negb (hasType system n))
                              (flat_map tree_nodes kids))).
  { assert (Hsub : forall k, In k kids -> forall p x, In (p, x) (tree_edges k) ->
                     hasType system p = false /\ hasType system x = false).
    { intros k Hk p x H. apply He. cbn [tree_edges]. apply in_or_app. right.
      apply in_flat_map. eauto. }
    clear He. induction IH as [|k kids Hk _ IHk]; simpl; auto.
    rewrite filter_app, length_app, Hk, IHk; auto.
    - intros k' Hk'. apply Hsub. simpl. auto.
    - apply Hsub. simpl. auto. }
  destruct (hasType system n) eqn:Es; cbn [negb].
  - destruct kids as [|k kids]; [reflexivity|].
    destruct (He n (root_of k)) as [H _]; [cbn [tree_edges map]; simpl; auto|].
    congruence.
  - cbn [List.length]. now rewrite Hk.
Qed.

(** X23. Hiding system nodes hides them and nothing else.  On the tree the
    watcher emits, for a registry that names each node once and whose
    timestamps all parse as dates, the toolbar's count with system nodes
    hidden is the number of nodes of the tree that are not system nodes: a
    system node has no children that would vanish with it. *)
Theorem hidden_count_is_non_system {rt : Runtime} (w : SessionWatcher)
    (Hids : NoDup (map id (Map_values (nodes w))))
    (Hparse : Parsed (Map_values (nodes w))) :
  Client.countNodes (snd (getNodes w)) false =
  List.length (filter (fun n => negb (hasType system n)) (forest_nodes (snd (getNodes w)))).
Proof.
  rewrite getNodes_snapshot.
  destruct (rebuilt_tree_shape (nodes w) Hids Hparse) as (He & _).
  cbv zeta in He.
  set (tree := snapshot (fst (buildTree (nodes w))) (snd (buildTree (nodes w)))) in *.
  assert (H : forall ts, (forall t, In t ts -> In t tree) ->
            Client.countNodes ts false =
            List.length (filter (fun n => negb (hasType system n)) (forest_nodes ts))).
  { induction ts as [|t ts IH]; intros Hsub; [reflexivity|].
    unfold Client.countNodes, forest_nodes in *. cbn [map flat_map].
    change (list_sum (Client.countIn false t :: map (Client.countIn false) ts))
      with (Client.countIn false t + list_sum (map (Client.countIn false) ts)).
    rewrite filter_app, length_app, <- IH by (intros; apply Hsub; simpl; auto).
    f_equal. apply countIn_hidden. intros p x Hpx.
    destruct (He p x) as [Hd _].
    { unfold forest_edges. apply in_flat_map. exists t. split; auto. apply Hsub. simpl. auto. }
    unfold isDisplayEdge, hasType, isToolFamily in *.
    destruct (type p), (type x); simpl in *; try discriminate; auto. }
  apply H. auto.
Qed.

Lemma hidden_count_is_non_system_witness :
  let tree := snd (getNodes (rt := Ex.rt0) Ex.command_watcher) in
  map (fun n => (id n, type n)) (forest_nodes tree) =
    [("u0", system); ("u1", user); ("a1-text", assistant);
     ("a1-thinking", thinking); ("a1-tool-abc", tool_call)] /\
  Client.countNodes tree false =
  List.length (filter (fun n => negb (hasType system n)) (forest_nodes tree)).
Proof.
  split; [vm_compute; reflexivity|].
  apply (hidden_count_is_non_system (rt := Ex.rt0) Ex.command_watcher).
  - vm_compute. repeat (constructor; [simpl; intuition discriminate|]). constructor.
  - vm_compute. intros n [<-|[<-|[<-|[<-|[<-|[]]]]]]; reflexivity.
Defined.

(** ** From the server to the stores *)

Lemma apply_inits sessionFile out :
  forall s tree,
    Str.nonEmpty sessionFile = true ->
    Forall (fun m => exists t, m = Server.Init t sessionFile) out ->
    last_opt out = Some (Server.Init tree sessionFile) ->
    Client.nodes (fold_left (fun s m => Client.onMessage m s) out s) = tree /\
    Client.currentSessionFile (fold_left (fun s m => Client.onMessage m s) out s) =
    Some sessionFile.
Proof.
  induction out as [|m out IH]; intros s tree Hf Hall Hlast; [discriminate|].
  inversion Hall as [|? ? (t & ->) Hout]; subst. cbn [fold_left].
  destruct out as [|m' out'].
  - cbn [last_opt] in Hlast. injection Hlast as <-.
    cbn [fold_left Client.onMessage]. rewrite Hf. auto.
  - apply IH; auto.
Qed.

Section Agree.

Variable rt : Runtime.

Lemma serve_changes_inits f changes :
  forall w,
    Forall (fun m => exists t, m = Server.Init t f)
           (snd (Server.serve rt (map Server.FileChange changes) (Some (f, w)))).
Proof.
  induction changes as [|c changes IH]; intros w; cbn [map Server.serve]; [constructor|].
  cbn [Server.handle Server.fileChange]. destruct c as [c|].
  - destruct (readNewContent rt c w) as [w1 e].
    specialize (IH w1).
    destruct (Server.serve rt (map Server.FileChange changes) (Some (f, w1))) as [s2 out2].
    cbn [snd] in *. destruct e as [t|]; simpl; auto. constructor; eauto.
  - specialize (IH w).
    destruct (Server.serve rt (map Server.FileChange changes) (Some (f, w))) as [s2 out2].
    cbn [snd] in *. exact IH.
Qed.

(** X24. Clients agree.  After a request to watch a file whose first read
    succeeds, and any number of changes of that file, a store that applied
    every broadcast message in order and a store that applied only the
    message sent on connecting hold the same tree and the same session
    file, whatever they held before. *)
Theorem clients_agree (sessionFile content : string) (changes : list (option string))
    (s0 : Server.State) (early late : Client.WorkflowStore)
    (Hfile : Str.nonEmpty sessionFile = true) :
  let events := Server.PostWatch sessionFile (Some content)
                :: map Server.FileChange changes in
  let broadcast := snd (Server.serve rt events s0) in
  let all_along := fold_left (fun s m => Client.onMessage m s) broadcast early in
  match snd (Server.connection rt (fst (Server.serve rt events s0))) with
  | Some m =>
      Client.nodes (Client.onMessage m late) = Client.nodes all_along /\
      Client.currentSessionFile (Client.onMessage m late) =
      Client.currentSessionFile all_along
  | None => False
  end.
Proof.
  cbv zeta. cbn [Server.serve Server.handle]. unfold Server.postWatch.
  rewrite Hfile. cbn [negb].
  assert (Hr : snd (getNodes (fst (readFile rt content initial))) =
               snd (readFile rt content initial)).
  { unfold readFile.
    destruct (fold_left (ingestLine rt) (readLines content)
                (nodes initial, processedLines initial, false)) as [[n p] h].
    apply getNodes_tree_of_keys. apply getNodes_keys. }
  destruct (readFile rt content initial) as [w tree]. cbn [fst snd] in Hr.
  pose proof (serve_changes rt sessionFile changes w tree Hr) as H.
  pose proof (serve_changes_inits sessionFile changes w) as Hall.
  destruct (Server.serve rt (map Server.FileChange changes) (Some (sessionFile, w)))
    as [s2 out2]. cbn [fst snd app] in *.
  assert (Hall' : Forall (fun m => exists t, m = Server.Init t sessionFile)
                         (Server.Init tree sessionFile :: out2)) by (constructor; eauto).
  destruct (last_opt (Server.Init tree sessionFile :: out2)) as [m|] eqn:El;
    [|apply last_opt_None in El; discriminate].
  rewrite H.
  assert (Hm : exists t, m = Server.Init t sessionFile).
  { apply last_opt_In in El. rewrite Forall_forall in Hall'. now apply Hall'. }
  destruct Hm as (t & ->).
  destruct (apply_inits sessionFile _ early t Hfile Hall' El) as [E1 E2].
  rewrite E1, E2. cbn [Client.onMessage]. rewrite Hfile. auto.
Qed.

End Agree.

Lemma clients_agree_witness :
  let events := Server.PostWatch "session.jsonl" (Some Ex.line1)
                :: map Server.FileChange [Some Ex.log3; None] in
  let broadcast := snd (Server.serve Ex.rt0 events None) in
  let early := Client.mkStore None [] None [] in
  let late := Client.mkStore (Some "other.jsonl") [TNode Ex.node1 []] None [] in
  let all_along := fold_left (fun s m => Client.onMessage m s) broadcast early in
  match snd (Server.connection Ex.rt0 (fst (Server.serve Ex.rt0 events None))) with
  | Some m =>
      Client.nodes (Client.onMessage m late) = Client.nodes all_along /\
      Client.currentSessionFile (Client.onMessage m late) =
      Client.currentSessionFile all_along
  | None => False
  end.
Proof.
  apply (clients_agree Ex.rt0 "session.jsonl" Ex.line1 [Some Ex.log3; None] None
           (Client.mkStore None [] None [])
           (Client.mkStore (Some "other.jsonl") [TNode Ex.node1 []] None [])).
  reflexivity.
Defined.

(** * Where the nodes come from *)

Lemma Map_set_values reg n x :
  In x (Map_values (Map_set reg n)) -> x = n \/ In x (Map_values reg).
Proof.
  unfold Map_values. induction reg as [|e reg IH]; simpl.
  - intros [H|[]]; auto.
  - destruct (sameNode (fst e) n); simpl; intros [H|H]; auto.
    destruct (IH H); auto.
Qed.

Lemma fold_Map_set_values l :
  forall reg x, In x (Map_values (fold_left Map_set l reg)) ->
                In x l \/ In x (Map_values reg).
Proof.
  induction l as [|n l IH]; intros reg x H; simpl in *; auto.
  destruct (IH _ _ H) as [H1|H1]; auto.
  apply Map_set_values in H1. destruct H1 as [->|H1]; auto.
Qed.

Section Provenance.

Variable rt : Runtime.

Lemma createUserNode_raw e n : createUserNode rt e = Some n -> raw n = e.
Proof.
  assert (Hreg : forall b mc, regularUserNode rt e b mc = Some n -> raw n = e).
  { intros b mc H. unfold regularUserNode in H.
    destruct (skip (detectSystemMessage rt _)); [discriminate|].
    now injection H as <-. }
  unfold createUserNode. destruct e as [b mc| | |]; try discriminate.
  destruct mc as [| | | |[|first l]|]; try apply Hreg.
  destruct (isToolResultItem first); [|apply Hreg].
  intros H. now injection H as <-.
Qed.

Lemma createAssistantNodes_raw e n : In n (createAssistantNodes rt e) -> raw n = e.
Proof.
  unfold createAssistantNodes. destruct e as [|b [blocks|] tur| |]; try (intros []).
  intros H. apply in_flat_map in H. destruct H as (blk & _ & H).
  destruct blk as [th|tx|i name input|a c ie]; cbn [assistantNode] in H.
  - destruct H as [<-|[]]. reflexivity.
  - destruct H as [<-|[]]. reflexivity.
  - destruct H as [<-|[]]. unfold createToolNode.
    destruct (String.eqb name "Task"); [reflexivity|].
    destruct (String.eqb name "Skill"); [reflexivity|].
    destruct (String.eqb name "SlashCommand"); reflexivity.
  - destruct H.
Qed.

Lemma processLine_values line reg x :
  In x (Map_values (fst (processLine rt line reg))) ->
  In x (Map_values reg) \/
  exists e, JSON_parse_entry rt line = Some e /\ raw x = e /\
            (createUserNode rt e = Some x \/ In x (createAssistantNodes rt e)).
Proof.
  unfold processLine. destruct (JSON_parse_entry rt line) as [e|]; auto.
  unfold processEntry. destruct e as [b mc|b blocks tur|m|u m]; cbn [fst]; auto.
  - destruct (createUserNode rt (UserMessageEntry b mc)) as [n|] eqn:E; cbn [fst]; auto.
    intros H. apply Map_set_values in H. destruct H as [->|H]; auto.
    right. exists (UserMessageEntry b mc). split; auto. split; auto.
    now apply createUserNode_raw.
  - intros H. apply fold_Map_set_values in H. destruct H as [H|H]; auto.
    right. exists (AssistantMessageEntry b blocks tur). split; auto. split; auto.
    now apply createAssistantNodes_raw.
Qed.

Lemma ingest_values lines :
  forall s x,
    In x (Map_values (fst (fst (fold_left (ingestLine rt) lines s)))) ->
    In x (Map_values (fst (fst s))) \/
    exists line e, In line lines /\ isValidJsonLine rt line = true /\
      JSON_parse_entry rt line = Some e /\ raw x = e /\
      (createUserNode rt e = Some x \/ In x (createAssistantNodes rt e)).
Proof.
  induction lines as [|l lines IH]; intros s x H; cbn [fold_left] in H; auto.
  destruct (IH _ _ H) as [H1|(line & e & H1 & H2)].
  - destruct s as [[n p] h]. unfold ingestLine in H1. cbn [fst snd] in *.
    destruct (isValidJsonLine rt l) eqn:Ev; auto.
    destruct (negb (Set_has p (hashLine rt l))); auto.
    pose proof (processLine_values l n x) as Hp.
    destruct (processLine rt l n) as [n' r]. cbn [fst snd] in *.
    destruct (Hp H1) as [Hp1|(e & E1 & E2)]; auto.
    right. exists l, e. simpl. auto.
  - right. exists line, e. simpl. auto.
Qed.

(** X25. Every node comes from a line.  After [readFile], a node of the
    registry was in the registry before, or was built by [createUserNode]
    or [createAssistantNodes] from the record of a valid line of the file,
    and its [raw] field is that record. *)
Theorem registry_provenance (content : string) (w : SessionWatcher) (n : ConversationNode)
    (Hin : In n (Map_values (nodes (fst (readFile rt content w))))) :
  In n (Map_values (nodes w)) \/
  exists line e,
    In line (readLines content) /\ isValidJsonLine rt line = true /\
    JSON_parse_entry rt line = Some e /\ raw n = e /\
    (createUserNode rt e = Some n \/ In n (createAssistantNodes rt e)).
Proof.
  unfold readFile in Hin.
  pose proof (ingest_values (readLines content) (nodes w, processedLines w, false) n) as H.
  destruct (fold_left (ingestLine rt) (readLines content)
              (nodes w, processedLines w, false)) as [[reg p] h].
  rewrite getNodes_keys in Hin. cbn [nodes fst] in *. auto.
Qed.

(** X26. A watch request whose first read fails leaves an empty watcher.
    The response is an error and nothing is broadcast, whatever was watched
    before; the failed watcher stays current, so a client that connects
    next is sent an init message with an empty tree for the new file. *)
Theorem failed_watch_leaves_empty_watcher (sessionFile : string) (s0 : Server.State)
    (Hfile : Str.nonEmpty sessionFile = true) :
  let r := Server.postWatch rt sessionFile None s0 in
  snd r = 500%Z /\ snd (fst r) = [] /\
  snd (Server.connection rt (fst (fst r))) = Some (Server.Init [] sessionFile).
Proof.
  cbv zeta. unfold Server.postWatch. rewrite Hfile. cbn [negb fst snd].
  repeat split.
Qed.

End Provenance.

Lemma registry_provenance_witness :
  In Ex.node1 (Map_values (nodes initial)) \/
  exists line e,
    In line (readLines Ex.log3) /\ isValidJsonLine Ex.rt0 line = true /\
    JSON_parse_entry Ex.rt0 line = Some e /\ raw Ex.node1 = e /\
    (createUserNode Ex.rt0 e = Some Ex.node1 \/ In Ex.node1 (createAssistantNodes Ex.rt0 e)).
Proof.
  apply (registry_provenance Ex.rt0 Ex.log3 initial Ex.node1).
  vm_compute. left. reflexivity.
Defined.

Lemma failed_watch_leaves_empty_watcher_witness :
  let r := Server.postWatch Ex.rt0 "missing.jsonl" None
             (Some ("session.jsonl", fst (readFile Ex.rt0 Ex.log3 initial))) in
  snd r = 500%Z /\ snd (fst r) = [] /\
  snd (Server.connection Ex.rt0 (fst (fst r))) = Some (Server.Init [] "missing.jsonl").
Proof.
  apply (failed_watch_leaves_empty_watcher Ex.rt0 "missing.jsonl"
           (Some ("session.jsonl", fst (readFile Ex.rt0 Ex.log3 initial)))).
  reflexivity.
Defined.

(** * The session list's metadata *)

Section MetadataFacts.

Variable rt : Runtime.
Variable Date_getTime : option JSON -> option Z.

Lemma tallyLine_count s line :
  SessionManager.messageCount (SessionManager.tallyLine rt Date_getTime s line) =
  SessionManager.messageCount s +
  (if SessionManager.isUserRecord rt line then 1 else 0).
Proof.
  unfold SessionManager.tallyLine, SessionManager.isUserRecord.
  destruct (JSON_parse rt line) as [entry|]; [|lia].
  destruct entry as [| | | |items|ms]; cbn [SessionManager.has_key]; try lia.
  - cbn [member]. lia.
  - set (s1 := if existsb _ ms then _ else s).
    assert (E1 : SessionManager.messageCount s1 = SessionManager.messageCount s).
    { unfold s1. destruct (existsb _ ms); auto.
      destruct (Date_getTime _); reflexivity. }
    destruct (member "type" (JObj ms)) as [[| | |t| |]|]; try lia.
    destruct (String.eqb t "user") eqn:Et.
    + cbn [SessionManager.firstUserMessage].
      destruct (Str.nonEmpty (SessionManager.firstUserMessage s1));
        [cbn [SessionManager.messageCount]; lia|].
      destruct (member "message" (JObj ms)) as [msg|];
        [|cbn [SessionManager.messageCount]; lia].
      destruct (SessionManager.has_key "content" msg) as [[|]|];
        try (cbn [SessionManager.messageCount]; lia).
      destruct (member "content" msg) as [[| | |c| |]|];
        try (cbn [SessionManager.messageCount]; lia).
      destruct (SessionManager.isBoilerplateMessage rt c);
        cbn [SessionManager.messageCount]; lia.
    + destruct (String.eqb t "assistant"); [|lia].
      destruct (member "message" (JObj ms)) as [msg|]; [|lia].
      destruct (negb (truthy (Some msg))); [lia|].
      destruct (SessionManager.has_key "content" msg) as [[|]|]; try lia.
      destruct (member "content" msg) as [[| | | |blocks|]|]; try lia.
      destruct (existsb SessionManager.isNull blocks);
        cbn [SessionManager.messageCount]; lia.
Qed.

Lemma tally_count lines :
  forall s,
    SessionManager.messageCount (fold_left (SessionManager.tallyLine rt Date_getTime) lines s) =
    SessionManager.messageCount s +
    List.length (filter (SessionManager.isUserRecord rt) lines).
Proof.
  induction lines as [|l lines IH]; intros s; cbn [fold_left filter]; [simpl; lia|].
  rewrite IH, tallyLine_count.
  destruct (SessionManager.isUserRecord rt l); simpl; lia.
Qed.

(** X27. The message count of the session list counts records, not
    messages: it is the number of non-blank lines that parse to an object
    whose type is user, whatever the record holds, so tool results and
    dropped boilerplate are counted too.  A file that cannot be read counts
    as zero. *)
Theorem message_count_counts_user_records (content : option string) :
  fst (fst (fst (SessionManager.getSessionMetadata rt Date_getTime content))) =
  match content with
  | Some text => List.length (filter (SessionManager.isUserRecord rt) (readLines text))
  | None => 0
  end.
Proof.
  destruct content as [text|]; [|reflexivity].
  unfold SessionManager.getSessionMetadata. cbn [fst].
  rewrite tally_count. reflexivity.
Qed.

Lemma tallyLine_first s line :
  SessionManager.firstUserMessage (SessionManager.tallyLine rt Date_getTime s line) =
  SessionManager.firstUserMessage s \/
  SessionManager.first_from rt [line]
    (SessionManager.firstUserMessage (SessionManager.tallyLine rt Date_getTime s line)).
Proof.
  unfold SessionManager.tallyLine.
  destruct (JSON_parse rt line) as [entry|] eqn:Ep; auto.
  destruct entry as [| | | |items|ms]; cbn [SessionManager.has_key]; auto.
  set (s1 := if existsb _ ms then _ else s).
  assert (E1 : SessionManager.firstUserMessage s1 = SessionManager.firstUserMessage s).
  { unfold s1. destruct (existsb _ ms); auto.
    destruct (Date_getTime _); reflexivity. }
  destruct (member "type" (JObj ms)) as [[| | |t| |]|] eqn:Et; auto.
  destruct (String.eqb t "user") eqn:Eu.
  + apply String.eqb_eq in Eu. subst t.
    cbn [SessionManager.firstUserMessage].
    destruct (Str.nonEmpty (SessionManager.firstUserMessage s1)); auto.
    destruct (member "message" (JObj ms)) as [msg|] eqn:Em; auto.
    destruct (SessionManager.has_key "content" msg) as [[|]|]; auto.
    destruct (member "content" msg) as [[| | |c| |]|] eqn:Ec; auto.
    destruct (SessionManager.isBoilerplateMessage rt c) eqn:Eb; auto.
    right. cbn [SessionManager.firstUserMessage].
    exists line, ms, msg, c. simpl. repeat split; auto.
  + destruct (String.eqb t "assistant"); auto.
    destruct (member "message" (JObj ms)) as [msg|]; auto.
    destruct (negb (truthy (Some msg))); auto.
    destruct (SessionManager.has_key "content" msg) as [[|]|]; auto.
    destruct (member "content" msg) as [[| | | |blocks|]|]; auto.
    destruct (existsb SessionManager.isNull blocks); auto.
Qed.

Lemma first_from_more lines lines' fm :
  (forall l, In l lines -> In l lines') ->
  SessionManager.first_from rt lines fm -> SessionManager.first_from rt lines' fm.
Proof.
  intros Hsub (line & ms & msg & c & H & Hrest). exists line, ms, msg, c. auto.
Qed.

Lemma tally_first lines0 lines :
  forall s,
    (forall l, In l lines -> In l lines0) ->
    SessionManager.firstUserMessage s = EmptyString \/
      SessionManager.first_from rt lines0 (SessionManager.firstUserMessage s) ->
    let s' := fold_left (SessionManager.tallyLine rt Date_getTime) lines s in
    SessionManager.firstUserMessage s' = EmptyString \/
    SessionManager.first_from rt lines0 (SessionManager.firstUserMessage s').
Proof.
  induction lines as [|l lines IH]; intros s Hsub H; cbv zeta; cbn [fold_left]; auto.
  apply IH; [intros; apply Hsub; simpl; auto|].
  destruct (tallyLine_first s l) as [E|E].
  - now rewrite E.
  - right. apply (first_from_more [l]); auto.
    intros x [<-|[]]. apply Hsub. simpl. auto.
Qed.

(** A text the session list takes for a message is one the watcher shows. *)
Lemma kept_when_not_boilerplate c :
  SessionManager.isBoilerplateMessage rt c = false ->
  skip (detectSystemMessage rt c) = false.
Proof.
  unfold SessionManager.isBoilerplateMessage, detectSystemMessage.
  destruct (Str.includes c caveat); [discriminate|].
  destruct (Str.includes c "<local-command-stdout>"); [discriminate|].
  destruct (Str.includes c "<command-name>" && Str.includes c "<command-message>");
    [discriminate|].
  destruct (Str.includes c "<command-message>" && Str.includes c "is running"); auto.
  destruct (Str.startsWith c skill_prefix); auto.
  destruct (skill_prompt rt c) as [info|] eqn:E; auto.
  intros Hj. destruct (skip info) eqn:Es; auto.
  rewrite (skill_skip_is_caveat rt c info E Es) in Hj. discriminate.
Qed.

Lemma clean_length c : String.length (SessionManager.clean c) <= 150.
Proof.
  unfold SessionManager.clean, Str.slice0. cbn [Z.ltb Z.compare].
  rewrite length_substring0. lia.
Qed.

(** X28. The first message of the session list is short and is no
    boilerplate: it has at most 150 characters, and it is empty or the
    cleaned text of a user record of the file whose content is a string
    that [isBoilerplateMessage] rejects, a text the watcher does not
    drop either. *)
Theorem first_message_is_clean (text : string) :
  let fm := snd (fst (SessionManager.getSessionMetadata rt Date_getTime (Some text))) in
  String.length fm <= 150 /\
  (fm = EmptyString \/
   (SessionManager.first_from rt (readLines text) fm /\
    exists c, fm = SessionManager.clean c /\ skip (detectSystemMessage rt c) = false)).
Proof.
  cbv zeta. unfold SessionManager.getSessionMetadata. cbn [fst snd].
  fold (readLines text).
  destruct (tally_first (readLines text) (readLines text)
              (SessionManager.mkTally EmptyString 0 0 None None)) as [E|E]; auto.
  - rewrite E. simpl. split; [lia|auto].
  - split.
    + destruct E as (line & ms & msg & c & _ & _ & _ & _ & _ & _ & ->). apply clean_length.
    + right. split; auto.
      destruct E as (line & ms & msg & c & _ & _ & _ & _ & _ & Hb & ->).
      exists c. split; auto.
      now apply kept_when_not_boilerplate.
Qed.

End MetadataFacts.

Section MoreFacts.

Variable rt : Runtime.

Lemma getToolSummary_length name input : String.length (getToolSummary rt name input) <= 60.
Proof.
  assert (H : forall t, String.length (truncate t 60) <= 60).
  { intros t. pose proof (truncate_length t 60). lia. }
  unfold getToolSummary.
  repeat match goal with
         | |- context [if ?b then _ else _] => destruct b; [try apply H|]
         end; try apply H.
  simpl. lia.
Qed.

(** X29. What an assistant record gives, and how long its summaries are.
    Every node [createAssistantNodes] returns is a thinking node, an
    assistant response or a tool invocation, never a user, system or
    tool-result node.  The summary of a thinking node or a response has at
    most 100 characters, that of an agent at most 80; the summary of a tool
    call is the tool's name, a colon, a space and at most 60 characters.
    (The summary of a skill or a command is its name, of any length.) *)
Theorem assistant_summaries_bounded (entry : ConversationEntry) (n : ConversationNode)
    (Hin : In n (createAssistantNodes rt entry)) :
  match type n with
  | thinking | assistant => String.length (summary n) <= 100
  | agent => String.length (summary n) <= 80
  | tool_call =>
      exists name rest,
        toolName n = Some name /\ summary n = name +++ ": " +++ rest /\
        String.length rest <= 60
  | skill => skillName n = Some (summary n)
  | command => commandName n = Some (summary n)
  | user | system | tool_result => False
  end.
Proof.
  unfold createAssistantNodes in Hin.
  destruct entry as [|b [blocks|] tur| |]; try destruct Hin.
  apply in_flat_map in Hin. destruct Hin as (blk & _ & H).
  destruct blk as [th|tx|i name input|a c ie]; cbn [assistantNode] in H.
  - destruct H as [<-|[]]. cbn [type summary].
    pose proof (truncate_length th 100). lia.
  - destruct H as [<-|[]]. cbn [type summary].
    pose proof (truncate_length tx 100). lia.
  - destruct H as [<-|[]]. unfold createToolNode.
    destruct (String.eqb name "Task").
    + cbn [type summary]. match goal with |- String.length (truncate ?t 80) <= 80 =>
        pose proof (truncate_length t 80) end. lia.
    + destruct (String.eqb name "Skill"); [reflexivity|].
      destruct (String.eqb name "SlashCommand"); [reflexivity|].
      cbn [type summary toolName]. exists name, (getToolSummary rt name input).
      repeat split. apply getToolSummary_length.
  - destruct H.
Qed.

End MoreFacts.

Lemma assistant_summaries_bounded_witness :
  let n := mkNode "a1-text" (Some "u1") (Ms 2000) assistant "I will run the tests"
             (ContentOfBlock (TextBlock "I will run the tests"))
             None None None None None None Ex.entry2 in
  String.length (summary n) <= 100.
Proof.
  apply (assistant_summaries_bounded Ex.rt0 Ex.entry2
           (mkNode "a1-text" (Some "u1") (Ms 2000) assistant "I will run the tests"
              (ContentOfBlock (TextBlock "I will run the tests"))
              None None None None None None Ex.entry2)).
  vm_compute. right. right. left. reflexivity.
Defined.
